(* ===== verification/_CoqProject ===== *)
-Q . S2P
Prelude.v
Models.v
Rules.v
Database.v
Uuid.v
Repositories.v
OrmRebooking.v
RebookingInvariants.v
RebookingOutcome.v
AirlineService.v
SqlRebooking.v
SqlRepositories.v
SqlRows.v
Fixtures.v
Locking.v
PyFloat.v
PyVal.v
JsonFixtures.v
Effects.v
Sessions.v
OrmSession.v
OrmConcurrency.v
SqlConcurrency.v
VerifyLater.v
LoadGenerator.v
LoadProperties.v
LoadSummary.v
SummaryProperties.v
LoadServices.v
LoadRuns.v
Report.v
JobService.v
JobProperties.v
JobRequests.v
Pydantic.v
ChatRouter.v
RedisStore.v
Config.v
RabbitMQ.v
JobSystem.v
WorkerPool.v
AgentState.v
AgentNodes.v
OpenRouter.v
ReportTables.v
FakeLlm.v
Application.v
AgentGraph.v
Simulation.v
PyObject.v
RawNodes.v
RestoredStates.v
ChatProperties.v
BenchChat.v
ChatFixtures.v
AgentProperties.v
RestoredRuns.v
AgentSafety.v
AgentSystem.v
AgentThreads.v
AgentSession.v
AgentHost.v
ConversationSystem.v
SqlFixtures.v
ConcurrencyFixtures.v
AgentFixtures.v
ViewFixtures.v
LlmFixtures.v
BenchFixtures.v
JobFixtures.v
PoolFixtures.v
ConversationFixtures.v
Witnesses.v
