(* ===== verification/Prelude.v ===== *)
(** * The LangGraph implementation of "agents at scale", verified

    The program ([src/langgraph-python/app]) lets a customer change a flight by
    talking to an agent.  A chat message reaches [jobs/router.py], which checks
    it and makes it a job: [jobs/service.py] validates it, records it in Redis ([platform/redis.py]), queues it on RabbitMQ
    ([platform/rabbitmq.py]) and, in its workers, takes the conversation's lock,
    runs the agent and settles the delivery, retrying with a backoff and
    dead-lettering what keeps failing.  The agent ([agent/*.py]) is a LangGraph
    state graph: it understands the request, reads the reservation, searches
    alternatives and credits, asks the user, validates the choice, executes and
    verifies it, asking a model through [platform/llm/openrouter.py].  The airline ([airline/*.py]) is a service over repositories
    on PostgreSQL; its rebooking transaction is the one place that writes.
    [main.py] opens all of it and closes it again.  A load generator
    ([src/bench]) drives the whole against a fake model
    ([src/tests/integration/fake-llm]) and reports the capacity reached.

    ** Files

    The library has one file per component, from the bottom up.

    - [Prelude]: exceptions and results ([Res], Python's [raise] and
      [isinstance]), automation, stable sorting, lemmas on lists.

    The airline:
    - [Models]: [airline/models.py] and [airline/schemas.py]: enumerations,
      entities and schemas as records.
    - [Rules]: the function [validate_rebooking_selection] of
      [airline/service.py] and its declarative counterpart [Eligible].
    - [Database]: tables as lists of rows, queries and updates, the declared
      keys [schema_ok], transactions with rollback and a record of row locks.
    - [Uuid]: [str(UUID)] and its order, which the lock order depends on.
    - [Repositories]: the SQLAlchemy read repositories.
    - [OrmRebooking]: [airline/repository/rebooking.py], statement by
      statement, and the effect [rebooked] it implements.
    - [RebookingInvariants], [RebookingOutcome]: histories of rebookings, and
      what holds after one.
    - [AirlineService]: the class [Service]: search, details, credits, history,
      validation and execution, against the laws of its repositories
      ([ReadLaws], [RebookingLaws]), which the SQLAlchemy variant satisfies.
    - [SqlRebooking], [SqlRepositories]: the asyncpg variant
      ([airline/repository/sql]), statement by statement, its equivalence with
      the SQLAlchemy variant and its proof of the same laws.
    - [SqlRows]: the select lists of that variant with the columns [rows.py]
      and the repositories read from them.
    - [Locking]: concurrent rebookings as sequences of lock requests.
    - [Sessions]: the statements of a transaction and PostgreSQL at READ
      COMMITTED with any number of sessions; what makes their interleavings
      serializable ([Follows]).  [OrmSession]: the SQLAlchemy rebooking as the
      statements it sends; [OrmConcurrency], [SqlConcurrency]: rebookings of
      either variant that run at the same time; [VerifyLater]: their
      verification, among further rebookings.

    Jobs:
    - [PyVal]: Python values and strings ([strip], truth, [+ 1], [int]).
    - [Effects]: programs over fallible awaited operations ([Prog]) with [try],
      [except], [finally]; [wp] speaks of all runs, [run] and [trace] of one.
    - [JobService]: [jobs/service.py], every method of [JobService].
    - [JobProperties], [JobRequests]: what holds of every delivery, whatever
      fails; validation and publication.
    - [RedisStore]: [platform/redis.py] as Redis commands, and the abstract
      store they refine; [RabbitMQ]: [platform/rabbitmq.py], the queue topology
      and the envelope; [Config]: [config.py].
    - [JobSystem]: the worker on that store and broker ([main.py]): the life of
      one job from its publication to its last queue.
    - [WorkerPool]: any number of workers and endpoints on one store, their
      operations interleaved.
    - [Pydantic]: what the program relies on in a pydantic model, as a class
      with its laws; [ChatRouter]: [jobs/router.py], the request models, their
      validators, their dump and the handler; [ChatProperties]: what the
      endpoint accepts, what the worker then makes of it, and whose
      conversation it is.
    - [Application]: [main.py] and [platform/postgres.py]: what is opened,
      checked and closed, in which order.

    The agent:
    - [AgentState]: [agent/state.py] and [agent/nodes/ports.py];
      [AgentNodes]: the nodes; [AgentGraph]: [agent/graph.py] as data with the
      engine that executes it, and [agent/runner.py].
    - [AgentProperties]: the abstract conversation [Turn] and its refinement;
      [AgentSafety]: what follows for executions, reports and questions.
    - [AgentSystem]: the agent on the airline service and its database.
    - [AgentThreads]: [agent/runner.py] on threads whose checkpoints survive
      from call to call, with pauses and resumptions, and their refinement of
      the graph run; [AgentSession]: what one call of the runner does;
      [AgentHost]: any calls on any threads over the airline's database.
    - [Simulation]: the same program over two representations of its data;
      [PyObject]: the Python objects behind the records, as instances or as the
      plain dicts a checkpointer restores; [RawNodes]: every node on objects,
      with the tests, attribute accesses and revalidations of the source, and
      the engine over them; [RestoredStates], [RestoredRuns]: nodes and whole
      invocations on objects simulate those on records.
    - [ConversationSystem]: the worker with that agent as its runner: one
      delivery from the broker's message to the database and the job's status.
    - [OpenRouter]: [platform/llm/openrouter.py] and [agent/prompts.py], the
      model client behind the port of the language nodes; [FakeLlm]: the fake
      model of the integration tests, as the other end of that client.

    The benchmark:
    - [PyFloat]: binary64 rounding of rationals, Python's [round] and [fmean].
    - [LoadGenerator]: [bench/loadgen.py]: ids, shards, conversations, virtual
      users, the status watcher, draining and timings; [LoadProperties].
    - [LoadSummary]: percentiles and the statistics of a level;
      [SummaryProperties].  [LoadServices]: the samples of the containers and
      the services table.  [LoadRuns]: the samplers, the protocol of the worker
      processes, a level and the sequence of levels.  [Report],
      [ReportTables]: [bench/report.py], capacity and the tables it prints, and
      the request of [bench/openrouter_usage.py].
    - [BenchChat]: the load generator's requests at the endpoint.

    [Fixtures], [SqlFixtures], [ConcurrencyFixtures], [JobFixtures], [PoolFixtures], [AgentFixtures], [ChatFixtures],
    [ViewFixtures], [LlmFixtures], [BenchFixtures], [ConversationFixtures] and [Witnesses] hold concrete databases,
    jobs, users, requests and runs, on which the theorems are applied;
    [JsonFixtures] a JSON codec for them.

    ** What the theorems show

    - The rule check accepts exactly the eligible selections, at the right
      price, and rejects with one class of exception (Rules).
    - [execute] refines one atomic [rebooked] step or does nothing; along every
      history seats are conserved, no fare is oversold, no credit overdrawn,
      and the money reconciles with the change log; a repeated execution is
      refused; a committed one is verified (OrmRebooking, RebookingInvariants,
      RebookingOutcome).
    - However the statements of concurrent rebookings interleave, failures and
      lost connections included, what is committed is what the committed ones
      do one after the other in the order they ended: in the SQLAlchemy variant
      for requests about different reservations, in the asyncpg variant for
      different segments.  Locks are taken in one global order, so the former
      never deadlock and all of them can always end; no interleaving is
      infinite (OrmConcurrency, SqlConcurrency, Locking, Sessions).  Once it has
      committed, a rebooking is verified at every later moment, whatever the
      others do, even between the two reads of [verify] (VerifyLater).
    - A search lists exactly the qualifying fares; what it offers, the rules
      accept as soon as status, currency and payment are right
      (AirlineService); all of it with either data access variant, whose
      transactions have the same effect, but for a fare that was withdrawn (SqlRebooking, SqlRepositories) and
      whose columns are read back to what was selected (SqlRows).
    - With any number of workers, the agent of one conversation runs once at a
      time unless a delivery outlives its lock, or one job was under way twice
      past its lock, which both deliveries share; of any requests with one
      idempotency key one queues its job (WorkerPool).
    - Every delivery is settled, but for one whose attempt is not a number; the agent runs at most once per delivery, under
      the lock; retries are bounded and back off; a failing job ends in the dead
      queue after [max_attempts] attempts and a recovering one with its status
      (JobProperties, JobSystem, RabbitMQ); the Redis commands refine the
      abstract store, and the lock excludes (RedisStore).
    - Every run of the graph is a [Turn]; it ends; it executes only what was
      offered, confirmed and validated, at most once, and reports it
      truthfully; on the database it rebooks exactly that or nothing
      (AgentProperties, AgentSafety, AgentSystem).
    - Pausing at a question and resuming is invisible to the ports; over any
      sequence of messages and answers on any threads, with a checkpointer that
      may fail, an answer rebooks exactly what it confirms of the options of its
      own question, or nothing; a delivered job changes the database only so,
      and its final status, with its answer, tells what became of it: completed
      after the one rebooking or a decline, waiting again after a refused
      selection, failed or retrying with nothing changed, or after a rebooking
      whose checkpoint could not be saved (AgentThreads, AgentHost,
      ConversationSystem).
    - Whichever values of a state the checkpointer restores as plain dicts, an
      answer or a new message does what it does on instances: the same
      operations, effects, exceptions and result (RestoredStates,
      RestoredRuns).
    - The endpoint accepts exactly the bodies of its contract and always
      replies; every job it queues is accepted by the worker, which makes the
      one call the client asked for; the dump of a request validates back to it
      (ChatRouter, ChatProperties).
    - A completion is one request, returns the document of any response that has
      one and fails only when there is none, or as the client or the status does; an
      evaluation of the client ranks only what it was asked about, so that the
      evaluation node accepts it; what the fake model answers is accepted too
      (OpenRouter, FakeLlm).
    - However start, service or stop fail, every client that is held is closed,
      once and after the worker that uses it, unless a close itself raises; connection bounds hold for any environment
      (Application, Config).
    - The shards of the load generator share the seeded bookings without overlap
      and its conversations follow one course; the percentiles are ordered
      values of the sample in spite of floating point, the counts of a summary
      add up, the services table has a row for exactly the services seen, and capacity is the largest level up to which every level meets
      the limits (LoadProperties, SummaryProperties, LoadServices, Report, BenchChat).
      A worker process answers the levels it is sent one by one with the
      conversations of its users, a level summarizes exactly what its processes
      replied, the results file holds all levels so far after each one and the
      processes are stopped however the levels end; every row of a printed table
      has as many cells as its header (LoadRuns, ReportTables).
    - Some theorems state what goes wrong: an envelope with a malformed attempt
      is never settled, a failing ack reports a completed job as failed, a null
      [resume] is dispatched as one, retries are never given back to a session,
      two overlapping rebookings of one reservation lose an adjustment of its
      total, a job delivered twice frees the lock of its other delivery,
      two asyncpg rebookings can deadlock, the asyncpg variant rebooks a segment
      whose fare is no longer in the table without giving its seats back, two users can share a thread, a
      broker connection is lost when its first declaration fails, a committed
      rebooking is reported failed when its checkpoint cannot be saved, one
      unexpected row of [docker stats] ends the sampling of the containers.

    ** Modelling decisions

    - A coroutine is a [Prog]: each [await] of a client, a port or the clock is
      an operation that may return anything of its type or raise.  Theorems in
      terms of [wp] hold for all outcomes; those in terms of [run] for the
      environment they name.  Cancellation and logging are left out.
    - Values of pydantic models are records, and in RawNodes to RestoredRuns
      also instances or dicts of their fields; what pydantic does there is the
      class [ValidatorLaws]: [model_validate] returns an instance it is given,
      and of a dict whose fields are valid, or are instances, which are not
      validated again, the instance with these fields; the details of a
      reservation may fail to validate.  Dicts and instances may be mixed at any
      depth; decimals and datetimes are integers
      of a fixed unit (see Models), UUIDs numbers.  A decimal never overflows in
      Python; the columns' [Numeric(12, 2)] bound is left to the database.
    - The invariant [db_inv] of a database of the airline has, besides the
      declared constraints, that every booked segment has its fare in the fares
      table ([segments_on_sale]); rebookings keep it, and the equivalence of the
      two data access variants does without it.
    - Libraries are parameters or follow their documentation: [orjson] is a
      codec with the round trip it promises, pydantic's parser of a selection a
      function that raises only [ValidationError], a validated model keeps the
      fields it was given and reports the first error of the first bad field,
      the HTTP client an operation that returns a response or raises, Redis and RabbitMQ the
      documented effect of the commands used, LangGraph the superstep execution
      of a [StateGraph] with joins.  The two nodes of a parallel step run in
      the order of their edges.
    - A float of the benchmark is a rational, each operation on it rounded by
      [fl] to 53 significant bits, ties to even: no overflow, infinity, NaN or
      subnormal occurs for the counts and milliseconds it is used on.
    - In AgentGraph to AgentSystem the answer to an [interrupt] is the outcome of
      an awaited operation.  AgentThreads follows LangGraph's documentation
      instead: a checkpoint after every step, an [interrupt] without an answer
      ends the invocation and saves the step as not done, a resume executes the
      step again from its beginning; and proves the two the same.  A checkpoint
      is saved before the next step starts (LangGraph's asynchronous durability
      is not modelled); in the step that pauses no other
      node runs.  In AgentSystem to ConversationSystem the airline's operations
      fail as the service fails: the database itself is reliable there; the
      theorems on [Turn] allow any operation to raise, a verification after
      the commit included.  In JobSystem and ConversationSystem deliveries are executed one
      after the other, which [agents_exclude] justifies for one conversation.
    - In Sessions a statement sees the newest committed rows under its own
      writes, a locking statement waits for the row and reads its newest
      version, and a lock is held to the end of its transaction, as PostgreSQL
      documents for READ COMMITTED.  A failure of any statement ends its
      transaction; waiting for ever is allowed.  A locked row's joins may be
      older than the row: of them only columns no rebooking writes are used,
      and a segment is moved by its own requests only, which the hypotheses
      keep apart.  In WorkerPool each command of the store takes effect at one
      moment, or fails, or takes effect without its reply; a lock lives as long
      as it was set for, an idempotency key for the whole run (it is set for a
      day).

    ** Bounds and fuel

    The graph engine, the queue and the benchmark's loops need fuel.  [enough_fuel] is nine steps
    plus six per retry left: two steps open a turn, a refused round takes six
    and the last round at most seven; [turn_refines] proves it enough, and for
    the default two retries it is 21, below LangGraph's limit of 25 per
    invocation.  A call on a thread needs at most seven steps
    ([resuming_continues], [calls_rebook]), whatever the retries.  [drain] of JobSystem takes one step per attempt.  [user] of
    LoadGenerator is given a bound on its conversations ([user_runs] holds for
    any) and [drain_loop] one on the looks at the queue that fit before its
    deadline ([drain_terminates] shows the seconds left enough).  [strip] is given the length of its string.

    ** Not modelled

    FastAPI's HTTP layer and the wire protocols; the tables of the checkpointer
    and its serializer; what the snapshot, the search and
    the details of a reservation show while a rebooking commits between their
    statements (each is a read of one state; [verify] is not); two overlapping rebookings of one segment, beyond the
    locks they take; logging and cancellation.  Of the benchmark: how
    processes are spawned and joined, argument parsing, progress output and
    the files it writes.  Of the fake model: its
    added latency and its HTTP server. *)
From stdpp Require Import base numbers strings list sets sorting.

(** * Python exceptions *)

(** The exception classes the program raises or catches.  [InfraError]
    stands for the errors of the client libraries (redis, aio_pika, httpx,
    asyncpg): the program only ever catches them as [Exception]. *)
Inductive ExnType :=
  | ValueError | TypeError | LookupError | KeyError | IndexError
  | RuntimeError | AttributeError | InfraError
  | ValidationError | JSONDecodeError
  | TimeoutError | ZeroDivisionError | SeedsExhausted
  | CustomerNotFoundError | ReservationNotFoundError | SegmentNotFoundError
  | FlightNotFoundError | TravelCreditNotFoundError
  | RebookingVerificationError | RebookingRuleError
  | InvalidSearchWindowError | InvalidPassengerCountError
  | InvalidJobError | NoPendingInputError.

#[export] Instance ExnType_eq_dec : EqDecision ExnType.
Proof. solve_decision. Defined.

(** The base class of each exception below [Exception]. *)
Definition base_class (t : ExnType) : option ExnType :=
  match t with
  | KeyError | IndexError
  | CustomerNotFoundError | ReservationNotFoundError | SegmentNotFoundError
  | FlightNotFoundError | TravelCreditNotFoundError => Some LookupError
  | ValidationError | JSONDecodeError | RebookingRuleError
  | InvalidSearchWindowError | InvalidPassengerCountError
  | InvalidJobError => Some ValueError
  | RebookingVerificationError | NoPendingInputError => Some RuntimeError
  | _ => None
  end.

(** An exception object: its class and [str(exc)]. *)
Record Exn := mkExn { exn_type : ExnType; exn_str : string }.

(** [isinstance(exc, cls)]: the hierarchy is two levels deep. *)
Definition isinstance (e : Exn) (cls : ExnType) : bool :=
  bool_decide (exn_type e = cls) || bool_decide (base_class (exn_type e) = Some cls).

(** * Results: a Python call returns a value or raises *)

Inductive Res (A : Type) :=
  | Ok (a : A)
  | Raise (e : Exn).
Arguments Ok {A} a.
Arguments Raise {A} e.

Definition raise {A} (t : ExnType) (msg : string) : Res A := Raise (mkExn t msg).

(** Sequencing through stdpp's monad classes: [x ← m; k] and [mret a]. *)
#[export] Instance Res_ret : MRet Res := fun A a => Ok a.
#[export] Instance Res_bind : MBind Res := fun A B k m =>
  match m with Ok a => k a | Raise e => Raise e end.

(** [None] where a value is needed raises. *)
Definition or_raise {A} (o : option A) (t : ExnType) (msg : string) : Res A :=
  match o with Some a => Ok a | None => raise t msg end.

Definition is_ok {A} (r : Res A) : bool := match r with Ok _ => true | Raise _ => false end.

Section ResLaws.
Context {A B C : Type}.

Lemma res_bind_Ok (m : Res A) (k : A -> Res B) b :
  (m ≫= k) = Ok b <-> exists a, m = Ok a /\ k a = Ok b.
Proof. destruct m; cbn; split; [eauto|by intros [? [[= ->] ?]]|done|by intros [? [[=] _]]]. Qed.

Lemma res_bind_Raise (m : Res A) (k : A -> Res B) e :
  (m ≫= k) = Raise e <-> m = Raise e \/ exists a, m = Ok a /\ k a = Raise e.
Proof. destruct m; cbn; firstorder congruence. Qed.

Lemma res_bind_assoc (m : Res A) (f : A -> Res B) (g : B -> Res C) :
  ((m ≫= f) ≫= g) = (m ≫= (fun a => f a ≫= g)).
Proof. by destruct m. Qed.

Lemma res_bind_ret (a : A) (k : A -> Res B) : (Ok a ≫= k) = k a.
Proof. done. Qed.

Lemma mapM_Res_Ok (f : A -> Res B) l k : mapM f l = Ok k <-> Forall2 (fun x y => f x = Ok y) l k.
Proof.
  split.
  - revert k. induction l as [|x l IH]; cbn; intros k H; [injection H as <-; constructor|].
    destruct (f x) as [y|] eqn:Ef; [|done]. cbn in H. destruct (mapM f l) as [ys|]; [|done].
    injection H as <-. constructor; auto.
  - induction 1 as [|x y l k Hxy _ IH]; cbn; [done|]. rewrite Hxy. cbn. by rewrite IH.
Qed.

Lemma mapM_Res_Raise (f : A -> Res B) l e : mapM f l = Raise e -> exists x, x ∈ l /\ f x = Raise e.
Proof.
  induction l as [|x l IH]; cbn; [done|]. destruct (f x) as [y|] eqn:Ef; cbn.
  - destruct (mapM f l) as [ys|e'] eqn:El; cbn; [done|]. intros [= ->].
    destruct (IH eq_refl) as (x' & ? & ?). exists x'. split; [by right|done].
  - intros [= ->]. exists x. split; [by left|done].
Qed.

Lemma or_raise_Ok (o : option A) t msg a : or_raise o t msg = Ok a <-> o = Some a.
Proof. destruct o; cbn; [split; congruence|]. unfold raise; split; discriminate. Qed.
End ResLaws.

(** [res_invert H] takes a hypothesis [m = Ok x] apart, one bind at a time. *)
Ltac res_step Hyp :=
  lazymatch type of Hyp with
  | mbind _ _ = Ok _ =>
      let a := fresh "v" in let Ha := fresh "Hv" in
      apply res_bind_Ok in Hyp; destruct Hyp as [a [Ha Hyp]]
  | or_raise _ _ _ = Ok _ => apply or_raise_Ok in Hyp
  | raise _ _ = Ok _ => discriminate Hyp
  | Raise _ = Ok _ => discriminate Hyp
  | mret _ = Ok _ => injection Hyp as Hyp
  | (if ?b then _ else _) = Ok _ => let E := fresh "Hc" in destruct b eqn:E
  end.
Ltac res_invert Hyp := repeat (res_step Hyp; try discriminate Hyp).

(** [to_prop]: turn boolean connectives and comparisons of the context
    into propositions. *)
Ltac to_prop :=
  repeat match goal with
  | Hyp : negb _ = true |- _ => apply negb_true_iff in Hyp
  | Hyp : negb _ = false |- _ => apply negb_false_iff in Hyp
  | Hyp : (_ || _)%bool = false |- _ => apply orb_false_iff in Hyp; destruct Hyp
  | Hyp : (_ && _)%bool = true |- _ => apply andb_true_iff in Hyp; destruct Hyp
  | Hyp : bool_decide _ = true |- _ => apply bool_decide_eq_true in Hyp
  | Hyp : bool_decide _ = false |- _ => apply bool_decide_eq_false in Hyp
  | Hyp : (_ <? _)%Z = true |- _ => apply Z.ltb_lt in Hyp
  | Hyp : (_ <? _)%Z = false |- _ => apply Z.ltb_ge in Hyp
  | Hyp : (_ <=? _)%Z = true |- _ => apply Z.leb_le in Hyp
  | Hyp : (_ <=? _)%Z = false |- _ => apply Z.leb_gt in Hyp
  | Hyp : (_ =? _)%Z = true |- _ => apply Z.eqb_eq in Hyp
  | Hyp : (_ =? _)%Z = false |- _ => apply Z.eqb_neq in Hyp
  | Hyp : (_ =? _)%N = true |- _ => apply N.eqb_eq in Hyp
  | Hyp : (_ =? _)%N = false |- _ => apply N.eqb_neq in Hyp
  | Hyp : (_ =? _)%string = true |- _ => apply String.eqb_eq in Hyp
  | Hyp : (_ =? _)%string = false |- _ => apply String.eqb_neq in Hyp
  end.


(** * Guards: [if b: raise ...] followed by the rest *)

Section Guards.
Context {A : Type}.

Lemma guard_Ok (b : bool) t msg (m : Res A) a :
  (if b then raise t msg else m) = Ok a <-> b = false /\ m = Ok a.
Proof. unfold raise. destruct b; intuition congruence. Qed.

Lemma guard_Raise (b : bool) t msg (m : Res A) e :
  (if b then raise t msg else m) = Raise e <->
  (b = true /\ e = mkExn t msg) \/ (b = false /\ m = Raise e).
Proof. unfold raise. destruct b; intuition congruence. Qed.

(** Only exceptions of class [t] are raised. *)
Definition raises_only (t : ExnType) (m : Res A) : Prop :=
  forall e, m = Raise e -> exn_type e = t.

Lemma raises_only_Ok t a : raises_only t (Ok a).
Proof. intros e; discriminate. Qed.

Lemma raises_only_raise t msg : raises_only t (raise t msg).
Proof. intros e [= <-]; done. Qed.

Lemma raises_only_if t (b : bool) m1 m2 :
  raises_only t m1 -> raises_only t m2 -> raises_only t (if b then m1 else m2).
Proof. by destruct b. Qed.
End Guards.

Create HintDb py discriminated.
#[export] Hint Resolve raises_only_Ok raises_only_raise raises_only_if : py.

(** Boolean tests of the code as the propositions they decide. *)

Create Rewrite HintDb py_bool.
#[export] Hint Rewrite negb_true_iff negb_false_iff orb_false_iff orb_true_iff
  andb_true_iff andb_false_iff Z.ltb_lt Z.ltb_ge Z.leb_le Z.leb_gt Z.eqb_eq Z.eqb_neq
  N.eqb_eq N.eqb_neq String.eqb_eq String.eqb_neq : py_bool.

(** * [sorted(values, key=...)]: a stable sort *)

Section Sort.
Context {A : Type} (le : A -> A -> bool).

Fixpoint insert_sorted (x : A) (l : list A) : list A :=
  match l with
  | [] => [x]
  | y :: l' => if le x y then x :: l else y :: insert_sorted x l'
  end.
Definition sort_by (l : list A) : list A := foldr insert_sorted [] l.

Lemma insert_sorted_perm x l : insert_sorted x l ≡ₚ x :: l.
Proof.
  induction l as [|y l IH]; cbn; [done|]. destruct (le x y); [done|].
  rewrite IH. apply Permutation_swap.
Qed.

Lemma sort_by_perm l : sort_by l ≡ₚ l.
Proof. induction l as [|x l IH]; cbn; [done|]. by rewrite insert_sorted_perm, IH. Qed.

Context (le_total : forall x y, le x y = true \/ le y x = true).
Context (le_trans : forall x y z, le x y = true -> le y z = true -> le x z = true).

Lemma insert_sorted_sorted x l :
  StronglySorted (fun a b => le a b = true) l ->
  StronglySorted (fun a b => le a b = true) (insert_sorted x l).
Proof.
  induction 1 as [|y l Hl IH Hy]; cbn; [by repeat constructor|].
  destruct (le x y) eqn:E.
  - constructor; [by constructor|]. constructor; [done|].
    eapply Forall_impl; [exact Hy|]. eauto.
  - constructor; [done|]. rewrite insert_sorted_perm. constructor; [|done].
    destruct (le_total x y); congruence.
Qed.

Lemma sort_by_sorted l : StronglySorted (fun a b => le a b = true) (sort_by l).
Proof. induction l; cbn; [constructor|by apply insert_sorted_sorted]. Qed.
End Sort.

(** * Lists cut at a marked element *)

Lemma cut_after {A} (P : A -> bool) (quiet rest pre post : list A) x :
  Forall (fun y => P y = false) quiet -> P x = true -> quiet ++ rest = pre ++ x :: post ->
  exists pre', pre = quiet ++ pre' /\ rest = pre' ++ x :: post.
Proof.
  intros Hq Hx. revert pre. induction Hq as [|y quiet Hy Hq IH]; cbn; intros pre Heq; [by exists pre|].
  destruct pre as [|z pre]; injection Heq as -> Heq; [congruence|].
  destruct (IH _ Heq) as (pre' & -> & ->). by exists pre'.
Qed.

Lemma filter_none {A} (f : A -> bool) l : (forall x, x ∈ l -> f x = false) -> List.filter f l = [].
Proof.
  induction l as [|x l IH]; intros H; cbn; [done|]. rewrite H by (by left).
  apply IH. intros y Hy. apply H. by right.
Qed.

Lemma elem_of_filter_bool {A} (f : A -> bool) l x : x ∈ List.filter f l <-> x ∈ l /\ f x = true.
Proof. rewrite !list_elem_of_In. apply filter_In. Qed.
