(* ===== verification/Models.v ===== *)
(** The airline data model: the enumerations and ORM entities of
    [app/airline/models.py] and the schemas of [app/airline/schemas.py].

    Conventions.  A [UUID] is the 128-bit number it stands for.  A [datetime]
    is a number of microseconds since the epoch (every datetime of the program
    is timezone-aware).  A [Decimal] is an integer number of some fixed unit
    [10^-k]: the decimals one run handles have finitely many exponents, so a
    common unit exists, and the code only adds, subtracts, compares, takes
    [max] and compares with 0, none of which depends on the unit.  A schema
    whose fields are exactly the columns of its entity is the entity's type:
    pydantic's [from_attributes] copies the columns one by one. *)
From stdpp Require Import base numbers strings list.
From S2P Require Import Prelude.

Abbreviation UUID := N.
Abbreviation datetime := Z.
Abbreviation Decimal := Z.

(** * Enumerations *)

(** [StrEnum] members are their names; [value_*] is the [.value] attribute. *)
Inductive ReservationStatus := R_CONFIRMED | R_CANCELLED | R_COMPLETED.
Definition reservation_status_value (s : ReservationStatus) : string :=
  match s with
  | R_CONFIRMED => "CONFIRMED" | R_CANCELLED => "CANCELLED" | R_COMPLETED => "COMPLETED"
  end.

Inductive FlightStatus :=
  F_SCHEDULED | F_DELAYED | F_CANCELLED | F_BOARDING | F_DEPARTED | F_COMPLETED.
Definition flight_status_value (s : FlightStatus) : string :=
  match s with
  | F_SCHEDULED => "SCHEDULED" | F_DELAYED => "DELAYED" | F_CANCELLED => "CANCELLED"
  | F_BOARDING => "BOARDING" | F_DEPARTED => "DEPARTED" | F_COMPLETED => "COMPLETED"
  end.

Inductive SegmentStatus := S_CONFIRMED | S_CHANGED | S_CANCELLED | S_FLOWN.
Definition segment_status_value (s : SegmentStatus) : string :=
  match s with
  | S_CONFIRMED => "CONFIRMED" | S_CHANGED => "CHANGED"
  | S_CANCELLED => "CANCELLED" | S_FLOWN => "FLOWN"
  end.

Inductive TravelCreditStatus := C_AVAILABLE | C_PARTIALLY_USED | C_USED | C_EXPIRED.
Definition travel_credit_status_value (s : TravelCreditStatus) : string :=
  match s with
  | C_AVAILABLE => "AVAILABLE" | C_PARTIALLY_USED => "PARTIALLY_USED"
  | C_USED => "USED" | C_EXPIRED => "EXPIRED"
  end.

#[export] Instance ReservationStatus_eq_dec : EqDecision ReservationStatus.
Proof. solve_decision. Defined.
#[export] Instance FlightStatus_eq_dec : EqDecision FlightStatus.
Proof. solve_decision. Defined.
#[export] Instance SegmentStatus_eq_dec : EqDecision SegmentStatus.
Proof. solve_decision. Defined.
#[export] Instance TravelCreditStatus_eq_dec : EqDecision TravelCreditStatus.
Proof. solve_decision. Defined.

#[export] Instance reservation_status_value_inj : Inj (=) (=) reservation_status_value.
Proof. intros [] []; done. Qed.
#[export] Instance flight_status_value_inj : Inj (=) (=) flight_status_value.
Proof. intros [] []; done. Qed.
#[export] Instance segment_status_value_inj : Inj (=) (=) segment_status_value.
Proof. intros [] []; done. Qed.
#[export] Instance travel_credit_status_value_inj : Inj (=) (=) travel_credit_status_value.
Proof. intros [] []; done. Qed.

(** * Entities: one record per table, its columns in order *)

Record Customer := mkCustomer {
  c_id : UUID; c_first_name : string; c_last_name : string; c_email : string;
  c_phone : option string; c_created_at : datetime; c_updated_at : datetime }.

Record Passenger := mkPassenger {
  p_id : UUID; p_first_name : string; p_last_name : string;
  p_document_number : string; p_created_at : datetime }.

Record ReservationPassenger := mkReservationPassenger {
  rp_reservation_id : UUID; rp_passenger_id : UUID }.

Record Reservation := mkReservation {
  r_id : UUID; r_booking_reference : string; r_customer_id : UUID;
  r_status : ReservationStatus; r_total_amount : Decimal; r_currency : string;
  r_created_at : datetime; r_updated_at : datetime }.

Record Flight := mkFlight {
  f_id : UUID; f_flight_number : string; f_origin_airport : string;
  f_destination_airport : string; f_departure_at : datetime; f_arrival_at : datetime;
  f_status : FlightStatus; f_capacity : Z; f_created_at : datetime; f_updated_at : datetime }.

Record FareClass := mkFareClass {
  fc_id : UUID; fc_code : string; fc_name : string; fc_change_allowed : bool;
  fc_cancellation_allowed : bool; fc_change_fee : Decimal; fc_cancellation_fee : Decimal;
  fc_created_at : datetime }.

Record FlightFare := mkFlightFare {
  ff_id : UUID; ff_flight_id : UUID; ff_fare_class_id : UUID; ff_price : Decimal;
  ff_currency : string; ff_available_seats : Z }.

Record ReservationSegment := mkReservationSegment {
  rs_id : UUID; rs_reservation_id : UUID; rs_flight_id : UUID; rs_fare_class_id : UUID;
  rs_status : SegmentStatus; rs_price_paid : Decimal; rs_currency : string;
  rs_created_at : datetime; rs_updated_at : datetime }.

Record TravelCredit := mkTravelCredit {
  tc_id : UUID; tc_customer_id : UUID; tc_original_amount : Decimal;
  tc_remaining_amount : Decimal; tc_currency : string; tc_status : TravelCreditStatus;
  tc_expires_at : datetime; tc_created_at : datetime }.

Record FlightChange := mkFlightChange {
  ch_id : UUID; ch_reservation_segment_id : UUID; ch_old_flight_id : UUID;
  ch_new_flight_id : UUID; ch_old_fare_class_id : UUID; ch_new_fare_class_id : UUID;
  ch_fare_difference : Decimal; ch_change_fee : Decimal; ch_travel_credit_used : Decimal;
  ch_currency : string; ch_created_at : datetime }.

(** Rows are compared column by column. *)
#[export] Instance Customer_eq_dec : EqDecision Customer.
Proof. solve_decision. Defined.
#[export] Instance Passenger_eq_dec : EqDecision Passenger.
Proof. solve_decision. Defined.
#[export] Instance ReservationPassenger_eq_dec : EqDecision ReservationPassenger.
Proof. solve_decision. Defined.
#[export] Instance Reservation_eq_dec : EqDecision Reservation.
Proof. solve_decision. Defined.
#[export] Instance Flight_eq_dec : EqDecision Flight.
Proof. solve_decision. Defined.
#[export] Instance FareClass_eq_dec : EqDecision FareClass.
Proof. solve_decision. Defined.
#[export] Instance FlightFare_eq_dec : EqDecision FlightFare.
Proof. solve_decision. Defined.
#[export] Instance ReservationSegment_eq_dec : EqDecision ReservationSegment.
Proof. solve_decision. Defined.
#[export] Instance TravelCredit_eq_dec : EqDecision TravelCredit.
Proof. solve_decision. Defined.
#[export] Instance FlightChange_eq_dec : EqDecision FlightChange.
Proof. solve_decision. Defined.

(** * Schemas whose fields are the entity's columns *)

Definition CustomerSchema := Customer.
Definition PassengerSchema := Passenger.
Definition ReservationSchema := Reservation.
Definition FlightSchema := Flight.
Definition FareClassSchema := FareClass.
Definition FlightFareSchema := FlightFare.
Definition ReservationSegmentSchema := ReservationSegment.
Definition TravelCreditSchema := TravelCredit.
Definition FlightChangeSchema := FlightChange.

(** * Composite schemas *)

Record ReservationSegmentDetailsSchema := mkSegmentDetails {
  sd_segment : ReservationSegmentSchema; sd_flight : FlightSchema;
  sd_fare_class : FareClassSchema }.

Record ReservationDetailsSchema := mkReservationDetails {
  rd_reservation : ReservationSchema; rd_customer : CustomerSchema;
  rd_passengers : list PassengerSchema;
  rd_segments : list ReservationSegmentDetailsSchema }.

Record SearchRebookingOptionsInputSchema := mkSearchInput {
  si_segment_id : UUID; si_departure_from : datetime; si_departure_to : datetime;
  si_passenger_count : Z }.

Record SearchAvailableFlightsParamsSchema := mkSearchParams {
  sp_origin : string; sp_destination : string; sp_departure_from : datetime;
  sp_departure_to : datetime; sp_passenger_count : Z }.

Record AvailableFareSchema := mkAvailableFare {
  af_fare_class : FareClassSchema; af_flight_fare : FlightFareSchema }.

Record AvailableFlightSchema := mkAvailableFlight {
  avf_flight : FlightSchema; avf_fares : list AvailableFareSchema }.

Record RebookingOptionSchema := mkRebookingOption {
  ro_flight : FlightSchema; ro_fare_class : FareClassSchema;
  ro_flight_fare : FlightFareSchema; ro_fare_difference : Decimal;
  ro_change_fee : Decimal }.

Record RebookingSelectionSchema := mkSelection {
  sel_segment_id : UUID; sel_new_flight_id : UUID; sel_new_fare_class_id : UUID;
  sel_travel_credit_id : option UUID; sel_travel_credit_amount : Decimal }.

Record RebookingSnapshotSchema := mkSnapshot {
  sn_segment_id : UUID; sn_reservation_id : UUID; sn_customer_id : UUID;
  sn_old_flight_id : UUID; sn_old_fare_class_id : UUID;
  sn_segment_status : SegmentStatus; sn_reservation_status : ReservationStatus;
  sn_old_flight_status : FlightStatus; sn_origin_airport : string;
  sn_destination_airport : string; sn_old_departure_at : datetime;
  sn_old_price : Decimal; sn_old_currency : string; sn_old_change_allowed : bool;
  sn_target_flight_id : UUID; sn_target_fare_class_id : UUID;
  sn_target_status : FlightStatus; sn_target_origin : string;
  sn_target_destination : string; sn_target_departure_at : datetime;
  sn_target_price : Decimal; sn_target_currency : string; sn_available_seats : Z;
  sn_target_change_allowed : bool; sn_target_change_fee : Decimal;
  sn_passenger_count : Z }.

Record RebookingValidationSchema := mkValidation {
  va_selection : RebookingSelectionSchema; va_reservation_id : UUID;
  va_customer_id : UUID; va_old_flight_id : UUID; va_old_fare_class_id : UUID;
  va_new_flight_id : UUID; va_new_fare_class_id : UUID; va_new_price : Decimal;
  va_fare_difference : Decimal; va_change_fee : Decimal; va_amount_due : Decimal;
  va_travel_credit_used : Decimal; va_currency : string; va_passenger_count : Z }.

Record RebookingResultSchema := mkRebookingResult {
  rr_change : option FlightChangeSchema; rr_segment : ReservationSegmentSchema;
  rr_booking_reference : string }.
