(* ===== verification/Rules.v ===== *)
(** The rebooking rules: [validate_rebooking_selection] of
    [app/airline/service.py], and its equivalence with a declarative
    statement of which selections may be rebooked. *)
From stdpp Require Import base numbers strings list.
From S2P Require Import Prelude Models.
Local Open Scope Z_scope.
Local Open Scope bool_scope.

(** Python's [value in {a, b}] on strings. *)
Definition in_set (v : string) (s : list string) : bool := existsb (String.eqb v) s.

(** The condition of the [if] under [selection.travel_credit_id is not None];
    [now] is the reading of [datetime.now(UTC)]. *)
Definition travel_credit_invalid (now : datetime) (credit_id : UUID) (amount : Decimal)
    (snapshot : RebookingSnapshotSchema) (credit : option TravelCreditSchema) : bool :=
  match credit with
  | None => true
  | Some credit =>
      negb (tc_id credit =? credit_id)%N
      || negb (tc_customer_id credit =? sn_customer_id snapshot)%N
      || negb (tc_currency credit =? sn_old_currency snapshot)%string
      || (tc_remaining_amount credit <? amount)
      || (amount <=? 0)
      || (tc_expires_at credit <=? now)
      || negb (in_set (travel_credit_status_value (tc_status credit))
                 ["AVAILABLE"; "PARTIALLY_USED"])
  end.

Definition validate_rebooking_selection (now : datetime)
    (selection : RebookingSelectionSchema) (snapshot : RebookingSnapshotSchema)
    (credit : option TravelCreditSchema) : Res RebookingValidationSchema :=
  if negb (sel_segment_id selection =? sn_segment_id snapshot)%N then
    raise RebookingRuleError "reservation segment cannot be changed"
  else if negb (reservation_status_value (sn_reservation_status snapshot) =? "CONFIRMED")%string then
    raise RebookingRuleError "reservation is not confirmed"
  else if negb (in_set (segment_status_value (sn_segment_status snapshot)) ["CONFIRMED"; "CHANGED"]) then
    raise RebookingRuleError "reservation segment cannot be changed"
  else if (segment_status_value (sn_segment_status snapshot) =? "CHANGED")%string
          && (sn_old_flight_id snapshot =? sel_new_flight_id selection)%N
          && (sn_old_fare_class_id snapshot =? sel_new_fare_class_id selection)%N then
    raise RebookingRuleError "rebooking was already applied"
  else if negb (sn_old_change_allowed snapshot) then
    raise RebookingRuleError "fare change is not allowed"
  else if negb (sn_target_flight_id snapshot =? sel_new_flight_id selection)%N
          || negb (sn_target_fare_class_id snapshot =? sel_new_fare_class_id selection)%N
          || negb (flight_status_value (sn_target_status snapshot) =? "SCHEDULED")%string
          || (sn_available_seats snapshot <? sn_passenger_count snapshot) then
    raise RebookingRuleError "selected flight is unavailable"
  else if negb (sn_origin_airport snapshot =? sn_target_origin snapshot)%string
          || negb (sn_destination_airport snapshot =? sn_target_destination snapshot)%string then
    raise RebookingRuleError "selected flight route does not match"
  else if negb (sn_target_change_allowed snapshot) then
    raise RebookingRuleError "fare change is not allowed"
  else if negb (sn_target_currency snapshot =? sn_old_currency snapshot)%string then
    raise RebookingRuleError "selected fare currency does not match"
  else if sn_passenger_count snapshot <=? 0 then
    raise RebookingRuleError "passenger count must be greater than zero"
  else
    let amount := sel_travel_credit_amount selection in
    if match sel_travel_credit_id selection with
       | Some credit_id => travel_credit_invalid now credit_id amount snapshot credit
       | None => negb (amount =? 0)
       end then
      raise RebookingRuleError "travel credit is invalid"
    else
      let difference := sn_target_price snapshot - sn_old_price snapshot in
      let amount_due := Z.max (difference + sn_target_change_fee snapshot) 0 in
      if negb (amount_due =? amount) then
        raise RebookingRuleError "travel credit amount does not match amount due"
      else
        Ok {| va_selection := selection;
              va_reservation_id := sn_reservation_id snapshot;
              va_customer_id := sn_customer_id snapshot;
              va_old_flight_id := sn_old_flight_id snapshot;
              va_old_fare_class_id := sn_old_fare_class_id snapshot;
              va_new_flight_id := sn_target_flight_id snapshot;
              va_new_fare_class_id := sn_target_fare_class_id snapshot;
              va_new_price := sn_target_price snapshot;
              va_fare_difference := difference;
              va_change_fee := sn_target_change_fee snapshot;
              va_amount_due := amount_due;
              va_travel_credit_used := amount;
              va_currency := sn_old_currency snapshot;
              va_passenger_count := sn_passenger_count snapshot |}.

(** * Specification *)

(** What the change costs the customer, before crediting: the fare
    difference plus the target fare's change fee. *)
Definition cost (sn : RebookingSnapshotSchema) : Decimal :=
  sn_target_price sn - sn_old_price sn + sn_target_change_fee sn.

(** A travel credit can pay [amount] for the customer of the snapshot. *)
Record CreditUsable (now : datetime) (sn : RebookingSnapshotSchema)
    (id : UUID) (amount : Decimal) (c : TravelCreditSchema) : Prop := {
  cu_id : tc_id c = id;
  cu_customer : tc_customer_id c = sn_customer_id sn;
  cu_currency : tc_currency c = sn_old_currency sn;
  cu_balance : 0 < amount <= tc_remaining_amount c;
  cu_expiry : now < tc_expires_at c;
  cu_status : tc_status c = C_AVAILABLE \/ tc_status c = C_PARTIALLY_USED }.

(** The selections the airline accepts, as a declarative statement. *)
Record Eligible (now : datetime) (sel : RebookingSelectionSchema)
    (sn : RebookingSnapshotSchema) (credit : option TravelCreditSchema) : Prop := {
  el_segment : sel_segment_id sel = sn_segment_id sn;
  el_reservation : sn_reservation_status sn = R_CONFIRMED;
  el_changeable :
    sn_segment_status sn = S_CONFIRMED \/
    sn_segment_status sn = S_CHANGED /\
      (sn_old_flight_id sn, sn_old_fare_class_id sn) <>
      (sel_new_flight_id sel, sel_new_fare_class_id sel);
  el_change_allowed : sn_old_change_allowed sn = true /\ sn_target_change_allowed sn = true;
  el_target : (sn_target_flight_id sn, sn_target_fare_class_id sn) =
              (sel_new_flight_id sel, sel_new_fare_class_id sel);
  el_scheduled : sn_target_status sn = F_SCHEDULED;
  el_seats : 0 < sn_passenger_count sn <= sn_available_seats sn;
  el_route : (sn_origin_airport sn, sn_destination_airport sn) =
             (sn_target_origin sn, sn_target_destination sn);
  el_currency : sn_target_currency sn = sn_old_currency sn;
  el_credit : match sel_travel_credit_id sel with
              | Some id => exists c, credit = Some c /\
                             CreditUsable now sn id (sel_travel_credit_amount sel) c
              | None => sel_travel_credit_amount sel = 0
              end;
  el_amount : sel_travel_credit_amount sel = Z.max (cost sn) 0 }.

(** The validation a successful check returns. *)
Definition validation_of (sel : RebookingSelectionSchema) (sn : RebookingSnapshotSchema) :
    RebookingValidationSchema := {|
  va_selection := sel; va_reservation_id := sn_reservation_id sn;
  va_customer_id := sn_customer_id sn; va_old_flight_id := sn_old_flight_id sn;
  va_old_fare_class_id := sn_old_fare_class_id sn;
  va_new_flight_id := sel_new_flight_id sel;
  va_new_fare_class_id := sel_new_fare_class_id sel;
  va_new_price := sn_target_price sn;
  va_fare_difference := sn_target_price sn - sn_old_price sn;
  va_change_fee := sn_target_change_fee sn; va_amount_due := Z.max (cost sn) 0;
  va_travel_credit_used := Z.max (cost sn) 0; va_currency := sn_old_currency sn;
  va_passenger_count := sn_passenger_count sn |}.

(** * The rules decide the specification *)

Lemma credit_status_usable s :
  in_set (travel_credit_status_value s) ["AVAILABLE"; "PARTIALLY_USED"] = true <->
  s = C_AVAILABLE \/ s = C_PARTIALLY_USED.
Proof. destruct s; cbn; naive_solver. Qed.

Lemma segment_status_changeable s :
  in_set (segment_status_value s) ["CONFIRMED"; "CHANGED"] = true <->
  s = S_CONFIRMED \/ s = S_CHANGED.
Proof. destruct s; cbn; naive_solver. Qed.

Lemma travel_credit_invalid_false now id amount sn credit :
  travel_credit_invalid now id amount sn credit = false <->
  exists c, credit = Some c /\ CreditUsable now sn id amount c.
Proof.
  unfold travel_credit_invalid. destruct credit as [c|]; [|naive_solver].
  autorewrite with py_bool. rewrite credit_status_usable.
  split.
  - intros [[[[[[??]?]?]?]?]?]. exists c; split; [done|]. by split.
  - intros [c' [[= <-] []]]. repeat split; try done; lia.
Qed.

Lemma reservation_confirmed s :
  reservation_status_value s = "CONFIRMED" <-> s = R_CONFIRMED.
Proof. destruct s; cbn; naive_solver. Qed.

Lemma flight_scheduled s : flight_status_value s = "SCHEDULED" <-> s = F_SCHEDULED.
Proof. destruct s; cbn; naive_solver. Qed.

#[export] Hint Rewrite reservation_confirmed flight_scheduled : py_bool.

Section Decide.
Context (now : datetime) (sel : RebookingSelectionSchema)
        (sn : RebookingSnapshotSchema) (credit : option TravelCreditSchema).

Lemma credit_guard_false :
  match sel_travel_credit_id sel with
  | Some id => travel_credit_invalid now id (sel_travel_credit_amount sel) sn credit
  | None => negb (sel_travel_credit_amount sel =? 0)
  end = false <->
  match sel_travel_credit_id sel with
  | Some id => exists c, credit = Some c /\
                 CreditUsable now sn id (sel_travel_credit_amount sel) c
  | None => sel_travel_credit_amount sel = 0
  end.
Proof.
  destruct (sel_travel_credit_id sel).
  - apply travel_credit_invalid_false.
  - by autorewrite with py_bool.
Qed.

(** The "already applied" guard together with the status guard. *)
Lemma changeable_guards :
  in_set (segment_status_value (sn_segment_status sn)) ["CONFIRMED"; "CHANGED"] = true /\
  (segment_status_value (sn_segment_status sn) =? "CHANGED")%string
    && (sn_old_flight_id sn =? sel_new_flight_id sel)%N
    && (sn_old_fare_class_id sn =? sel_new_fare_class_id sel)%N = false <->
  sn_segment_status sn = S_CONFIRMED \/
  sn_segment_status sn = S_CHANGED /\
    (sn_old_flight_id sn, sn_old_fare_class_id sn) <>
    (sel_new_flight_id sel, sel_new_fare_class_id sel).
Proof.
  rewrite segment_status_changeable.
  destruct (sn_segment_status sn); cbn -[in_set]; autorewrite with py_bool; try naive_solver.
  rewrite pair_equal_spec. destruct (decide (sn_old_flight_id sn = sel_new_flight_id sel));
    naive_solver.
Qed.
End Decide.

(** * Properties *)

Lemma validate_iff now sel sn credit v :
  validate_rebooking_selection now sel sn credit = Ok v <->
  Eligible now sel sn credit /\ v = validation_of sel sn.
Proof.
  unfold validate_rebooking_selection. cbv zeta.
  rewrite !guard_Ok, credit_guard_false. split.
  - intros (Hseg & Hres & Hst & Happ & Hoc & Htgt & Hrt & Htc & Hcur & Hpc & Hcr & Hdue & [= <-]).
    apply negb_false_iff in Hst.
    pose proof (proj1 (changeable_guards sel sn) (conj Hst Happ)).
    revert Hseg Hres Hoc Htgt Hrt Htc Hcur Hpc Hdue. autorewrite with py_bool.
    intros. destruct_and?. fold (cost sn) in *.
    split; [by split; try (by f_equal); try done; lia|].
    unfold validation_of. by f_equal.
  - intros [[Hseg Hres Hch [Hoc Htc] [= Htf Htfc] Hsch Hseats [= Ho Hd] Hcur Hcr Ham] ->].
    destruct (proj2 (changeable_guards sel sn) Hch) as [Hst Happ].
    unfold validation_of. rewrite Happ, Hst. unfold cost in *.
    autorewrite with py_bool. repeat split; try done; try lia.
    by rewrite Ham, Htf, Htfc.
Qed.

Lemma validate_raises_only now sel sn credit :
  raises_only RebookingRuleError (validate_rebooking_selection now sel sn credit).
Proof. unfold validate_rebooking_selection. cbv zeta. auto 20 with py. Qed.

(** C15: the rule check accepts a selection exactly when it is [Eligible]: the
    reservation is confirmed, the segment changeable, both fares allow changes,
    the target is scheduled on the same route in the same currency with enough
    seats, and the travel credit covers exactly the positive cost of the
    change; and then it returns the prices of the snapshot. *)
Theorem validate_rebooking_selection_spec now sel sn credit v :
  validate_rebooking_selection now sel sn credit = Ok v <->
  Eligible now sel sn credit /\ v = validation_of sel sn.
Proof. apply validate_iff. Qed.

Definition sample_selection : RebookingSelectionSchema :=
  mkSelection 10 200 30 (Some 50%N) 5500.
Definition sample_snapshot : RebookingSnapshotSchema :=
  mkSnapshot 10 1 2 100 30 S_CONFIRMED R_CONFIRMED F_SCHEDULED "JFK" "LAX" 0
    30000 "USD" true 200 30 F_SCHEDULED "JFK" "LAX" 0 33000 "USD" 100 true 2500 1.
Definition sample_credit : TravelCreditSchema :=
  mkTravelCredit 50 2 10000 10000 "USD" C_AVAILABLE 1000 0.

(** Every rejection is a [RebookingRuleError] (hence a [ValueError], which
    the agent turns into an explanation instead of a failed run). *)
Theorem validate_rebooking_selection_raises now sel sn credit e :
  validate_rebooking_selection now sel sn credit = Raise e ->
  exn_type e = RebookingRuleError /\ isinstance e ValueError = true.
Proof.
  intros He%validate_raises_only. split; [done|]. unfold isinstance. by rewrite He.
Qed.

Lemma validate_rebooking_selection_raises_witness :
  exn_type (mkExn RebookingRuleError "travel credit is invalid") = RebookingRuleError /\
  isinstance (mkExn RebookingRuleError "travel credit is invalid") ValueError = true.
Proof.
  apply (validate_rebooking_selection_raises 2000 sample_selection sample_snapshot
           (Some sample_credit)).
  vm_compute; reflexivity.
Defined.

(** The price of an accepted change.  The amount due is never negative, is
    paid in full by the travel credit, and what is then added to the
    reservation's total ([difference + fee - credit]) is [min 0 cost]: a dearer
    flight leaves the total unchanged, a cheaper one lowers it. *)
Theorem validated_amounts now sel sn credit v :
  validate_rebooking_selection now sel sn credit = Ok v ->
  0 <= va_amount_due v /\ va_amount_due v = va_travel_credit_used v /\
  va_travel_credit_used v = sel_travel_credit_amount sel /\
  (sel_travel_credit_id sel = None -> cost sn <= 0) /\
  va_fare_difference v + va_change_fee v - va_travel_credit_used v = Z.min 0 (cost sn).
Proof.
  intros [[] ->]%validate_iff. unfold validation_of; cbn.
  unfold cost in *. repeat split; try lia. intros Hn. rewrite Hn in *. lia.
Qed.

Lemma validated_amounts_witness :
  exists v, validate_rebooking_selection 0 sample_selection sample_snapshot
              (Some sample_credit) = Ok v /\ 0 <= va_amount_due v.
Proof.
  eexists; split; [vm_compute; reflexivity|].
  eapply (validated_amounts 0 sample_selection sample_snapshot (Some sample_credit)).
  vm_compute; reflexivity.
Defined.
