(* ===== verification/Database.v ===== *)
(** The airline database: the tables of [app/airline/models.py], the queries
    the repositories are made of, and the transaction monad.

    A table is the list of its rows, in an arbitrary physical order.  A query
    [select(T).where(P)] is [select P table]; [session.scalar] and [fetchrow]
    take the first row of the result; an [UPDATE ... WHERE] is [update].
    [schema_ok] states the primary keys, unique constraints and foreign keys
    the models declare. *)
From stdpp Require Import base numbers strings list sets.
From S2P Require Import Prelude Models.
Local Open Scope Z_scope.
Local Open Scope bool_scope.

Record DB := mkDB {
  customers : list Customer; passengers : list Passenger;
  reservation_passengers : list ReservationPassenger; reservations : list Reservation;
  flights : list Flight; fare_classes : list FareClass; flight_fares : list FlightFare;
  reservation_segments : list ReservationSegment; travel_credits : list TravelCredit;
  flight_changes : list FlightChange }.

(** * Queries over one table *)

Section Table.
Context {A : Type}.
Implicit Types (P : A -> bool) (f : A -> A) (t : list A).

Definition select P t : list A := List.filter P t.
Definition scalar P t : option A := List.find P t.
Definition update P f t : list A := map (fun r => if P r then f r else r) t.

Lemma scalar_Some P t r : scalar P t = Some r -> r ∈ t /\ P r = true.
Proof. intros [? ?]%find_some. by rewrite list_elem_of_In. Qed.

Lemma scalar_None P t r : scalar P t = None -> r ∈ t -> P r = false.
Proof. intros H Hr%list_elem_of_In. by apply (find_none _ _ H). Qed.

Lemma scalar_is_Some P t r : r ∈ t -> P r = true -> exists r', scalar P t = Some r'.
Proof.
  intros Hr HP. destruct (scalar P t) eqn:E; [eauto|].
  by rewrite (scalar_None _ _ _ E Hr) in HP.
Qed.

(** The row a key selects is unique. *)
Lemma scalar_unique {K} (key : A -> K) P t r :
  NoDup (key <$> t) -> r ∈ t -> P r = true ->
  (forall r', P r' = true -> key r' = key r) -> scalar P t = Some r.
Proof.
  intros Hnd Hin HP Hkey. destruct (scalar_is_Some P t r) as [r' Hr']; [done..|].
  rewrite Hr'. f_equal. apply scalar_Some in Hr' as [Hin' HP'].
  apply list_elem_of_lookup in Hin as [i Hi], Hin' as [j Hj].
  assert (i = j) as ->; [|congruence].
  eapply (NoDup_lookup _ _ _ (key r) Hnd); rewrite list_lookup_fmap.
  - by rewrite Hi.
  - rewrite Hj; cbn. by rewrite (Hkey r').
Qed.

Lemma update_key {K} (key : A -> K) P f t :
  (forall r, P r = true -> key (f r) = key r) -> key <$> update P f t = key <$> t.
Proof.
  intros Hk. unfold update. rewrite <- list_fmap_compose.
  apply list_fmap_ext; intros i r _; cbn. destruct (P r) eqn:E; auto.
Qed.

Lemma elem_of_update P f t r :
  r ∈ update P f t <-> exists r0, r0 ∈ t /\ r = if P r0 then f r0 else r0.
Proof. unfold update. rewrite list_elem_of_fmap. naive_solver. Qed.

Lemma scalar_update Q P f t :
  (forall r, P r = true -> Q (f r) = Q r) ->
  scalar Q (update P f t) = (fun r => if P r then f r else r) <$> scalar Q t.
Proof.
  intros Hk. induction t as [|r t IH]; [done|]. cbn.
  destruct (P r) eqn:E; cbn; rewrite ?Hk by done; destruct (Q r); cbn; by rewrite ?E.
Qed.

Lemma update_none P f t : (forall r, r ∈ t -> P r = false) -> update P f t = t.
Proof.
  intros H. unfold update. rewrite <- (map_id t) at 2. apply map_ext_in.
  intros r Hr%list_elem_of_In. by rewrite H.
Qed.

Lemma update_ext P P' f f' t :
  (forall r, r ∈ t -> P r = P' r) -> (forall r, r ∈ t -> P r = true -> f r = f' r) ->
  update P f t = update P' f' t.
Proof.
  intros HP Hf. apply map_ext_in. intros r Hr%list_elem_of_In.
  rewrite <- HP by done. destruct (P r) eqn:E; auto.
Qed.
End Table.

(** * Sums over a table *)

Definition zsum {A} (f : A -> Z) (t : list A) : Z := foldr (fun r acc => f r + acc) 0 t.

Lemma zsum_cons {A} (f : A -> Z) r t : zsum f (r :: t) = f r + zsum f t.
Proof. done. Qed.
Arguments zsum : simpl never.

Section Sums.
Context {A : Type}.
Implicit Types (f g : A -> Z) (t : list A).

Lemma zsum_ext f g t : (forall r, r ∈ t -> f r = g r) -> zsum f t = zsum g t.
Proof.
  induction t as [|r t IH]; intros H; [done|]. rewrite !zsum_cons.
  rewrite (H r), IH; [done| |]; set_solver.
Qed.

Lemma zsum_app f t1 t2 : zsum f (t1 ++ t2) = zsum f t1 + zsum f t2.
Proof. induction t1; [done|]. cbn; rewrite !zsum_cons. lia. Qed.

Lemma zsum_zero f t : (forall r, r ∈ t -> f r = 0) -> zsum f t = 0.
Proof.
  induction t as [|r t IH]; intros H; [done|]. rewrite zsum_cons, (H r), IH; [done| |]; set_solver.
Qed.

Lemma zsum_nonneg f t : (forall r, r ∈ t -> 0 <= f r) -> 0 <= zsum f t.
Proof.
  induction t as [|r t IH]; intros H; [done|]. rewrite zsum_cons.
  assert (0 <= f r) by (apply H; set_solver).
  assert (0 <= zsum f t) by (apply IH; set_solver). lia.
Qed.

(** Updating the row a key selects changes a sum by that row's change. *)
Lemma zsum_update {K} (key : A -> K) f P (u : A -> A) t r :
  NoDup (key <$> t) -> r ∈ t -> P r = true ->
  (forall r', P r' = true -> key r' = key r) ->
  zsum f (update P u t) = zsum f t + (f (u r) - f r).
Proof.
  intros Hnd Hin HP Hkey. induction t as [|x t IH]; [by apply not_elem_of_nil in Hin|].
  apply NoDup_cons in Hnd as [Hx Hnd].
  change (update P u (x :: t)) with ((if P x then u x else x) :: update P u t).
  rewrite !zsum_cons. destruct (P x) eqn:E.
  - assert (forall r', r' ∈ t -> P r' = false) as Ht.
    { intros r' Hr'. apply not_true_is_false. intros E'. apply Hx.
      rewrite (Hkey x), <- (Hkey r') by done. by apply list_elem_of_fmap_2. }
    apply elem_of_cons in Hin as [->|Hin]; [|by rewrite (Ht r) in HP].
    rewrite update_none by done. lia.
  - apply elem_of_cons in Hin as [->|Hin]; [congruence|].
    rewrite IH by done. lia.
Qed.
End Sums.

(** * Lookups and writes of the airline database *)

Definition find_customer (db : DB) (id : UUID) : option Customer :=
  scalar (fun c => c_id c =? id)%N (customers db).
Definition find_reservation (db : DB) (id : UUID) : option Reservation :=
  scalar (fun r => r_id r =? id)%N (reservations db).
Definition find_flight (db : DB) (id : UUID) : option Flight :=
  scalar (fun f => f_id f =? id)%N (flights db).
Definition find_fare_class (db : DB) (id : UUID) : option FareClass :=
  scalar (fun fc => fc_id fc =? id)%N (fare_classes db).
Definition is_fare (flight_id fare_class_id : UUID) (ff : FlightFare) : bool :=
  (ff_flight_id ff =? flight_id)%N && (ff_fare_class_id ff =? fare_class_id)%N.
Definition find_fare (db : DB) (flight_id fare_class_id : UUID) : option FlightFare :=
  scalar (is_fare flight_id fare_class_id) (flight_fares db).
Definition find_segment (db : DB) (id : UUID) : option ReservationSegment :=
  scalar (fun rs => rs_id rs =? id)%N (reservation_segments db).
Definition find_credit (db : DB) (id : UUID) : option TravelCredit :=
  scalar (fun tc => tc_id tc =? id)%N (travel_credits db).

(** [Reservation.passengers]: passengers joined through [reservation_passengers]. *)
Definition passengers_of (db : DB) (reservation_id : UUID) : list Passenger :=
  flat_map (fun rp => select (fun p => p_id p =? rp_passenger_id rp)%N (passengers db))
    (select (fun rp => rp_reservation_id rp =? reservation_id)%N (reservation_passengers db)).

Definition with_flight_fares (f : list FlightFare -> list FlightFare) (db : DB) : DB :=
  mkDB (customers db) (passengers db) (reservation_passengers db) (reservations db)
    (flights db) (fare_classes db) (f (flight_fares db)) (reservation_segments db)
    (travel_credits db) (flight_changes db).
Definition with_segments (f : list ReservationSegment -> list ReservationSegment) (db : DB) : DB :=
  mkDB (customers db) (passengers db) (reservation_passengers db) (reservations db)
    (flights db) (fare_classes db) (flight_fares db) (f (reservation_segments db))
    (travel_credits db) (flight_changes db).
Definition with_reservations (f : list Reservation -> list Reservation) (db : DB) : DB :=
  mkDB (customers db) (passengers db) (reservation_passengers db) (f (reservations db))
    (flights db) (fare_classes db) (flight_fares db) (reservation_segments db)
    (travel_credits db) (flight_changes db).
Definition with_credits (f : list TravelCredit -> list TravelCredit) (db : DB) : DB :=
  mkDB (customers db) (passengers db) (reservation_passengers db) (reservations db)
    (flights db) (fare_classes db) (flight_fares db) (reservation_segments db)
    (f (travel_credits db)) (flight_changes db).
Definition with_changes (f : list FlightChange -> list FlightChange) (db : DB) : DB :=
  mkDB (customers db) (passengers db) (reservation_passengers db) (reservations db)
    (flights db) (fare_classes db) (flight_fares db) (reservation_segments db)
    (travel_credits db) (f (flight_changes db)).

(** Attribute writes on a row: [row.available_seats = n], ... *)
Definition set_seats (n : Z) (ff : FlightFare) : FlightFare :=
  mkFlightFare (ff_id ff) (ff_flight_id ff) (ff_fare_class_id ff) (ff_price ff)
    (ff_currency ff) n.
Definition set_total (total : Decimal) (at_ : datetime) (r : Reservation) : Reservation :=
  mkReservation (r_id r) (r_booking_reference r) (r_customer_id r) (r_status r) total
    (r_currency r) (r_created_at r) at_.
Definition set_booking (flight_id fare_class_id : UUID) (price : Decimal) (currency : string)
    (status : SegmentStatus) (at_ : datetime) (rs : ReservationSegment) : ReservationSegment :=
  mkReservationSegment (rs_id rs) (rs_reservation_id rs) flight_id fare_class_id status price
    currency (rs_created_at rs) at_.
Definition set_balance (remaining : Decimal) (status : TravelCreditStatus) (tc : TravelCredit) :
    TravelCredit :=
  mkTravelCredit (tc_id tc) (tc_customer_id tc) (tc_original_amount tc) remaining
    (tc_currency tc) status (tc_expires_at tc) (tc_created_at tc).

(** * The declared constraints *)

Definition references {A B} (fk : A -> UUID) (from : list A) (pk : B -> UUID) (to : list B) : Prop :=
  Forall (fun k => k ∈ pk <$> to) (fk <$> from).

Lemma references_elem {A B} (fk : A -> UUID) from (pk : B -> UUID) to a :
  references fk from pk to -> a ∈ from -> fk a ∈ pk <$> to.
Proof. intros H Ha. eapply Forall_forall in H; [exact H|]. by apply list_elem_of_fmap_2. Qed.

Lemma references_update {A B} (fk : A -> UUID) P f from (pk : B -> UUID) to :
  references fk from pk to -> (forall a, P a = true -> fk (f a) ∈ pk <$> to) ->
  references fk (update P f from) pk to.
Proof.
  intros H Hf. apply Forall_forall. intros k (a & -> & Ha)%list_elem_of_fmap.
  apply elem_of_update in Ha as (a0 & Ha0 & ->).
  destruct (P a0) eqn:E; [auto|]. by eapply references_elem.
Qed.

(** Primary keys, unique constraints and foreign keys of the models and of
    [db/schema.sql], which declares [UNIQUE (flight_id, fare_class_id)]. *)
Record schema_ok (db : DB) : Prop := {
  pk_customers : NoDup (c_id <$> customers db);
  pk_passengers : NoDup (p_id <$> passengers db);
  pk_reservation_passengers : NoDup (reservation_passengers db);
  pk_reservations : NoDup (r_id <$> reservations db);
  uq_booking_reference : NoDup (r_booking_reference <$> reservations db);
  pk_flights : NoDup (f_id <$> flights db);
  pk_fare_classes : NoDup (fc_id <$> fare_classes db);
  uq_flight_fares : NoDup ((fun ff => (ff_flight_id ff, ff_fare_class_id ff)) <$> flight_fares db);
  pk_segments : NoDup (rs_id <$> reservation_segments db);
  pk_credits : NoDup (tc_id <$> travel_credits db);
  fk_reservation_customer : references r_customer_id (reservations db) c_id (customers db);
  fk_rp_reservation : references rp_reservation_id (reservation_passengers db) r_id (reservations db);
  fk_rp_passenger : references rp_passenger_id (reservation_passengers db) p_id (passengers db);
  fk_fare_flight : references ff_flight_id (flight_fares db) f_id (flights db);
  fk_fare_class : references ff_fare_class_id (flight_fares db) fc_id (fare_classes db);
  fk_segment_reservation :
    references rs_reservation_id (reservation_segments db) r_id (reservations db);
  fk_segment_flight : references rs_flight_id (reservation_segments db) f_id (flights db);
  fk_segment_fare_class :
    references rs_fare_class_id (reservation_segments db) fc_id (fare_classes db);
  fk_credit_customer : references tc_customer_id (travel_credits db) c_id (customers db) }.

#[export] Instance references_dec {A B} (fk : A -> UUID) from (pk : B -> UUID) to :
  Decision (references fk from pk to).
Proof. unfold references. apply _. Defined.

(** Every booked segment sits on a fare the flight sells (not a declared
    constraint: the foreign keys go to the flight and the fare class alone). *)
Definition segments_on_sale (db : DB) : Prop :=
  Forall (fun rs => is_Some (find_fare db (rs_flight_id rs) (rs_fare_class_id rs)))
    (reservation_segments db).

(** * Transactions *)

(** A row lock a transaction takes with [FOR UPDATE] or an [UPDATE]; an
    [INSERT] claims its primary key ([LChange]) in the same way. *)
Inductive RowLock :=
  | LSegment (id : UUID) | LReservation (id : UUID) | LFlight (id : UUID)
  | LFare (flight_id fare_class_id : UUID) | LCredit (id : UUID) | LChange (id : UUID).

#[export] Instance RowLock_eq_dec : EqDecision RowLock.
Proof. solve_decision. Defined.

(** The state inside a transaction: the tables as the transaction sees them
    and the row locks it holds, in the order it took them. *)
Record Tx := mkTx { tx_db : DB; tx_locks : list RowLock }.

Definition TxM (A : Type) : Type := Tx -> Res (A * Tx).
#[export] Instance TxM_ret : MRet TxM := fun A a tx => Ok (a, tx).
#[export] Instance TxM_bind : MBind TxM := fun A B k m tx =>
  match m tx with Ok (a, tx') => k a tx' | Raise e => Raise e end.

Definition read {A} (q : DB -> A) : TxM A := fun tx => Ok (q (tx_db tx), tx).
Definition write (f : DB -> DB) : TxM unit := fun tx => Ok (tt, mkTx (f (tx_db tx)) (tx_locks tx)).
Definition lift {A} (r : Res A) : TxM A := fun tx =>
  match r with Ok a => Ok (a, tx) | Raise e => Raise e end.
(** Locking a row the transaction already holds changes nothing. *)
Definition acquire (l : RowLock) (held : list RowLock) : list RowLock :=
  if bool_decide (l ∈ held) then held else held ++ [l].
Definition lock_row (l : RowLock) : TxM unit := fun tx =>
  Ok (tt, mkTx (tx_db tx) (acquire l (tx_locks tx))).

(** [async with session.begin(): body]: commit on return, roll back on raise. *)
Definition transaction {A} (body : TxM A) (db : DB) : Res A * DB :=
  match body (mkTx db []) with
  | Ok (a, tx) => (Ok a, tx_db tx)
  | Raise e => (Raise e, db)
  end.

Lemma txm_bind_Ok {A B} (m : TxM A) (k : A -> TxM B) tx r :
  (m ≫= k) tx = Ok r <-> exists a tx', m tx = Ok (a, tx') /\ k a tx' = Ok r.
Proof.
  unfold mbind, TxM_bind. destruct (m tx) as [[a tx']|e].
  - split; [eauto|]. by intros (? & ? & [= -> ->] & ?).
  - split; [done|]. by intros (? & ? & [=] & _).
Qed.

Lemma txm_bind_eq {A B} (m : TxM A) (k : A -> TxM B) tx :
  (m ≫= k) tx = match m tx with Ok (a, tx') => k a tx' | Raise e => Raise e end.
Proof. done. Qed.

(** Run a transaction symbolically: unfold the monad and split on the next
    lookup that is not yet known. *)
Ltac tx_unfold :=
  unfold mbind, TxM_bind, mret, TxM_ret, read, write, lift, lock_row;
  cbn [tx_db tx_locks].
Ltac tx_split :=
  match goal with
  | |- context [or_raise ?o _ _] => destruct o eqn:?; cbn
  end.
