(* ===== verification/Uuid.v ===== *)
(** [str(uuid)] and Python's order on strings, as the sort key of the row
    locks uses them. *)
From Stdlib Require Import Ascii String.
From stdpp Require Import base numbers strings list.
From S2P Require Import Prelude Models.
Local Open Scope N_scope.

Definition hex_digit (d : N) : ascii :=
  match String.get (N.to_nat d) "0123456789abcdef" with
  | Some c => c
  | None => "0"%char
  end.

(** ['%0<w>x' % n]: the [w] low hexadecimal digits of [n]. *)
Fixpoint hex (w : nat) (n : N) : list ascii :=
  match w with
  | O => []
  | S w' => hex w' (n / 16) ++ [hex_digit (n mod 16)]
  end.

(** [UUID.__str__]: the 32 digits split 8-4-4-4-12. *)
Definition uuid_str (u : UUID) : string :=
  let h := hex 32 u in
  string_of_list_ascii
    (firstn 8 h ++ ["-"%char] ++ firstn 4 (skipn 8 h) ++ ["-"%char] ++ firstn 4 (skipn 12 h)
     ++ ["-"%char] ++ firstn 4 (skipn 16 h) ++ ["-"%char] ++ skipn 20 h).

Example uuid_str_example :
  uuid_str 0x00000000000000000400000000000001 = "00000000-0000-0000-0400-000000000001"%string.
Proof. reflexivity. Qed.

Arguments uuid_str : simpl never.

(** A UUID has 128 bits. *)
Definition uuid_ok (u : UUID) : Prop := u < 2 ^ 128.

Lemma length_hex w n : length (hex w n) = w.
Proof. revert n; induction w as [|w IH]; intros n; cbn; [done|]. rewrite length_app, IH; cbn. lia. Qed.

Lemma hex_digit_inj a b : a < 16 -> b < 16 -> hex_digit a = hex_digit b -> a = b.
Proof.
  intros Ha Hb.
  assert (Forall (fun x => Forall (fun y => hex_digit (N.of_nat x) = hex_digit (N.of_nat y) -> x = y)
    (seq 0 16)) (seq 0 16)) as HF by (vm_compute; repeat constructor; intros; congruence).
  intros E. rewrite <- (N2Nat.id a), <- (N2Nat.id b) in E |- *. f_equal.
  rewrite Forall_forall in HF. specialize (HF (N.to_nat a)). rewrite Forall_forall in HF.
  apply HF; [apply elem_of_seq; lia..|done].
Qed.

Lemma hex_inj w n m : n < 16 ^ N.of_nat w -> m < 16 ^ N.of_nat w -> hex w n = hex w m -> n = m.
Proof.
  revert n m; induction w as [|w IH]; intros n m Hn Hm H; cbn in H; [cbn in *; lia|].
  rewrite Nat2N.inj_succ, N.pow_succ_r' in *.
  apply app_inj_tail in H as [H1 H2].
  apply hex_digit_inj in H2; [|apply N.mod_lt; lia..].
  apply IH in H1; [|apply N.Div0.div_lt_upper_bound; lia..].
  rewrite (N.div_mod' n 16), (N.div_mod' m 16). congruence.
Qed.

Lemma split_digits {A} (h1 h2 : list A) a b k :
  length h1 = length h2 ->
  firstn k h1 ++ a = firstn k h2 ++ b -> firstn k h1 = firstn k h2 /\ a = b.
Proof. intros Hl H. apply app_inj_1 in H; [done|]. rewrite !length_firstn. lia. Qed.

Lemma uuid_str_inj u v : uuid_ok u -> uuid_ok v -> uuid_str u = uuid_str v -> u = v.
Proof.
  intros Hu Hv H. apply (hex_inj 32); [done..|].
  unfold uuid_str in H.
  apply (f_equal list_ascii_of_string) in H. rewrite !list_ascii_of_string_of_list_ascii in H.
  pose proof (length_hex 32 u) as Lu. pose proof (length_hex 32 v) as Lv.
  revert Lu Lv H. generalize (hex 32 u) (hex 32 v). clear. intros h1 h2 L1 L2 H.
  apply split_digits in H as [H1 H]; [|congruence]. injection H as H.
  apply split_digits in H as [H2 H]; [|rewrite !length_skipn; congruence]. injection H as H.
  apply split_digits in H as [H3 H]; [|rewrite !length_skipn; congruence]. injection H as H.
  apply split_digits in H as [H4 H]; [|rewrite !length_skipn; congruence]. injection H as H.
  rewrite <- (firstn_skipn 8 h1), <- (firstn_skipn 8 h2). f_equal; [done|].
  rewrite <- (firstn_skipn 4 (skipn 8 h1)), <- (firstn_skipn 4 (skipn 8 h2)).
  f_equal; [done|]. rewrite !skipn_skipn; cbn [Nat.add].
  rewrite <- (firstn_skipn 4 (skipn 12 h1)), <- (firstn_skipn 4 (skipn 12 h2)).
  f_equal; [done|]. rewrite !skipn_skipn; cbn [Nat.add].
  rewrite <- (firstn_skipn 4 (skipn 16 h1)), <- (firstn_skipn 4 (skipn 16 h2)).
  f_equal; [done|]. rewrite !skipn_skipn; cbn [Nat.add]. done.
Qed.

(** * [UUID(text)], of the text [str] gives *)

Definition digit_of (c : ascii) : N :=
  let n := N_of_ascii c in if n <? 58 then n - 48 else n - 87.
Definition of_hex (l : list ascii) : N := foldl (fun acc c => acc * 16 + digit_of c) 0 l.
Definition parse_uuid (s : string) : UUID :=
  of_hex (List.filter (fun c => negb (Ascii.eqb c "-")) (list_ascii_of_string s)).

Definition is_hex_digit (c : ascii) : bool :=
  existsb (Ascii.eqb c) (list_ascii_of_string "0123456789abcdef").

Lemma hex_digit_other c d : d < 16 -> is_hex_digit c = false -> Ascii.eqb (hex_digit d) c = false.
Proof.
  intros Hd Hc. destruct (Ascii.eqb_spec (hex_digit d) c) as [<-|]; [|done].
  assert (Forall (fun x => is_hex_digit (hex_digit (N.of_nat x)) = true) (seq 0 16)) as HF
    by (vm_compute; repeat constructor).
  rewrite Forall_forall in HF. rewrite <- (N2Nat.id d), HF in Hc; [done|]. apply elem_of_seq. lia.
Qed.

Lemma hex_digits w n : Forall (fun c => Ascii.eqb c "-" = false) (hex w n).
Proof.
  revert n; induction w as [|w IH]; intros n; cbn; [constructor|]. apply Forall_app. split; [apply IH|].
  constructor; [|constructor]. apply hex_digit_other; [apply N.mod_lt; lia|done].
Qed.

Lemma of_hex_hex w n : of_hex (hex w n) = n mod 16 ^ N.of_nat w.
Proof.
  revert n; induction w as [|w IH]; intros n; [cbn; by rewrite N.mod_1_r|].
  rewrite Nat2N.inj_succ, N.pow_succ_r'. cbn [hex]. unfold of_hex. rewrite foldl_app. fold (of_hex (hex w (n / 16))).
  rewrite IH. cbn [foldl].
  assert (digit_of (hex_digit (n mod 16)) = n mod 16) as ->.
  { assert (n mod 16 < 16) as Hd by (apply N.mod_lt; lia). revert Hd. generalize (n mod 16). intros d Hd.
    assert (Forall (fun x => digit_of (hex_digit (N.of_nat x)) = N.of_nat x) (seq 0 16)) as HF
      by (vm_compute; repeat constructor).
    rewrite Forall_forall in HF. rewrite <- (N2Nat.id d). apply HF, elem_of_seq. lia. }
  rewrite (N.Div0.mod_mul_r n 16). lia.
Qed.

Lemma parse_uuid_str u : uuid_ok u -> parse_uuid (uuid_str u) = u.
Proof.
  intros Hu. unfold parse_uuid, uuid_str. rewrite list_ascii_of_string_of_list_ascii.
  assert (forall l, Forall (fun c => Ascii.eqb c "-" = false) l ->
    List.filter (fun c => negb (Ascii.eqb c "-")) l = l) as Hkeep.
  { intros l. induction 1 as [|c l Hc _ IH]; cbn; [done|]. by rewrite Hc, IH. }
  pose proof (hex_digits 32 u) as Hd.
  assert (forall k m, Forall (fun c => Ascii.eqb c "-" = false) (firstn k (skipn m (hex 32 u)))) as Hpart
    by (intros; by apply Forall_take, Forall_drop).
  rewrite !List.filter_app, (Hkeep _ (Forall_take _ 8 _ Hd)), !(Hkeep _ (Hpart _ _)),
    (Hkeep _ (Forall_drop _ 20 _ Hd)).
  assert (drop 20 (hex 32 u) = drop 4 (drop 16 (hex 32 u))) as -> by (by rewrite skipn_skipn).
  cbn -[hex firstn skipn of_hex]. rewrite firstn_skipn.
  rewrite of_hex_hex. by apply N.mod_small.
Qed.

(** * The order of a pair of strings: Python compares tuples lexicographically *)

Definition pair_leb (a b : string * string) : bool :=
  match String.compare a.1 b.1 with
  | Lt => true
  | Eq => String.leb a.2 b.2
  | Gt => false
  end.

Lemma pair_leb_total a b : pair_leb a b = true \/ pair_leb b a = true.
Proof.
  unfold pair_leb. rewrite (String.compare_antisym b.1 a.1).
  destruct (String.compare a.1 b.1); cbn; auto. apply String.leb_total.
Qed.

Lemma pair_leb_antisym a b : pair_leb a b = true -> pair_leb b a = true -> a = b.
Proof.
  unfold pair_leb. rewrite (String.compare_antisym b.1 a.1).
  destruct (String.compare a.1 b.1) eqn:E; cbn; try done.
  apply String.compare_eq_iff in E. intros H1 H2.
  pose proof (String.leb_antisym _ _ H1 H2). destruct a, b; cbn in *; congruence.
Qed.

(** The strict order behind [pair_leb]. *)
Definition str_lt (s t : string) : Prop := String.compare s t = Lt.
Definition pair_lt (a b : string * string) : Prop :=
  str_lt a.1 b.1 \/ a.1 = b.1 /\ str_lt a.2 b.2.

Lemma str_compare_refl s : String.compare s s = Eq.
Proof. pose proof (String.compare_antisym s s) as H. by destruct (String.compare s s). Qed.

#[export] Instance str_lt_irrefl : Irreflexive str_lt.
Proof. intros s. unfold str_lt, complement. by rewrite str_compare_refl. Qed.

#[export] Instance str_lt_trans : Transitive str_lt.
Proof.
  intros x. unfold str_lt. induction x as [|a x IH]; intros [|b y] [|c z]; cbn; try done.
  unfold Ascii.compare.
  destruct (N.compare_spec (N_of_ascii a) (N_of_ascii b)),
    (N.compare_spec (N_of_ascii b) (N_of_ascii c)),
    (N.compare_spec (N_of_ascii a) (N_of_ascii c)); try done; try lia. apply IH.
Qed.

#[export] Instance pair_lt_irrefl : Irreflexive pair_lt.
Proof. intros a [H|[_ H]]; by apply str_lt_irrefl in H. Qed.

#[export] Instance pair_lt_trans : Transitive pair_lt.
Proof.
  intros a b c [H1|[E1 H1]] [H2|[E2 H2]]; unfold pair_lt.
  - left. by etrans.
  - rewrite <- E2. by left.
  - rewrite E1. by left.
  - right. split; [congruence|by etrans].
Qed.

Lemma pair_leb_iff a b : pair_leb a b = true <-> a = b \/ pair_lt a b.
Proof.
  unfold pair_leb, pair_lt, str_lt, String.leb. destruct a as [a1 a2], b as [b1 b2]; cbn.
  destruct (String.compare a1 b1) eqn:E1.
  - apply String.compare_eq_iff in E1 as ->. destruct (String.compare a2 b2) eqn:E2.
    + apply String.compare_eq_iff in E2 as ->. naive_solver.
    + naive_solver.
    + split; [done|]. intros [[= ->]|[?|[_ ?]]]; try done.
      by rewrite str_compare_refl in E2.
  - naive_solver.
  - split; [done|]. intros [[= -> ->]|[?|[-> ?]]]; try done; by rewrite str_compare_refl in E1.
Qed.
