(* ===== verification/Repositories.v ===== *)
(** The SQLAlchemy read repositories: [app/airline/repository/customer.py],
    [reservation.py], [flight.py], [travel_credit.py] and [flight_change.py].

    Every method is one query on one state of the database.  A join is the
    product of the joined tables filtered by its condition; [ORDER BY] is a
    stable sort of the rows in their (arbitrary) physical order; a row that a
    required relation does not find makes pydantic raise [ValidationError]. *)
From stdpp Require Import base numbers strings list sets sorting.
From S2P Require Import Prelude Models Database.
Local Open Scope Z_scope.
Local Open Scope bool_scope.

Definition customer_get_by_id (db : DB) (customer_id : UUID) : Res Customer :=
  or_raise (find_customer db customer_id) CustomerNotFoundError "customer not found".

(** * ReservationRepository *)

Definition segment_details (db : DB) (segment : ReservationSegment) :
    Res ReservationSegmentDetailsSchema :=
  flight ← or_raise (find_flight db (rs_flight_id segment)) ValidationError "flight";
  fare_class ← or_raise (find_fare_class db (rs_fare_class_id segment)) ValidationError "fare_class";
  mret (mkSegmentDetails segment flight fare_class).

Definition get_details_by_booking_reference (db : DB) (booking_reference : string) :
    Res ReservationDetailsSchema :=
  match select (fun r => r_booking_reference r =? booking_reference)%string (reservations db) with
  | [] => raise ReservationNotFoundError "reservation not found"
  | [reservation] =>
      segments ← mapM (segment_details db)
        (select (fun rs => rs_reservation_id rs =? r_id reservation)%N (reservation_segments db));
      customer ← or_raise (find_customer db (r_customer_id reservation)) ValidationError "customer";
      mret (mkReservationDetails reservation customer (passengers_of db (r_id reservation)) segments)
  | _ => raise InfraError "MultipleResultsFound"
  end.

(** The segment with its loaded [fare_class]. *)
Definition get_segment_by_id (db : DB) (segment_id : UUID) :
    Res (ReservationSegment * option FareClass) :=
  segment ← or_raise (find_segment db segment_id) SegmentNotFoundError "reservation segment not found";
  mret (segment, find_fare_class db (rs_fare_class_id segment)).

(** * FlightRepository *)

Definition flight_get_by_id (db : DB) (flight_id : UUID) : Res Flight :=
  or_raise (find_flight db flight_id) FlightNotFoundError "flight not found".

Record FareRow := mkFareRow { jr_fare : FlightFare; jr_flight : Flight; jr_class : FareClass }.

(** [FROM flight_fares JOIN flights JOIN fare_classes]. *)
Definition fare_rows (db : DB) : list FareRow :=
  flat_map (fun ff =>
    flat_map (fun f =>
      (fun c => mkFareRow ff f c) <$> select (fun c => fc_id c =? ff_fare_class_id ff)%N (fare_classes db))
      (select (fun f => f_id f =? ff_flight_id ff)%N (flights db)))
    (flight_fares db).

Definition available (params : SearchAvailableFlightsParamsSchema) (row : FareRow) : bool :=
  let f := jr_flight row in
  (f_origin_airport f =? sp_origin params)%string
  && (f_destination_airport f =? sp_destination params)%string
  && (sp_departure_from params <=? f_departure_at f)
  && (f_departure_at f <=? sp_departure_to params)
  && bool_decide (f_status f = F_SCHEDULED)
  && (sp_passenger_count params <=? ff_available_seats (jr_fare row)).

(** [order_by(a, b)]. *)
Definition lex_leb (a b : Z * Z) : bool := (a.1 <? b.1) || ((a.1 =? b.1) && (a.2 <=? b.2)).
Definition order_by {A} (key : A -> Z * Z) (rows : list A) : list A :=
  sort_by (fun x y => lex_leb (key x) (key y)) rows.

(** [results.setdefault(flight.id, ...).fares.append(...)] on the dict's values. *)
Fixpoint add_fare (row : FareRow) (results : list AvailableFlightSchema) : list AvailableFlightSchema :=
  let fare := mkAvailableFare (jr_class row) (jr_fare row) in
  match results with
  | [] => [mkAvailableFlight (jr_flight row) [fare]]
  | r :: results' =>
      if (f_id (avf_flight r) =? f_id (jr_flight row))%N then
        mkAvailableFlight (avf_flight r) (avf_fares r ++ [fare]) :: results'
      else r :: add_fare row results'
  end.

Definition search_available (db : DB) (params : SearchAvailableFlightsParamsSchema) :
    list AvailableFlightSchema :=
  foldl (fun results row => add_fare row results) []
    (order_by (fun row => (f_departure_at (jr_flight row), ff_price (jr_fare row)))
       (select (available params) (fare_rows db))).

(** * TravelCreditRepository and FlightChangeRepository *)

Definition get_available_by_customer (db : DB) (now : datetime) (customer_id : UUID)
    (currency : string) : list TravelCredit :=
  order_by (fun c => (tc_expires_at c, tc_created_at c))
    (select (fun c => (tc_customer_id c =? customer_id)%N && (tc_currency c =? currency)%string
       && (0 <? tc_remaining_amount c) && (now <? tc_expires_at c)
       && (bool_decide (tc_status c = C_AVAILABLE) || bool_decide (tc_status c = C_PARTIALLY_USED)))
       (travel_credits db)).

Definition get_by_segment (db : DB) (segment_id : UUID) : list FlightChange :=
  order_by (fun c => (ch_created_at c, 0))
    (select (fun c => ch_reservation_segment_id c =? segment_id)%N (flight_changes db)).

(** * What the queries return *)

Lemma elem_of_select {A} (P : A -> bool) t r : r ∈ select P t <-> r ∈ t /\ P r = true.
Proof. rewrite !list_elem_of_In. apply List.filter_In. Qed.

Lemma elem_of_flat_map {A B} (f : A -> list B) l b : b ∈ flat_map f l <-> exists a, a ∈ l /\ b ∈ f a.
Proof. rewrite list_elem_of_In, in_flat_map. by setoid_rewrite list_elem_of_In. Qed.

Lemma elem_of_order_by {A} (key : A -> Z * Z) rows r : r ∈ order_by key rows <-> r ∈ rows.
Proof. unfold order_by. by rewrite sort_by_perm. Qed.

Lemma order_by_sorted {A} (key : A -> Z * Z) rows :
  StronglySorted (fun x y => lex_leb (key x) (key y) = true) (order_by key rows).
Proof.
  apply sort_by_sorted; intros; unfold lex_leb in *;
    repeat match goal with
    | Hyp : _ |- _ => rewrite orb_true_iff, andb_true_iff, Z.ltb_lt, Z.eqb_eq, Z.leb_le in Hyp
    end;
    rewrite ?orb_true_iff, ?andb_true_iff, ?Z.ltb_lt, ?Z.eqb_eq, ?Z.leb_le; lia.
Qed.

Lemma elem_of_fare_rows db row :
  row ∈ fare_rows db <->
  jr_fare row ∈ flight_fares db /\ jr_flight row ∈ flights db /\ jr_class row ∈ fare_classes db
  /\ f_id (jr_flight row) = ff_flight_id (jr_fare row)
  /\ fc_id (jr_class row) = ff_fare_class_id (jr_fare row).
Proof.
  unfold fare_rows. rewrite elem_of_flat_map. setoid_rewrite elem_of_flat_map.
  setoid_rewrite list_elem_of_fmap. setoid_rewrite elem_of_select. setoid_rewrite N.eqb_eq.
  destruct row as [ff f c]; cbn. split.
  - intros (? & ? & ? & ? & ? & [= -> -> ->] & ?). tauto.
  - intros (? & ? & ? & ? & ?). eauto 12.
Qed.

(** * Grouping the rows by flight *)

(** The rows of the groups. *)
Definition group_rows (r : AvailableFlightSchema) : list FareRow :=
  (fun a => mkFareRow (af_flight_fare a) (avf_flight r) (af_fare_class a)) <$> avf_fares r.

Lemma group_rows_snoc r row : avf_flight r = jr_flight row ->
  group_rows (mkAvailableFlight (avf_flight r)
                (avf_fares r ++ [mkAvailableFare (jr_class row) (jr_fare row)]))
  = group_rows r ++ [row].
Proof. intros E. unfold group_rows; cbn. rewrite fmap_app, E. by destruct row. Qed.

Lemma add_fare_rows row results :
  (forall r, r ∈ results -> f_id (avf_flight r) = f_id (jr_flight row) -> avf_flight r = jr_flight row) ->
  flat_map group_rows (add_fare row results) ≡ₚ row :: flat_map group_rows results.
Proof.
  induction results as [|r results IH]; intros Hkey; cbn; [by destruct row|].
  destruct (f_id (avf_flight r) =? f_id (jr_flight row))%N eqn:E.
  - apply N.eqb_eq, (Hkey r) in E; [|set_solver].
    change (group_rows (mkAvailableFlight (avf_flight r)
      (avf_fares r ++ [mkAvailableFare (jr_class row) (jr_fare row)]))
      ++ flat_map group_rows results ≡ₚ row :: group_rows r ++ flat_map group_rows results).
    rewrite group_rows_snoc by done. rewrite <- app_assoc. symmetry. apply Permutation_middle.
  - cbn. rewrite IH by (intros; apply Hkey; set_solver). by rewrite Permutation_middle.
Qed.

Lemma add_fare_flights row results r : r ∈ add_fare row results ->
  avf_flight r = jr_flight row \/ exists r', r' ∈ results /\ avf_flight r = avf_flight r'.
Proof.
  induction results as [|r0 results IH]; cbn.
  - intros ->%list_elem_of_singleton. by left.
  - destruct (f_id (avf_flight r0) =? f_id (jr_flight row))%N.
    + intros [->|Hr]%elem_of_cons; right; [exists r0|exists r]; set_solver.
    + intros [->|Hr]%elem_of_cons; [right; exists r0; set_solver|].
      destruct (IH Hr) as [?|(r' & ? & ?)]; [by left|right; exists r'; set_solver].
Qed.

(** When a flight id names one flight, grouping loses and invents no row. *)
Lemma grouped_rows rows :
  (forall a b, a ∈ rows -> b ∈ rows -> f_id (jr_flight a) = f_id (jr_flight b) ->
     jr_flight a = jr_flight b) ->
  flat_map group_rows (foldl (fun results row => add_fare row results) [] rows) ≡ₚ rows.
Proof.
  intros Hid.
  enough (forall results done_, (forall r, r ∈ results -> exists a, a ∈ done_ /\ avf_flight r = jr_flight a) ->
    (forall a b, a ∈ done_ ++ rows -> b ∈ done_ ++ rows -> f_id (jr_flight a) = f_id (jr_flight b) ->
       jr_flight a = jr_flight b) ->
    flat_map group_rows (foldl (fun results row => add_fare row results) results rows)
    ≡ₚ flat_map group_rows results ++ rows) as Hgen.
  { apply (Hgen [] []); [set_solver|done]. }
  clear Hid. induction rows as [|row rows IH]; intros results done_ Hres Hid; cbn; [by rewrite app_nil_r|].
  rewrite (IH _ (row :: done_)).
  - rewrite add_fare_rows; [cbn; apply Permutation_middle|].
    intros r Hr Heq. destruct (Hres r Hr) as (a & Ha & Hf). rewrite Hf in *.
    apply Hid; [set_solver..|done].
  - intros r [->|(r' & Hr' & ->)]%add_fare_flights; [exists row; set_solver|].
    destruct (Hres _ Hr') as (a & Ha & ->). exists a; set_solver.
  - intros a b Ha Hb. apply Hid; set_solver.
Qed.

Lemma flight_unique db f f' : schema_ok db -> f ∈ flights db -> f' ∈ flights db ->
  f_id f = f_id f' -> f = f'.
Proof.
  intros Hdb Hf Hf' Heq.
  apply list_elem_of_lookup in Hf as [i Hi], Hf' as [j Hj].
  assert (i = j) as ->; [|congruence].
  eapply (NoDup_lookup _ _ _ (f_id f) (pk_flights _ Hdb)); rewrite list_lookup_fmap.
  - by rewrite Hi.
  - rewrite Hj; cbn. by rewrite Heq.
Qed.

(** The rows [search_available] returns. *)
Lemma search_available_rows db params row : schema_ok db ->
  row ∈ flat_map group_rows (search_available db params) <->
  row ∈ fare_rows db /\ available params row = true.
Proof.
  intros Hdb. unfold search_available. rewrite grouped_rows.
  - by rewrite elem_of_order_by, elem_of_select.
  - intros a b. rewrite !elem_of_order_by, !elem_of_select, !elem_of_fare_rows.
    intros [(_ & Ha & _) _] [(_ & Hb & _) _]. by apply (flight_unique db).
Qed.
