(* ===== verification/OrmRebooking.v ===== *)
(** The SQLAlchemy rebooking repository: [app/airline/repository/rebooking.py].

    [_target], [_lock_fares], [_snapshot], [get_snapshot], [execute] and
    [verify] follow the methods of [RebookingRepository] statement by
    statement.  Inside one transaction the session sees its own writes, so an
    attribute write on an entity is an update of its row.  The row locks of
    [with_for_update] are recorded in [tx_locks]. *)
From stdpp Require Import base numbers strings list sets.
From S2P Require Import Prelude Models Rules Database Uuid.
Local Open Scope Z_scope.
Local Open Scope bool_scope.

(** What one call reads from outside the database, in execution order: the
    clock in the rule check and the three [datetime.now(UTC)] and the
    [uuid4()] of the writes. *)
Record Ambient := mkAmbient {
  am_now_validate : datetime; am_now_segment : datetime; am_now_reservation : datetime;
  am_change_id : UUID; am_now_change : datetime }.

Definition Validate : Type :=
  RebookingSelectionSchema -> RebookingSnapshotSchema -> option TravelCreditSchema ->
  Res RebookingValidationSchema.

(** A fare with its joined flight and fare class; the outer joins of
    [joinedload] give [None] when the related row is missing. *)
Record TargetRow := mkTargetRow {
  tg_fare : FlightFare; tg_flight : option Flight; tg_fare_class : option FareClass }.

Definition lock_if (lock : bool) (l : RowLock) : TxM unit :=
  if lock then lock_row l else mret tt.

(** [None.attr] raises [AttributeError]. *)
Definition not_none {A} (o : option A) : TxM A :=
  lift (or_raise o AttributeError "'NoneType' object has no attribute").

Definition _target (selection : RebookingSelectionSchema) (lock : bool) : TxM TargetRow :=
  target ← read (fun db =>
    fare ← find_fare db (sel_new_flight_id selection) (sel_new_fare_class_id selection);
    Some (mkTargetRow fare (find_flight db (ff_flight_id fare))
            (find_fare_class db (ff_fare_class_id fare))));
  target ← lift (or_raise target FlightNotFoundError "target flight or fare not found");
  lock_if lock (LFare (ff_flight_id (tg_fare target)) (ff_fare_class_id (tg_fare target)));;
  mret target.

(** [sorted({old, new}, key=lambda item: (str(item[0]), str(item[1])))]. *)
Definition fare_key (k : UUID * UUID) : string * string := (uuid_str k.1, uuid_str k.2).
Definition key_leb (a b : UUID * UUID) : bool := pair_leb (fare_key a) (fare_key b).
Definition lock_keys (old new : UUID * UUID) : list (UUID * UUID) :=
  sort_by key_leb (if bool_decide (old = new) then [old] else [old; new]).

Definition lock_fare (k : UUID * UUID) : TxM unit :=
  row ← read (fun db => find_fare db k.1 k.2);
  match row with Some _ => lock_row (LFare k.1 k.2) | None => mret tt end.

Fixpoint for_each {A} (f : A -> TxM unit) (l : list A) : TxM unit :=
  match l with [] => mret tt | x :: l' => f x;; for_each f l' end.

Definition _lock_fares (old_flight_id old_fare_class_id : UUID)
    (selection : RebookingSelectionSchema) : TxM unit :=
  for_each lock_fare
    (lock_keys (old_flight_id, old_fare_class_id)
               (sel_new_flight_id selection, sel_new_fare_class_id selection)).

(** The keyword arguments of [RebookingSnapshotSchema(...)]. *)
Definition make_snapshot (segment : ReservationSegment) (reservation : Reservation)
    (flight : Flight) (fare_class : FareClass) (target : FlightFare) (target_flight : Flight)
    (target_class : FareClass) (passenger_count : Z) : RebookingSnapshotSchema := {|
  sn_segment_id := rs_id segment;
  sn_reservation_id := rs_reservation_id segment;
  sn_customer_id := r_customer_id reservation;
  sn_old_flight_id := rs_flight_id segment;
  sn_old_fare_class_id := rs_fare_class_id segment;
  sn_segment_status := rs_status segment;
  sn_reservation_status := r_status reservation;
  sn_old_flight_status := f_status flight;
  sn_origin_airport := f_origin_airport flight;
  sn_destination_airport := f_destination_airport flight;
  sn_old_departure_at := f_departure_at flight;
  sn_old_price := rs_price_paid segment;
  sn_old_currency := rs_currency segment;
  sn_old_change_allowed := fc_change_allowed fare_class;
  sn_target_flight_id := ff_flight_id target;
  sn_target_fare_class_id := ff_fare_class_id target;
  sn_target_status := f_status target_flight;
  sn_target_origin := f_origin_airport target_flight;
  sn_target_destination := f_destination_airport target_flight;
  sn_target_departure_at := f_departure_at target_flight;
  sn_target_price := ff_price target;
  sn_target_currency := ff_currency target;
  sn_available_seats := ff_available_seats target;
  sn_target_change_allowed := fc_change_allowed target_class;
  sn_target_change_fee := fc_change_fee target_class;
  sn_passenger_count := passenger_count |}.

Definition _snapshot (selection : RebookingSelectionSchema) (lock : bool) :
    TxM (RebookingSnapshotSchema * option TravelCreditSchema) :=
  segment ← read (fun db => find_segment db (sel_segment_id selection));
  segment ← lift (or_raise segment SegmentNotFoundError "reservation segment not found");
  lock_if lock (LSegment (rs_id segment));;
  target ← _target selection false;
  reservation ← read (fun db => find_reservation db (rs_reservation_id segment));
  reservation ← not_none reservation;
  passengers ← read (fun db => passengers_of db (r_id reservation));
  flight ← read (fun db => find_flight db (rs_flight_id segment));
  flight ← not_none flight;
  fare_class ← read (fun db => find_fare_class db (rs_fare_class_id segment));
  fare_class ← not_none fare_class;
  target_flight ← not_none (tg_flight target);
  target_class ← not_none (tg_fare_class target);
  let snapshot := make_snapshot segment reservation flight fare_class (tg_fare target)
    target_flight target_class (Z.of_nat (length passengers)) in
  match sel_travel_credit_id selection with
  | None => mret (snapshot, None)
  | Some credit_id =>
      credit ← read (fun db => find_credit db credit_id);
      credit ← lift (or_raise credit TravelCreditNotFoundError "travel credit not found");
      lock_if lock (LCredit credit_id);;
      mret (snapshot, Some credit)
  end.

Definition get_snapshot (db : DB) (selection : RebookingSelectionSchema) :
    Res (RebookingSnapshotSchema * option TravelCreditSchema) :=
  fst (transaction (_snapshot selection false) db).

(** [session.add(change); await session.flush()].  The flush sends the pending
    [UPDATE]s, which lock their rows: the reservation's is the only one not
    locked yet.  A repeated primary key of the [INSERT] is an [IntegrityError]
    of the database driver. *)
Definition flush (reservation : Reservation) (change : FlightChange) : TxM unit :=
  lock_row (LReservation (r_id reservation));;
  ids ← read (fun db => ch_id <$> flight_changes db);
  if bool_decide (ch_id change ∈ ids) then lift (raise InfraError "IntegrityError")
  else write (with_changes (fun t => t ++ [change])).

(** The blocks of [execute]'s transaction, in the order it runs them. *)

(** The seat check and [target.available_seats -= validation.passenger_count]. *)
Definition take_seats (validation : RebookingValidationSchema) (target : TargetRow) : TxM unit :=
  if ff_available_seats (tg_fare target) <? va_passenger_count validation then
    lift (raise ValueError "target flight does not have enough seats")
  else
    write (with_flight_fares (update
      (is_fare (ff_flight_id (tg_fare target)) (ff_fare_class_id (tg_fare target)))
      (fun ff => set_seats (ff_available_seats ff - va_passenger_count validation) ff))).

(** The original fare, locked, gets its seats back. *)
Definition release_seats (validation : RebookingValidationSchema) : TxM unit :=
  old_fare ← read (fun db =>
    find_fare db (va_old_flight_id validation) (va_old_fare_class_id validation));
  old_fare ← lift (or_raise old_fare FlightNotFoundError "original fare not found");
  lock_row (LFare (va_old_flight_id validation) (va_old_fare_class_id validation));;
  write (with_flight_fares (update
    (is_fare (ff_flight_id old_fare) (ff_fare_class_id old_fare))
    (fun ff => set_seats (ff_available_seats ff + va_passenger_count validation) ff))).

(** The attribute writes on [segment] and [reservation]; returns both entities. *)
Definition book_segment (am : Ambient) (selection : RebookingSelectionSchema)
    (validation : RebookingValidationSchema) : TxM (ReservationSegment * Reservation) :=
  segment ← read (fun db => find_segment db (sel_segment_id selection));
  reservation ← read (fun db => find_reservation db (va_reservation_id validation));
  '(segment, reservation) ← lift (or_raise (s ← segment; r ← reservation; Some (s, r))
    SegmentNotFoundError "reservation segment not found");
  let booked := set_booking (va_new_flight_id validation)
    (va_new_fare_class_id validation) (va_new_price validation) (va_currency validation)
    S_CHANGED (am_now_segment am) in
  write (with_segments (update (fun s => rs_id s =? rs_id segment)%N booked));;
  write (with_reservations (update (fun r => r_id r =? r_id reservation)%N
    (fun r => set_total (r_total_amount r + (va_fare_difference validation
                           + va_change_fee validation - va_travel_credit_used validation))
                (am_now_reservation am) r)));;
  mret (booked segment, reservation).

(** The travel credit, when the selection names one. *)
Definition consume_credit (selection : RebookingSelectionSchema) : TxM unit :=
  match sel_travel_credit_id selection with
  | None => mret tt
  | Some credit_id =>
      credit_entity ← read (fun db => find_credit db credit_id);
      credit_entity ← lift (or_raise credit_entity TravelCreditNotFoundError
                              "travel credit not found");
      lock_row (LCredit credit_id);;
      let remaining := tc_remaining_amount credit_entity - sel_travel_credit_amount selection in
      write (with_credits (update (fun c => tc_id c =? credit_id)%N
        (set_balance remaining (if remaining =? 0 then C_USED else C_PARTIALLY_USED))))
  end.

(** The [FlightChange(...)] the transaction adds. *)
Definition change_of (am : Ambient) (selection : RebookingSelectionSchema)
    (validation : RebookingValidationSchema) : FlightChange := {|
  ch_id := am_change_id am;
  ch_reservation_segment_id := sel_segment_id selection;
  ch_old_flight_id := va_old_flight_id validation;
  ch_new_flight_id := va_new_flight_id validation;
  ch_old_fare_class_id := va_old_fare_class_id validation;
  ch_new_fare_class_id := va_new_fare_class_id validation;
  ch_fare_difference := va_fare_difference validation;
  ch_change_fee := va_change_fee validation;
  ch_travel_credit_used := va_travel_credit_used validation;
  ch_currency := va_currency validation;
  ch_created_at := am_now_change am |}.

(** The body of [execute]'s [session.begin()] block. *)
Definition execute_body (am : Ambient) (validate : Validate)
    (selection : RebookingSelectionSchema) : TxM RebookingResultSchema :=
  '(snapshot, credit) ← _snapshot selection true;
  _lock_fares (sn_old_flight_id snapshot) (sn_old_fare_class_id snapshot) selection;;
  '(snapshot, credit) ← _snapshot selection true;
  validation ← lift (validate selection snapshot credit);
  target ← _target selection true;
  take_seats validation target;;
  release_seats validation;;
  '(segment, reservation) ← book_segment am selection validation;
  consume_credit selection;;
  flush reservation (change_of am selection validation);;
  mret {| rr_change := Some (change_of am selection validation); rr_segment := segment;
          rr_booking_reference := r_booking_reference reservation |}.

Definition execute (am : Ambient) (validate : Validate) (selection : RebookingSelectionSchema)
    (db : DB) : Res RebookingResultSchema * DB :=
  transaction (execute_body am validate selection) db.

Definition verify (db : DB) (selection : RebookingSelectionSchema) : Res RebookingResultSchema :=
  segment ← or_raise (find_segment db (sel_segment_id selection))
              SegmentNotFoundError "reservation segment not found";
  if negb (rs_flight_id segment =? sel_new_flight_id selection)%N
     || negb (rs_fare_class_id segment =? sel_new_fare_class_id selection)%N
     || negb (bool_decide (rs_status segment = S_CHANGED)) then
    raise RebookingVerificationError "rebooking verification failed"
  else
    reservation ← or_raise (find_reservation db (rs_reservation_id segment))
                    RebookingVerificationError "rebooking reservation not found";
    Ok {| rr_change := None; rr_segment := segment;
          rr_booking_reference := r_booking_reference reservation |}.

(** * The snapshot *)

Section Snapshot.
Context (sel : RebookingSelectionSchema).

(** The locks a locking snapshot takes. *)
Definition credit_lock (held : list RowLock) : list RowLock :=
  match sel_travel_credit_id sel with
  | Some c => acquire (LCredit c) held
  | None => held
  end.
Definition snapshot_locks (held : list RowLock) : list RowLock :=
  credit_lock (acquire (LSegment (sel_segment_id sel)) held).

(** Locking does not change what a snapshot reads: it is a function of the
    tables, and it writes nothing. *)
Lemma snapshot_run lock tx :
  _snapshot sel lock tx =
  match get_snapshot (tx_db tx) sel with
  | Ok a => Ok (a, mkTx (tx_db tx) (if lock then snapshot_locks (tx_locks tx) else tx_locks tx))
  | Raise e => Raise e
  end.
Proof.
  destruct tx as [db held].
  unfold get_snapshot, transaction, _snapshot, _target, not_none, lock_if, snapshot_locks, credit_lock.
  destruct (find_segment db (sel_segment_id sel)) as [seg|] eqn:Hseg;
    tx_unfold; rewrite Hseg; cbn; [|done].
  assert (rs_id seg = sel_segment_id sel) as Hid.
  { apply scalar_Some in Hseg as [_ ?]. by apply N.eqb_eq. }
  rewrite Hid. destruct lock, (sel_travel_credit_id sel); cbn; repeat (tx_split; try done).
Qed.

(** The rows a snapshot is made of. *)
Record SnapshotRows (db : DB) (seg : ReservationSegment) (r : Reservation) (f : Flight)
    (fc : FareClass) (ff : FlightFare) (tf : Flight) (tc : FareClass)
    (credit : option TravelCredit) : Prop := {
  row_segment : find_segment db (sel_segment_id sel) = Some seg;
  row_reservation : find_reservation db (rs_reservation_id seg) = Some r;
  row_flight : find_flight db (rs_flight_id seg) = Some f;
  row_fare_class : find_fare_class db (rs_fare_class_id seg) = Some fc;
  row_fare : find_fare db (sel_new_flight_id sel) (sel_new_fare_class_id sel) = Some ff;
  row_target_flight : find_flight db (ff_flight_id ff) = Some tf;
  row_target_class : find_fare_class db (ff_fare_class_id ff) = Some tc;
  row_credit :
    match sel_travel_credit_id sel with
    | Some id => exists c, find_credit db id = Some c /\ credit = Some c
    | None => credit = None
    end }.

Lemma get_snapshot_rows db sn credit :
  get_snapshot db sel = Ok (sn, credit) ->
  exists seg r f fc ff tf tc, SnapshotRows db seg r f fc ff tf tc credit /\
    sn = make_snapshot seg r f fc ff tf tc (Z.of_nat (length (passengers_of db (r_id r)))).
Proof.
  unfold get_snapshot, transaction, _snapshot, _target, not_none, lock_if. tx_unfold.
  destruct (find_segment db (sel_segment_id sel)) as [seg|] eqn:Hseg; cbn; [|done].
  destruct (find_fare db _ _) as [ff|] eqn:Hff; cbn; [|done].
  destruct (find_reservation db _) as [r|] eqn:Hr; cbn; [|done].
  destruct (find_flight db (rs_flight_id seg)) as [f|] eqn:Hf; cbn; [|done].
  destruct (find_fare_class db (rs_fare_class_id seg)) as [fc|] eqn:Hfc; cbn; [|done].
  destruct (find_flight db (ff_flight_id ff)) as [tf|] eqn:Htf; cbn; [|done].
  destruct (find_fare_class db (ff_fare_class_id ff)) as [tc|] eqn:Htc; cbn; [|done].
  destruct (sel_travel_credit_id sel) as [id|] eqn:Hid; cbn.
  - destruct (find_credit db id) as [c|] eqn:Hc; cbn; [|done]. intros [= <- <-].
    exists seg, r, f, fc, ff, tf, tc. split; [|done]. split; try done. rewrite Hid. eauto.
  - intros [= <- <-]. exists seg, r, f, fc, ff, tf, tc. split; [|done]. split; try done.
    by rewrite Hid.
Qed.
End Snapshot.

(** * Row facts from the schema's keys *)

Lemma find_segment_id db id seg : find_segment db id = Some seg -> rs_id seg = id.
Proof. intros [_ ?]%scalar_Some. by apply N.eqb_eq. Qed.
Lemma find_reservation_id db id r : find_reservation db id = Some r -> r_id r = id.
Proof. intros [_ ?]%scalar_Some. by apply N.eqb_eq. Qed.
Lemma find_credit_id db id c : find_credit db id = Some c -> tc_id c = id.
Proof. intros [_ ?]%scalar_Some. by apply N.eqb_eq. Qed.
Lemma is_fare_iff fl fc ff :
  is_fare fl fc ff = true <-> ff_flight_id ff = fl /\ ff_fare_class_id ff = fc.
Proof. unfold is_fare. by autorewrite with py_bool. Qed.
Lemma find_fare_key db fl fc ff :
  find_fare db fl fc = Some ff -> ff_flight_id ff = fl /\ ff_fare_class_id ff = fc.
Proof. intros [_ ?]%scalar_Some. by apply is_fare_iff. Qed.

#[export] Hint Resolve find_segment_id find_reservation_id find_credit_id find_fare_key : py.

(** * What [execute] does *)

Lemma target_run sel lock db held ff :
  find_fare db (sel_new_flight_id sel) (sel_new_fare_class_id sel) = Some ff ->
  _target sel lock (mkTx db held) =
  Ok (mkTargetRow ff (find_flight db (ff_flight_id ff)) (find_fare_class db (ff_fare_class_id ff)),
      mkTx db (if lock then acquire (LFare (ff_flight_id ff) (ff_fare_class_id ff)) held else held)).
Proof. intros Hff. unfold _target. tx_unfold. rewrite Hff. by destruct lock. Qed.

Fixpoint acquire_fares (db : DB) (keys : list (UUID * UUID)) (held : list RowLock) : list RowLock :=
  match keys with
  | [] => held
  | k :: keys' =>
      acquire_fares db keys'
        (match find_fare db k.1 k.2 with Some _ => acquire (LFare k.1 k.2) held | None => held end)
  end.

Lemma for_each_lock_fare keys tx :
  for_each lock_fare keys tx = Ok (tt, mkTx (tx_db tx) (acquire_fares (tx_db tx) keys (tx_locks tx))).
Proof.
  revert tx. induction keys as [|k keys IH]; intros [db held]; [done|].
  cbn [for_each acquire_fares tx_db tx_locks].
  rewrite txm_bind_eq. unfold lock_fare at 1. tx_unfold.
  destruct (find_fare db k.1 k.2); cbn; apply IH.
Qed.

Definition book (am : Ambient) (v : RebookingValidationSchema) : ReservationSegment -> ReservationSegment :=
  set_booking (va_new_flight_id v) (va_new_fare_class_id v) (va_new_price v) (va_currency v)
    S_CHANGED (am_now_segment am).

Definition spend (amount : Decimal) (c : TravelCredit) : TravelCredit :=
  set_balance (tc_remaining_amount c - amount)
    (if tc_remaining_amount c - amount =? 0 then C_USED else C_PARTIALLY_USED) c.

Definition add_seats (n : Z) (ff : FlightFare) : FlightFare :=
  set_seats (ff_available_seats ff + n) ff.

Definition charge (am : Ambient) (v : RebookingValidationSchema) (r : Reservation) : Reservation :=
  set_total (r_total_amount r + (va_fare_difference v + va_change_fee v - va_travel_credit_used v))
    (am_now_reservation am) r.

Definition spend_credit (sel : RebookingSelectionSchema) : list TravelCredit -> list TravelCredit :=
  match sel_travel_credit_id sel with
  | Some id => update (fun c => tc_id c =? id)%N (spend (sel_travel_credit_amount sel))
  | None => id
  end.

(** The abstract effect of a rebooking: release the old fare's seats, take the
    new one's, move the segment, charge the reservation, spend the credit and
    log the change. *)
Definition rebooked (am : Ambient) (sel : RebookingSelectionSchema)
    (v : RebookingValidationSchema) (db : DB) : DB := {|
  customers := customers db; passengers := passengers db;
  reservation_passengers := reservation_passengers db;
  reservations := update (fun r => r_id r =? va_reservation_id v)%N (charge am v) (reservations db);
  flights := flights db; fare_classes := fare_classes db;
  flight_fares :=
    update (is_fare (va_old_flight_id v) (va_old_fare_class_id v)) (add_seats (va_passenger_count v))
      (update (is_fare (va_new_flight_id v) (va_new_fare_class_id v))
        (add_seats (- va_passenger_count v)) (flight_fares db));
  reservation_segments :=
    update (fun s => rs_id s =? sel_segment_id sel)%N (book am v) (reservation_segments db);
  travel_credits := spend_credit sel (travel_credits db);
  flight_changes := flight_changes db ++ [change_of am sel v] |}.

Lemma is_fare_set_seats fl fc n ff : is_fare fl fc (set_seats n ff) = is_fare fl fc ff.
Proof. done. Qed.

(** Updating the row an absolute write found is updating it relatively. *)
Lemma update_found {A K} (key : A -> K) P (f g : A -> A) t r :
  NoDup (key <$> t) -> scalar P t = Some r ->
  (forall r', P r' = true -> key r' = key r) -> f r = g r -> update P f t = update P g t.
Proof.
  intros Hnd Hr Hkey Hfg. apply update_ext; [done|]. intros r' Hr' HP.
  rewrite (scalar_unique key P t r') in Hr; [congruence|done..|].
  intros r'' HP''. by rewrite (Hkey r''), (Hkey r').
Qed.

Lemma find_fare_add_seats fl fc fl' fc' n db :
  find_fare (with_flight_fares (update (is_fare fl fc) (add_seats n)) db) fl' fc' =
  (fun ff => if is_fare fl fc ff then add_seats n ff else ff) <$> find_fare db fl' fc'.
Proof. apply scalar_update. done. Qed.

(** Each block of the transaction as one database function. *)

Lemma take_seats_run v ff f c db held :
  va_passenger_count v <= ff_available_seats ff ->
  take_seats v (mkTargetRow ff f c) (mkTx db held) =
  Ok (tt, mkTx (with_flight_fares (update (is_fare (ff_flight_id ff) (ff_fare_class_id ff))
                  (add_seats (- va_passenger_count v))) db) held).
Proof. intros H. unfold take_seats; cbn. by rewrite (proj2 (Z.ltb_ge _ _) H). Qed.

Lemma release_seats_run v db held :
  release_seats v (mkTx db held) =
  match find_fare db (va_old_flight_id v) (va_old_fare_class_id v) with
  | None => raise FlightNotFoundError "original fare not found"
  | Some _ =>
      Ok (tt, mkTx (with_flight_fares (update (is_fare (va_old_flight_id v) (va_old_fare_class_id v))
                      (add_seats (va_passenger_count v))) db)
                   (acquire (LFare (va_old_flight_id v) (va_old_fare_class_id v)) held))
  end.
Proof.
  unfold release_seats. tx_unfold. destruct (find_fare db _ _) as [ff|] eqn:E; cbn; [|done].
  by destruct (find_fare_key _ _ _ _ E) as [-> ->].
Qed.

Lemma book_segment_run am sel v db held seg r :
  find_segment db (sel_segment_id sel) = Some seg ->
  find_reservation db (va_reservation_id v) = Some r ->
  book_segment am sel v (mkTx db held) =
  Ok ((book am v seg, r),
      mkTx (with_reservations (update (fun r => r_id r =? va_reservation_id v)%N (charge am v))
             (with_segments (update (fun s => rs_id s =? sel_segment_id sel)%N (book am v)) db)) held).
Proof.
  intros Hs Hr. unfold book_segment. tx_unfold. rewrite Hs, Hr; cbn.
  by rewrite (find_segment_id _ _ _ Hs), (find_reservation_id _ _ _ Hr).
Qed.

Lemma consume_credit_run sel db held :
  NoDup (tc_id <$> travel_credits db) ->
  match sel_travel_credit_id sel with
  | Some id => is_Some (find_credit db id)
  | None => True
  end ->
  consume_credit sel (mkTx db held) =
  Ok (tt, mkTx (with_credits (spend_credit sel) db) (credit_lock sel held)).
Proof.
  intros Hnd Hc. unfold consume_credit, spend_credit, credit_lock.
  destruct (sel_travel_credit_id sel) as [id|]; [|by destruct db].
  destruct Hc as [c Hc]. tx_unfold. rewrite Hc; cbn. do 3 f_equal.
  unfold with_credits. f_equal. eapply (update_found tc_id); [done|exact Hc| |done].
  intros c' ?%N.eqb_eq. by rewrite (find_credit_id _ _ _ Hc).
Qed.

Lemma flush_run r change db held :
  flush r change (mkTx db held) =
  if bool_decide (ch_id change ∈ ch_id <$> flight_changes db) then raise InfraError "IntegrityError"
  else Ok (tt, mkTx (with_changes (fun t => t ++ [change]) db) (acquire (LReservation (r_id r)) held)).
Proof. unfold flush. tx_unfold. by case_bool_decide. Qed.

(** The contract of [execute]: one snapshot, the rules, and the effect of
    [rebooked], or no effect at all. *)
Definition execute_spec (am : Ambient) (sel : RebookingSelectionSchema) (db : DB) :
    Res RebookingResultSchema * DB :=
  let outcome :=
    '(sn, credit) ← get_snapshot db sel;
    v ← validate_rebooking_selection (am_now_validate am) sel sn credit;
    _ ← or_raise (find_fare db (va_old_flight_id v) (va_old_fare_class_id v))
          FlightNotFoundError "original fare not found";
    '(seg, r) ← or_raise (s ← find_segment db (sel_segment_id sel);
                          r ← find_reservation db (va_reservation_id v); Some (s, r))
                  SegmentNotFoundError "reservation segment not found";
    if bool_decide (am_change_id am ∈ ch_id <$> flight_changes db) then
      raise InfraError "IntegrityError"
    else Ok (mkRebookingResult (Some (change_of am sel v)) (book am v seg) (r_booking_reference r),
             rebooked am sel v db) in
  match outcome with
  | Ok (result, db') => (Ok result, db')
  | Raise e => (Raise e, db)
  end.

(** A validated snapshot comes from rows the execution finds again. *)
Lemma validated_rows now sel db sn credit v :
  get_snapshot db sel = Ok (sn, credit) ->
  validate_rebooking_selection now sel sn credit = Ok v ->
  exists seg r ff f c,
    find_segment db (sel_segment_id sel) = Some seg /\
    va_old_flight_id v = rs_flight_id seg /\ va_old_fare_class_id v = rs_fare_class_id seg /\
    find_reservation db (va_reservation_id v) = Some r /\
    va_reservation_id v = rs_reservation_id seg /\
    find_fare db (va_new_flight_id v) (va_new_fare_class_id v) = Some ff /\
    find_flight db (ff_flight_id ff) = Some f /\
    find_fare_class db (ff_fare_class_id ff) = Some c /\
    va_new_flight_id v = sel_new_flight_id sel /\
    va_new_fare_class_id v = sel_new_fare_class_id sel /\
    0 < va_passenger_count v <= ff_available_seats ff /\
    va_passenger_count v = Z.of_nat (length (passengers_of db (va_reservation_id v))) /\
    match sel_travel_credit_id sel with
    | Some id => exists c, find_credit db id = Some c /\
        0 < sel_travel_credit_amount sel <= tc_remaining_amount c
    | None => sel_travel_credit_amount sel = 0
    end.
Proof.
  intros (seg & r & f & fc & ff & tf & tc & [] & ->)%get_snapshot_rows.
  intros [[] ->]%validate_iff. cbn in *.
  exists seg, r, ff, tf, tc. rewrite (find_reservation_id _ _ _ row_reservation0) in *.
  repeat split; try done; try lia.
  destruct (sel_travel_credit_id sel); [|done].
  destruct row_credit0 as (c & Hc & ->), el_credit as (c' & [= <-] & []). eauto.
Qed.

(** The locks a rebooking holds when it commits, in acquisition order. *)
Definition commit_locks (sel : RebookingSelectionSchema) (sn : RebookingSnapshotSchema) (db : DB) :
    list RowLock :=
  let old := (sn_old_flight_id sn, sn_old_fare_class_id sn) in
  let new := (sel_new_flight_id sel, sel_new_fare_class_id sel) in
  acquire (LReservation (sn_reservation_id sn))
    (credit_lock sel (acquire (LFare old.1 old.2) (acquire (LFare new.1 new.2)
      (snapshot_locks sel (acquire_fares db (lock_keys old new) (snapshot_locks sel [])))))).

(** The transaction once its snapshot is validated. *)
Lemma execute_body_run am sel db sn credit v :
  schema_ok db ->
  get_snapshot db sel = Ok (sn, credit) ->
  validate_rebooking_selection (am_now_validate am) sel sn credit = Ok v ->
  execute_body am (validate_rebooking_selection (am_now_validate am)) sel (mkTx db []) =
  (_ ← or_raise (find_fare db (va_old_flight_id v) (va_old_fare_class_id v))
         FlightNotFoundError "original fare not found";
   '(seg, r) ← or_raise (s ← find_segment db (sel_segment_id sel);
                         r ← find_reservation db (va_reservation_id v); Some (s, r))
                 SegmentNotFoundError "reservation segment not found";
   if bool_decide (am_change_id am ∈ ch_id <$> flight_changes db) then
     raise InfraError "IntegrityError"
   else Ok (mkRebookingResult (Some (change_of am sel v)) (book am v seg) (r_booking_reference r),
            mkTx (rebooked am sel v db) (commit_locks sel sn db))).
Proof.
  intros Hdb Hsnap Hv.
  destruct (validated_rows _ _ _ _ _ _ Hsnap Hv)
    as (seg & r & ff & f & c & Hseg & Hof & Hofc & Hr & Hrid & Hff & Hf & Hc & Hnf & Hnc & Hseats & _ & Hcr).
  destruct (find_fare_key _ _ _ _ Hff) as [Hfl Hcl].
  assert (va_old_flight_id v = sn_old_flight_id sn /\ va_old_fare_class_id v = sn_old_fare_class_id sn
          /\ va_reservation_id v = sn_reservation_id sn)
    as (Ho1 & Ho2 & Hsr) by (by apply validate_iff in Hv as [_ ->]).
  unfold execute_body. rewrite txm_bind_eq, snapshot_run. cbn [tx_db tx_locks]. rewrite Hsnap.
  rewrite txm_bind_eq. unfold _lock_fares. rewrite for_each_lock_fare. cbn [tx_db tx_locks].
  rewrite txm_bind_eq, snapshot_run. cbn [tx_db tx_locks]. rewrite Hsnap.
  rewrite txm_bind_eq. unfold lift at 1. rewrite Hv.
  rewrite txm_bind_eq, (target_run _ _ _ _ ff) by (by rewrite <- Hnf, <- Hnc).
  rewrite txm_bind_eq, take_seats_run by lia.
  rewrite txm_bind_eq, release_seats_run, Hfl, Hcl, find_fare_add_seats.
  destruct (find_fare db (va_old_flight_id v) (va_old_fare_class_id v)) as [off|]; [|done].
  cbn [fmap option_fmap option_map or_raise]. rewrite res_bind_ret.
  rewrite txm_bind_eq, (book_segment_run _ _ _ _ _ seg r) by done.
  rewrite Hseg, Hr. cbn [mbind option_bind or_raise]. rewrite res_bind_ret.
  rewrite txm_bind_eq, consume_credit_run; [|apply Hdb|].
  2: { destruct (sel_travel_credit_id sel); [|done]. destruct Hcr as (c' & Hc' & _). by exists c'. }
  rewrite txm_bind_eq, flush_run.
  cbn [flight_changes with_credits with_reservations with_segments with_flight_fares ch_id change_of].
  case_bool_decide; [done|]. unfold commit_locks, rebooked. cbn [fst snd].
  by rewrite (find_reservation_id _ _ _ Hr), Ho1, Ho2, Hsr, Hnf, Hnc.
Qed.

Lemma execute_eq_spec am sel db :
  schema_ok db ->
  execute am (validate_rebooking_selection (am_now_validate am)) sel db = execute_spec am sel db.
Proof.
  intros Hdb. unfold execute, execute_spec, transaction.
  destruct (get_snapshot db sel) as [[sn credit]|e] eqn:Hsnap.
  2: { unfold execute_body. by rewrite txm_bind_eq, snapshot_run; cbn [tx_db]; rewrite Hsnap. }
  rewrite res_bind_ret.
  destruct (validate_rebooking_selection (am_now_validate am) sel sn credit) as [v|e] eqn:Hv.
  - rewrite (execute_body_run _ _ _ _ _ _ Hdb Hsnap Hv), res_bind_ret.
    destruct (find_fare db _ _); [|done]. cbn [or_raise]. rewrite !res_bind_ret.
    destruct (or_raise _ SegmentNotFoundError _) as [[seg r]|]; [|done]. rewrite !res_bind_ret.
    by case_bool_decide.
  - unfold execute_body. rewrite txm_bind_eq, snapshot_run. cbn [tx_db tx_locks]. rewrite Hsnap.
    rewrite txm_bind_eq. unfold _lock_fares. rewrite for_each_lock_fare. cbn [tx_db tx_locks].
    rewrite txm_bind_eq, snapshot_run. cbn [tx_db tx_locks]. rewrite Hsnap.
    rewrite txm_bind_eq. unfold lift at 1. by rewrite Hv.
Qed.

(** C1: [execute] implements its contract: locking, the second snapshot, the
    seat check after validation and the entity-by-entity writes amount to one
    atomic rebooking of a validated selection, and every failure leaves the
    database as it was. *)
Theorem execute_refines am sel db :
  schema_ok db ->
  execute am (validate_rebooking_selection (am_now_validate am)) sel db = execute_spec am sel db.
Proof. apply execute_eq_spec. Qed.

(** What a successful execution found and did. *)
Record Executed (am : Ambient) (sel : RebookingSelectionSchema) (db : DB)
    (sn : RebookingSnapshotSchema) (credit : option TravelCredit)
    (v : RebookingValidationSchema) (seg : ReservationSegment) (r : Reservation)
    (new_fare old_fare : FlightFare) : Prop := {
  ex_snapshot : get_snapshot db sel = Ok (sn, credit);
  ex_valid : validate_rebooking_selection (am_now_validate am) sel sn credit = Ok v;
  ex_segment : find_segment db (sel_segment_id sel) = Some seg;
  ex_old : va_old_flight_id v = rs_flight_id seg /\ va_old_fare_class_id v = rs_fare_class_id seg;
  ex_new : va_new_flight_id v = sel_new_flight_id sel /\
           va_new_fare_class_id v = sel_new_fare_class_id sel;
  ex_reservation : find_reservation db (va_reservation_id v) = Some r;
  ex_reservation_id : va_reservation_id v = rs_reservation_id seg;
  ex_new_fare : find_fare db (va_new_flight_id v) (va_new_fare_class_id v) = Some new_fare;
  ex_old_fare : find_fare db (va_old_flight_id v) (va_old_fare_class_id v) = Some old_fare;
  ex_seats : 0 < va_passenger_count v <= ff_available_seats new_fare;
  ex_count : va_passenger_count v = Z.of_nat (length (passengers_of db (va_reservation_id v)));
  ex_credit : match sel_travel_credit_id sel with
    | Some id => exists c, find_credit db id = Some c /\
        0 < sel_travel_credit_amount sel <= tc_remaining_amount c
    | None => sel_travel_credit_amount sel = 0
    end;
  ex_fresh : am_change_id am ∉ ch_id <$> flight_changes db }.

Lemma execute_Ok_inv am sel db res db' :
  schema_ok db ->
  execute am (validate_rebooking_selection (am_now_validate am)) sel db = (Ok res, db') ->
  exists sn credit v seg r nf off,
    Executed am sel db sn credit v seg r nf off /\ db' = rebooked am sel v db /\
    res = mkRebookingResult (Some (change_of am sel v)) (book am v seg) (r_booking_reference r).
Proof.
  intros Hdb. rewrite execute_eq_spec by done. unfold execute_spec.
  destruct (get_snapshot db sel) as [[sn credit]|e] eqn:Hsnap; [|done]. rewrite res_bind_ret.
  destruct (validate_rebooking_selection _ sel sn credit) as [v|e] eqn:Hv; [|done].
  rewrite res_bind_ret.
  destruct (validated_rows _ _ _ _ _ _ Hsnap Hv)
    as (seg & r & ff & f & c & Hseg & Hof & Hofc & Hr & Hrid & Hff & _ & _ & Hnf & Hnc & Hseats & Hn & Hcr).
  destruct (find_fare db (va_old_flight_id v) _) as [off|] eqn:Hold; [|done]. cbn [or_raise]. rewrite res_bind_ret.
  rewrite Hseg, Hr. cbn [mbind option_bind or_raise Res_bind].
  case_bool_decide as Hfresh; [done|]. intros [= <- <-].
  exists sn, credit, v, seg, r, ff, off. split; [|done]. by split.
Qed.

Lemma execute_Raise_inv am sel db e db' :
  schema_ok db ->
  execute am (validate_rebooking_selection (am_now_validate am)) sel db = (Raise e, db') -> db' = db.
Proof. intros _. unfold execute, transaction. destruct (execute_body _ _ _ _) as [[??]|]; naive_solver. Qed.
