(* ===== verification/RebookingInvariants.v ===== *)
(** What every history of rebookings preserves.

    [db_inv] is the well-formedness of the airline's data: the schema's
    constraints, booked segments on fares their flights sell, no negative seat
    counts, travel credits between 0 and their original amount.  The seats of
    a fare are either available or occupied by the passengers booked on it,
    and the balances of credits, reservations and segments reconcile with the
    [flight_changes] log. *)
From stdpp Require Import base numbers strings list sets.
From S2P Require Import Prelude Models Rules Database Uuid OrmRebooking.
Local Open Scope Z_scope.
Local Open Scope bool_scope.

(** * Seats and money *)

Definition seats_of (db : DB) (fl fc : UUID) : Z :=
  match find_fare db fl fc with Some ff => ff_available_seats ff | None => 0 end.

Definition party (db : DB) (rs : ReservationSegment) : Z :=
  Z.of_nat (length (passengers_of db (rs_reservation_id rs))).

Definition on_fare (fl fc : UUID) (rs : ReservationSegment) : bool :=
  (rs_flight_id rs =? fl)%N && (rs_fare_class_id rs =? fc)%N.

(** The passengers booked on a fare. *)
Definition occupancy (db : DB) (fl fc : UUID) : Z :=
  zsum (fun rs => if on_fare fl fc rs then party db rs else 0) (reservation_segments db).

Definition credit_balance (db : DB) : Decimal := zsum tc_remaining_amount (travel_credits db).
Definition credit_spent (db : DB) : Decimal := zsum ch_travel_credit_used (flight_changes db).
Definition totals (db : DB) : Decimal := zsum r_total_amount (reservations db).
Definition charged (db : DB) : Decimal :=
  zsum (fun ch => ch_fare_difference ch + ch_change_fee ch - ch_travel_credit_used ch)
    (flight_changes db).
Definition prices (db : DB) : Decimal := zsum rs_price_paid (reservation_segments db).
Definition differences (db : DB) : Decimal := zsum ch_fare_difference (flight_changes db).

(** * The invariant *)

Definition usable (c : TravelCredit) : Prop :=
  tc_status c = C_AVAILABLE \/ tc_status c = C_PARTIALLY_USED.

Record credit_ok (c : TravelCredit) : Prop := {
  credit_range : 0 <= tc_remaining_amount c <= tc_original_amount c;
  credit_usable : usable c -> 0 < tc_remaining_amount c }.

Record db_inv (db : DB) : Prop := {
  inv_schema : schema_ok db;
  inv_on_sale : segments_on_sale db;
  inv_seats : Forall (fun ff => 0 <= ff_available_seats ff) (flight_fares db);
  inv_credits : Forall credit_ok (travel_credits db) }.

(** * One rebooking *)

Section Rebooked.
Context (am : Ambient) (sel : RebookingSelectionSchema) (db : DB) (Hdb : schema_ok db).
Context (sn : RebookingSnapshotSchema) (credit : option TravelCredit)
        (v : RebookingValidationSchema) (seg : ReservationSegment) (r : Reservation)
        (nf off : FlightFare) (Hex : Executed am sel db sn credit v seg r nf off).
Let db' := rebooked am sel v db.

Lemma rebooked_find_fare fl fc :
  find_fare db' fl fc =
  (fun ff => let ff' := if is_fare (va_new_flight_id v) (va_new_fare_class_id v) ff
                        then add_seats (- va_passenger_count v) ff else ff in
             if is_fare (va_old_flight_id v) (va_old_fare_class_id v) ff
             then add_seats (va_passenger_count v) ff' else ff')
  <$> find_fare db fl fc.
Proof.
  unfold db', find_fare at 1, rebooked; cbn [flight_fares].
  rewrite !scalar_update by done. rewrite <- option_fmap_compose.
  apply option_fmap_ext. intros ff; cbn. by destruct (is_fare (va_new_flight_id v) _ ff).
Qed.

Lemma rebooked_find_segment id :
  find_segment db' id =
  (fun s => if (rs_id s =? sel_segment_id sel)%N then book am v s else s) <$> find_segment db id.
Proof. apply scalar_update. done. Qed.

Lemma rebooked_find_reservation id :
  find_reservation db' id =
  (fun r => if (r_id r =? va_reservation_id v)%N then charge am v r else r) <$> find_reservation db id.
Proof. apply scalar_update. done. Qed.

Lemma rebooked_party rs : party db' rs = party db rs.
Proof. done. Qed.

Lemma segment_in : seg ∈ reservation_segments db /\ (rs_id seg =? sel_segment_id sel)%N = true.
Proof. destruct Hex as [_ _ H]. exact (scalar_Some _ _ _ H). Qed.

Lemma segment_key rs : (rs_id rs =? sel_segment_id sel)%N = true -> rs_id rs = rs_id seg.
Proof.
  intros ?%N.eqb_eq. destruct segment_in as [_ ?%N.eqb_eq]. congruence.
Qed.

(** Summing over segments: only the rebooked one changes. *)
Lemma rebooked_segments_sum (f : ReservationSegment -> Z) :
  zsum f (reservation_segments db') =
  zsum f (reservation_segments db) + (f (book am v seg) - f seg).
Proof.
  destruct segment_in as [Hin Hid]. cbn.
  apply (zsum_update rs_id); [apply Hdb|done..|apply segment_key].
Qed.

Lemma rebooked_seats fl fc :
  is_Some (find_fare db fl fc) ->
  seats_of db' fl fc + occupancy db' fl fc = seats_of db fl fc + occupancy db fl fc.
Proof.
  intros [ff Hff]. unfold occupancy. rewrite rebooked_segments_sum.
  rewrite (zsum_ext (fun rs => if on_fare fl fc rs then party db' rs else 0)
    (fun rs => if on_fare fl fc rs then party db rs else 0)) by done.
  unfold seats_of. rewrite rebooked_find_fare, Hff. cbn [fmap option_fmap option_map].
  destruct Hex as [_ _ _ [Ho1 Ho2] _ _ Hrid _ _ _ Hn _ _].
  destruct (find_fare_key _ _ _ _ Hff) as [Hk1 Hk2].
  assert (party db seg = va_passenger_count v) as Hp by (unfold party; by rewrite Hn, Hrid).
  cbv beta. change (party db' (book am v seg)) with (party db seg).
  change (party db' seg) with (party db seg). rewrite Hp.
  unfold on_fare, is_fare. cbn [book set_booking rs_flight_id rs_fare_class_id].
  rewrite Hk1, Hk2, <- Ho1, <- Ho2.
  rewrite (N.eqb_sym fl), (N.eqb_sym fc), (N.eqb_sym fl), (N.eqb_sym fc).
  repeat case_match; cbn; lia.
Qed.

Lemma spend_credit_key {K} (key : TravelCredit -> K) t :
  (forall c a, key (spend a c) = key c) -> key <$> spend_credit sel t = key <$> t.
Proof.
  intros Hk. unfold spend_credit. destruct (sel_travel_credit_id sel); [|done].
  apply update_key. auto.
Qed.

Lemma rebooked_schema : schema_ok db'.
Proof.
  destruct Hdb, Hex as [_ _ _ _ _ _ _ Hnf _ _ _ _ _].
  assert (nf ∈ flight_fares db) as Hin by (exact (proj1 (scalar_Some _ _ _ Hnf))).
  apply find_fare_key in Hnf as [Hk1 Hk2].
  assert (forall b c, rs_flight_id (book am v b) ∈ f_id <$> flights db /\
                      rs_fare_class_id (book am v c) ∈ fc_id <$> fare_classes db) as Hnew.
  { intros b c; cbn. rewrite <- Hk1, <- Hk2. split; by eapply references_elem. }
  unfold db', rebooked. split;
    cbn [customers passengers reservation_passengers reservations flights fare_classes
      flight_fares reservation_segments travel_credits]; try done;
    try (apply references_update; [done|]; intros; by apply Hnew);
    unfold references; repeat rewrite update_key by done;
    rewrite ?spend_credit_key by done; try done.
Qed.

Lemma rebooked_on_sale : segments_on_sale db -> segments_on_sale db'.
Proof.
  intros Hos. apply Forall_forall. intros rs Hrs. cbn in Hrs.
  rewrite rebooked_find_fare, fmap_is_Some.
  apply elem_of_update in Hrs as (rs0 & Hrs0 & ->).
  destruct (rs_id rs0 =? sel_segment_id sel)%N.
  - cbn. destruct Hex as [_ _ _ _ _ _ _ Hnf _ _ _ _ _]. by exists nf.
  - by apply (proj1 (Forall_forall _ _) Hos).
Qed.

Lemma rebooked_nonneg :
  Forall (fun ff => 0 <= ff_available_seats ff) (flight_fares db) ->
  Forall (fun ff => 0 <= ff_available_seats ff) (flight_fares db').
Proof.
  rewrite !Forall_forall. intros Hnn ff Hin. cbn in Hin.
  destruct Hex as [_ _ _ _ _ _ _ Hnf _ Hseats _ _ _].
  apply elem_of_update in Hin as (ff1 & Hin & ->).
  apply elem_of_update in Hin as (ff0 & Hin & ->).
  pose proof (Hnn _ Hin).
  assert (is_fare (va_new_flight_id v) (va_new_fare_class_id v) ff0 = true -> ff0 = nf) as Heq.
  { intros [H1 H2]%is_fare_iff. unfold find_fare in Hnf.
    rewrite (scalar_unique (fun f => (ff_flight_id f, ff_fare_class_id f)) _ _ ff0) in Hnf.
    - by simplify_eq.
    - apply Hdb.
    - done.
    - by apply is_fare_iff.
    - intros f' [-> ->]%is_fare_iff. by rewrite H1, H2. }
  destruct (is_fare (va_new_flight_id v) _ ff0);
    [rewrite (Heq eq_refl) in *|]; case_match; cbn; lia.
Qed.

Lemma rebooked_credits :
  Forall credit_ok (travel_credits db) -> Forall credit_ok (travel_credits db').
Proof.
  rewrite !Forall_forall. intros Hok c Hin. cbn in Hin. unfold spend_credit in Hin.
  destruct Hex as [_ _ _ _ _ _ _ _ _ _ _ Hcr _].
  destruct (sel_travel_credit_id sel) as [id|]; [|by apply Hok].
  destruct Hcr as (c0 & Hc0 & Ham).
  apply elem_of_update in Hin as (c1 & Hin & ->).
  destruct (tc_id c1 =? id)%N eqn:E; [|by apply Hok].
  assert (c1 = c0) as ->.
  { apply N.eqb_eq in E. unfold find_credit in Hc0.
    rewrite (scalar_unique tc_id _ _ c1) in Hc0; [by simplify_eq|apply Hdb|done|by apply N.eqb_eq|].
    intros c' ?%N.eqb_eq. congruence. }
  destruct (Hok _ Hin) as [[Hlo Hhi] _]. unfold spend. split; cbn; [lia|].
  unfold usable; cbn. destruct (Z.eqb_spec (tc_remaining_amount c0 - sel_travel_credit_amount sel) 0).
  - by intros [|].
  - intros _. lia.
Qed.

Lemma rebooked_inv : db_inv db -> db_inv db'.
Proof.
  intros [_ ? ? ?]. split.
  - apply rebooked_schema.
  - by apply rebooked_on_sale.
  - by apply rebooked_nonneg.
  - by apply rebooked_credits.
Qed.

(** The three ledgers. *)

Lemma validated_used : va_travel_credit_used v = sel_travel_credit_amount sel.
Proof.
  destruct Hex as [_ Hv _ _ _ _ _ _ _ _ _ _ _]. apply validate_iff in Hv as [[] ->]. by cbn.
Qed.

Lemma rebooked_credit_ledger :
  credit_balance db' + credit_spent db' = credit_balance db + credit_spent db.
Proof.
  unfold credit_balance, credit_spent; cbn. rewrite zsum_app. unfold zsum at 3; cbn.
  rewrite validated_used. destruct Hex as [_ _ _ _ _ _ _ _ _ _ _ Hcr _].
  unfold spend_credit. destruct (sel_travel_credit_id sel) as [id|]; [|cbn; lia].
  destruct Hcr as (c0 & Hc0 & Ham). apply scalar_Some in Hc0 as [Hin Hid].
  rewrite (zsum_update tc_id _ _ _ _ c0); [|apply Hdb|done|done|].
  - cbn. lia.
  - intros c' ?%N.eqb_eq. apply N.eqb_eq in Hid. congruence.
Qed.

Lemma rebooked_total_ledger : totals db' - charged db' = totals db - charged db.
Proof.
  unfold totals, charged; cbn. rewrite zsum_app. unfold zsum at 3; cbn.
  destruct Hex as [_ _ _ _ _ Hr _ _ _ _ _ _ _]. apply scalar_Some in Hr as [Hin Hid].
  rewrite (zsum_update r_id _ _ _ _ r); [|apply Hdb|done|done|].
  - cbn. lia.
  - intros c' ?%N.eqb_eq. apply N.eqb_eq in Hid. congruence.
Qed.

Lemma rebooked_price_ledger : prices db' - differences db' = prices db - differences db.
Proof.
  unfold prices, differences. rewrite rebooked_segments_sum; cbn. rewrite zsum_app.
  unfold zsum at 3; cbn. destruct Hex as [Hs Hv Hseg _ _ _ _ _ _ _ _ _ _].
  apply get_snapshot_rows in Hs as (seg' & r' & f & fc & ff & tf & tc & [Hseg'] & ->).
  apply validate_iff in Hv as [_ ->]. cbn. rewrite Hseg in Hseg'. simplify_eq. lia.
Qed.
End Rebooked.

(** * Histories *)

Definition rebook (am : Ambient) (sel : RebookingSelectionSchema) (db : DB) : DB :=
  (execute am (validate_rebooking_selection (am_now_validate am)) sel db).2.

(** Rebooking requests executed one after the other, failed ones included. *)
Definition rebook_all (requests : list (Ambient * RebookingSelectionSchema)) (db : DB) : DB :=
  foldl (fun db req => rebook req.1 req.2 db) db requests.

(** A relation between databases every rebooking keeps holds along a history. *)
Lemma rebook_all_ind (R : DB -> DB -> Prop) :
  (forall db, R db db) -> (forall a b c, R a b -> R b c -> R a c) ->
  (forall am sel db, db_inv db -> R db (rebook am sel db)) ->
  forall requests db, db_inv db -> db_inv (rebook_all requests db) /\ R db (rebook_all requests db).
Proof.
  intros Hrefl Htrans Hstep requests.
  induction requests as [|[am sel] requests IH]; intros db Hdb; cbn; [done|].
  assert (db_inv (rebook am sel db)) as Hdb'.
  { unfold rebook. destruct (execute _ _ _ _) as [[res|e] db'] eqn:E; cbn.
    - apply execute_Ok_inv in E as (? & ? & ? & ? & ? & ? & ? & Hex & -> & _); [|apply Hdb].
      by eapply rebooked_inv; [apply Hdb| |].
    - apply execute_Raise_inv in E as ->; [done|apply Hdb]. }
  destruct (IH _ Hdb') as [Hinv HR]. split; [done|]. eauto.
Qed.

(** Lift a property of successful rebookings to all of them. *)
Lemma rebook_cases (P : DB -> Prop) am sel db :
  schema_ok db -> P db ->
  (forall sn credit v seg r nf off, Executed am sel db sn credit v seg r nf off ->
     P (rebooked am sel v db)) ->
  P (rebook am sel db).
Proof.
  intros Hdb H0 H1. unfold rebook. destruct (execute _ _ _ _) as [[res|e] db'] eqn:E; cbn.
  - apply execute_Ok_inv in E as (? & ? & ? & ? & ? & ? & ? & Hex & -> & _); eauto.
  - by apply execute_Raise_inv in E as ->.
Qed.

Lemma keeps_invariant requests db :
  db_inv db -> db_inv (rebook_all requests db).
Proof. intros Hdb. by apply (rebook_all_ind (fun _ _ => True)). Qed.

Lemma conserves_seats requests db fl fc :
  db_inv db -> is_Some (find_fare db fl fc) ->
  seats_of (rebook_all requests db) fl fc + occupancy (rebook_all requests db) fl fc =
  seats_of db fl fc + occupancy db fl fc.
Proof.
  intros Hdb Hff.
  apply (rebook_all_ind (fun a b => is_Some (find_fare a fl fc) -> is_Some (find_fare b fl fc) /\
    seats_of b fl fc + occupancy b fl fc = seats_of a fl fc + occupancy a fl fc)); [..|done|done].
  - done.
  - intros a b c H1 H2 Ha. destruct (H1 Ha) as [Hb ?]. destruct (H2 Hb). split; [done|lia].
  - clear. intros am sel db Hdb Hff. apply rebook_cases; [apply Hdb|done|].
    intros. split.
    + erewrite rebooked_find_fare; [|done..]. by rewrite fmap_is_Some.
    + eapply rebooked_seats; [apply Hdb|done|done].
Qed.

Lemma reconciles requests db :
  db_inv db ->
  let db' := rebook_all requests db in
  credit_balance db' + credit_spent db' = credit_balance db + credit_spent db /\
  totals db' - charged db' = totals db - charged db /\
  prices db' - differences db' = prices db - differences db.
Proof.
  intros Hdb. cbv zeta.
  apply (rebook_all_ind (fun a b =>
    credit_balance b + credit_spent b = credit_balance a + credit_spent a /\
    totals b - charged b = totals a - charged a /\
    prices b - differences b = prices a - differences a)); [done|naive_solver lia| |done].
  clear. intros am sel db Hdb. apply rebook_cases; [apply Hdb|done|]. intros. repeat split.
  - eapply rebooked_credit_ledger; [apply Hdb|done].
  - eapply rebooked_total_ledger; [apply Hdb|done].
  - eapply rebooked_price_ledger; [apply Hdb|done].
Qed.

(** C19: the data stays well-formed along every history of rebookings: keys and
    references hold, every booked segment is on a fare its flight sells, no
    fare is oversold (seat counts stay non-negative) and no credit goes below
    zero or above its original amount. *)
Theorem history_keeps_invariant requests db :
  db_inv db -> db_inv (rebook_all requests db).
Proof. apply keeps_invariant. Qed.

(** C9: seats are conserved: for every fare, the seats available plus the
    passengers booked on it are the same after any history of rebookings. *)
Theorem history_conserves_seats requests db fl fc :
  db_inv db -> is_Some (find_fare db fl fc) ->
  seats_of (rebook_all requests db) fl fc + occupancy (rebook_all requests db) fl fc =
  seats_of db fl fc + occupancy db fl fc.
Proof. apply conserves_seats. Qed.

(** C20: the money reconciles with the change log along every history: credit
    balances fall by the credit the changes used, reservation totals move by
    what the changes charged, and segment prices by their fare differences. *)
Theorem history_reconciles requests db :
  db_inv db ->
  let db' := rebook_all requests db in
  credit_balance db' + credit_spent db' = credit_balance db + credit_spent db /\
  totals db' - charged db' = totals db - charged db /\
  prices db' - differences db' = prices db - differences db.
Proof. apply reconciles. Qed.
