(* ===== verification/RebookingOutcome.v ===== *)
(** After a rebooking: [verify] confirms it, and asking for it again is
    refused without an effect. *)
From stdpp Require Import base numbers strings list sets.
From S2P Require Import Prelude Models Rules Database Uuid OrmRebooking RebookingInvariants.
Local Open Scope Z_scope.
Local Open Scope bool_scope.

(** The rows of a snapshot determine it. *)
Lemma get_snapshot_intro sel db seg r f fc ff tf tc credit :
  SnapshotRows sel db seg r f fc ff tf tc credit ->
  get_snapshot db sel =
    Ok (make_snapshot seg r f fc ff tf tc (Z.of_nat (length (passengers_of db (r_id r)))), credit).
Proof.
  intros [Hs Hr Hf Hfc Hff Htf Htc Hcr].
  unfold get_snapshot, transaction, _snapshot, _target, not_none, lock_if. tx_unfold.
  rewrite Hs; cbn. rewrite Hff; cbn. rewrite Hr; cbn. rewrite Hf; cbn. rewrite Hfc; cbn.
  rewrite Htf; cbn. rewrite Htc; cbn.
  destruct (sel_travel_credit_id sel) as [id|]; [|by rewrite Hcr].
  destruct Hcr as (c & Hc & ->). cbn [tx_db]. by rewrite Hc.
Qed.

Section Outcome.
Context (am : Ambient) (sel : RebookingSelectionSchema) (db : DB) (Hdb : schema_ok db).
Context (sn : RebookingSnapshotSchema) (credit : option TravelCredit)
        (v : RebookingValidationSchema) (seg : ReservationSegment) (r : Reservation)
        (nf off : FlightFare) (Hex : Executed am sel db sn credit v seg r nf off).
Let db' := rebooked am sel v db.

Lemma rebooked_segment_row : find_segment db' (sel_segment_id sel) = Some (book am v seg).
Proof using Hex.
  destruct Hex as [_ _ Hseg]. unfold db'. rewrite (rebooked_find_segment am sel db v), Hseg. cbn.
  by rewrite (find_segment_id _ _ _ Hseg), N.eqb_refl.
Qed.

Lemma rebooked_reservation_row :
  find_reservation db' (rs_reservation_id seg) = Some (charge am v r).
Proof using Hex.
  destruct Hex as [_ _ _ _ _ Hr Hrid]. unfold db'. rewrite (rebooked_find_reservation am sel db v).
  rewrite <- Hrid, Hr. cbn. by rewrite (find_reservation_id _ _ _ Hr), N.eqb_refl.
Qed.

Lemma verify_rebooked :
  verify db' sel = Ok (mkRebookingResult None (book am v seg) (r_booking_reference r)).
Proof using Hex.
  unfold verify. rewrite rebooked_segment_row. cbn [or_raise mbind Res_bind].
  destruct Hex as [_ _ _ _ [Hn1 Hn2]]. cbn [book set_booking rs_flight_id rs_fare_class_id rs_status rs_reservation_id].
  rewrite Hn1, Hn2, !N.eqb_refl. cbn [negb orb].
  by rewrite rebooked_reservation_row.
Qed.

(** The snapshot of the same selection after the rebooking. *)
Lemma rebooked_snapshot :
  exists sn' credit', get_snapshot db' sel = Ok (sn', credit') /\
    sn_segment_id sn' = sel_segment_id sel /\ sn_reservation_status sn' = R_CONFIRMED /\
    sn_segment_status sn' = S_CHANGED /\ sn_old_flight_id sn' = sel_new_flight_id sel /\
    sn_old_fare_class_id sn' = sel_new_fare_class_id sel.
Proof using Hex.
  pose proof rebooked_segment_row as Hsr. pose proof rebooked_reservation_row as Hrr.
  destruct Hex as [Hs Hv Hseg [Ho1 Ho2] [Hn1 Hn2] Hr Hrid Hnf Hof _ _ Hcr _].
  destruct (get_snapshot_rows _ _ _ _ Hs) as (seg' & r' & f & fc & ff & tf & tc & Hrows & Hsn).
  destruct Hrows as [H1 H2 H3 H4 H5 H6 H7 H8].
  rewrite Hseg in H1. injection H1 as <-.
  rewrite <- Hrid, Hr in H2. injection H2 as <-.
  rewrite <- Hn1, <- Hn2, Hnf in H5. injection H5 as <-.
  destruct (find_fare_key _ _ _ _ Hnf) as [Hk1 Hk2].
  assert (exists ff', find_fare db' (sel_new_flight_id sel) (sel_new_fare_class_id sel) = Some ff' /\
            ff_flight_id ff' = ff_flight_id nf /\ ff_fare_class_id ff' = ff_fare_class_id nf)
    as (ff' & Hff' & Hk1' & Hk2').
  { unfold db'. rewrite (rebooked_find_fare am sel db v), <- Hn1, <- Hn2, Hnf. cbn.
    eexists; split; [reflexivity|]. by repeat case_match. }
  assert (exists credit', match sel_travel_credit_id sel with
    | Some id => exists c, find_credit db' id = Some c /\ credit' = Some c
    | None => credit' = None end) as [credit' Hcredit].
  { unfold db', find_credit, rebooked, spend_credit. cbn [travel_credits].
    destruct (sel_travel_credit_id sel) as [id|]; [|eauto].
    destruct Hcr as (c & Hc & _). rewrite scalar_update by done.
    unfold find_credit in Hc. rewrite Hc. cbn. eauto. }
  eexists _, credit'. split.
  - apply (get_snapshot_intro sel db' (book am v seg) (charge am v r) tf tc ff' tf tc credit').
    split; try done.
    + change (find_flight db (va_new_flight_id v) = Some tf). by rewrite <- Hk1.
    + change (find_fare_class db (va_new_fare_class_id v) = Some tc). by rewrite <- Hk2.
    + change (find_flight db (ff_flight_id ff') = Some tf). by rewrite Hk1'.
    + change (find_fare_class db (ff_fare_class_id ff') = Some tc). by rewrite Hk2'.
  - cbn. rewrite (find_segment_id _ _ _ Hseg), Hn1, Hn2. repeat split; try done.
    apply validate_iff in Hv as [[_ He _ _ _ _ _ _ _ _ _] _]. by subst sn.
Qed.
End Outcome.

(** A rebooking that succeeded is verified: [verify] finds the segment on
    the selected flight and fare, marked changed, and returns the segment and
    booking reference [execute] returned. *)
Theorem executed_verifies am sel db res db' :
  schema_ok db ->
  execute am (validate_rebooking_selection (am_now_validate am)) sel db = (Ok res, db') ->
  verify db' sel = Ok (mkRebookingResult None (rr_segment res) (rr_booking_reference res)).
Proof.
  intros Hdb Hrun.
  destruct (execute_Ok_inv _ _ _ _ _ Hdb Hrun) as (sn & cr & v & seg & r & nf & off & Hex & -> & ->).
  by eapply verify_rebooked.
Qed.

(** A rebooking is applied at most once: executing the same selection again
    is refused as already applied and changes nothing, so a retried job cannot
    charge the customer or move seats twice. *)
Theorem executed_once am am' sel db res db' :
  schema_ok db ->
  execute am (validate_rebooking_selection (am_now_validate am)) sel db = (Ok res, db') ->
  execute am' (validate_rebooking_selection (am_now_validate am')) sel db' =
    (raise RebookingRuleError "rebooking was already applied", db').
Proof.
  intros Hdb Hrun.
  destruct (execute_Ok_inv _ _ _ _ _ Hdb Hrun) as (sn & cr & v & seg & r & nf & off & Hex & -> & _).
  assert (schema_ok (rebooked am sel v db)) as Hdb' by (by eapply rebooked_schema).
  rewrite execute_eq_spec by done. unfold execute_spec.
  destruct (rebooked_snapshot _ _ _ _ _ _ _ _ _ _ Hex) as (sn' & cr' & -> & H1 & H2 & H3 & H4 & H5).
  rewrite res_bind_ret. unfold validate_rebooking_selection.
  by rewrite H1, H2, H3, H4, H5, !N.eqb_refl.
Qed.
