(* ===== verification/AirlineService.v ===== *)
(** The airline service: the class [Service] of [app/airline/service.py].

    The service is written against its repositories: [ReadRepositories] and
    [RebookingRepository] are the operations it calls, [ReadLaws] and
    [RebookingLaws] what they promise.  The theorems of the service use the laws
    alone; [orm_reads] and [orm_rebooking] satisfy them here, the asyncpg
    variants in SqlRepositories.  A method runs on one state of the database;
    [now] is the database's clock. *)
From stdpp Require Import base numbers strings list sets.
From S2P Require Import Prelude Models Database Repositories Rules OrmRebooking RebookingInvariants RebookingOutcome.
Local Open Scope Z_scope.
Local Open Scope bool_scope.

(** * The repositories *)

Record ReadRepositories := mkReads {
  repo_customer_by_id : DB -> UUID -> Res Customer;
  repo_details : DB -> string -> Res ReservationDetailsSchema;
  repo_segment_by_id : DB -> UUID -> Res (ReservationSegment * option FareClass);
  repo_flight_by_id : DB -> UUID -> Res Flight;
  repo_search_available : DB -> SearchAvailableFlightsParamsSchema -> list AvailableFlightSchema;
  repo_available_credits : DB -> datetime -> UUID -> string -> list TravelCredit;
  repo_changes : DB -> UUID -> list FlightChange }.

Record RebookingRepository := mkRebooking {
  rb_get_snapshot : DB -> RebookingSelectionSchema ->
    Res (RebookingSnapshotSchema * option TravelCreditSchema);
  rb_execute : Ambient -> Validate -> RebookingSelectionSchema -> DB -> Res RebookingResultSchema * DB;
  rb_verify : DB -> RebookingSelectionSchema -> Res RebookingResultSchema }.

Definition orm_reads : ReadRepositories :=
  mkReads customer_get_by_id get_details_by_booking_reference get_segment_by_id flight_get_by_id
    search_available get_available_by_customer get_by_segment.
Definition orm_rebooking : RebookingRepository := mkRebooking get_snapshot execute verify.

(** * The service *)

Section Reads.
Context (reads : ReadRepositories).

Definition get_customer (db : DB) (customer_id : UUID) : Res CustomerSchema :=
  repo_customer_by_id reads db customer_id.

Definition service_get_reservation (db : DB) (booking_reference : string) :
    Res ReservationDetailsSchema :=
  if (booking_reference =? "")%string then raise ValueError "booking reference is required"
  else repo_details reads db booking_reference.

Definition get_available_travel_credits (db : DB) (now : datetime) (customer_id : UUID)
    (currency : string) : Res (list TravelCreditSchema) :=
  if (currency =? "")%string then raise ValueError "currency is required"
  else Ok (repo_available_credits reads db now customer_id currency).

(** The candidates and fares the loop does not [continue] past. *)
Definition candidate_ok (input_data : SearchRebookingOptionsInputSchema) (original_flight : Flight)
    (f : Flight) : bool :=
  negb (negb (bool_decide (f_status f = F_SCHEDULED))
        || negb (f_origin_airport f =? f_origin_airport original_flight)%string
        || negb (f_destination_airport f =? f_destination_airport original_flight)%string
        || (f_departure_at f <? si_departure_from input_data)
        || (si_departure_to input_data <? f_departure_at f)).
Definition fare_ok (input_data : SearchRebookingOptionsInputSchema) (fare : AvailableFareSchema) : bool :=
  negb (negb (fc_change_allowed (af_fare_class fare))
        || (ff_available_seats (af_flight_fare fare) <? si_passenger_count input_data)).

Definition option_of (segment : ReservationSegment) (flight : Flight) (fare : AvailableFareSchema) :
    RebookingOptionSchema :=
  mkRebookingOption flight (af_fare_class fare) (af_flight_fare fare)
    (ff_price (af_flight_fare fare) - rs_price_paid segment) (fc_change_fee (af_fare_class fare)).

Definition options_of (input_data : SearchRebookingOptionsInputSchema) (segment : ReservationSegment)
    (original_flight : Flight) (candidates : list AvailableFlightSchema) : list RebookingOptionSchema :=
  flat_map (fun candidate =>
    if candidate_ok input_data original_flight (avf_flight candidate) then
      option_of segment (avf_flight candidate)
        <$> List.filter (fare_ok input_data) (avf_fares candidate)
    else []) candidates.

Definition search_rebooking_options (db : DB) (input_data : SearchRebookingOptionsInputSchema) :
    Res (list RebookingOptionSchema) :=
  if si_departure_to input_data <? si_departure_from input_data then
    raise InvalidSearchWindowError "departure window is invalid"
  else if si_passenger_count input_data <=? 0 then
    raise InvalidPassengerCountError "passenger count must be greater than zero"
  else
    '(segment, original_fare) ← repo_segment_by_id reads db (si_segment_id input_data);
    original_flight ← repo_flight_by_id reads db (rs_flight_id segment);
    let candidates := repo_search_available reads db
      (mkSearchParams (f_origin_airport original_flight) (f_destination_airport original_flight)
         (si_departure_from input_data) (si_departure_to input_data)
         (si_passenger_count input_data)) in
    match original_fare with
    | Some original_fare =>
        if negb (fc_change_allowed original_fare) then Ok []
        else Ok (options_of input_data segment original_flight candidates)
    | None => Ok (options_of input_data segment original_flight candidates)
    end.

Definition get_change_history (db : DB) (segment_id : UUID) : Res (list FlightChangeSchema) :=
  Ok (repo_changes reads db segment_id).
End Reads.

Section Rebooking.
(** [self._rebooking]. *)
Context (rebooking : option RebookingRepository).

Definition service_validate (db : DB) (now : datetime) (selection : RebookingSelectionSchema) :
    Res RebookingValidationSchema :=
  rebooking ← or_raise rebooking RuntimeError "rebooking repository is required";
  '(snapshot, credit) ← rb_get_snapshot rebooking db selection;
  validate_rebooking_selection now selection snapshot credit.

Definition service_validate_change := service_validate.

Definition service_execute (am : Ambient) (selection : RebookingSelectionSchema) (db : DB) :
    Res RebookingResultSchema * DB :=
  match rebooking with
  | None => (raise RuntimeError "rebooking repository is required", db)
  | Some rebooking =>
      rb_execute rebooking am (validate_rebooking_selection (am_now_validate am)) selection db
  end.

Definition service_verify (db : DB) (selection : RebookingSelectionSchema) : Res RebookingResultSchema :=
  rebooking ← or_raise rebooking RuntimeError "rebooking repository is required";
  rb_verify rebooking db selection.
End Rebooking.

(** * What the repositories promise *)

Definition SegmentAnswer (db : DB) (id : UUID) (answer : Res (ReservationSegment * option FareClass)) :
    Prop :=
  match find_segment db id, answer with
  | Some segment, Ok (segment', fare_class) =>
      segment' = segment /\ fare_class = find_fare_class db (rs_fare_class_id segment)
  | None, Raise e => exn_type e = SegmentNotFoundError
  | _, _ => False
  end.

(** The details of a booking, up to the order of its passengers and segments. *)
Definition DetailsAnswer (db : DB) (booking_reference : string) (answer : Res ReservationDetailsSchema) :
    Prop :=
  match answer with
  | Raise e =>
      exn_type e = ReservationNotFoundError
      /\ booking_reference ∉ r_booking_reference <$> reservations db
  | Ok d =>
      rd_reservation d ∈ reservations db /\ r_booking_reference (rd_reservation d) = booking_reference
      /\ find_customer db (r_customer_id (rd_reservation d)) = Some (rd_customer d)
      /\ rd_passengers d ≡ₚ passengers_of db (r_id (rd_reservation d))
      /\ sd_segment <$> rd_segments d
         ≡ₚ select (fun rs => rs_reservation_id rs =? r_id (rd_reservation d))%N (reservation_segments db)
      /\ Forall (fun s => find_flight db (rs_flight_id (sd_segment s)) = Some (sd_flight s)
           /\ find_fare_class db (rs_fare_class_id (sd_segment s)) = Some (sd_fare_class s))
           (rd_segments d)
  end.

Record ReadLaws (reads : ReadRepositories) : Prop := {
  law_details db reference : schema_ok db -> DetailsAnswer db reference (repo_details reads db reference);
  law_segment db id : schema_ok db -> SegmentAnswer db id (repo_segment_by_id reads db id);
  law_flight db id : schema_ok db ->
    match find_flight db id, repo_flight_by_id reads db id with
    | Some f, Ok f' => f' = f
    | None, Raise e => exn_type e = FlightNotFoundError
    | _, _ => False
    end;
  law_search db params row : schema_ok db ->
    row ∈ flat_map group_rows (repo_search_available reads db params) <->
    row ∈ fare_rows db /\ available params row = true;
  law_credits db now customer currency : repo_available_credits reads db now customer currency
    = get_available_by_customer db now customer currency;
  law_changes db id : repo_changes reads db id = get_by_segment db id }.

(** A rebooking repository validates what the SQLAlchemy one validates, and its
    execution either fails without an effect or has the effect of the
    SQLAlchemy one and is then verified. *)
Record RebookingLaws (rebooking : RebookingRepository) : Prop := {
  law_snapshot db now sel v : schema_ok db ->
    ('(sn, credit) ← rb_get_snapshot rebooking db sel; validate_rebooking_selection now sel sn credit) = Ok v <->
    ('(sn, credit) ← get_snapshot db sel; validate_rebooking_selection now sel sn credit) = Ok v;
  law_fails am sel db e db' : db_inv db ->
    rb_execute rebooking am (validate_rebooking_selection (am_now_validate am)) sel db = (Raise e, db') ->
    db' = db;
  law_executes am sel db x db' : db_inv db ->
    rb_execute rebooking am (validate_rebooking_selection (am_now_validate am)) sel db = (Ok x, db') ->
    exists am' x', am_now_validate am' = am_now_validate am
      /\ execute am' (validate_rebooking_selection (am_now_validate am')) sel db = (Ok x', db')
      /\ rr_change x = rr_change x';
  law_verifies am sel db x db' : db_inv db ->
    rb_execute rebooking am (validate_rebooking_selection (am_now_validate am)) sel db = (Ok x, db') ->
    exists y, rb_verify rebooking db' sel = Ok y }.

(** * Search *)

(** The option of a row of the fare table. *)
Definition row_option (segment : ReservationSegment) (row : FareRow) : RebookingOptionSchema :=
  mkRebookingOption (jr_flight row) (jr_class row) (jr_fare row)
    (ff_price (jr_fare row) - rs_price_paid segment) (fc_change_fee (jr_class row)).

(** What makes a fare an option for moving [segment] off flight [f0]. *)
Record Offerable (db : DB) (input : SearchRebookingOptionsInputSchema) (f0 : Flight)
    (row : FareRow) : Prop := {
  of_rows : row ∈ fare_rows db;
  of_scheduled : f_status (jr_flight row) = F_SCHEDULED;
  of_route : f_origin_airport (jr_flight row) = f_origin_airport f0
    /\ f_destination_airport (jr_flight row) = f_destination_airport f0;
  of_window : si_departure_from input <= f_departure_at (jr_flight row) <= si_departure_to input;
  of_seats : si_passenger_count input <= ff_available_seats (jr_fare row);
  of_class : fc_change_allowed (jr_class row) = true }.

Lemma candidate_ok_iff input f0 f : candidate_ok input f0 f = true <->
  f_status f = F_SCHEDULED /\ f_origin_airport f = f_origin_airport f0
  /\ f_destination_airport f = f_destination_airport f0
  /\ si_departure_from input <= f_departure_at f <= si_departure_to input.
Proof. unfold candidate_ok. autorewrite with py_bool. rewrite bool_decide_eq_true. intuition lia. Qed.

Lemma fare_ok_iff input a : fare_ok input a = true <->
  fc_change_allowed (af_fare_class a) = true
  /\ si_passenger_count input <= ff_available_seats (af_flight_fare a).
Proof. unfold fare_ok. autorewrite with py_bool. intuition lia. Qed.

Lemma elem_of_options input seg f0 candidates o :
  o ∈ options_of input seg f0 candidates <->
  exists row, row ∈ flat_map group_rows candidates /\ o = row_option seg row
    /\ candidate_ok input f0 (jr_flight row) = true
    /\ fare_ok input (mkAvailableFare (jr_class row) (jr_fare row)) = true.
Proof.
  unfold options_of. rewrite elem_of_flat_map. setoid_rewrite elem_of_flat_map. split.
  - intros (c & Hc & Ho). destruct (candidate_ok _ _ _) eqn:E; [|by apply not_elem_of_nil in Ho].
    apply list_elem_of_fmap in Ho as (a & -> & [Ha Hok]%elem_of_select).
    exists (mkFareRow (af_flight_fare a) (avf_flight c) (af_fare_class a)). split; [|by destruct a].
    exists c. split; [done|]. unfold group_rows. apply list_elem_of_fmap. by exists a.
  - intros (row & (c & Hc & Hrow) & -> & Hcand & Hfare). exists c. split; [done|].
    apply list_elem_of_fmap in Hrow as (a & -> & Ha). cbn in Hcand. rewrite Hcand.
    apply (list_elem_of_fmap_2 (option_of seg (avf_flight c))).
    apply elem_of_select. by destruct a.
Qed.

Lemma elem_of_search reads db input seg f0 o : ReadLaws reads -> schema_ok db ->
  o ∈ options_of input seg f0 (repo_search_available reads db
        (mkSearchParams (f_origin_airport f0) (f_destination_airport f0) (si_departure_from input)
           (si_departure_to input) (si_passenger_count input))) <->
  exists row, Offerable db input f0 row /\ o = row_option seg row.
Proof.
  intros Hl Hdb. rewrite elem_of_options. setoid_rewrite (law_search _ Hl); [|done].
  setoid_rewrite candidate_ok_iff. setoid_rewrite fare_ok_iff. unfold available. cbn.
  split.
  - intros (row & [Hrow _] & -> & (Hs & Ho & Hd & Hw) & Hc & Hn). exists row. by split.
  - intros (row & [Hrow Hs [Ho Hd] Hw Hn Hc] & ->). exists row.
    split; [|done]. split; [done|]. autorewrite with py_bool. rewrite bool_decide_eq_true.
    intuition lia.
Qed.

Lemma find_row {A} (pk : A -> UUID) t id : NoDup (pk <$> t) -> id ∈ pk <$> t ->
  exists r, scalar (fun r => pk r =? id)%N t = Some r.
Proof.
  intros Hnd (r & -> & Hr)%list_elem_of_fmap. exists r.
  eapply (scalar_unique pk); [done|done|apply N.eqb_refl|]. by intros r' ->%N.eqb_eq.
Qed.

(** What a search answers. *)
Definition SearchAnswer (db : DB) (input : SearchRebookingOptionsInputSchema)
    (answer : Res (list RebookingOptionSchema)) : Prop :=
  match answer with
  | Raise e =>
      (exn_type e = InvalidSearchWindowError /\ si_departure_to input < si_departure_from input)
      \/ (exn_type e = InvalidPassengerCountError /\ si_departure_from input <= si_departure_to input
          /\ si_passenger_count input <= 0)
      \/ (exn_type e = SegmentNotFoundError /\ si_departure_from input <= si_departure_to input
          /\ 0 < si_passenger_count input /\ find_segment db (si_segment_id input) = None)
  | Ok options =>
      si_departure_from input <= si_departure_to input /\ 0 < si_passenger_count input
      /\ exists segment f0 c0, find_segment db (si_segment_id input) = Some segment
         /\ find_flight db (rs_flight_id segment) = Some f0
         /\ find_fare_class db (rs_fare_class_id segment) = Some c0
         /\ forall o, o ∈ options <->
              fc_change_allowed c0 = true
              /\ exists row, Offerable db input f0 row /\ o = row_option segment row
  end.

Lemma search_answer reads db input : ReadLaws reads -> schema_ok db ->
  SearchAnswer db input (search_rebooking_options reads db input).
Proof.
  intros Hl Hdb. unfold SearchAnswer, search_rebooking_options.
  destruct (si_departure_to input <? _) eqn:Hw; to_prop; [by left|].
  destruct (si_passenger_count input <=? 0) eqn:Hn; to_prop; [by right; left|].
  pose proof (law_segment _ Hl db (si_segment_id input) Hdb) as Hls. unfold SegmentAnswer in Hls.
  destruct (find_segment db (si_segment_id input)) as [seg|] eqn:Hseg;
    destruct (repo_segment_by_id reads db (si_segment_id input)) as [[seg' fc]|e]; try done.
  2: { right; right. by split_and!. }
  destruct Hls as [-> ->]. destruct (scalar_Some _ _ _ Hseg) as [Hin _].
  destruct (find_row f_id (flights db) (rs_flight_id seg)) as [f0 Hf0];
    [apply Hdb|by eapply references_elem; [apply Hdb|]|].
  destruct (find_row fc_id (fare_classes db) (rs_fare_class_id seg)) as [c0 Hc0];
    [apply Hdb|by eapply references_elem; [apply Hdb|]|].
  change (find_flight db (rs_flight_id seg) = Some f0) in Hf0.
  change (find_fare_class db (rs_fare_class_id seg) = Some c0) in Hc0.
  pose proof (law_flight _ Hl db (rs_flight_id seg) Hdb) as Hlf. rewrite Hf0 in Hlf. cbn.
  destruct (repo_flight_by_id reads db (rs_flight_id seg)) as [f1|]; [subst f1|done]. cbn.
  rewrite Hc0. destruct (fc_change_allowed c0) eqn:Hca; cbn [negb];
    (split; [lia|split; [lia|]]); exists seg, f0, c0; (split_and!; [done..|]); intros o.
  - rewrite elem_of_search by done. naive_solver.
  - rewrite Hca. split; [by intros ?%not_elem_of_nil|by intros []].
Qed.

(** * Search and the rules agree *)

Lemma service_validate_rows rebooking db now sel v : RebookingLaws rebooking -> schema_ok db ->
  service_validate (Some rebooking) db now sel = Ok v <->
  exists seg r f fc ff tf tc credit,
    SnapshotRows sel db seg r f fc ff tf tc credit
    /\ let sn := make_snapshot seg r f fc ff tf tc (Z.of_nat (length (passengers_of db (r_id r)))) in
       Eligible now sel sn credit /\ v = validation_of sel sn.
Proof.
  intros Hl Hdb. unfold service_validate. cbn [or_raise]. rewrite res_bind_ret.
  rewrite (law_snapshot _ Hl) by done. rewrite res_bind_Ok. split.
  - intros ([sn credit] & Hs & Hv).
    apply get_snapshot_rows in Hs as (seg & r & f & fc & ff & tf & tc & Hrows & ->).
    apply validate_iff in Hv. eauto 12.
  - intros (seg & r & f & fc & ff & tf & tc & credit & Hrows & Hv).
    eexists. split; [by eapply get_snapshot_intro|]. by apply validate_iff.
Qed.

(** A credit that can pay [amount] for a reservation. *)
Record Pays (now : datetime) (r : Reservation) (currency : string) (amount : Decimal)
    (c : TravelCredit) : Prop := {
  pay_customer : tc_customer_id c = r_customer_id r;
  pay_currency : tc_currency c = currency;
  pay_balance : 0 < amount <= tc_remaining_amount c;
  pay_expiry : now < tc_expires_at c;
  pay_status : tc_status c = C_AVAILABLE \/ tc_status c = C_PARTIALLY_USED }.

(** What an offered option still needs to be accepted. *)
Record Acceptable (db : DB) (now : datetime) (seg : ReservationSegment) (r : Reservation)
    (o : RebookingOptionSchema) (sel : RebookingSelectionSchema) : Prop := {
  ac_reservation : r_status r = R_CONFIRMED;
  ac_segment : rs_status seg = S_CONFIRMED \/ rs_status seg = S_CHANGED
    /\ (rs_flight_id seg, rs_fare_class_id seg) <> (sel_new_flight_id sel, sel_new_fare_class_id sel);
  ac_currency : ff_currency (ro_flight_fare o) = rs_currency seg;
  ac_amount : sel_travel_credit_amount sel = Z.max (ro_fare_difference o + ro_change_fee o) 0;
  ac_credit : match sel_travel_credit_id sel with
    | Some id => exists c, find_credit db id = Some c
                   /\ Pays now r (rs_currency seg) (sel_travel_credit_amount sel) c
    | None => sel_travel_credit_amount sel = 0
    end }.

Section Offered.
Context (db : DB) (Hdb : schema_ok db) (input : SearchRebookingOptionsInputSchema)
        (seg : ReservationSegment) (r : Reservation) (f0 : Flight) (c0 : FareClass) (row : FareRow)
        (sel : RebookingSelectionSchema).
Context (Hseg : find_segment db (si_segment_id input) = Some seg)
        (Hr : find_reservation db (rs_reservation_id seg) = Some r)
        (Hf0 : find_flight db (rs_flight_id seg) = Some f0)
        (Hc0 : find_fare_class db (rs_fare_class_id seg) = Some c0)
        (Hca : fc_change_allowed c0 = true)
        (Hrow : Offerable db input f0 row)
        (Hcount : si_passenger_count input = Z.of_nat (length (passengers_of db (r_id r))))
        (Hpos : 0 < si_passenger_count input)
        (Hsel : sel_segment_id sel = si_segment_id input)
        (Hflight : sel_new_flight_id sel = f_id (jr_flight row))
        (Hclass : sel_new_fare_class_id sel = fc_id (jr_class row)).

Lemma offered_rows credit :
  match sel_travel_credit_id sel with
  | Some id => exists c, find_credit db id = Some c /\ credit = Some c
  | None => credit = None
  end ->
  SnapshotRows sel db seg r f0 c0 (jr_fare row) (jr_flight row) (jr_class row) credit.
Proof using All.
  destruct Hrow as [Hin _ _ _ _ _]. apply elem_of_fare_rows in Hin as (Hff & Hf & Hc & Hid & Hcid).
  intros Hcredit. split; try done.
  - by rewrite Hsel.
  - rewrite Hflight, Hclass. unfold find_fare.
    apply (scalar_unique (fun ff => (ff_flight_id ff, ff_fare_class_id ff))); [apply Hdb|done| |].
    + by apply is_fare_iff.
    + intros ff' [-> ->]%is_fare_iff. by rewrite Hid, Hcid.
  - unfold find_flight. rewrite <- Hid.
    apply (scalar_unique f_id); [apply Hdb|done|apply N.eqb_refl|]. by intros f' ->%N.eqb_eq.
  - unfold find_fare_class. rewrite <- Hcid.
    apply (scalar_unique fc_id); [apply Hdb|done|apply N.eqb_refl|]. by intros c' ->%N.eqb_eq.
Qed.

Let sn := make_snapshot seg r f0 c0 (jr_fare row) (jr_flight row) (jr_class row)
            (Z.of_nat (length (passengers_of db (r_id r)))).

Lemma offered_eligible now credit :
  match sel_travel_credit_id sel with
  | Some id => exists c, find_credit db id = Some c /\ credit = Some c
  | None => credit = None
  end ->
  Eligible now sel sn credit <-> Acceptable db now seg r (row_option seg row) sel.
Proof using All.
  destruct Hrow as [Hin Hsch [Hro Hrd] _ Hseats Hch].
  apply elem_of_fare_rows in Hin as (_ & _ & _ & Hid & Hcid).
  pose proof (find_segment_id _ _ _ Hseg) as Hsid. intros Hcredit. split.
  - intros [E1 E2 E3 E4 E5 E6 E7 E8 E9 E10 E11]. split; try done.
    destruct (sel_travel_credit_id sel) as [id|]; [|done].
    destruct Hcredit as (c & Hc & ->). destruct E10 as (c' & [= <-] & []). exists c. split; [done|].
    by split.
  - intros [A1 A2 A3 A4 A5]. split; try done.
    + cbn. congruence.
    + by rewrite Hflight, Hclass, Hid, Hcid.
    + unfold sn; cbn. lia.
    + unfold sn; cbn. by rewrite Hro, Hrd.
    + destruct (sel_travel_credit_id sel) as [id|] eqn:Hsid'; [|done].
      destruct Hcredit as (c & Hc & ->), A5 as (c' & Hc' & []).
      exists c. split; [done|]. rewrite Hc in Hc'. injection Hc' as <-. split; try done.
      by eapply find_credit_id.
Qed.

Lemma offered_validates rebooking (Hl : RebookingLaws rebooking) now v :
  service_validate (Some rebooking) db now sel = Ok v <->
  Acceptable db now seg r (row_option seg row) sel /\ v = validation_of sel sn.
Proof using All.
  rewrite service_validate_rows by done. split.
  - intros (seg' & r' & f & fc & ff & tf & tc & credit & [S1 S2 S3 S4 S5 S6 S7 S8] & Hel & ->).
    destruct (offered_rows _ S8) as [R1 R2 R3 R4 R5 R6 R7 _].
    rewrite R1 in S1. injection S1 as <-. rewrite R2 in S2. injection S2 as <-.
    rewrite R3 in S3. injection S3 as <-. rewrite R4 in S4. injection S4 as <-.
    rewrite R5 in S5. injection S5 as <-. rewrite R6 in S6. injection S6 as <-.
    rewrite R7 in S7. injection S7 as <-. split; [|done]. by apply (offered_eligible now credit).
  - intros [Hac ->].
    assert (exists credit, match sel_travel_credit_id sel with
      | Some id => exists c, find_credit db id = Some c /\ credit = Some c
      | None => credit = None end) as [credit Hcredit].
    { destruct Hac as [_ _ _ _ Hpay]. destruct (sel_travel_credit_id sel); [|eauto].
      destruct Hpay as (c & Hc & _). eauto. }
    exists seg, r, f0, c0, (jr_fare row), (jr_flight row), (jr_class row), credit.
    split; [by apply offered_rows|]. split; [|done]. by apply offered_eligible.
Qed.
End Offered.

(** C30: a search answers exactly the options there are: it raises only for a
    reversed window, a passenger count below one or an unknown segment, and
    else lists every fare of a scheduled flight on the segment's route in the
    window that allows changes and has the seats, priced against what the
    segment cost, and nothing else; nothing when the segment's own fare allows
    no change. *)
Theorem search_spec reads db input :
  ReadLaws reads -> schema_ok db -> SearchAnswer db input (search_rebooking_options reads db input).
Proof. apply search_answer. Qed.

(** C31: an offered option is accepted exactly when what the search does not
    look at is right: the reservation is confirmed, the segment changeable, the
    fare in the segment's currency, and a usable credit pays exactly the
    positive part of the offered difference and fee; and the accepted change
    has the offered difference and fee. *)
Theorem offered_is_accepted reads rebooking db input os o seg r now sel :
  ReadLaws reads -> RebookingLaws rebooking -> schema_ok db ->
  search_rebooking_options reads db input = Ok os -> o ∈ os ->
  find_segment db (si_segment_id input) = Some seg ->
  find_reservation db (rs_reservation_id seg) = Some r ->
  si_passenger_count input = Z.of_nat (length (passengers_of db (r_id r))) ->
  sel_segment_id sel = si_segment_id input ->
  sel_new_flight_id sel = f_id (ro_flight o) -> sel_new_fare_class_id sel = fc_id (ro_fare_class o) ->
  ((exists v, service_validate (Some rebooking) db now sel = Ok v) <-> Acceptable db now seg r o sel)
  /\ forall v, service_validate (Some rebooking) db now sel = Ok v ->
       va_fare_difference v = ro_fare_difference o /\ va_change_fee v = ro_change_fee o.
Proof.
  intros Hlr Hlb Hdb Hos Ho Hseg Hr Hn Hs Hf Hc. pose proof (search_answer reads db input Hlr Hdb) as Ha.
  rewrite Hos in Ha. destruct Ha as (_ & Hpos & seg' & f0 & c0 & Hseg' & Hf0 & Hc0 & Hall).
  rewrite Hseg in Hseg'. injection Hseg' as <-. apply Hall in Ho as (Hca & row & Hrow & ->).
  pose proof (offered_validates db Hdb input seg r f0 c0 row sel Hseg Hr Hf0 Hc0 Hca Hrow Hn Hpos
    Hs Hf Hc rebooking Hlb now) as Hv. split.
  - split; [intros [v Hok]; by apply Hv in Hok as [? _]|]. intros Hac. eexists. by apply Hv.
  - intros v Hok. by apply Hv in Hok as [_ ->].
Qed.

(** * Details *)

Lemma mapM_res_Ok {A B} (f : A -> Res B) l :
  (forall a, a ∈ l -> exists b, f a = Ok b) ->
  exists bs, mapM f l = Ok bs /\ Forall2 (fun a b => f a = Ok b) l bs.
Proof.
  induction l as [|a l IH]; intros Hf; [by exists []|].
  destruct (Hf a) as [b Hb]; [set_solver|].
  destruct IH as (bs & Hbs & Hall); [intros; apply Hf; set_solver|].
  exists (b :: bs). cbn. rewrite Hb. cbn. rewrite Hbs. split; [done|by constructor].
Qed.

Lemma segment_details_ok db seg : schema_ok db -> seg ∈ reservation_segments db ->
  exists f c, find_flight db (rs_flight_id seg) = Some f
    /\ find_fare_class db (rs_fare_class_id seg) = Some c
    /\ segment_details db seg = Ok (mkSegmentDetails seg f c).
Proof.
  intros Hdb Hin.
  destruct (find_row f_id (flights db) (rs_flight_id seg)) as [f Hf];
    [apply Hdb|by eapply references_elem; [apply Hdb|]|].
  destruct (find_row fc_id (fare_classes db) (rs_fare_class_id seg)) as [c Hc];
    [apply Hdb|by eapply references_elem; [apply Hdb|]|].
  exists f, c. unfold segment_details.
  change (find_flight db (rs_flight_id seg) = Some f) in Hf.
  change (find_fare_class db (rs_fare_class_id seg) = Some c) in Hc. by rewrite Hf, Hc.
Qed.

Lemma select_unique_row {A K} (key : A -> K) P (t : list A) :
  NoDup (key <$> t) -> (forall a b, P a = true -> P b = true -> key a = key b) ->
  select P t = [] \/ exists r, select P t = [r] /\ r ∈ t /\ P r = true.
Proof.
  intros Hnd Hkey. induction t as [|a t IH]; [by left|]. apply NoDup_cons in Hnd as [Ha Hnd].
  unfold select in *. cbn [List.filter]. destruct (P a) eqn:E.
  - right. exists a. split; [|split; [set_solver|done]]. f_equal.
    destruct (IH Hnd) as [->|(r & Hsel & Hr & HPr)]; [done|]. destruct Ha.
    rewrite (Hkey a r) by done. by apply list_elem_of_fmap_2.
  - destruct (IH Hnd) as [->|(r & -> & Hr & HPr)]; [by left|]. right. exists r. set_solver.
Qed.

Lemma details_rows db segs ds : schema_ok db ->
  Forall2 (fun seg d => segment_details db seg = Ok d) segs ds ->
  (forall seg, seg ∈ segs -> seg ∈ reservation_segments db) ->
  sd_segment <$> ds = segs
  /\ Forall (fun s => find_flight db (rs_flight_id (sd_segment s)) = Some (sd_flight s)
       /\ find_fare_class db (rs_fare_class_id (sd_segment s)) = Some (sd_fare_class s)) ds.
Proof.
  intros Hdb. induction 1 as [|seg d segs ds Hok _ IH]; intros Hin; [done|].
  destruct (segment_details_ok db seg Hdb) as (f & c & Hf & Hc & Hok'); [set_solver|].
  rewrite Hok in Hok'. injection Hok' as ->. destruct IH as [IH1 IH2]; [set_solver|].
  split; [cbn; by rewrite IH1|]. by constructor.
Qed.

Lemma orm_details db booking_reference : schema_ok db ->
  DetailsAnswer db booking_reference (get_details_by_booking_reference db booking_reference).
Proof.
  intros Hdb. unfold DetailsAnswer, get_details_by_booking_reference.
  destruct (select_unique_row r_booking_reference
    (fun r => r_booking_reference r =? booking_reference)%string (reservations db))
    as [Hsel|(r & Hsel & Hr & Hb)]; [apply Hdb|by intros a b ->%String.eqb_eq ->%String.eqb_eq|..];
    rewrite Hsel.
  { split; [done|]. intros (r & -> & Hr)%list_elem_of_fmap.
    enough (r ∈ select (fun r' => r_booking_reference r' =? r_booking_reference r)%string
                  (reservations db)) as Hin by (rewrite Hsel in Hin; by apply not_elem_of_nil in Hin).
    apply elem_of_select. by rewrite String.eqb_refl. }
  to_prop. destruct (mapM_res_Ok (segment_details db)
    (select (fun rs => rs_reservation_id rs =? r_id r)%N (reservation_segments db)))
    as (details & Hmap & Hall).
  { intros seg [Hin _]%elem_of_select.
    destruct (segment_details_ok db seg Hdb Hin) as (f & c & _ & _ & Hok). eauto. }
  rewrite Hmap, res_bind_ret.
  destruct (find_row c_id (customers db) (r_customer_id r)) as [cu Hcu];
    [apply Hdb|by eapply references_elem; [apply Hdb|]|].
  change (find_customer db (r_customer_id r) = Some cu) in Hcu. rewrite Hcu. cbn.
  apply (details_rows _ _ _ Hdb) in Hall as [Hseg Hrel].
  - split_and!; try done. by rewrite Hseg.
  - intros seg [Hin _]%elem_of_select. done.
Qed.

Lemma orm_reads_laws : ReadLaws orm_reads.
Proof.
  split; try done; cbn.
  - apply orm_details.
  - intros db id Hdb. unfold SegmentAnswer, get_segment_by_id. by destruct (find_segment db id).
  - intros db id Hdb. unfold flight_get_by_id. by destruct (find_flight db id).
  - intros. by apply search_available_rows.
Defined.

Lemma orm_rebooking_laws : RebookingLaws orm_rebooking.
Proof.
  split; cbn.
  - done.
  - intros am sel db e db' Hdb. apply execute_Raise_inv, Hdb.
  - intros am sel db x db' Hdb Hex. by exists am, x.
  - intros am sel db x db' Hdb Hex.
    destruct (execute_Ok_inv _ _ _ _ _ (inv_schema _ Hdb) Hex)
      as (sn & cr & v & seg & r & nf & off & Hexd & -> & _).
    eexists. by eapply verify_rebooked.
Defined.

(** The details of a booking are complete: for every non-empty reference
    of a reservation the service returns that reservation with its customer,
    all its passengers and all its segments, each with the flight and fare
    class it is booked on; only an empty or unknown reference raises. *)
Theorem get_reservation_spec reads db booking_reference :
  ReadLaws reads -> schema_ok db ->
  (booking_reference = "" /\ is_ok (service_get_reservation reads db booking_reference) = false)
  \/ (booking_reference <> "" /\
      DetailsAnswer db booking_reference (service_get_reservation reads db booking_reference)).
Proof.
  intros Hl Hdb. unfold service_get_reservation.
  destruct (booking_reference =? "")%string eqn:He; to_prop; [by left|]. right.
  split; [done|]. by apply Hl.
Qed.
