(* ===== verification/SqlRebooking.v ===== *)
(** The asyncpg rebooking repository: [app/airline/repository/sql/rebooking.py]
    with the statements of [queries.py] it sends, and its equivalence with the
    SQLAlchemy repository.

    A [SELECT ... JOIN] reads the first joined row; an [UPDATE ... WHERE] that
    matches no row changes nothing and raises nothing.  [NOW()] is the start of
    the transaction. *)
From stdpp Require Import base numbers strings list sets.
From S2P Require Import Prelude Models Rules Database Uuid Repositories OrmRebooking RebookingInvariants RebookingOutcome AirlineService.
Local Open Scope Z_scope.
Local Open Scope bool_scope.

(** * Statements *)

Record SegmentRow := mkSegmentRow {
  sg_segment : ReservationSegment; sg_reservation : Reservation; sg_flight : Flight;
  sg_fare_class : FareClass; sg_passenger_count : Z }.

Definition GET_REBOOKING_SEGMENT_FOR_UPDATE (segment_id : UUID) (db : DB) : option SegmentRow :=
  rs ← find_segment db segment_id;
  r ← find_reservation db (rs_reservation_id rs);
  old_f ← find_flight db (rs_flight_id rs);
  old_fc ← find_fare_class db (rs_fare_class_id rs);
  Some (mkSegmentRow rs r old_f old_fc (Z.of_nat (length
    (select (fun rp => rp_reservation_id rp =? rs_reservation_id rs)%N (reservation_passengers db))))).

Definition GET_REBOOKING_TARGET_FOR_UPDATE (flight_id fare_class_id : UUID) (db : DB) : option FareRow :=
  f ← find_flight db flight_id;
  ff ← find_fare db (f_id f) fare_class_id;
  fc ← find_fare_class db (ff_fare_class_id ff);
  Some (mkFareRow ff f fc).

Definition GET_TRAVEL_CREDIT_FOR_UPDATE (credit_id customer_id : UUID) (db : DB) : option TravelCredit :=
  scalar (fun c => (tc_id c =? credit_id)%N && (tc_customer_id c =? customer_id)%N) (travel_credits db).

Definition DECREMENT_FLIGHT_FARE_SEATS (n : Z) (flight_id fare_class_id : UUID) : DB -> DB :=
  with_flight_fares (update
    (fun ff => is_fare flight_id fare_class_id ff && (n <=? ff_available_seats ff))
    (fun ff => set_seats (ff_available_seats ff - n) ff)).

Definition INCREMENT_FLIGHT_FARE_SEATS (n : Z) (flight_id fare_class_id : UUID) : DB -> DB :=
  with_flight_fares (update (is_fare flight_id fare_class_id)
    (fun ff => set_seats (ff_available_seats ff + n) ff)).

Definition UPDATE_RESERVATION_SEGMENT (now : datetime) (segment_id flight_id fare_class_id : UUID)
    (price : Decimal) (currency : string) : DB -> DB :=
  with_segments (update (fun rs => rs_id rs =? segment_id)%N
    (set_booking flight_id fare_class_id price currency S_CHANGED now)).

Definition UPDATE_RESERVATION_TOTAL (now : datetime) (reservation_id : UUID) (amount : Decimal) : DB -> DB :=
  with_reservations (update (fun r => r_id r =? reservation_id)%N
    (fun r => set_total (r_total_amount r + amount) now r)).

Definition CONSUME_TRAVEL_CREDIT (credit_id : UUID) (amount : Decimal) : DB -> DB :=
  with_credits (update (fun c => (tc_id c =? credit_id)%N && (amount <=? tc_remaining_amount c))
    (fun c => set_balance (tc_remaining_amount c - amount)
       (if tc_remaining_amount c - amount =? 0 then C_USED else C_PARTIALLY_USED) c)).

Definition GET_REBOOKING_RESULT (segment_id : UUID) (db : DB) : option (ReservationSegment * Reservation) :=
  rs ← find_segment db segment_id;
  r ← find_reservation db (rs_reservation_id rs);
  Some (rs, r).

(** [_EPOCH]. *)
Definition _EPOCH : datetime := 0.

(** * The repository *)

Definition sql_make_snapshot (segment : SegmentRow) (target : FareRow) : RebookingSnapshotSchema := {|
  sn_segment_id := rs_id (sg_segment segment);
  sn_reservation_id := rs_reservation_id (sg_segment segment);
  sn_customer_id := r_customer_id (sg_reservation segment);
  sn_old_flight_id := rs_flight_id (sg_segment segment);
  sn_old_fare_class_id := rs_fare_class_id (sg_segment segment);
  sn_segment_status := rs_status (sg_segment segment);
  sn_reservation_status := r_status (sg_reservation segment);
  sn_old_flight_status := f_status (sg_flight segment);
  sn_origin_airport := f_origin_airport (sg_flight segment);
  sn_destination_airport := f_destination_airport (sg_flight segment);
  sn_old_departure_at := f_departure_at (sg_flight segment);
  sn_old_price := rs_price_paid (sg_segment segment);
  sn_old_currency := rs_currency (sg_segment segment);
  sn_old_change_allowed := fc_change_allowed (sg_fare_class segment);
  sn_target_flight_id := f_id (jr_flight target);
  sn_target_fare_class_id := ff_fare_class_id (jr_fare target);
  sn_target_status := f_status (jr_flight target);
  sn_target_origin := f_origin_airport (jr_flight target);
  sn_target_destination := f_destination_airport (jr_flight target);
  sn_target_departure_at := f_departure_at (jr_flight target);
  sn_target_price := ff_price (jr_fare target);
  sn_target_currency := ff_currency (jr_fare target);
  sn_available_seats := ff_available_seats (jr_fare target);
  sn_target_change_allowed := fc_change_allowed (jr_class target);
  sn_target_change_fee := fc_change_fee (jr_class target);
  sn_passenger_count := sg_passenger_count segment |}.

Definition sql_snapshot (selection : RebookingSelectionSchema) :
    TxM (RebookingSnapshotSchema * option TravelCreditSchema) :=
  segment ← read (GET_REBOOKING_SEGMENT_FOR_UPDATE (sel_segment_id selection));
  segment ← lift (or_raise segment SegmentNotFoundError "reservation segment not found");
  lock_row (LSegment (rs_id (sg_segment segment)));;
  lock_row (LReservation (r_id (sg_reservation segment)));;
  target ← read (GET_REBOOKING_TARGET_FOR_UPDATE (sel_new_flight_id selection)
                   (sel_new_fare_class_id selection));
  target ← lift (or_raise target FlightNotFoundError "target flight or fare not found");
  lock_row (LFlight (f_id (jr_flight target)));;
  lock_row (LFare (ff_flight_id (jr_fare target)) (ff_fare_class_id (jr_fare target)));;
  let snapshot := sql_make_snapshot segment target in
  match sel_travel_credit_id selection with
  | None => mret (snapshot, None)
  | Some credit_id =>
      credit ← read (GET_TRAVEL_CREDIT_FOR_UPDATE credit_id (r_customer_id (sg_reservation segment)));
      credit ← lift (or_raise credit TravelCreditNotFoundError "travel credit not found");
      lock_row (LCredit credit_id);;
      mret (snapshot, Some credit)
  end.

Definition sql_get_snapshot (db : DB) (selection : RebookingSelectionSchema) :
    Res (RebookingSnapshotSchema * option TravelCreditSchema) :=
  fst (transaction (sql_snapshot selection) db).

(** [INSERT INTO flight_changes ... RETURNING *]. *)
Definition CREATE_FLIGHT_CHANGE (change : FlightChange) : TxM FlightChange :=
  ids ← read (fun db => ch_id <$> flight_changes db);
  if bool_decide (ch_id change ∈ ids) then lift (raise InfraError "UniqueViolationError")
  else write (with_changes (fun t => t ++ [change]));; mret change.

(** [now] is the transaction's [NOW()], [change_id] its [uuid4()]. *)
Definition sql_execute_body (now : datetime) (change_id : UUID) (validate : Validate)
    (selection : RebookingSelectionSchema) : TxM RebookingResultSchema :=
  '(snapshot, credit) ← sql_snapshot selection;
  validation ← lift (validate selection snapshot credit);
  write (DECREMENT_FLIGHT_FARE_SEATS (va_passenger_count validation)
           (va_new_flight_id validation) (va_new_fare_class_id validation));;
  lock_fare (va_old_flight_id validation, va_old_fare_class_id validation);;
  write (INCREMENT_FLIGHT_FARE_SEATS (va_passenger_count validation)
           (va_old_flight_id validation) (va_old_fare_class_id validation));;
  write (UPDATE_RESERVATION_SEGMENT now (sel_segment_id selection) (va_new_flight_id validation)
           (va_new_fare_class_id validation) (va_new_price validation) (va_currency validation));;
  write (UPDATE_RESERVATION_TOTAL now (va_reservation_id validation)
           (va_fare_difference validation + va_change_fee validation - va_travel_credit_used validation));;
  match sel_travel_credit_id selection with
  | Some credit_id => write (CONSUME_TRAVEL_CREDIT credit_id (sel_travel_credit_amount selection))
  | None => mret tt
  end;;
  change ← CREATE_FLIGHT_CHANGE {|
    ch_id := change_id; ch_reservation_segment_id := sel_segment_id selection;
    ch_old_flight_id := va_old_flight_id validation; ch_new_flight_id := va_new_flight_id validation;
    ch_old_fare_class_id := va_old_fare_class_id validation;
    ch_new_fare_class_id := va_new_fare_class_id validation;
    ch_fare_difference := va_fare_difference validation; ch_change_fee := va_change_fee validation;
    ch_travel_credit_used := va_travel_credit_used validation;
    ch_currency := va_currency validation; ch_created_at := now |};
  mret {| rr_change := Some change;
          rr_segment := mkReservationSegment (sel_segment_id selection) (va_reservation_id validation)
            (va_new_flight_id validation) (va_new_fare_class_id validation) S_CHANGED
            (va_new_price validation) (va_currency validation) (ch_created_at change)
            (ch_created_at change);
          rr_booking_reference := "" |}.

Definition sql_execute (now : datetime) (change_id : UUID) (validate : Validate)
    (selection : RebookingSelectionSchema) (db : DB) : Res RebookingResultSchema * DB :=
  transaction (sql_execute_body now change_id validate selection) db.

Definition sql_verify (db : DB) (selection : RebookingSelectionSchema) : Res RebookingResultSchema :=
  '(rs, r) ← or_raise (GET_REBOOKING_RESULT (sel_segment_id selection) db)
               SegmentNotFoundError "reservation segment not found";
  if negb (rs_flight_id rs =? sel_new_flight_id selection)%N
     || negb (rs_fare_class_id rs =? sel_new_fare_class_id selection)%N
     || negb (bool_decide (rs_status rs = S_CHANGED)) then
    raise RebookingVerificationError "rebooking verification failed"
  else
    Ok {| rr_change := None;
          rr_segment := mkReservationSegment (rs_id rs) (rs_reservation_id rs) (rs_flight_id rs)
            (rs_fare_class_id rs) (rs_status rs) (rs_price_paid rs) (rs_currency rs) _EPOCH _EPOCH;
          rr_booking_reference := r_booking_reference r |}.

(** * The snapshots agree *)

Lemma select_pk {A} (pk : A -> UUID) (t : list A) id : NoDup (pk <$> t) -> id ∈ pk <$> t ->
  exists r, select (fun r => pk r =? id)%N t = [r].
Proof.
  intros Hnd Hid. destruct (select_unique_row pk (fun r => pk r =? id)%N t Hnd) as [Hnil|(r & Hr & _)].
  - by intros a b ->%N.eqb_eq ->%N.eqb_eq.
  - exfalso. destruct (find_row pk t id Hnd Hid) as [r Hr]. apply scalar_Some in Hr as [Hin HP].
    assert (r ∈ select (fun r => pk r =? id)%N t) as Hsel by (by apply elem_of_select).
    rewrite Hnil in Hsel. by apply not_elem_of_nil in Hsel.
  - eauto.
Qed.

(** Joining the passengers or counting the join table is the same. *)
Lemma passenger_counts db id : schema_ok db ->
  length (passengers_of db id)
  = length (select (fun rp => rp_reservation_id rp =? id)%N (reservation_passengers db)).
Proof.
  intros Hdb. unfold passengers_of.
  assert (forall rp, rp ∈ select (fun rp => rp_reservation_id rp =? id)%N (reservation_passengers db) ->
    rp ∈ reservation_passengers db) as Hsub by (by intros rp [? _]%elem_of_select).
  revert Hsub. generalize (select (fun rp => rp_reservation_id rp =? id)%N (reservation_passengers db)).
  intros l. induction l as [|rp l IH]; intros Hsub; [done|]. cbn.
  destruct (select_pk p_id (passengers db) (rp_passenger_id rp)) as [p Hp];
    [apply Hdb|by eapply references_elem; [apply Hdb|apply Hsub; set_solver]|].
  rewrite length_app, Hp, IH by (intros; apply Hsub; set_solver). done.
Qed.

Lemma find_pk {A} (pk : A -> UUID) (t : list A) id : NoDup (pk <$> t) -> id ∈ pk <$> t ->
  exists r, scalar (fun r => pk r =? id)%N t = Some r /\ pk r = id.
Proof.
  intros Hnd Hid. destruct (find_row pk t id Hnd Hid) as [r Hr]. exists r. split; [done|].
  apply scalar_Some in Hr as [_ ?]. by apply N.eqb_eq.
Qed.

(** The segment's rows and the target's rows, as the SQL joins find them. *)
Lemma segment_rows db id rs : schema_ok db -> find_segment db id = Some rs ->
  exists r f c, find_reservation db (rs_reservation_id rs) = Some r
    /\ r_id r = rs_reservation_id rs /\ find_flight db (rs_flight_id rs) = Some f
    /\ find_fare_class db (rs_fare_class_id rs) = Some c.
Proof.
  intros Hdb [Hin _]%scalar_Some.
  destruct (find_pk r_id (reservations db) (rs_reservation_id rs)) as (r & Hr & Hid);
    [apply Hdb|by eapply references_elem; [apply Hdb|]|].
  destruct (find_pk f_id (flights db) (rs_flight_id rs)) as (f & Hf & _);
    [apply Hdb|by eapply references_elem; [apply Hdb|]|].
  destruct (find_pk fc_id (fare_classes db) (rs_fare_class_id rs)) as (c & Hc & _);
    [apply Hdb|by eapply references_elem; [apply Hdb|]|].
  by exists r, f, c.
Qed.

Lemma target_rows db fl fc : schema_ok db ->
  match find_fare db fl fc with
  | Some ff => exists f c, find_flight db (ff_flight_id ff) = Some f /\ f_id f = ff_flight_id ff
      /\ find_fare_class db (ff_fare_class_id ff) = Some c
      /\ GET_REBOOKING_TARGET_FOR_UPDATE fl fc db = Some (mkFareRow ff f c)
  | None => GET_REBOOKING_TARGET_FOR_UPDATE fl fc db = None
  end.
Proof.
  intros Hdb. unfold GET_REBOOKING_TARGET_FOR_UPDATE. destruct (find_fare db fl fc) as [ff|] eqn:Hff.
  - pose proof (scalar_Some _ _ _ Hff) as [Hin _]. destruct (find_fare_key _ _ _ _ Hff) as [<- <-].
    destruct (find_pk f_id (flights db) (ff_flight_id ff)) as (f & Hf & Hid);
      [apply Hdb|by eapply references_elem; [apply Hdb|]|].
    destruct (find_pk fc_id (fare_classes db) (ff_fare_class_id ff)) as (c & Hc & _);
      [apply Hdb|by eapply references_elem; [apply Hdb|]|].
    change (find_flight db (ff_flight_id ff) = Some f) in Hf.
    change (find_fare_class db (ff_fare_class_id ff) = Some c) in Hc.
    exists f, c. split_and!; try done. rewrite Hf. cbn. rewrite Hid, Hff. cbn. by rewrite Hc.
  - destruct (find_flight db fl) as [f|] eqn:Hf; [|done]. cbn.
    apply scalar_Some in Hf as [_ Hid%N.eqb_eq]. by rewrite Hid, Hff.
Qed.

(** What the credit's owner adds to the ORM's snapshot. *)
Definition own_credit (sn : RebookingSnapshotSchema) (credit : option TravelCredit) : bool :=
  match credit with Some c => (tc_customer_id c =? sn_customer_id sn)%N | None => true end.

Lemma credit_rows db id customer : schema_ok db ->
  GET_TRAVEL_CREDIT_FOR_UPDATE id customer db =
  match find_credit db id with
  | Some c => if (tc_customer_id c =? customer)%N then Some c else None
  | None => None
  end.
Proof.
  intros Hdb. unfold GET_TRAVEL_CREDIT_FOR_UPDATE. destruct (scalar _ _) as [c|] eqn:Hc.
  - apply scalar_Some in Hc as [Hin Hk]. apply andb_true_iff in Hk as [Hid Hcu].
    unfold find_credit. rewrite (scalar_unique tc_id _ _ c); [by rewrite Hcu|apply Hdb|done|done|].
    intros c' ->%N.eqb_eq. by apply N.eqb_eq in Hid.
  - destruct (find_credit db id) as [c|] eqn:Hf; [|done]. apply scalar_Some in Hf as [Hin Hid].
    pose proof (scalar_None _ _ _ Hc Hin) as Hn. cbn beta in Hn. rewrite Hid in Hn. cbn in Hn.
    by rewrite Hn.
Qed.

Lemma sql_snapshot_run db held sel : schema_ok db -> exists held',
  sql_snapshot sel (mkTx db held) =
  match get_snapshot db sel with
  | Ok (sn, credit) =>
      if own_credit sn credit then Ok ((sn, credit), mkTx db held')
      else raise TravelCreditNotFoundError "travel credit not found"
  | Raise e => Raise e
  end.
Proof.
  intros Hdb. unfold sql_snapshot, get_snapshot, transaction, _snapshot, _target, not_none, lock_if,
    GET_REBOOKING_SEGMENT_FOR_UPDATE. tx_unfold.
  destruct (find_segment db (sel_segment_id sel)) as [rs|] eqn:Hrs; cbn; [|by exists held].
  destruct (segment_rows _ _ _ Hdb Hrs) as (r & f & c & Hr & Hrid & Hf & Hc).
  rewrite Hr; cbn. rewrite Hf; cbn. rewrite Hc; cbn.
  pose proof (target_rows db (sel_new_flight_id sel) (sel_new_fare_class_id sel) Hdb) as Ht.
  destruct (find_fare db _ _) as [ff|]; cbn; [|rewrite Ht; by exists held].
  destruct Ht as (tf & tc & Htf & Htid & Htc & ->). cbn. rewrite Hr; cbn. rewrite Hf; cbn.
  rewrite Hc; cbn. rewrite Htf; cbn. rewrite Htc; cbn.
  assert (sql_make_snapshot (mkSegmentRow rs r f c (Z.of_nat (length
      (select (fun rp => rp_reservation_id rp =? rs_reservation_id rs)%N (reservation_passengers db)))))
      (mkFareRow ff tf tc)
    = make_snapshot rs r f c ff tf tc (Z.of_nat (length (passengers_of db (r_id r))))) as Hsn.
  { rewrite passenger_counts by done. unfold sql_make_snapshot, make_snapshot; cbn.
    by rewrite Hrid, Htid. }
  destruct (sel_travel_credit_id sel) as [id|]; cbn.
  - rewrite credit_rows by done. destruct (find_credit db id) as [cr|]; cbn; [|by exists held].
    destruct (tc_customer_id cr =? r_customer_id r)%N; cbn; [|by exists held].
    eexists. by rewrite Hsn.
  - eexists. by rewrite Hsn.
Qed.

(** * The writes agree *)

Section Writes.
Context (now nv : datetime) (change_id : UUID) (sel : RebookingSelectionSchema) (db : DB)
        (Hdb : schema_ok db) (sn : RebookingSnapshotSchema) (credit : option TravelCredit)
        (v : RebookingValidationSchema).
Context (Hsnap : get_snapshot db sel = Ok (sn, credit))
        (Hv : validate_rebooking_selection nv sel sn credit = Ok v).
Let am := mkAmbient nv now now change_id now.

(** The guards of the conditional updates hold on the rows they select. *)
Lemma decrement_guard : flight_fares (DECREMENT_FLIGHT_FARE_SEATS (va_passenger_count v)
    (va_new_flight_id v) (va_new_fare_class_id v) db)
  = update (is_fare (va_new_flight_id v) (va_new_fare_class_id v))
      (add_seats (- va_passenger_count v)) (flight_fares db).
Proof using All.
  destruct (validated_rows _ _ _ _ _ _ Hsnap Hv)
    as (seg & r & ff & f & c & _ & _ & _ & _ & _ & Hff & _ & _ & _ & _ & Hseats & _ & _).
  cbn. apply update_ext; [|done]. intros ff' Hin.
  destruct (is_fare (va_new_flight_id v) (va_new_fare_class_id v) ff') eqn:E; [|done].
  assert (ff' = ff) as ->; [|apply Z.leb_le; lia].
  apply is_fare_iff in E as [E1 E2]. unfold find_fare in Hff.
  rewrite (scalar_unique (fun f => (ff_flight_id f, ff_fare_class_id f)) _ _ ff') in Hff;
    [by simplify_eq|apply Hdb|done|by apply is_fare_iff|].
  intros f' [-> ->]%is_fare_iff. by rewrite E1, E2.
Qed.

Lemma consume_guard :
  (match sel_travel_credit_id sel with
   | Some id => update (fun c => (tc_id c =? id)%N && (sel_travel_credit_amount sel <=? tc_remaining_amount c))
       (spend (sel_travel_credit_amount sel)) (travel_credits db)
   | None => travel_credits db
   end) = spend_credit sel (travel_credits db).
Proof using All.
  destruct (validated_rows _ _ _ _ _ _ Hsnap Hv)
    as (seg & r & ff & f & c & _ & _ & _ & _ & _ & _ & _ & _ & _ & _ & _ & _ & Hcr).
  unfold spend_credit. destruct (sel_travel_credit_id sel) as [id|]; [|done].
  destruct Hcr as (c0 & Hc0 & Ham). apply update_ext; [|done]. intros c' Hin.
  destruct (tc_id c' =? id)%N eqn:E; [|done]. assert (c' = c0) as ->; [|apply Z.leb_le; lia].
  unfold find_credit in Hc0. rewrite (scalar_unique tc_id _ _ c') in Hc0; [by simplify_eq|apply Hdb|done..|].
  intros c'' ->%N.eqb_eq. by apply N.eqb_eq in E.
Qed.

(** The five updates and the insert amount to [rebooked]. *)
Lemma sql_writes : with_changes (fun t => t ++ [change_of am sel v])
  (match sel_travel_credit_id sel with
   | Some id => CONSUME_TRAVEL_CREDIT id (sel_travel_credit_amount sel)
   | None => fun db => db
   end (UPDATE_RESERVATION_TOTAL now (va_reservation_id v)
          (va_fare_difference v + va_change_fee v - va_travel_credit_used v)
     (UPDATE_RESERVATION_SEGMENT now (sel_segment_id sel) (va_new_flight_id v)
          (va_new_fare_class_id v) (va_new_price v) (va_currency v)
     (INCREMENT_FLIGHT_FARE_SEATS (va_passenger_count v) (va_old_flight_id v) (va_old_fare_class_id v)
     (DECREMENT_FLIGHT_FARE_SEATS (va_passenger_count v) (va_new_flight_id v) (va_new_fare_class_id v)
        db))))) = rebooked am sel v db.
Proof using All.
  unfold rebooked. rewrite <- decrement_guard, <- consume_guard.
  by destruct (sel_travel_credit_id sel).
Qed.

Definition sql_result : RebookingResultSchema := {|
  rr_change := Some (change_of am sel v);
  rr_segment := mkReservationSegment (sel_segment_id sel) (va_reservation_id v) (va_new_flight_id v)
    (va_new_fare_class_id v) S_CHANGED (va_new_price v) (va_currency v) now now;
  rr_booking_reference := "" |}.

Lemma sql_execute_run : own_credit sn credit = true ->
  sql_execute now change_id (validate_rebooking_selection nv) sel db =
  if bool_decide (change_id ∈ ch_id <$> flight_changes db) then (raise InfraError "UniqueViolationError", db)
  else (Ok sql_result, rebooked am sel v db).
Proof using All.
  intros Hown. unfold sql_execute, transaction, sql_execute_body.
  destruct (sql_snapshot_run db [] sel Hdb) as [held Hrun]. rewrite Hsnap, Hown in Hrun.
  rewrite txm_bind_eq, Hrun. rewrite txm_bind_eq. unfold lift at 1. rewrite Hv.
  rewrite txm_bind_eq. unfold write at 1. cbn [tx_db tx_locks].
  rewrite txm_bind_eq. unfold lock_fare. rewrite txm_bind_eq. unfold read at 1. cbn [tx_db tx_locks].
  rewrite <- sql_writes.
  destruct (find_fare _ _ _); cbn [lock_row mret TxM_ret tx_db tx_locks];
    rewrite !txm_bind_eq; unfold CREATE_FLIGHT_CHANGE; destruct (sel_travel_credit_id sel);
    tx_unfold; cbn; by case_bool_decide.
Qed.
End Writes.

(** * Equivalence *)

(** The SQL variant answers with the transaction's time in both timestamps of
    the segment and without the booking reference. *)
Definition same_rebooking (now : datetime) (orm sql : RebookingResultSchema) : Prop :=
  rr_change sql = rr_change orm /\ rr_booking_reference sql = ""
  /\ let s := rr_segment orm in
     rr_segment sql = mkReservationSegment (rs_id s) (rs_reservation_id s) (rs_flight_id s)
       (rs_fare_class_id s) (rs_status s) (rs_price_paid s) (rs_currency s) now now.

(** The credit of the selection exists and belongs to another customer. *)
Definition foreign_credit (db : DB) (sel : RebookingSelectionSchema) : Prop :=
  exists sn c, get_snapshot db sel = Ok (sn, Some c) /\ tc_customer_id c <> sn_customer_id sn.

(** No row of the fares table is for the flight and class of the segment. *)
Definition unsold_fare (db : DB) (sel : RebookingSelectionSchema) : Prop :=
  exists seg, find_segment db (sel_segment_id sel) = Some seg /\
    find_fare db (rs_flight_id seg) (rs_fare_class_id seg) = None.

(** Outcome and database of the SQLAlchemy transaction, and those of the asyncpg
    one from the same database. *)
Inductive Corresponds (am : Ambient) (db : DB) (sel : RebookingSelectionSchema) :
    Res RebookingResultSchema * DB -> Res RebookingResultSchema * DB -> Prop :=
  | both_rebook a b db' :
      same_rebooking (am_now_change am) a b -> Corresponds am db sel (Ok a, db') (Ok b, db')
  | both_fail e e' :
      exn_type e = exn_type e' -> Corresponds am db sel (Raise e, db) (Raise e', db)
  | credit_refused e e' :
      foreign_credit db sel -> exn_type e = RebookingRuleError -> exn_type e' = TravelCreditNotFoundError ->
      Corresponds am db sel (Raise e, db) (Raise e', db)
  | unsold_rebooked e b sn credit v :
      unsold_fare db sel -> exn_type e = FlightNotFoundError -> get_snapshot db sel = Ok (sn, credit) ->
      validate_rebooking_selection (am_now_validate am) sel sn credit = Ok v ->
      rr_change b = Some (change_of am sel v) ->
      Corresponds am db sel (Raise e, db) (Ok b, rebooked am sel v db)
  | unsold_duplicate e e' :
      unsold_fare db sel -> exn_type e = FlightNotFoundError -> exn_type e' = InfraError ->
      Corresponds am db sel (Raise e, db) (Raise e', db).

(** The same when every segment has its fare. *)
Definition Equivalent (now : datetime) (db : DB) (sel : RebookingSelectionSchema)
    (orm sql : Res RebookingResultSchema * DB) : Prop :=
  orm.2 = sql.2
  /\ match orm.1, sql.1 with
     | Ok a, Ok b => same_rebooking now a b
     | Raise e, Raise e' =>
         exn_type e = exn_type e'
         \/ foreign_credit db sel /\ exn_type e = RebookingRuleError
            /\ exn_type e' = TravelCreditNotFoundError
     | _, _ => False
     end.

Lemma foreign_refused now sel db sn credit :
  get_snapshot db sel = Ok (sn, credit) -> own_credit sn credit = false ->
  foreign_credit db sel
  /\ exists e, validate_rebooking_selection now sel sn credit = Raise e /\ exn_type e = RebookingRuleError.
Proof.
  intros Hsnap Hown. destruct credit as [c|]; [|done]. cbn in Hown. apply N.eqb_neq in Hown. split.
  { by exists sn, c. }
  destruct (validate_rebooking_selection now sel sn (Some c)) as [v|e] eqn:Hv.
  - apply validate_iff in Hv as [Hel _]. exfalso.
    apply get_snapshot_rows in Hsnap as (? & ? & ? & ? & ? & ? & ? & [? ? ? ? ? ? ? Hcr] & _).
    destruct Hel as [_ _ _ _ _ _ _ _ _ Hc _]. destruct (sel_travel_credit_id sel); [|discriminate Hcr].
    destruct Hc as (c' & [= <-] & []). done.
  - exists e. split; [done|]. by eapply validate_raises_only.
Qed.

Lemma sql_corresponds now nv change_id sel db : schema_ok db ->
  Corresponds (mkAmbient nv now now change_id now) db sel
    (execute (mkAmbient nv now now change_id now) (validate_rebooking_selection nv) sel db)
    (sql_execute now change_id (validate_rebooking_selection nv) sel db).
Proof.
  intros Hdb. set (am := mkAmbient nv now now change_id now).
  change nv with (am_now_validate am) at 1. rewrite execute_eq_spec by done. unfold execute_spec.
  cbn [am am_now_validate am_change_id].
  destruct (sql_snapshot_run db [] sel Hdb) as [held Hrun].
  destruct (get_snapshot db sel) as [[sn credit]|e] eqn:Hsnap.
  2: { unfold sql_execute, transaction, sql_execute_body. rewrite txm_bind_eq, Hrun. by apply both_fail. }
  rewrite res_bind_ret. destruct (own_credit sn credit) eqn:Hown.
  2: { destruct (foreign_refused nv _ _ _ _ Hsnap Hown) as (Hf & e & -> & He).
       unfold sql_execute, transaction, sql_execute_body. rewrite txm_bind_eq, Hrun. by apply credit_refused. }
  destruct (validate_rebooking_selection nv sel sn credit) as [v|e] eqn:Hv.
  2: { unfold sql_execute, transaction, sql_execute_body. rewrite txm_bind_eq, Hrun.
       rewrite txm_bind_eq. unfold lift at 1. rewrite Hv. by apply both_fail. }
  rewrite res_bind_ret, (sql_execute_run now nv change_id sel db Hdb sn credit v Hsnap Hv Hown).
  destruct (validated_rows _ _ _ _ _ _ Hsnap Hv)
    as (seg & r & ff & f & c & Hseg & Hof & Hofc & Hr & Hrid & _).
  rewrite Hof, Hofc. destruct (find_fare db (rs_flight_id seg) (rs_fare_class_id seg)) as [off|] eqn:Hoff.
  - cbn [or_raise]. rewrite res_bind_ret, Hseg, Hr. cbn [mbind option_bind or_raise]. rewrite res_bind_ret.
    case_bool_decide; [by apply both_fail|]. apply both_rebook. split_and!; try done.
    cbn. by rewrite (find_segment_id _ _ _ Hseg), Hrid.
  - assert (unsold_fare db sel) as Hun by by exists seg.
    case_bool_decide; [by apply unsold_duplicate|by eapply unsold_rebooked].
Qed.

Lemma on_sale_sold db sel : segments_on_sale db -> ~ unsold_fare db sel.
Proof.
  intros Hsale (seg & [Hin _]%scalar_Some & Hnone). destruct (proj1 (Forall_forall _ _) Hsale _ Hin) as [off Hoff].
  congruence.
Qed.

Lemma sql_equivalent now nv change_id sel db : schema_ok db -> segments_on_sale db ->
  Equivalent now db sel
    (execute (mkAmbient nv now now change_id now) (validate_rebooking_selection nv) sel db)
    (sql_execute now change_id (validate_rebooking_selection nv) sel db).
Proof.
  intros Hdb Hsale. pose proof (on_sale_sold db sel Hsale) as Hun.
  destruct (sql_corresponds now nv change_id sel db Hdb); split; try done; try (by left); by right.
Qed.

(** C10: the two data access variants rebook alike: run at one instant with the
    same identifier, the asyncpg transaction (conditional updates, no explicit
    checks) leaves the database exactly as the SQLAlchemy one does, succeeds
    exactly when it does with the same change and segment, and fails with the
    same class of exception, leaving the database unchanged, except in two
    cases.  It reports another customer's credit as not found, a [LookupError],
    where the other variant's rules refuse it.  And when the fare that the
    segment leaves is not in the fares table, the SQLAlchemy transaction fails
    with [FlightNotFoundError], while the asyncpg one commits the rebooking of
    the validated selection, having given no seats back (or fails where it
    would have failed otherwise, on a used identifier). *)
Theorem sql_execute_equivalent now nv change_id sel db :
  schema_ok db ->
  Corresponds (mkAmbient nv now now change_id now) db sel
    (execute (mkAmbient nv now now change_id now) (validate_rebooking_selection nv) sel db)
    (sql_execute now change_id (validate_rebooking_selection nv) sel db).
Proof. apply sql_corresponds. Qed.

(** [verify] of the two variants: the same verdict; the SQL one leaves the
    timestamps at the epoch. *)
Lemma sql_verify_equivalent db sel : schema_ok db ->
  match verify db sel, sql_verify db sel with
  | Ok a, Ok b => rr_change b = rr_change a /\ rr_booking_reference b = rr_booking_reference a
      /\ let s := rr_segment a in
         rr_segment b = mkReservationSegment (rs_id s) (rs_reservation_id s) (rs_flight_id s)
           (rs_fare_class_id s) (rs_status s) (rs_price_paid s) (rs_currency s) _EPOCH _EPOCH
  | Raise e, Raise e' => e = e'
  | _, _ => False
  end.
Proof.
  intros Hdb. unfold verify, sql_verify, GET_REBOOKING_RESULT.
  destruct (find_segment db (sel_segment_id sel)) as [rs|] eqn:Hrs; cbn; [|done].
  destruct (segment_rows _ _ _ Hdb Hrs) as (r & f & c & Hr & _). rewrite Hr. cbn.
  by destruct (_ || _ || _).
Qed.
