(* ===== verification/SqlRepositories.v ===== *)
(** The asyncpg read repositories: [app/airline/repository/sql/*.py] with their
    statements in [queries.py]; and both halves of the asyncpg variant satisfy
    the laws the service relies on.

    [fetchrow] is the first row or [None]; a [JOIN] drops the rows that have no
    partner; [**None] raises [TypeError].  PostgreSQL orders UUIDs by value. *)
From stdpp Require Import base numbers strings list sets.
From S2P Require Import Prelude Models Rules Database Uuid Repositories OrmRebooking RebookingInvariants RebookingOutcome AirlineService SqlRebooking.
Local Open Scope Z_scope.
Local Open Scope bool_scope.

Definition GET_CUSTOMER (id : UUID) (db : DB) : option Customer := find_customer db id.

Definition sql_customer_get_by_id (db : DB) (customer_id : UUID) : Res CustomerSchema :=
  or_raise (GET_CUSTOMER customer_id db) CustomerNotFoundError "customer not found".

(** * ReservationRepository *)

Definition GET_RESERVATION_BY_BOOKING_REFERENCE (booking_reference : string) (db : DB) :
    option Reservation :=
  scalar (fun r => r_booking_reference r =? booking_reference)%string (reservations db).

Definition GET_RESERVATION_CUSTOMER (reservation_id : UUID) (db : DB) : option Customer :=
  head (flat_map (fun c => (fun _ => c) <$> select
    (fun r => (r_customer_id r =? c_id c)%N && (r_id r =? reservation_id)%N) (reservations db))
    (customers db)).

Definition GET_PASSENGERS_BY_RESERVATION (reservation_id : UUID) (db : DB) : list Passenger :=
  sort_by (fun p q => (p_id p <=? p_id q)%N)
    (flat_map (fun p => (fun _ => p) <$> select
       (fun rp => (rp_passenger_id rp =? p_id p)%N && (rp_reservation_id rp =? reservation_id)%N)
       (reservation_passengers db)) (passengers db)).

Definition segment_joins (db : DB) (rs : ReservationSegment) : list ReservationSegmentDetailsSchema :=
  flat_map (fun f => (fun fc => mkSegmentDetails rs f fc)
    <$> select (fun fc => fc_id fc =? rs_fare_class_id rs)%N (fare_classes db))
    (select (fun f => f_id f =? rs_flight_id rs)%N (flights db)).
Definition GET_SEGMENT_DETAILS_BY_RESERVATION (reservation_id : UUID) (db : DB) :
    list ReservationSegmentDetailsSchema :=
  sort_by (fun a b => (rs_id (sd_segment a) <=? rs_id (sd_segment b))%N)
    (flat_map (segment_joins db)
       (select (fun rs => rs_reservation_id rs =? reservation_id)%N (reservation_segments db))).

Definition sql_get_details (db : DB) (booking_reference : string) : Res ReservationDetailsSchema :=
  reservation ← or_raise (GET_RESERVATION_BY_BOOKING_REFERENCE booking_reference db)
                  ReservationNotFoundError "reservation not found";
  customer ← or_raise (GET_RESERVATION_CUSTOMER (r_id reservation) db)
               TypeError "argument after ** must be a mapping, not NoneType";
  mret (mkReservationDetails reservation customer
          (GET_PASSENGERS_BY_RESERVATION (r_id reservation) db)
          (GET_SEGMENT_DETAILS_BY_RESERVATION (r_id reservation) db)).

Definition GET_SEGMENT_BY_ID (id : UUID) (db : DB) : option (ReservationSegment * FareClass) :=
  rs ← find_segment db id;
  fc ← find_fare_class db (rs_fare_class_id rs);
  Some (rs, fc).

Definition sql_get_segment_by_id (db : DB) (segment_id : UUID) :
    Res (ReservationSegment * option FareClass) :=
  '(rs, fc) ← or_raise (GET_SEGMENT_BY_ID segment_id db)
                SegmentNotFoundError "reservation segment not found";
  mret (rs, Some fc).

(** * FlightRepository *)

Definition GET_FLIGHT_BY_ID (id : UUID) (db : DB) : option Flight := find_flight db id.

Definition sql_flight_get_by_id (db : DB) (flight_id : UUID) : Res FlightSchema :=
  or_raise (GET_FLIGHT_BY_ID flight_id db) FlightNotFoundError "flight not found".

(** [FROM flights f JOIN flight_fares ff JOIN fare_classes fc]. *)
Definition flight_rows (db : DB) : list FareRow :=
  flat_map (fun f =>
    flat_map (fun ff =>
      (fun fc => mkFareRow ff f fc) <$> select (fun fc => fc_id fc =? ff_fare_class_id ff)%N (fare_classes db))
      (select (fun ff => ff_flight_id ff =? f_id f)%N (flight_fares db)))
    (flights db).

Definition SEARCH_AVAILABLE_FLIGHTS (params : SearchAvailableFlightsParamsSchema) (db : DB) :
    list FareRow :=
  order_by (fun row => (f_departure_at (jr_flight row), ff_price (jr_fare row)))
    (select (available params) (flight_rows db)).

Definition sql_search_available (db : DB) (params : SearchAvailableFlightsParamsSchema) :
    list AvailableFlightSchema :=
  foldl (fun results row => add_fare row results) [] (SEARCH_AVAILABLE_FLIGHTS params db).

(** * TravelCreditRepository and FlightChangeRepository *)

Definition sql_get_available_by_customer (db : DB) (now : datetime) (customer_id : UUID)
    (currency : string) : list TravelCreditSchema :=
  order_by (fun c => (tc_expires_at c, tc_created_at c))
    (select (fun c => (tc_customer_id c =? customer_id)%N && (tc_currency c =? currency)%string
       && (0 <? tc_remaining_amount c) && (now <? tc_expires_at c)
       && (bool_decide (tc_status c = C_AVAILABLE) || bool_decide (tc_status c = C_PARTIALLY_USED)))
       (travel_credits db)).

Definition sql_get_by_segment (db : DB) (segment_id : UUID) : list FlightChangeSchema :=
  order_by (fun c => (ch_created_at c, 0))
    (select (fun c => ch_reservation_segment_id c =? segment_id)%N (flight_changes db)).

Definition sql_reads : ReadRepositories :=
  mkReads sql_customer_get_by_id sql_get_details sql_get_segment_by_id sql_flight_get_by_id
    sql_search_available sql_get_available_by_customer sql_get_by_segment.

(** [validate] reads the clock of the rules; the writes happen at one [NOW()]. *)
Definition sql_rebooking : RebookingRepository :=
  mkRebooking sql_get_snapshot
    (fun am validate sel db => sql_execute (am_now_change am) (am_change_id am) validate sel db)
    sql_verify.

(** * The joins *)

Lemma elem_of_flight_rows db row : row ∈ flight_rows db <-> row ∈ fare_rows db.
Proof.
  rewrite elem_of_fare_rows. unfold flight_rows. rewrite elem_of_flat_map.
  setoid_rewrite elem_of_flat_map. setoid_rewrite list_elem_of_fmap.
  setoid_rewrite elem_of_select. setoid_rewrite N.eqb_eq.
  destruct row as [ff f c]; cbn. split.
  - intros (? & ? & ? & ? & ? & [= -> -> ->] & ?). intuition congruence.
  - intros (? & ? & ? & ? & ?). eauto 12.
Qed.

Lemma sql_search_rows db params row : schema_ok db ->
  row ∈ flat_map group_rows (sql_search_available db params) <->
  row ∈ fare_rows db /\ available params row = true.
Proof.
  intros Hdb. unfold sql_search_available, SEARCH_AVAILABLE_FLIGHTS. rewrite grouped_rows.
  - by rewrite elem_of_order_by, elem_of_select, elem_of_flight_rows.
  - intros a b. rewrite !elem_of_order_by, !elem_of_select, !elem_of_flight_rows, !elem_of_fare_rows.
    intros [(_ & Ha & _) _] [(_ & Hb & _) _]. by apply (flight_unique db).
Qed.

(** Joining from the other side gives the same pairs. *)
Lemma join_swap {A B} (P : A -> B -> bool) (l : list A) (k : list B) :
  flat_map (fun b => (fun _ => b) <$> select (fun a => P a b) l) k
  ≡ₚ flat_map (fun a => select (P a) k) l.
Proof.
  induction l as [|a l IH].
  - induction k as [|b k IHk]; [done|]. cbn. exact IHk.
  - change (flat_map (fun a => select (P a) k) (a :: l)) with (select (P a) k ++ flat_map (fun a => select (P a) k) l).
    rewrite <- IH. clear IH. induction k as [|b k IHk]; [done|]. cbn.
    rewrite IHk. unfold select in *. cbn [List.filter].
    destruct (P a b); cbn; [constructor|]; rewrite !app_assoc; apply Permutation_app_tail, Permutation_app_comm.
Qed.

Lemma sql_passengers db id : GET_PASSENGERS_BY_RESERVATION id db ≡ₚ passengers_of db id.
Proof.
  unfold GET_PASSENGERS_BY_RESERVATION, passengers_of. rewrite sort_by_perm.
  rewrite (join_swap (fun rp p => (rp_passenger_id rp =? p_id p)%N && (rp_reservation_id rp =? id)%N)).
  induction (reservation_passengers db) as [|rp l IH]; [done|]. cbn. rewrite IH. unfold select.
  cbn [List.filter]. destruct (rp_reservation_id rp =? id)%N; cbn.
  - apply Permutation_app_tail. erewrite filter_ext; [reflexivity|]. intros p. cbn.
    rewrite andb_true_r. apply N.eqb_sym.
  - enough (forall l' : list Passenger,
      List.filter (fun p => (rp_passenger_id rp =? p_id p)%N && false) l' = []) as -> by done.
    intros l'. induction l' as [|p l' IHl]; [done|]. cbn. by rewrite andb_false_r.
Qed.

Lemma segment_joins_one db rs : schema_ok db -> rs ∈ reservation_segments db ->
  exists f c, find_flight db (rs_flight_id rs) = Some f
    /\ find_fare_class db (rs_fare_class_id rs) = Some c
    /\ segment_joins db rs = [mkSegmentDetails rs f c].
Proof.
  intros Hdb Hin. unfold segment_joins.
  destruct (segment_details_ok db rs Hdb Hin) as (f & c & Hf & Hc & _). exists f, c.
  destruct (select_pk f_id (flights db) (rs_flight_id rs)) as [f' Hf'];
    [apply Hdb|by eapply references_elem; [apply Hdb|]|].
  destruct (select_pk fc_id (fare_classes db) (rs_fare_class_id rs)) as [c' Hc'];
    [apply Hdb|by eapply references_elem; [apply Hdb|]|].
  assert (f' = f /\ c' = c) as [-> ->].
  { destruct (scalar_Some _ _ _ Hf) as [Hfin Hfid], (scalar_Some _ _ _ Hc) as [Hcin Hcid].
    assert (f ∈ select (fun f => f_id f =? rs_flight_id rs)%N (flights db)) as Hfs by (by apply elem_of_select).
    assert (c ∈ select (fun c => fc_id c =? rs_fare_class_id rs)%N (fare_classes db)) as Hcs
      by (by apply elem_of_select).
    rewrite Hf' in Hfs. rewrite Hc' in Hcs. split; symmetry; by apply list_elem_of_singleton. }
  rewrite Hf', Hc'. done.
Qed.

Lemma sql_segments db segs : schema_ok db -> (forall rs, rs ∈ segs -> rs ∈ reservation_segments db) ->
  sd_segment <$> flat_map (segment_joins db) segs = segs
  /\ Forall (fun s => find_flight db (rs_flight_id (sd_segment s)) = Some (sd_flight s)
       /\ find_fare_class db (rs_fare_class_id (sd_segment s)) = Some (sd_fare_class s))
       (flat_map (segment_joins db) segs).
Proof.
  intros Hdb. induction segs as [|rs segs IH]; intros Hin; [done|]. cbn.
  destruct (segment_joins_one db rs Hdb) as (f & c & Hf & Hc & ->); [set_solver|].
  destruct IH as [IH1 IH2]; [set_solver|]. cbn. split; [by rewrite IH1|by constructor].
Qed.

Lemma sql_customer db r : schema_ok db -> r ∈ reservations db ->
  GET_RESERVATION_CUSTOMER (r_id r) db = find_customer db (r_customer_id r).
Proof.
  intros Hdb Hr. unfold GET_RESERVATION_CUSTOMER, find_customer.
  assert (forall c, select (fun r' => (r_customer_id r' =? c_id c)%N && (r_id r' =? r_id r)%N)
    (reservations db) = if (c_id c =? r_customer_id r)%N then [r] else []) as Hsel.
  { intros c. destruct (select_unique_row r_id
      (fun r' => (r_customer_id r' =? c_id c)%N && (r_id r' =? r_id r)%N) (reservations db))
      as [Hnil|(r' & Hr' & Hin & HP)]; [apply Hdb| | |].
    - intros a b Ha Hb. to_prop. congruence.
    - rewrite Hnil. destruct (c_id c =? r_customer_id r)%N eqn:E; [|done]. exfalso. to_prop.
      apply (not_elem_of_nil (r : Reservation)). rewrite <- Hnil. apply elem_of_select.
      by rewrite E, !N.eqb_refl.
    - rewrite Hr'. to_prop. assert (r' = r) as ->.
      { destruct (find_pk r_id (reservations db) (r_id r)) as (r0 & Hr0 & _);
          [apply Hdb|by apply list_elem_of_fmap_2|].
        assert (forall q, q ∈ reservations db -> r_id q = r_id r ->
          scalar (fun q => r_id q =? r_id r)%N (reservations db) = Some q) as Hq.
        { intros q Hq Hqid. apply (scalar_unique r_id); [apply Hdb|done|by apply N.eqb_eq|].
          intros q' ->%N.eqb_eq. done. }
        pose proof (Hq r' Hin). pose proof (Hq r Hr eq_refl). naive_solver. }
      match goal with E : r_customer_id r = c_id c |- _ => by rewrite E, N.eqb_refl end. }
  induction (customers db) as [|c l IH]; [done|]. cbn. rewrite Hsel.
  by destruct (c_id c =? r_customer_id r)%N.
Qed.

Lemma sql_details db booking_reference : schema_ok db ->
  DetailsAnswer db booking_reference (sql_get_details db booking_reference).
Proof.
  intros Hdb. unfold DetailsAnswer, sql_get_details, GET_RESERVATION_BY_BOOKING_REFERENCE.
  destruct (scalar _ (reservations db)) as [r|] eqn:Hsc; cbn.
  2: { split; [done|]. intros (r & -> & Hr)%list_elem_of_fmap.
       pose proof (scalar_None _ _ _ Hsc Hr) as Hn. cbn in Hn. by rewrite String.eqb_refl in Hn. }
  apply scalar_Some in Hsc as [Hr Hb]. to_prop. rewrite sql_customer by done.
  destruct (find_row c_id (customers db) (r_customer_id r)) as [cu Hcu];
    [apply Hdb|by eapply references_elem; [apply Hdb|]|].
  change (find_customer db (r_customer_id r) = Some cu) in Hcu. rewrite Hcu. cbn.
  destruct (sql_segments db (select (fun rs => rs_reservation_id rs =? r_id r)%N (reservation_segments db)))
    as [Hseg Hrel]; [done|by intros rs [? _]%elem_of_select|].
  split_and!; try done.
  - apply sql_passengers.
  - unfold GET_SEGMENT_DETAILS_BY_RESERVATION. rewrite sort_by_perm. by rewrite Hseg.
  - unfold GET_SEGMENT_DETAILS_BY_RESERVATION. by rewrite sort_by_perm.
Qed.

(** * The laws *)

Lemma sql_reads_laws : ReadLaws sql_reads.
Proof.
  split; try done; cbn.
  - apply sql_details.
  - intros db id Hdb. unfold SegmentAnswer, sql_get_segment_by_id, GET_SEGMENT_BY_ID.
    destruct (find_segment db id) as [rs|] eqn:Hrs; [|done].
    destruct (segment_rows _ _ _ Hdb Hrs) as (r & f & c & _ & _ & _ & Hc). cbn. by rewrite Hc.
  - intros db id Hdb. unfold sql_flight_get_by_id, GET_FLIGHT_BY_ID. by destruct (find_flight db id).
  - intros. by apply sql_search_rows.
Qed.

Lemma sql_get_snapshot_eq db sel : schema_ok db ->
  sql_get_snapshot db sel =
  ('(sn, credit) ← get_snapshot db sel;
   if own_credit sn credit then Ok (sn, credit)
   else raise TravelCreditNotFoundError "travel credit not found").
Proof.
  intros Hdb. unfold sql_get_snapshot, transaction.
  destruct (sql_snapshot_run db [] sel Hdb) as [held ->].
  destruct (get_snapshot db sel) as [[sn credit]|e]; [|done]. rewrite res_bind_ret.
  by destruct (own_credit sn credit).
Qed.

(** With one clock reading, a success of either variant is a success of the
    other with the same database. *)
Lemma sql_execute_orm am sel db : db_inv db ->
  Equivalent (am_now_change am) db sel
    (execute (mkAmbient (am_now_validate am) (am_now_change am) (am_now_change am) (am_change_id am)
                (am_now_change am)) (validate_rebooking_selection (am_now_validate am)) sel db)
    (rb_execute sql_rebooking am (validate_rebooking_selection (am_now_validate am)) sel db).
Proof. intros Hdb. by apply sql_equivalent; apply Hdb. Qed.

Lemma sql_rebooking_laws : RebookingLaws sql_rebooking.
Proof.
  split.
  - intros db now sel v Hdb. cbn [sql_rebooking rb_get_snapshot].
    rewrite sql_get_snapshot_eq by done.
    destruct (get_snapshot db sel) as [[sn credit]|e] eqn:Hsnap; [|done]. rewrite !res_bind_ret.
    destruct (own_credit sn credit) eqn:Hown; [done|].
    destruct (foreign_refused now _ _ _ _ Hsnap Hown) as (_ & e & -> & _). done.
  - intros am sel db e db' Hdb Hex. pose proof (sql_execute_orm am sel db Hdb) as [Heq Hres].
    rewrite Hex in Heq, Hres. cbn in Heq, Hres. subst db'.
    destruct (execute _ _ sel db) as [[x|e'] db1] eqn:Horm; [done|]. cbn.
    eapply (execute_Raise_inv (mkAmbient _ _ _ _ _)); [apply Hdb|exact Horm].
  - intros am sel db x db' Hdb Hex. pose proof (sql_execute_orm am sel db Hdb) as [Heq Hres].
    rewrite Hex in Heq, Hres. cbn in Heq, Hres.
    destruct (execute _ _ sel db) as [[x'|e'] db1] eqn:Horm; [|done]. cbn in Heq, Hres. subst db1.
    eexists (mkAmbient _ _ _ _ _), x'. split; [reflexivity|]. split; [exact Horm|]. by destruct Hres.
  - intros am sel db x db' Hdb Hex. pose proof (sql_execute_orm am sel db Hdb) as [Heq Hres].
    rewrite Hex in Heq, Hres. cbn in Heq, Hres.
    destruct (execute _ _ sel db) as [[x'|e'] db1] eqn:Horm; [|done]. cbn in Heq, Hres. subst db1.
    destruct (execute_Ok_inv (mkAmbient _ _ _ _ _) _ _ _ _ (inv_schema _ Hdb) Horm)
      as (sn & cr & v & seg & r & nf & off & Hexd & -> & _).
    pose proof (verify_rebooked _ _ _ _ _ _ _ _ _ _ Hexd) as Hv.
    assert (schema_ok (rebooked (mkAmbient (am_now_validate am) (am_now_change am) (am_now_change am)
      (am_change_id am) (am_now_change am)) sel v db)) as Hdb' by (eapply rebooked_schema; [apply Hdb|exact Hexd]).
    pose proof (sql_verify_equivalent _ sel Hdb') as Hver. rewrite Hv in Hver.
    cbn [sql_rebooking rb_verify]. destruct (sql_verify _ sel) as [y|e]; [eauto|done].
Qed.

(** C32: the two data access variants are interchangeable: the SQLAlchemy and
    the asyncpg repositories satisfy the same laws, so everything proved of the
    service and of the agent's turns holds with either; in particular searches
    offer the same options, and details show the same booking up to order. *)
Theorem variants_interchangeable :
  ReadLaws orm_reads /\ ReadLaws sql_reads
  /\ RebookingLaws orm_rebooking /\ RebookingLaws sql_rebooking
  /\ (forall db input, schema_ok db ->
      match search_rebooking_options orm_reads db input, search_rebooking_options sql_reads db input with
      | Ok os, Ok os' => forall o, o ∈ os <-> o ∈ os'
      | Raise e, Raise e' => exn_type e = exn_type e'
      | _, _ => False
      end).
Proof.
  split_and!; [apply orm_reads_laws|apply sql_reads_laws|apply orm_rebooking_laws|apply sql_rebooking_laws|].
  intros db input Hdb. pose proof (search_answer orm_reads db input orm_reads_laws Hdb) as Ho.
  pose proof (search_answer sql_reads db input sql_reads_laws Hdb) as Hs.
  destruct (search_rebooking_options orm_reads db input) as [os|e],
    (search_rebooking_options sql_reads db input) as [os'|e']; cbn in Ho, Hs.
  - destruct Ho as (_ & _ & seg & f0 & c0 & H1 & H2 & H3 & Ho), Hs as (_ & _ & seg' & f0' & c0' & H4 & H5 & H6 & Hs).
    simplify_eq. intros o. by rewrite Ho, Hs.
  - destruct Ho as (? & ? & seg & _ & _ & Hseg & _), Hs as [[_ ?]|[(_ & ? & ?)|(_ & _ & _ & ?)]]; [lia|lia|congruence].
  - destruct Hs as (? & ? & seg & _ & _ & Hseg & _), Ho as [[_ ?]|[(_ & ? & ?)|(_ & _ & _ & ?)]]; [lia|lia|congruence].
  - destruct Ho as [[-> ?]|[(-> & ? & ?)|(-> & ? & ? & ?)]], Hs as [[-> ?]|[(-> & ? & ?)|(-> & ? & ? & ?)]];
      (lia || done).
Qed.

(** * The choice of the variant *)

(** [settings.data_access] picks the repositories. *)
Definition repositories_of (data_access : string) : ReadRepositories * RebookingRepository :=
  if (data_access =? "asyncpg")%string then (sql_reads, sql_rebooking) else (orm_reads, orm_rebooking).

Lemma repositories_laws data_access :
  ReadLaws (repositories_of data_access).1 /\ RebookingLaws (repositories_of data_access).2.
Proof.
  unfold repositories_of. destruct (_ =? _)%string; cbn.
  - split; [apply sql_reads_laws|apply sql_rebooking_laws].
  - split; [apply orm_reads_laws|apply orm_rebooking_laws].
Qed.
