(* ===== verification/SqlRows.v ===== *)
(** The columns between the asyncpg variant and its schemas: the select lists
    of [app/airline/repository/sql/queries.py], the mapping of [rows.py] and the
    keyword arguments the repositories build their schemas from.

    [SqlRepositories] and [SqlRebooking] give a query's rows as the records of
    the tables; here a row is what asyncpg returns, named cells, and the
    repositories read it column by column.  A column that is missing raises
    [KeyError], a field that is missing or of another type [ValidationError];
    the theorem says that neither happens: every select list has, under the
    right names, what is read. *)
From Stdlib Require Import String.
From stdpp Require Import base numbers strings list.
From S2P Require Import Prelude Models Rules Database Repositories OrmRebooking AirlineService SqlRebooking SqlRepositories.
Local Open Scope string_scope.
Local Open Scope list_scope.

(** * Cells and rows *)

(** Numbers and times are both numbers here, as in [Models]. *)
Inductive Cell := CUuid (id : UUID) | CText (s : string) | CNum (n : Z) | CBool (b : bool) | CNull.

(** How a type is stored, and how pydantic reads it back. *)
Class Column (A : Type) := {
  cell : A -> Cell;
  of_cell : Cell -> Res A;
  of_cell_cell a : of_cell (cell a) = Ok a }.

Definition invalid {A} : Res A := raise ValidationError "1 validation error".

#[export] Instance uuid_column : Column UUID := {|
  cell := CUuid; of_cell c := match c with CUuid id => Ok id | _ => invalid end; of_cell_cell a := eq_refl |}.
#[export] Instance text_column : Column string := {|
  cell := CText; of_cell c := match c with CText s => Ok s | _ => invalid end; of_cell_cell a := eq_refl |}.
#[export] Instance number_column : Column Z := {|
  cell := CNum; of_cell c := match c with CNum n => Ok n | _ => invalid end; of_cell_cell a := eq_refl |}.
#[export] Instance bool_column : Column bool := {|
  cell := CBool; of_cell c := match c with CBool b => Ok b | _ => invalid end; of_cell_cell a := eq_refl |}.
#[export, refine] Instance nullable_column : Column (option string) := {|
  cell o := match o with Some s => CText s | None => CNull end;
  of_cell c := match c with CText s => Ok (Some s) | CNull => Ok None | _ => invalid end;
  of_cell_cell := _ |}.
Proof. by intros [s|]. Defined.

(** An enumeration is stored as its value; pydantic looks the member up. *)
Definition member {A} (members : list A) (value : A -> string) (c : Cell) : Res A :=
  match c with
  | CText s => or_raise (head (List.filter (fun m => (value m =? s)%string) members))
                 ValidationError "1 validation error"
  | _ => invalid
  end.
#[export, refine] Instance reservation_status_column : Column ReservationStatus := {|
  cell s := CText (reservation_status_value s);
  of_cell := member [R_CONFIRMED; R_CANCELLED; R_COMPLETED] reservation_status_value;
  of_cell_cell := _ |}.
Proof. by intros []. Defined.
#[export, refine] Instance flight_status_column : Column FlightStatus := {|
  cell s := CText (flight_status_value s);
  of_cell := member [F_SCHEDULED; F_DELAYED; F_CANCELLED; F_BOARDING; F_DEPARTED; F_COMPLETED] flight_status_value;
  of_cell_cell := _ |}.
Proof. by intros []. Defined.
#[export, refine] Instance segment_status_column : Column SegmentStatus := {|
  cell s := CText (segment_status_value s);
  of_cell := member [S_CONFIRMED; S_CHANGED; S_CANCELLED; S_FLOWN] segment_status_value;
  of_cell_cell := _ |}.
Proof. by intros []. Defined.
#[export, refine] Instance credit_status_column : Column TravelCreditStatus := {|
  cell s := CText (travel_credit_status_value s);
  of_cell := member [C_AVAILABLE; C_PARTIALLY_USED; C_USED; C_EXPIRED] travel_credit_status_value;
  of_cell_cell := _ |}.
Proof. by intros []. Defined.

(** An asyncpg [Record], or keyword arguments. *)
Definition Row := list (string * Cell).

Definition lookup_name (name : string) (row : Row) : option Cell :=
  snd <$> head (List.filter (fun e => (fst e =? name)%string) row).

(** [row[name]]. *)
Definition item (row : Row) (name : string) : Res Cell := or_raise (lookup_name name row) KeyError name.

(** The field [name] of a model validated from keyword arguments. *)
Definition field {A} `{Column A} (kwargs : Row) (name : string) : Res A :=
  c ← or_raise (lookup_name name kwargs) ValidationError "1 validation error"; of_cell c.

(** [Schema(field=row[column], ...)]: the arguments. *)
Definition arguments (row : Row) (columns : list (string * string)) : Res Row :=
  mapM (fun e => c ← item row (snd e); Ok (fst e, c)) columns.

(** * The schemas, from keyword arguments *)

Definition CustomerSchema_of (kw : Row) : Res CustomerSchema :=
  id ← field kw "id"; first_name ← field kw "first_name"; last_name ← field kw "last_name";
  email ← field kw "email"; phone ← field kw "phone";
  created_at ← field kw "created_at"; updated_at ← field kw "updated_at";
  Ok (mkCustomer id first_name last_name email phone created_at updated_at).

Definition PassengerSchema_of (kw : Row) : Res PassengerSchema :=
  id ← field kw "id"; first_name ← field kw "first_name"; last_name ← field kw "last_name";
  document_number ← field kw "document_number"; created_at ← field kw "created_at";
  Ok (mkPassenger id first_name last_name document_number created_at).

Definition ReservationSchema_of (kw : Row) : Res ReservationSchema :=
  id ← field kw "id"; booking_reference ← field kw "booking_reference";
  customer_id ← field kw "customer_id"; status ← field kw "status";
  total_amount ← field kw "total_amount"; currency ← field kw "currency";
  created_at ← field kw "created_at"; updated_at ← field kw "updated_at";
  Ok (mkReservation id booking_reference customer_id status total_amount currency created_at updated_at).

Definition FlightSchema_of (kw : Row) : Res FlightSchema :=
  id ← field kw "id"; flight_number ← field kw "flight_number";
  origin_airport ← field kw "origin_airport"; destination_airport ← field kw "destination_airport";
  departure_at ← field kw "departure_at"; arrival_at ← field kw "arrival_at";
  status ← field kw "status"; capacity ← field kw "capacity";
  created_at ← field kw "created_at"; updated_at ← field kw "updated_at";
  Ok (mkFlight id flight_number origin_airport destination_airport departure_at arrival_at status
        capacity created_at updated_at).

Definition FareClassSchema_of (kw : Row) : Res FareClassSchema :=
  id ← field kw "id"; code ← field kw "code"; name ← field kw "name";
  change_allowed ← field kw "change_allowed"; cancellation_allowed ← field kw "cancellation_allowed";
  change_fee ← field kw "change_fee"; cancellation_fee ← field kw "cancellation_fee";
  created_at ← field kw "created_at";
  Ok (mkFareClass id code name change_allowed cancellation_allowed change_fee cancellation_fee created_at).

Definition FlightFareSchema_of (kw : Row) : Res FlightFareSchema :=
  id ← field kw "id"; flight_id ← field kw "flight_id"; fare_class_id ← field kw "fare_class_id";
  price ← field kw "price"; currency ← field kw "currency"; available_seats ← field kw "available_seats";
  Ok (mkFlightFare id flight_id fare_class_id price currency available_seats).

Definition ReservationSegmentSchema_of (kw : Row) : Res ReservationSegmentSchema :=
  id ← field kw "id"; reservation_id ← field kw "reservation_id"; flight_id ← field kw "flight_id";
  fare_class_id ← field kw "fare_class_id"; status ← field kw "status";
  price_paid ← field kw "price_paid"; currency ← field kw "currency";
  created_at ← field kw "created_at"; updated_at ← field kw "updated_at";
  Ok (mkReservationSegment id reservation_id flight_id fare_class_id status price_paid currency
        created_at updated_at).

Definition TravelCreditSchema_of (kw : Row) : Res TravelCreditSchema :=
  id ← field kw "id"; customer_id ← field kw "customer_id"; original_amount ← field kw "original_amount";
  remaining_amount ← field kw "remaining_amount"; currency ← field kw "currency";
  status ← field kw "status"; expires_at ← field kw "expires_at"; created_at ← field kw "created_at";
  Ok (mkTravelCredit id customer_id original_amount remaining_amount currency status expires_at created_at).

Definition FlightChangeSchema_of (kw : Row) : Res FlightChangeSchema :=
  id ← field kw "id"; reservation_segment_id ← field kw "reservation_segment_id";
  old_flight_id ← field kw "old_flight_id"; new_flight_id ← field kw "new_flight_id";
  old_fare_class_id ← field kw "old_fare_class_id"; new_fare_class_id ← field kw "new_fare_class_id";
  fare_difference ← field kw "fare_difference"; change_fee ← field kw "change_fee";
  travel_credit_used ← field kw "travel_credit_used"; currency ← field kw "currency";
  created_at ← field kw "created_at";
  Ok (mkFlightChange id reservation_segment_id old_flight_id new_flight_id old_fare_class_id
        new_fare_class_id fare_difference change_fee travel_credit_used currency created_at).

(** * The select lists *)

Definition customer_columns (c : Customer) : Row :=
  [("id", cell (c_id c)); ("first_name", cell (c_first_name c)); ("last_name", cell (c_last_name c));
   ("email", cell (c_email c)); ("phone", cell (c_phone c)); ("created_at", cell (c_created_at c));
   ("updated_at", cell (c_updated_at c))].

Definition reservation_columns (r : Reservation) : Row :=
  [("id", cell (r_id r)); ("booking_reference", cell (r_booking_reference r));
   ("customer_id", cell (r_customer_id r)); ("status", cell (r_status r));
   ("total_amount", cell (r_total_amount r)); ("currency", cell (r_currency r));
   ("created_at", cell (r_created_at r)); ("updated_at", cell (r_updated_at r))].

Definition passenger_columns (p : Passenger) : Row :=
  [("id", cell (p_id p)); ("first_name", cell (p_first_name p)); ("last_name", cell (p_last_name p));
   ("document_number", cell (p_document_number p)); ("created_at", cell (p_created_at p))].

(** [f.id AS flight_id, f.flight_number, ...]. *)
Definition flight_aliases (f : Flight) : Row :=
  [("flight_id", cell (f_id f)); ("flight_number", cell (f_flight_number f));
   ("origin_airport", cell (f_origin_airport f)); ("destination_airport", cell (f_destination_airport f));
   ("departure_at", cell (f_departure_at f)); ("arrival_at", cell (f_arrival_at f));
   ("flight_status", cell (f_status f)); ("capacity", cell (f_capacity f));
   ("flight_created_at", cell (f_created_at f)); ("flight_updated_at", cell (f_updated_at f))].

(** [fc.code, fc.name, ..., fc.created_at AS fare_class_created_at]. *)
Definition fare_class_aliases (fc : FareClass) : Row :=
  [("code", cell (fc_code fc)); ("name", cell (fc_name fc)); ("change_allowed", cell (fc_change_allowed fc));
   ("cancellation_allowed", cell (fc_cancellation_allowed fc)); ("change_fee", cell (fc_change_fee fc));
   ("cancellation_fee", cell (fc_cancellation_fee fc)); ("fare_class_created_at", cell (fc_created_at fc))].

Definition segment_details_columns (d : ReservationSegmentDetailsSchema) : Row :=
  let rs := sd_segment d in
  [("segment_id", cell (rs_id rs)); ("segment_reservation_id", cell (rs_reservation_id rs));
   ("segment_flight_id", cell (rs_flight_id rs)); ("segment_fare_class_id", cell (rs_fare_class_id rs));
   ("segment_status", cell (rs_status rs)); ("segment_price_paid", cell (rs_price_paid rs));
   ("segment_currency", cell (rs_currency rs)); ("segment_created_at", cell (rs_created_at rs));
   ("segment_updated_at", cell (rs_updated_at rs))]
  ++ flight_aliases (sd_flight d)
  ++ ("fare_class_id", cell (fc_id (sd_fare_class d))) :: fare_class_aliases (sd_fare_class d).

Definition segment_columns (rs : ReservationSegment) : Row :=
  [("id", cell (rs_id rs)); ("reservation_id", cell (rs_reservation_id rs)); ("flight_id", cell (rs_flight_id rs));
   ("fare_class_id", cell (rs_fare_class_id rs)); ("status", cell (rs_status rs));
   ("price_paid", cell (rs_price_paid rs)); ("currency", cell (rs_currency rs));
   ("created_at", cell (rs_created_at rs)); ("updated_at", cell (rs_updated_at rs))].
Definition segment_by_id_columns (row : ReservationSegment * FareClass) : Row :=
  segment_columns row.1 ++ fare_class_aliases row.2.

Definition flight_columns (f : Flight) : Row :=
  [("id", cell (f_id f)); ("flight_number", cell (f_flight_number f));
   ("origin_airport", cell (f_origin_airport f)); ("destination_airport", cell (f_destination_airport f));
   ("departure_at", cell (f_departure_at f)); ("arrival_at", cell (f_arrival_at f));
   ("status", cell (f_status f)); ("capacity", cell (f_capacity f));
   ("created_at", cell (f_created_at f)); ("updated_at", cell (f_updated_at f))].

Definition available_columns (row : FareRow) : Row :=
  let ff := jr_fare row in
  flight_aliases (jr_flight row)
  ++ [("flight_fare_id", cell (ff_id ff)); ("flight_fare_flight_id", cell (ff_flight_id ff));
      ("flight_fare_class_id", cell (ff_fare_class_id ff)); ("price", cell (ff_price ff));
      ("fare_currency", cell (ff_currency ff)); ("available_seats", cell (ff_available_seats ff))]
  ++ ("fare_class_id", cell (fc_id (jr_class row))) :: fare_class_aliases (jr_class row).

Definition credit_columns (c : TravelCredit) : Row :=
  [("id", cell (tc_id c)); ("customer_id", cell (tc_customer_id c));
   ("original_amount", cell (tc_original_amount c)); ("remaining_amount", cell (tc_remaining_amount c));
   ("currency", cell (tc_currency c)); ("status", cell (tc_status c));
   ("expires_at", cell (tc_expires_at c)); ("created_at", cell (tc_created_at c))].

Definition change_columns (c : FlightChange) : Row :=
  [("id", cell (ch_id c)); ("reservation_segment_id", cell (ch_reservation_segment_id c));
   ("old_flight_id", cell (ch_old_flight_id c)); ("new_flight_id", cell (ch_new_flight_id c));
   ("old_fare_class_id", cell (ch_old_fare_class_id c)); ("new_fare_class_id", cell (ch_new_fare_class_id c));
   ("fare_difference", cell (ch_fare_difference c)); ("change_fee", cell (ch_change_fee c));
   ("travel_credit_used", cell (ch_travel_credit_used c)); ("currency", cell (ch_currency c));
   ("created_at", cell (ch_created_at c))].

Definition rebooking_segment_columns (row : SegmentRow) : Row :=
  let rs := sg_segment row in
  [("segment_id", cell (rs_id rs)); ("reservation_id", cell (rs_reservation_id rs));
   ("old_flight_id", cell (rs_flight_id rs)); ("old_fare_class_id", cell (rs_fare_class_id rs));
   ("segment_status", cell (rs_status rs)); ("price_paid", cell (rs_price_paid rs));
   ("segment_currency", cell (rs_currency rs)); ("customer_id", cell (r_customer_id (sg_reservation row)));
   ("reservation_status", cell (r_status (sg_reservation row)));
   ("old_flight_status", cell (f_status (sg_flight row)));
   ("origin_airport", cell (f_origin_airport (sg_flight row)));
   ("destination_airport", cell (f_destination_airport (sg_flight row)));
   ("old_departure_at", cell (f_departure_at (sg_flight row)));
   ("passenger_count", cell (sg_passenger_count row));
   ("old_change_allowed", cell (fc_change_allowed (sg_fare_class row)));
   ("change_fee", cell (fc_change_fee (sg_fare_class row)))].

Definition rebooking_target_columns (row : FareRow) : Row :=
  [("flight_id", cell (f_id (jr_flight row))); ("flight_status", cell (f_status (jr_flight row)));
   ("origin_airport", cell (f_origin_airport (jr_flight row)));
   ("destination_airport", cell (f_destination_airport (jr_flight row)));
   ("departure_at", cell (f_departure_at (jr_flight row))); ("flight_fare_id", cell (ff_id (jr_fare row)));
   ("fare_class_id", cell (ff_fare_class_id (jr_fare row))); ("price", cell (ff_price (jr_fare row)));
   ("currency", cell (ff_currency (jr_fare row))); ("available_seats", cell (ff_available_seats (jr_fare row)));
   ("change_allowed", cell (fc_change_allowed (jr_class row))); ("change_fee", cell (fc_change_fee (jr_class row)))].

Definition rebooking_result_columns (row : ReservationSegment * Reservation) : Row :=
  let rs := row.1 in
  [("segment_id", cell (rs_id rs)); ("reservation_id", cell (rs_reservation_id rs));
   ("flight_id", cell (rs_flight_id rs)); ("fare_class_id", cell (rs_fare_class_id rs));
   ("segment_status", cell (rs_status rs)); ("price_paid", cell (rs_price_paid rs));
   ("currency", cell (rs_currency rs)); ("booking_reference", cell (r_booking_reference row.2))].

(** * [rows.py] *)

Definition flight (row : Row) (prefix : string) : Res FlightSchema :=
  kw ← arguments row [("id", prefix +:+ "id"); ("flight_number", "flight_number");
    ("origin_airport", "origin_airport"); ("destination_airport", "destination_airport");
    ("departure_at", "departure_at"); ("arrival_at", "arrival_at"); ("status", prefix +:+ "status");
    ("capacity", "capacity"); ("created_at", prefix +:+ "created_at"); ("updated_at", prefix +:+ "updated_at")];
  FlightSchema_of kw.

Definition fare_class (row : Row) (fare_class_id : Cell) : Res FareClassSchema :=
  kw ← arguments row [("code", "code"); ("name", "name"); ("change_allowed", "change_allowed");
    ("cancellation_allowed", "cancellation_allowed"); ("change_fee", "change_fee");
    ("cancellation_fee", "cancellation_fee"); ("created_at", "fare_class_created_at")];
  FareClassSchema_of (("id", fare_class_id) :: kw).

Definition flight_fare (row : Row) : Res FlightFareSchema :=
  kw ← arguments row [("id", "flight_fare_id"); ("flight_id", "flight_fare_flight_id");
    ("fare_class_id", "flight_fare_class_id"); ("price", "price"); ("currency", "fare_currency");
    ("available_seats", "available_seats")];
  FlightFareSchema_of kw.

(** * The repositories over rows *)

Definition row_customer_get_by_id (db : DB) (customer_id : UUID) : Res CustomerSchema :=
  row ← or_raise (customer_columns <$> GET_CUSTOMER customer_id db) CustomerNotFoundError "customer not found";
  CustomerSchema_of row.

(** The two parts of [segments=[...]]. *)
Definition row_segment_details (row : Row) : Res ReservationSegmentDetailsSchema :=
  kw ← arguments row [("id", "segment_id"); ("reservation_id", "segment_reservation_id");
    ("flight_id", "segment_flight_id"); ("fare_class_id", "segment_fare_class_id");
    ("status", "segment_status"); ("price_paid", "segment_price_paid"); ("currency", "segment_currency");
    ("created_at", "segment_created_at"); ("updated_at", "segment_updated_at")];
  segment ← ReservationSegmentSchema_of kw;
  f ← flight row "flight_";
  fare_class_id ← item row "fare_class_id";
  fc ← fare_class row fare_class_id;
  Ok (mkSegmentDetails segment f fc).

Definition row_get_details (db : DB) (booking_reference : string) : Res ReservationDetailsSchema :=
  reservation ← or_raise (GET_RESERVATION_BY_BOOKING_REFERENCE booking_reference db)
                  ReservationNotFoundError "reservation not found";
  let customer := customer_columns <$> GET_RESERVATION_CUSTOMER (r_id reservation) db in
  let passengers := passenger_columns <$> GET_PASSENGERS_BY_RESERVATION (r_id reservation) db in
  let segments := segment_details_columns <$> GET_SEGMENT_DETAILS_BY_RESERVATION (r_id reservation) db in
  reservation ← ReservationSchema_of (reservation_columns reservation);
  customer ← or_raise customer TypeError "argument after ** must be a mapping, not NoneType";
  customer ← CustomerSchema_of customer;
  passengers ← mapM PassengerSchema_of passengers;
  segments ← mapM row_segment_details segments;
  Ok (mkReservationDetails reservation customer passengers segments).

Definition row_get_segment_by_id (db : DB) (segment_id : UUID) : Res (ReservationSegment * option FareClass) :=
  row ← or_raise (segment_by_id_columns <$> GET_SEGMENT_BY_ID segment_id db)
          SegmentNotFoundError "reservation segment not found";
  kw ← arguments row ((fun name => (name, name)) <$>
    ["id"; "reservation_id"; "flight_id"; "fare_class_id"; "status"; "price_paid"; "currency"; "created_at"; "updated_at"]);
  fare_class_id ← item row "fare_class_id";
  fc ← fare_class row fare_class_id;
  segment ← ReservationSegmentSchema_of kw;
  Ok (segment, Some fc).

Definition row_flight_get_by_id (db : DB) (flight_id : UUID) : Res FlightSchema :=
  row ← or_raise (flight_columns <$> GET_FLIGHT_BY_ID flight_id db) FlightNotFoundError "flight not found";
  FlightSchema_of row.

(** One turn of the loop: [results] as association list of the dict. *)
Definition row_add_fare (results : list AvailableFlightSchema) (row : Row) : Res (list AvailableFlightSchema) :=
  _ ← item row "flight_id";
  f ← flight row "flight_";
  fare_class_id ← item row "fare_class_id";
  fc ← fare_class row fare_class_id;
  ff ← flight_fare row;
  Ok (add_fare (mkFareRow ff f fc) results).
Fixpoint row_results (rows : list Row) (results : list AvailableFlightSchema) : Res (list AvailableFlightSchema) :=
  match rows with
  | [] => Ok results
  | row :: rows' => results ← row_add_fare results row; row_results rows' results
  end.
Definition row_search_available (db : DB) (params : SearchAvailableFlightsParamsSchema) :
    Res (list AvailableFlightSchema) :=
  row_results (available_columns <$> SEARCH_AVAILABLE_FLIGHTS params db) [].

Definition row_get_available_by_customer (db : DB) (now : datetime) (customer_id : UUID) (currency : string) :
    Res (list TravelCreditSchema) :=
  mapM TravelCreditSchema_of (credit_columns <$> sql_get_available_by_customer db now customer_id currency).

Definition row_get_by_segment (db : DB) (segment_id : UUID) : Res (list FlightChangeSchema) :=
  mapM FlightChangeSchema_of (change_columns <$> sql_get_by_segment db segment_id).

(** * The rebooking over rows *)

Definition RebookingSnapshotSchema_of (kw : Row) : Res RebookingSnapshotSchema :=
  segment_id ← field kw "segment_id"; reservation_id ← field kw "reservation_id";
  customer_id ← field kw "customer_id"; old_flight_id ← field kw "old_flight_id";
  old_fare_class_id ← field kw "old_fare_class_id"; segment_status ← field kw "segment_status";
  reservation_status ← field kw "reservation_status"; old_flight_status ← field kw "old_flight_status";
  origin_airport ← field kw "origin_airport"; destination_airport ← field kw "destination_airport";
  old_departure_at ← field kw "old_departure_at"; old_price ← field kw "old_price";
  old_currency ← field kw "old_currency"; old_change_allowed ← field kw "old_change_allowed";
  target_flight_id ← field kw "target_flight_id"; target_fare_class_id ← field kw "target_fare_class_id";
  target_status ← field kw "target_status"; target_origin ← field kw "target_origin";
  target_destination ← field kw "target_destination"; target_departure_at ← field kw "target_departure_at";
  target_price ← field kw "target_price"; target_currency ← field kw "target_currency";
  available_seats ← field kw "available_seats"; target_change_allowed ← field kw "target_change_allowed";
  target_change_fee ← field kw "target_change_fee"; passenger_count ← field kw "passenger_count";
  Ok (mkSnapshot segment_id reservation_id customer_id old_flight_id old_fare_class_id segment_status
        reservation_status old_flight_status origin_airport destination_airport old_departure_at old_price
        old_currency old_change_allowed target_flight_id target_fare_class_id target_status target_origin
        target_destination target_departure_at target_price target_currency available_seats
        target_change_allowed target_change_fee passenger_count).

Definition row_make_snapshot (segment target : Row) : Res RebookingSnapshotSchema :=
  of_segment ← arguments segment [("segment_id", "segment_id"); ("reservation_id", "reservation_id");
    ("customer_id", "customer_id"); ("old_flight_id", "old_flight_id");
    ("old_fare_class_id", "old_fare_class_id"); ("segment_status", "segment_status");
    ("reservation_status", "reservation_status"); ("old_flight_status", "old_flight_status");
    ("origin_airport", "origin_airport"); ("destination_airport", "destination_airport");
    ("old_departure_at", "old_departure_at"); ("old_price", "price_paid"); ("old_currency", "segment_currency");
    ("old_change_allowed", "old_change_allowed")];
  of_target ← arguments target [("target_flight_id", "flight_id"); ("target_fare_class_id", "fare_class_id");
    ("target_status", "flight_status"); ("target_origin", "origin_airport");
    ("target_destination", "destination_airport"); ("target_departure_at", "departure_at");
    ("target_price", "price"); ("target_currency", "currency"); ("available_seats", "available_seats");
    ("target_change_allowed", "change_allowed"); ("target_change_fee", "change_fee")];
  counted ← arguments segment [("passenger_count", "passenger_count")];
  RebookingSnapshotSchema_of (of_segment ++ of_target ++ counted).

#[export] Instance Cell_eq_dec : EqDecision Cell.
Proof. solve_decision. Defined.

Definition row_verify (db : DB) (selection : RebookingSelectionSchema) : Res RebookingResultSchema :=
  row ← or_raise (rebooking_result_columns <$> GET_REBOOKING_RESULT (sel_segment_id selection) db)
          SegmentNotFoundError "reservation segment not found";
  flight_id ← item row "flight_id";
  fare_class_id ← item row "fare_class_id";
  status ← item row "segment_status";
  if negb (bool_decide (flight_id = CUuid (sel_new_flight_id selection)))
     || negb (bool_decide (fare_class_id = CUuid (sel_new_fare_class_id selection)))
     || negb (bool_decide (status = CText (segment_status_value S_CHANGED))) then
    raise RebookingVerificationError "rebooking verification failed"
  else
    kw ← arguments row [("id", "segment_id"); ("reservation_id", "reservation_id"); ("flight_id", "flight_id");
      ("fare_class_id", "fare_class_id"); ("status", "segment_status"); ("price_paid", "price_paid");
      ("currency", "currency")];
    segment ← ReservationSegmentSchema_of (kw ++ [("created_at", cell _EPOCH); ("updated_at", cell _EPOCH)]);
    reference ← item row "booking_reference";
    booking_reference ← of_cell reference;
    Ok (mkRebookingResult None segment booking_reference).

(** * Every row is read back to the record it was selected from *)

(** Read the columns of a concrete select list. *)
Ltac read_columns :=
  repeat match goal with x : ReservationStatus |- _ => destruct x | x : FlightStatus |- _ => destruct x
    | x : SegmentStatus |- _ => destruct x | x : TravelCreditStatus |- _ => destruct x
    | x : option string |- _ => destruct x end; reflexivity.

Lemma customer_read c : CustomerSchema_of (customer_columns c) = Ok c.
Proof. destruct c. read_columns. Qed.
Lemma passenger_read p : PassengerSchema_of (passenger_columns p) = Ok p.
Proof. destruct p. read_columns. Qed.
Lemma reservation_read r : ReservationSchema_of (reservation_columns r) = Ok r.
Proof. destruct r. read_columns. Qed.
Lemma flight_read f : FlightSchema_of (flight_columns f) = Ok f.
Proof. destruct f. read_columns. Qed.
Lemma credit_read c : TravelCreditSchema_of (credit_columns c) = Ok c.
Proof. destruct c. read_columns. Qed.
Lemma change_read c : FlightChangeSchema_of (change_columns c) = Ok c.
Proof. destruct c. read_columns. Qed.
Lemma details_read d : row_segment_details (segment_details_columns d) = Ok d.
Proof. destruct d as [[] [] []]. read_columns. Qed.
Lemma flight_fare_read row : flight_fare (available_columns row) = Ok (jr_fare row).
Proof. destruct row as [[] [] []]. reflexivity. Qed.
Lemma available_flight_read row : flight (available_columns row) "flight_" = Ok (jr_flight row).
Proof. destruct row as [[] [] []]. read_columns. Qed.
Lemma available_class_id row : item (available_columns row) "fare_class_id" = Ok (cell (fc_id (jr_class row))).
Proof. destruct row as [[] [] []]. reflexivity. Qed.
Lemma available_class_read row :
  fare_class (available_columns row) (cell (fc_id (jr_class row))) = Ok (jr_class row).
Proof. destruct row as [[] [] []]. reflexivity. Qed.

Lemma field_cell {A} `{Column A} kw name (a : A) : lookup_name name kw = Some (cell a) -> field kw name = Ok a.
Proof. unfold field. intros ->. apply of_cell_cell. Qed.

Lemma snapshot_read segment target :
  row_make_snapshot (rebooking_segment_columns segment) (rebooking_target_columns target)
  = Ok (sql_make_snapshot segment target).
Proof.
  destruct segment as [[] [] [] [] ?], target as [[] [] []].
  unfold row_make_snapshot. cbn -[RebookingSnapshotSchema_of].
  unfold RebookingSnapshotSchema_of, mbind, Res_bind.
  do 26 (erewrite field_cell by reflexivity; cbv beta iota). reflexivity.
Qed.

Lemma mapM_read {A} (read : Row -> Res A) (columns : A -> Row) l :
  (forall a, read (columns a) = Ok a) -> mapM read (columns <$> l) = Ok l.
Proof. intros H. apply mapM_Res_Ok. induction l; constructor; auto. Qed.

Lemma results_read l results :
  row_results (available_columns <$> l) results = Ok (foldl (fun results row => add_fare row results) results l).
Proof.
  revert results. induction l as [|row l IH]; intros results; [done|].
  cbn [row_results fmap list_fmap foldl]. rewrite <- IH.
  assert (row_add_fare results (available_columns row) = Ok (add_fare row results)) as ->; [|done].
  unfold row_add_fare. rewrite available_flight_read, available_class_id. cbn [mbind Res_bind].
  rewrite available_class_read, flight_fare_read. by destruct row.
Qed.

Lemma segment_by_id_read rs fc : rs_fare_class_id rs = fc_id fc ->
  (kw ← arguments (segment_by_id_columns (rs, fc)) ((fun name => (name, name)) <$>
     ["id"; "reservation_id"; "flight_id"; "fare_class_id"; "status"; "price_paid"; "currency"; "created_at"; "updated_at"]);
   fare_class_id ← item (segment_by_id_columns (rs, fc)) "fare_class_id";
   fc ← fare_class (segment_by_id_columns (rs, fc)) fare_class_id;
   segment ← ReservationSegmentSchema_of kw;
   Ok (segment, Some fc)) = Ok (rs, Some fc).
Proof. destruct rs, fc. intros E; cbn in E; subst. read_columns. Qed.

Lemma get_segment_read db id : row_get_segment_by_id db id = sql_get_segment_by_id db id.
Proof.
  unfold row_get_segment_by_id, sql_get_segment_by_id, GET_SEGMENT_BY_ID.
  destruct (find_segment db id) as [rs|]; [|done]. cbn [mbind option_bind].
  destruct (find_fare_class db (rs_fare_class_id rs)) as [fc|] eqn:E; [|done].
  apply scalar_Some in E as [_ E%N.eqb_eq]. exact (segment_by_id_read rs fc (eq_sym E)).
Qed.

Lemma get_details_read db reference : row_get_details db reference = sql_get_details db reference.
Proof.
  unfold row_get_details, sql_get_details.
  destruct (GET_RESERVATION_BY_BOOKING_REFERENCE reference db) as [r|]; [|done]. cbn [or_raise mbind Res_bind].
  rewrite reservation_read. destruct (GET_RESERVATION_CUSTOMER (r_id r) db) as [c|]; [|done].
  cbn [mbind Res_bind fmap option_fmap option_map or_raise].
  by rewrite customer_read, (mapM_read _ _ _ passenger_read), (mapM_read _ _ _ details_read).
Qed.

(** Comparing cells is comparing values. *)
Lemma uuid_cell a b : bool_decide (CUuid a = CUuid b) = (a =? b)%N.
Proof. apply eq_true_iff_eq. rewrite bool_decide_eq_true, N.eqb_eq. split; congruence. Qed.
Lemma status_cell (s : SegmentStatus) : bool_decide (CText (segment_status_value s) = CText "CHANGED") = bool_decide (s = S_CHANGED).
Proof. by destruct s. Qed.

Lemma verify_read db sel : row_verify db sel = sql_verify db sel.
Proof.
  unfold row_verify, sql_verify.
  destruct (GET_REBOOKING_RESULT (sel_segment_id sel) db) as [[[] []]|]; [|done].
  cbn -[ReservationSegmentSchema_of N.eqb]. rewrite !uuid_cell, status_cell.
  by destruct rs_status; repeat destruct (_ =? _)%N.
Qed.

(** C33: every select list of [queries.py] has the columns its repository reads,
    under the names it reads them by: no row of any query raises [KeyError] or
    a validation error, and what the repositories build of the columns are the
    records the rows were selected from. *)
Theorem rows_read_back db :
  (forall id, row_customer_get_by_id db id = sql_customer_get_by_id db id) /\
  (forall reference, row_get_details db reference = sql_get_details db reference) /\
  (forall id, row_get_segment_by_id db id = sql_get_segment_by_id db id) /\
  (forall id, row_flight_get_by_id db id = sql_flight_get_by_id db id) /\
  (forall params, row_search_available db params = Ok (sql_search_available db params)) /\
  (forall now id currency, row_get_available_by_customer db now id currency
     = Ok (sql_get_available_by_customer db now id currency)) /\
  (forall id, row_get_by_segment db id = Ok (sql_get_by_segment db id)) /\
  (forall sel, row_verify db sel = sql_verify db sel) /\
  (forall segment target, row_make_snapshot (rebooking_segment_columns segment) (rebooking_target_columns target)
     = Ok (sql_make_snapshot segment target)) /\
  (forall credit, TravelCreditSchema_of (credit_columns credit) = Ok credit) /\
  (forall change, FlightChangeSchema_of (change_columns change) = Ok change).
Proof.
  split_and!; intros.
  - unfold row_customer_get_by_id, sql_customer_get_by_id. destruct (GET_CUSTOMER id db); [apply customer_read|done].
  - apply get_details_read.
  - apply get_segment_read.
  - unfold row_flight_get_by_id, sql_flight_get_by_id. destruct (GET_FLIGHT_BY_ID id db); [apply flight_read|done].
  - apply results_read.
  - apply mapM_read, credit_read.
  - apply mapM_read, change_read.
  - apply verify_read.
  - apply snapshot_read.
  - apply credit_read.
  - apply change_read.
Qed.
