(* ===== verification/Fixtures.v ===== *)
(** A concrete database to evaluate the model on: the part of
    [db/mock_data.sql] around Alice's reservation ABC123 (one passenger, one
    segment on AS100 in economy), with her travel credit.  Money is in cents,
    times in days. *)
From stdpp Require Import base numbers strings list sets.
From S2P Require Import Prelude Models Rules Database Uuid OrmRebooking RebookingInvariants.
Local Open Scope Z_scope.

Definition alice : UUID := 0x1.
Definition doc_alice : UUID := 0x10000000000000001.
Definition eco : UUID := 0x100000000000000001.
Definition flex : UUID := 0x100000000000000002.
Definition as100 : UUID := 0x1000000000000000001.
Definition as101 : UUID := 0x1000000000000000002.
Definition abc123 : UUID := 0x3000000000000000001.
Definition seg_abc123 : UUID := 0x4000000000000000001.
Definition credit_alice : UUID := 0x5000000000000000001.

Definition mock_db : DB := {|
  customers := [mkCustomer alice "Alice" "Gomez" "alice@example.test" (Some "+1-555-0101") 0 0];
  passengers := [mkPassenger doc_alice "Alice" "Gomez" "DOC-ALICE-1" 0];
  reservation_passengers := [mkReservationPassenger abc123 doc_alice];
  reservations := [mkReservation abc123 "ABC123" alice R_CONFIRMED 30000 "USD" 0 0];
  flights := [mkFlight as100 "AS100" "JFK" "LAX" 100 101 F_SCHEDULED 180 0 0;
              mkFlight as101 "AS101" "JFK" "LAX" 101 102 F_SCHEDULED 180 0 0];
  fare_classes := [mkFareClass eco "ECO" "Economy" true true 2500 5000 0;
                   mkFareClass flex "FLEX" "Flexible Economy" true true 0 0 0];
  flight_fares := [mkFlightFare 0x201 as100 eco 30000 "USD" 179;
                   mkFlightFare 0x202 as101 eco 33000 "USD" 100;
                   mkFlightFare 0x203 as101 flex 35000 "USD" 100];
  reservation_segments :=
    [mkReservationSegment seg_abc123 abc123 as100 eco S_CONFIRMED 30000 "USD" 0 0];
  travel_credits := [mkTravelCredit credit_alice alice 10000 10000 "USD" C_AVAILABLE 500 0];
  flight_changes := [] |}.

(** Rebook ABC123 to AS101: 30.00 dearer plus the fee of 25.00. *)
Definition pick_as101 : RebookingSelectionSchema :=
  mkSelection seg_abc123 as101 eco (Some credit_alice) 5500.

Definition today : Ambient := mkAmbient 50 51 52 0x777 53.

Example mock_execute_ok :
  is_ok (execute today (validate_rebooking_selection 50) pick_as101 mock_db).1 = true.
Proof. vm_compute. reflexivity. Qed.

Lemma mock_schema_ok : schema_ok mock_db.
Proof. split; apply (bool_decide_eq_true_1 _); vm_compute; reflexivity. Defined.

Lemma mock_db_inv : db_inv mock_db.
Proof.
  split.
  - apply mock_schema_ok.
  - apply (bool_decide_eq_true_1 _); vm_compute; reflexivity.
  - apply (bool_decide_eq_true_1 _); vm_compute; reflexivity.
  - repeat constructor; cbn; intros; lia.
Defined.
