(* ===== verification/Locking.v ===== *)
(** Row locks: the order in which [execute] takes them, and why concurrent
    rebookings through the ORM repository cannot deadlock.

    [_lock_fares] sorts the two fares by the strings of their ids, so every
    rebooking takes its locks in one global order ([before]): segment, travel
    credit, fares, reservation.  The second half is a small model of PostgreSQL row locks
    (exclusive, held until commit or rollback) in which a set of transactions
    that all follow one strict order always has one that can go on. *)
From Stdlib Require Import Wf_nat.
From stdpp Require Import base numbers strings list sets relations sorting.
From S2P Require Import Prelude Models Rules Database Uuid OrmRebooking.

(** * The order of the fares *)

Definition key_ok (k : UUID * UUID) : Prop := uuid_ok k.1 /\ uuid_ok k.2.

Lemma fare_key_inj a b : key_ok a -> key_ok b -> fare_key a = fare_key b -> a = b.
Proof.
  intros [? ?] [? ?] E. apply pair_equal_spec in E as [E1 E2].
  apply uuid_str_inj in E1; [|done..]. apply uuid_str_inj in E2; [|done..].
  destruct a, b; cbn in *; congruence.
Qed.

Lemma lock_keys_cases old new :
  key_ok old -> key_ok new ->
  (old = new /\ lock_keys old new = [old]) \/
  (pair_lt (fare_key old) (fare_key new) /\ lock_keys old new = [old; new]) \/
  (pair_lt (fare_key new) (fare_key old) /\ lock_keys old new = [new; old]).
Proof.
  intros Ho Hn. unfold lock_keys. case_bool_decide as E; [by left|right].
  unfold sort_by; cbn. unfold key_leb. destruct (pair_leb (fare_key old) (fare_key new)) eqn:El.
  - apply pair_leb_iff in El as [?|?]; [|auto]. by apply fare_key_inj in H.
  - right. split; [|done].
    destruct (pair_leb_total (fare_key new) (fare_key old)) as [H|H]; [|congruence].
    apply pair_leb_iff in H as [H|?]; [|done]. by apply fare_key_inj in H.
Qed.

(** * A global order on row locks *)

Definition lock_class (l : RowLock) : nat :=
  match l with
  | LSegment _ => 0 | LCredit _ => 1 | LFare _ _ => 2 | LReservation _ => 3 | LFlight _ => 4
  | LChange _ => 5
  end.
Definition lock_name (l : RowLock) : string * string :=
  match l with LFare fl fc => fare_key (fl, fc) | _ => (EmptyString, EmptyString) end.
Definition before (a b : RowLock) : Prop :=
  lock_class a < lock_class b \/
  lock_class a = lock_class b /\ pair_lt (lock_name a) (lock_name b).

#[export] Instance before_irrefl : Irreflexive before.
Proof. intros a [H|[_ H]]; [lia|by apply pair_lt_irrefl in H]. Qed.
#[export] Instance before_trans : Transitive before.
Proof.
  intros a b c [H1|[E1 H1]] [H2|[E2 H2]]; unfold before; [left; lia..|right].
  split; [lia|by etrans].
Qed.

(** The lock sequence of a rebooking whose fares exist. *)
Definition lock_sequence (sel : RebookingSelectionSchema) (sn : RebookingSnapshotSchema) :
    list RowLock :=
  [LSegment (sel_segment_id sel)]
  ++ (match sel_travel_credit_id sel with Some c => [LCredit c] | None => [] end)
  ++ ((fun k => LFare k.1 k.2) <$>
        lock_keys (sn_old_flight_id sn, sn_old_fare_class_id sn)
                  (sel_new_flight_id sel, sel_new_fare_class_id sel))
  ++ [LReservation (sn_reservation_id sn)].

Lemma acquire_held l held : l ∈ held -> acquire l held = held.
Proof. intros. unfold acquire. by rewrite bool_decide_eq_true_2. Qed.
Lemma acquire_new l held : l ∉ held -> acquire l held = held ++ [l].
Proof. intros. unfold acquire. by rewrite bool_decide_eq_false_2. Qed.

(** Evaluate nested acquisitions of locks told apart by their shape or by a
    disequality in the context. *)
Ltac acquire_step :=
  match goal with
  | |- context [acquire ?l ?held] =>
      lazymatch held with context [acquire] => fail | _ => idtac end;
      first
        [ rewrite (acquire_held l held) by (repeat (apply list_elem_of_here || apply list_elem_of_further))
        | rewrite (acquire_new l held)
            by (rewrite ?not_elem_of_cons; repeat split;
                [discriminate || (let E := fresh in intros E; apply eq_sym in E; by auto) || by auto ..|
                 apply not_elem_of_nil]) ];
      cbn [app]
  end.

Section Sequence.
Context (sel : RebookingSelectionSchema) (sn : RebookingSnapshotSchema) (db : DB).
Let old := (sn_old_flight_id sn, sn_old_fare_class_id sn).
Let new := (sel_new_flight_id sel, sel_new_fare_class_id sel).

Lemma commit_locks_sequence :
  key_ok old -> key_ok new ->
  is_Some (find_fare db old.1 old.2) -> is_Some (find_fare db new.1 new.2) ->
  commit_locks sel sn db = lock_sequence sel sn.
Proof.
  intros Ho Hn [fo Hfo] [fn Hfn]. unfold commit_locks, lock_sequence, snapshot_locks, credit_lock.
  fold old new.
  assert (LFare old.1 old.2 = LFare new.1 new.2 -> old = new) as Hinj
    by (unfold old, new; cbn; intros E; injection E; congruence).
  destruct (lock_keys_cases old new Ho Hn) as [[E ->]|[[E ->]|[E ->]]];
    [rewrite <- E|assert (old <> new) as Hne by (intros F; rewrite F in E; by apply pair_lt_irrefl in E)..];
    cbn [acquire_fares fmap list_fmap app]; rewrite ?Hfo, ?Hfn;
    destruct (sel_travel_credit_id sel); cbn [app];
    repeat acquire_step; done.
Qed.
End Sequence.

#[export] Instance before_dec : RelDecision before.
Proof. unfold before, pair_lt, str_lt. intros a b. apply _. Defined.

Lemma lock_sequence_ordered sel sn :
  key_ok (sn_old_flight_id sn, sn_old_fare_class_id sn) ->
  key_ok (sel_new_flight_id sel, sel_new_fare_class_id sel) ->
  StronglySorted before (lock_sequence sel sn).
Proof.
  intros Ho Hn. unfold lock_sequence.
  destruct (lock_keys_cases _ _ Ho Hn) as [[_ ->]|[[E ->]|[E ->]]];
    destruct (sel_travel_credit_id sel); cbn;
    repeat first [apply SSorted_nil | apply SSorted_cons | apply Forall_nil_2 | apply Forall_cons_2];
    first [by left; cbn; lia | by right].
Qed.

(** The ids of both fares are UUIDs. *)
Definition request_ok (rq : RebookingSelectionSchema * RebookingSnapshotSchema) : Prop :=
  key_ok (sn_old_flight_id rq.2, sn_old_fare_class_id rq.2) /\
  key_ok (sel_new_flight_id rq.1, sel_new_fare_class_id rq.1).

(** Every rebooking that commits has taken its row locks along one global
    strict order: the segment, the credit, the fares in the order of their
    id strings, the reservation.  In particular the two fares are locked in an
    order that does not depend on which of them is the old one. *)
Theorem execute_locks_in_order am sel db res tx sn credit :
  schema_ok db ->
  execute_body am (validate_rebooking_selection (am_now_validate am)) sel (mkTx db []) = Ok (res, tx) ->
  get_snapshot db sel = Ok (sn, credit) -> request_ok (sel, sn) ->
  tx_locks tx = lock_sequence sel sn /\ StronglySorted before (tx_locks tx).
Proof.
  intros Hdb Hrun Hsnap [Ho Hn].
  enough (tx_locks tx = lock_sequence sel sn) as -> by (split; [done|by apply lock_sequence_ordered]).
  destruct (execute am (validate_rebooking_selection (am_now_validate am)) sel db) as [[res'|e] db'] eqn:E.
  2: { unfold execute, transaction in E. by rewrite Hrun in E. }
  destruct (execute_Ok_inv _ _ _ _ _ Hdb E) as (sn' & cr & v & seg & r & nf & off & Hex & _).
  destruct Hex as [Hs Hv Hseg _ Hnew Hr _ Hnf Hof _ _ _ Hfresh].
  rewrite Hs in Hsnap. injection Hsnap as -> ->.
  rewrite (execute_body_run _ _ _ _ _ _ Hdb Hs Hv), Hof in Hrun. cbn [or_raise] in Hrun.
  rewrite res_bind_ret, Hseg, Hr in Hrun. cbn [mbind option_bind or_raise] in Hrun.
  rewrite res_bind_ret, bool_decide_eq_false_2 in Hrun by done. injection Hrun as _ <-.
  destruct Hnew as [Hn1 Hn2]. rewrite Hn1, Hn2 in Hnf.
  apply validate_iff in Hv as [_ ->]. cbn in Hof.
  apply commit_locks_sequence; [done..|by exists off|by exists nf].
Qed.

(** * Deadlock freedom *)

(** A transaction in flight: the locks it holds and those it will still ask
    for.  A finished one holds none. *)
Record Txn := mkTxn { held : list RowLock; todo : list RowLock; finished : bool }.

Definition begin (locks : list RowLock) : Txn := mkTxn [] locks false.

(** Replace the transaction number [i]. *)
Definition upd (i : nat) (t : Txn) (ts : list Txn) : list Txn := <[i := t]> ts.

Inductive Event := Grant | Commit | Rollback.

(** One step of the database: a free lock is granted to one transaction, or a
    transaction ends, by commit or rollback, and frees its locks. *)
Inductive lock_step : Event -> list Txn -> list Txn -> Prop :=
  | step_grant ts i t l rest :
      ts !! i = Some t -> finished t = false -> todo t = l :: rest ->
      (forall j u, ts !! j = Some u -> l ∉ held u) ->
      lock_step Grant ts (upd i (mkTxn (held t ++ [l]) rest false) ts)
  | step_commit ts i t :
      ts !! i = Some t -> finished t = false -> todo t = [] ->
      lock_step Commit ts (upd i (mkTxn [] [] true) ts)
  | step_rollback ts i t :
      ts !! i = Some t -> finished t = false ->
      lock_step Rollback ts (upd i (mkTxn [] [] true) ts).

Definition any_step (ts ts' : list Txn) : Prop := exists ev, lock_step ev ts ts'.
Definition progress (ts ts' : list Txn) : Prop :=
  exists ev, ev <> Rollback /\ lock_step ev ts ts'.

(** What every transaction of a reachable state satisfies. *)
Record txn_ok (t : Txn) : Prop := {
  ok_order : StronglySorted before (held t ++ todo t);
  ok_finished : finished t = true -> held t = [] /\ todo t = [] }.

Lemma any_step_ok ts ts' : any_step ts ts' -> Forall txn_ok ts -> Forall txn_ok ts'.
Proof.
  intros [ev Hstep] Hok. destruct Hstep as [ts i t l rest Hi Hf Ht _|ts i t Hi Hf Ht|ts i t Hi Hf];
    apply Forall_insert; try done; try (by split; repeat constructor).
  destruct (proj1 (Forall_lookup _ _) Hok _ _ Hi) as [Ho _]. split; [|done].
  rewrite Ht in Ho. cbn. by rewrite <- app_assoc.
Qed.

Lemma reachable_ok ts ts' : rtc any_step ts ts' -> Forall txn_ok ts -> Forall txn_ok ts'.
Proof. induction 1; eauto using any_step_ok. Qed.

Lemma begin_ok locks : StronglySorted before locks -> txn_ok (begin locks).
Proof. by split. Qed.

(** A finite nonempty set of locks has a last one in the order. *)
Lemma exists_last (ls : list RowLock) l0 :
  l0 ∈ ls -> exists l, l ∈ ls /\ forall l', l' ∈ ls -> ~ before l l'.
Proof.
  revert l0. induction ls as [|a ls IH]; intros l0 Hl0; [by apply elem_of_nil in Hl0|].
  destruct ls as [|b ls].
  - exists a. split; [by left|]. intros l' ->%list_elem_of_singleton Hb. by apply before_irrefl in Hb.
  - destruct (IH b) as (m & Hm & Hmax); [by left|].
    destruct (decide (before m a)) as [Hma|Hma].
    + exists a. split; [by left|]. intros l' [->|Hl']%elem_of_cons Hb; [by apply before_irrefl in Hb|].
      apply (Hmax l'); [done|by etrans].
    + exists m. split; [by right|]. intros l' [->|Hl']%elem_of_cons; auto.
Qed.

(** The locks the unfinished transactions wait for. *)
Definition awaited (ts : list Txn) : list RowLock := omap (fun t => head (todo t)) ts.

Lemma sorted_app_before (l1 l2 : list RowLock) a b :
  StronglySorted before (l1 ++ l2) -> a ∈ l1 -> b ∈ l2 -> before a b.
Proof.
  induction l1 as [|x l1 IH]; cbn; intros Hs Ha Hb; [by apply elem_of_nil in Ha|].
  inversion_clear Hs as [|? ? Hs' Hx]. apply elem_of_cons in Ha as [->|Ha]; [|auto].
  rewrite Forall_forall in Hx. apply Hx, elem_of_app. by right.
Qed.

(** Whoever waits for the last awaited lock waits for nobody. *)
Lemma progress_exists ts :
  Forall txn_ok ts -> (exists t, t ∈ ts /\ finished t = false) -> exists ts', progress ts ts'.
Proof.
  intros Hok (t & Hin & Hf). rewrite Forall_lookup in Hok.
  destruct (decide (Exists (fun t => finished t = false /\ todo t = []) ts)) as [Hex|Hno].
  { apply Exists_exists in Hex as (u & [i Hi]%list_elem_of_lookup & ? & ?).
    eexists; exists Commit. split; [done|by eapply step_commit]. }
  assert (forall u, u ∈ ts -> finished u = false -> todo u <> []) as Hwait.
  { intros u Hu ? ?. apply Hno, Exists_exists. by exists u. }
  destruct (todo t) as [|l rest] eqn:Ht; [by apply Hwait in Ht|].
  destruct (exists_last (awaited ts) l) as (m & Hm & Hlast).
  { apply list_elem_of_omap. exists t. by rewrite Ht. }
  apply list_elem_of_omap in Hm as (u & [j Hj]%list_elem_of_lookup & Hhead).
  destruct (todo u) as [|m' urest] eqn:Hut; [done|]. injection Hhead as ->.
  destruct (finished u) eqn:Hfu; [apply (Hok _ _ Hj) in Hfu as [_ ?]; congruence|].
  eexists; exists Grant. split; [done|]. eapply step_grant; [done..|].
  intros k w Hw Hmw. destruct (Hok _ _ Hw) as [Ho Hfin].
  destruct (finished w) eqn:Hfw; [destruct (Hfin eq_refl) as [E _]; rewrite E in Hmw; by apply elem_of_nil in Hmw|].
  destruct (todo w) as [|n wrest] eqn:Hwt.
  { by apply (Hwait w (list_elem_of_lookup_2 _ _ _ Hw)) in Hwt. }
  apply (Hlast n).
  - apply list_elem_of_omap. exists w. rewrite Hwt. split; [by eapply list_elem_of_lookup_2|done].
  - eapply sorted_app_before; [exact Ho|done|by left].
Qed.

(** The steps a state can still make: every lock asked for, and one end per
    transaction. *)
Definition work (t : Txn) : nat := if finished t then 0 else S (length (todo t)).
Definition remaining (ts : list Txn) : nat := foldr (fun t n => work t + n) 0 ts.

Lemma remaining_upd i t u ts :
  ts !! i = Some t -> work u < work t -> remaining (upd i u ts) < remaining ts.
Proof.
  revert i. unfold remaining, upd. induction ts as [|x ts IH]; intros [|i]; cbn; try done.
  - intros [= ->]. lia.
  - intros Hi Hw. apply Nat.add_lt_mono_l. by apply IH.
Qed.

Lemma any_step_remaining ts ts' : any_step ts ts' -> remaining ts' < remaining ts.
Proof.
  intros [ev Hstep]. destruct Hstep as [ts i t l rest Hi Hf Ht _|ts i t Hi Hf Ht|ts i t Hi Hf];
    eapply remaining_upd; try done; unfold work; rewrite Hf; cbn; rewrite ?Ht; cbn; lia.
Qed.

Lemma progress_any ts ts' : progress ts ts' -> any_step ts ts'.
Proof. intros (ev & _ & ?). by exists ev. Qed.

Lemma can_finish ts :
  Forall txn_ok ts -> exists ts', rtc progress ts ts' /\ Forall (fun t => finished t = true) ts'.
Proof.
  induction ts as [ts IH] using (well_founded_induction (well_founded_ltof _ remaining)).
  intros Hok. destruct (decide (Forall (fun t => finished t = true) ts)) as [?|Hno].
  { by exists ts. }
  destruct (progress_exists ts Hok) as [ts1 H1].
  { apply not_Forall_Exists in Hno; [|apply _]. apply Exists_exists in Hno as (t & ? & Ht).
    exists t. split; [done|]. by apply not_true_is_false. }
  apply progress_any in H1 as H1'.
  destruct (IH ts1) as (ts' & ? & ?); [by apply any_step_remaining|by eapply any_step_ok|].
  exists ts'. split; [by eapply rtc_l|done].
Qed.

(** The rebookings of some selections, each about to take its locks. *)
Definition rebookings (reqs : list (RebookingSelectionSchema * RebookingSnapshotSchema)) : list Txn :=
  (fun rq => begin (lock_sequence rq.1 rq.2)) <$> reqs.

Lemma rebookings_ok reqs : Forall request_ok reqs -> Forall txn_ok (rebookings reqs).
Proof.
  intros H. apply Forall_fmap. eapply Forall_impl; [exact H|].
  intros [sel sn] [? ?]. by apply begin_ok, lock_sequence_ordered.
Qed.

(** Concurrent rebookings never deadlock: from every state their lock
    requests can reach, grants, commits and rollbacks in any order, all of them
    can still run to completion without a rollback; and no interleaving goes on
    for ever, a step strictly decreases the work left. *)
Theorem rebookings_deadlock_free reqs ts :
  Forall request_ok reqs -> rtc any_step (rebookings reqs) ts ->
  (exists ts', rtc progress ts ts' /\ Forall (fun t => finished t = true) ts') /\
  (forall ts', any_step ts ts' -> remaining ts' < remaining ts).
Proof.
  intros Hreqs Hreach. split; [|apply any_step_remaining].
  apply can_finish. eapply reachable_ok; [done|by apply rebookings_ok].
Qed.
