(* ===== verification/PyFloat.v ===== *)
(** Python's numbers where the benchmark computes with floats: a finite float or
    an integer is the rational it denotes, and a float operation is the exact
    one followed by [fl], the rounding to the nearest binary64 value, ties to
    even.  Overflow, subnormal numbers and NaN are left out: the benchmark's
    numbers are times, percentages and counts. *)
From Stdlib Require Import QArith Qpower Qround Qabs Lqa.
From stdpp Require Import base numbers list.
From S2P Require Import Prelude.
Local Open Scope Q_scope.

(** [round(q)]: to the nearest integer, ties to even. *)
Definition round_half_even (q : Q) : Z :=
  let d := Zpos (Qden q) in
  let f := (Qnum q / d)%Z in
  match (2 * (Qnum q mod d) ?= d)%Z with
  | Lt => f
  | Gt => (f + 1)%Z
  | Eq => if Z.even f then f else (f + 1)%Z
  end.

(** [2 ^ e], and the exponent of the binade of a positive number. *)
Definition two (e : Z) : Q := Qpower 2 e.
Definition binade (q : Q) : Z :=
  let e := (Z.log2 (Qnum q) - Z.log2 (Zpos (Qden q)))%Z in
  if Qle_bool (two e) q then e else (e - 1)%Z.

(** Fifty-three significant bits. *)
Definition fl_pos (q : Q) : Q :=
  let u := two (binade q - 52) in inject_Z (round_half_even (q / u)) * u.
Definition fl (q : Q) : Q :=
  match q ?= 0 with
  | Eq => 0
  | Gt => Qred (fl_pos q)
  | Lt => Qred (- fl_pos (- q))
  end.

(** [round(x, n)]: the float nearest to the decimal with [n] places. *)
Definition round_to (n : nat) (x : Q) : Q :=
  let p := inject_Z (10 ^ Z.of_nat n) in fl (inject_Z (round_half_even (x * p)) / p).

Example round_half_even_values :
  (round_half_even (1 # 2), round_half_even (3 # 2), round_half_even (5 # 2), round_half_even (- 1 # 2))
  = (0, 2, 2, 0)%Z.
Proof. reflexivity. Qed.
(** [0.1 + 0.2 = 0.30000000000000004]; [round(2.675, 2) = 2.67]. *)
Example float_sum : fl (fl (1 # 10) + fl (2 # 10)) = (5404319552844596 # 18014398509481984) \/
  fl (fl (1 # 10) + fl (2 # 10)) = (1351079888211149 # 4503599627370496).
Proof. right. vm_compute. reflexivity. Qed.
Example round_2675 : round_to 2 (fl (2675 # 1000)) = fl (267 # 100).
Proof. vm_compute. reflexivity. Qed.

(** * Rounding to integers *)

Lemma Q_floor_split (q : Q) :
  let d := Zpos (Qden q) in
  (Qnum q = d * (Qnum q / d) + Qnum q mod d /\ 0 <= Qnum q mod d < d)%Z.
Proof. cbv zeta. split; [by apply Z_div_mod_eq_full|by apply Z.mod_pos_bound]. Qed.

Lemma round_half_even_near q :
  (Qnum q / Zpos (Qden q) <= round_half_even q <= Qnum q / Zpos (Qden q) + 1)%Z.
Proof. unfold round_half_even. case_match; [case_match|..]; lia. Qed.

Lemma round_half_even_mono q q' : q <= q' -> (round_half_even q <= round_half_even q')%Z.
Proof.
  unfold Qle. intros H. pose proof (round_half_even_near q). pose proof (round_half_even_near q').
  destruct (Q_floor_split q) as [Hq Hr], (Q_floor_split q') as [Hq' Hr'].
  unfold round_half_even in *.
  set (d := Zpos (Qden q)) in *. set (d' := Zpos (Qden q')) in *.
  set (f := (Qnum q / d)%Z) in *. set (f' := (Qnum q' / d')%Z) in *.
  set (r := (Qnum q mod d)%Z) in *. set (r' := (Qnum q' mod d')%Z) in *.
  assert (0 < d)%Z as Hd by done. assert (0 < d')%Z as Hd' by done.
  clearbody d d' f f' r r'. rewrite Hq, Hq' in H. clear Hq Hq'.
  assert (f <= f')%Z as Hf.
  { apply Z.lt_succ_r, (Z.mul_lt_mono_pos_r (d * d')); nia. }
  destruct (decide (f = f')) as [E|]; [|lia]. rewrite <- E in *.
  assert (r * d' <= r' * d)%Z as Hrr by nia. clear H Hf E.
  destruct (Z.compare_spec (2 * r) d), (Z.compare_spec (2 * r') d'); try lia;
    try (destruct (Z.even f); lia); exfalso; nia.
Qed.

Lemma round_half_even_int z : round_half_even (inject_Z z) = z.
Proof. unfold round_half_even. cbn. by rewrite Z.mod_1_r, Z.div_1_r. Qed.

Lemma round_half_even_proper q q' : q == q' -> round_half_even q = round_half_even q'.
Proof.
  intros E. apply Z.le_antisymm; apply round_half_even_mono; rewrite E; apply Qle_refl.
Qed.

(** * Rounding to floats *)

Lemma two_pos e : 0 < two e.
Proof. apply Qpower_0_lt. reflexivity. Qed.

Lemma two_plus a b : two (a + b) == two a * two b.
Proof. apply Qpower_plus. discriminate. Qed.

Lemma two_nat n : (0 <= n)%Z -> two n == inject_Z (2 ^ n).
Proof. intros Hn. unfold two. symmetry. by apply Zpower_Qpower. Qed.

Lemma two_le a b : (a <= b)%Z -> two a <= two b.
Proof.
  intros H. replace b with (a + (b - a))%Z by lia. rewrite two_plus, (two_nat (b - a)) by lia.
  assert (1 <= inject_Z (2 ^ (b - a))) as H1.
  { change 1 with (inject_Z 1). rewrite <- Zle_Qle. pose proof (Z.pow_pos_nonneg 2 (b - a)). lia. }
  pose proof (two_pos a). nra.
Qed.

Lemma two_lt_inv a b : two a < two b -> (a < b)%Z.
Proof.
  intros H. destruct (Z.lt_ge_cases a b) as [|Hge]; [done|].
  apply two_le in Hge. exfalso. lra.
Qed.

Lemma binade_spec q : 0 < q -> two (binade q) <= q /\ q < two (binade q + 1).
Proof.
  intros Hq. destruct q as [n d]. unfold Qlt in Hq. cbn in Hq. rewrite Z.mul_1_r in Hq.
  unfold binade. cbn [Qnum Qden]. set (a := Z.log2 n). set (b := Z.log2 (Z.pos d)).
  destruct (Z.log2_spec n Hq) as [Hn1 Hn2]. destruct (Z.log2_spec (Z.pos d) eq_refl) as [Hd1 Hd2].
  fold a in Hn1, Hn2. fold b in Hd1, Hd2.
  pose proof (Z.log2_nonneg n) as Ha0. fold a in Ha0. pose proof (Z.log2_nonneg (Z.pos d)) as Hb0. fold b in Hb0.
  assert ((n # d) == inject_Z n / inject_Z (Z.pos d)) as Hnd by (apply Qmake_Qdiv).
  assert (0 < inject_Z (Z.pos d)) as Hd0 by reflexivity.
  assert (n # d < two (a - b + 1)) as Hup.
  { rewrite Hnd. apply Qlt_shift_div_r; [done|].
    apply Qlt_le_trans with (two (a + 1)).
    - rewrite two_nat, <- Zlt_Qlt by lia. by rewrite Z.add_1_r.
    - replace (a + 1)%Z with ((a - b + 1) + b)%Z by lia. rewrite two_plus.
      apply Qmult_le_l; [apply two_pos|]. rewrite two_nat, <- Zle_Qle by lia. done. }
  assert (two (a - b - 1) <= n # d) as Hlo.
  { rewrite Hnd. apply Qle_shift_div_l; [done|].
    apply Qle_trans with (two a).
    - replace a with ((a - b - 1) + (b + 1))%Z at 2 by lia. rewrite two_plus.
      apply Qmult_le_l; [apply two_pos|]. rewrite two_nat, <- Zle_Qle by lia. rewrite Z.add_1_r. lia.
    - rewrite two_nat, <- Zle_Qle by lia. done. }
  destruct (Qle_bool (two (a - b)) (n # d)) eqn:E.
  - apply Qle_bool_iff in E. done.
  - split; [done|]. replace (a - b - 1 + 1)%Z with (a - b)%Z by lia.
    destruct (Qlt_le_dec (n # d) (two (a - b))) as [|Hle]; [done|].
    apply Qle_bool_iff in Hle. congruence.
Qed.

(** A rounded number stays in its binade, or reaches the next one. *)
Lemma fl_pos_binade q : 0 < q -> two (binade q) <= fl_pos q /\ fl_pos q <= two (binade q + 1).
Proof.
  intros Hq. destruct (binade_spec q Hq) as [Hlo Hhi]. unfold fl_pos. set (e := binade q) in *.
  pose proof (two_pos (e - 52)) as Hu.
  assert (two e == two 52 * two (e - 52)) as E1 by (rewrite <- two_plus; f_equiv; lia).
  assert (two (e + 1) == two 53 * two (e - 52)) as E2 by (rewrite <- two_plus; f_equiv; lia).
  assert (inject_Z (2 ^ 52) <= q / two (e - 52)) as H1.
  { rewrite <- two_nat by lia. apply Qle_shift_div_l; [done|]. by rewrite <- E1. }
  assert (q / two (e - 52) <= inject_Z (2 ^ 53)) as H2.
  { rewrite <- two_nat by lia. apply Qle_shift_div_r; [done|]. rewrite <- E2. by apply Qlt_le_weak. }
  apply round_half_even_mono in H1, H2. rewrite round_half_even_int in H1, H2.
  rewrite Zle_Qle, <- two_nat in H1, H2 by lia. rewrite E1, E2.
  split; apply Qmult_le_compat_r; try done; by apply Qlt_le_weak.
Qed.

Lemma fl_pos_mono q q' : 0 < q -> q <= q' -> fl_pos q <= fl_pos q'.
Proof.
  intros Hq Hle. assert (0 < q') as Hq' by (eapply Qlt_le_trans; eauto).
  destruct (binade_spec q Hq) as [Hlo Hhi], (binade_spec q' Hq') as [Hlo' Hhi'].
  assert (binade q <= binade q')%Z as He.
  { enough (binade q < binade q' + 1)%Z by lia. apply two_lt_inv.
    eapply Qle_lt_trans; [exact Hlo|]. eapply Qle_lt_trans; eauto. }
  destruct (decide (binade q = binade q')) as [E|Hne].
  - unfold fl_pos. rewrite E. pose proof (two_pos (binade q' - 52)) as Hu.
    apply Qmult_le_compat_r; [|by apply Qlt_le_weak]. rewrite <- Zle_Qle. apply round_half_even_mono.
    apply Qmult_le_compat_r; [done|]. by apply Qlt_le_weak, Qinv_lt_0_compat.
  - eapply Qle_trans; [apply fl_pos_binade, Hq|]. eapply Qle_trans; [|apply fl_pos_binade, Hq'].
    apply two_le. lia.
Qed.

Lemma fl_pos_nonneg q : 0 < q -> 0 < fl_pos q.
Proof. intros Hq. eapply Qlt_le_trans; [apply (two_pos (binade q))|by apply fl_pos_binade]. Qed.

(** The three cases of [fl]. *)
Lemma fl_cases q : (0 < q /\ fl q == fl_pos q) \/ (q == 0 /\ fl q == 0) \/ (q < 0 /\ fl q == - fl_pos (- q)).
Proof.
  unfold fl. destruct (q ?= 0) eqn:E.
  - apply Qeq_alt in E. right; left. split; [done|reflexivity].
  - apply Qlt_alt in E. right; right. split; [done|apply Qred_correct].
  - apply Qgt_alt in E. left. split; [done|apply Qred_correct].
Qed.

(** Rounding keeps the order. *)
Lemma fl_mono q q' : q <= q' -> fl q <= fl q'.
Proof.
  intros H. destruct (fl_cases q) as [[Hq ->]|[[Hq ->]|[Hq ->]]], (fl_cases q') as [[Hq' ->]|[[Hq' ->]|[Hq' ->]]];
    try (exfalso; lra).
  - by apply fl_pos_mono.
  - by apply Qlt_le_weak, fl_pos_nonneg.
  - apply Qle_refl.
  - pose proof (fl_pos_nonneg (- q) ltac:(lra)). pose proof (fl_pos_nonneg q' Hq'). lra.
  - pose proof (fl_pos_nonneg (- q) ltac:(lra)). lra.
  - assert (fl_pos (- q') <= fl_pos (- q)) by (apply fl_pos_mono; lra). lra.
Qed.

#[export] Instance fl_proper : Proper (Qeq ==> Qeq) fl.
Proof. intros q q' E. apply Qle_antisym; apply fl_mono; rewrite E; apply Qle_refl. Qed.

Lemma round_to_mono n x y : x <= y -> round_to n x <= round_to n y.
Proof.
  intros H. unfold round_to. cbv zeta. set (p := inject_Z (10 ^ Z.of_nat n)).
  assert (0 < p) as Hp.
  { unfold p. change 0 with (inject_Z 0). rewrite <- Zlt_Qlt. apply Z.pow_pos_nonneg; lia. }
  apply fl_mono. apply Qmult_le_compat_r; [|by apply Qlt_le_weak, Qinv_lt_0_compat].
  rewrite <- Zle_Qle. apply round_half_even_mono. apply Qmult_le_compat_r; [done|]. by apply Qlt_le_weak.
Qed.

(** Numbers of at most 53 significant bits are floats. *)
Lemma fl_exact z k : (0 <= z < 2 ^ 53)%Z -> fl (inject_Z z * two k) == inject_Z z * two k.
Proof.
  intros Hz. pose proof (two_pos k) as Hk. destruct (decide (z = 0)%Z) as [->|Hne].
  { rewrite Qmult_0_l. reflexivity. }
  assert (0 < inject_Z z) as Hz0 by (change 0 with (inject_Z 0); rewrite <- Zlt_Qlt; lia).
  set (q := inject_Z z * two k). assert (0 < q) as Hq by (unfold q; nra).
  destruct (fl_cases q) as [[_ ->]|[[E _]|[E _]]]; [|exfalso; lra..].
  destruct (binade_spec _ Hq) as [Hlo _]. unfold fl_pos. set (e := binade q) in *.
  assert (e < 53 + k)%Z as He.
  { apply two_lt_inv. eapply Qle_lt_trans; [exact Hlo|]. unfold q. rewrite two_plus.
    apply Qmult_lt_compat_r; [done|]. rewrite two_nat, <- Zlt_Qlt by lia. lia. }
  pose proof (two_pos (e - 52)) as Hu.
  assert (q / two (e - 52) == inject_Z (z * 2 ^ (52 + k - e))) as E.
  { rewrite inject_Z_mult, <- two_nat by lia. apply Qmult_inj_r with (two (e - 52)); [lra|].
    rewrite <- Qmult_assoc, <- two_plus. replace (52 + k - e + (e - 52))%Z with k by lia.
    fold q. field. lra. }
  rewrite (round_half_even_proper _ _ E), round_half_even_int, <- E. field. lra.
Qed.

Lemma fl_int z : (0 <= z < 2 ^ 53)%Z -> fl (inject_Z z) == inject_Z z.
Proof. intros Hz. pose proof (fl_exact z 0 Hz) as H. change (two 0) with 1 in H. by rewrite Qmult_1_r in H. Qed.

Lemma fl_half z : (0 <= z < 2 ^ 53)%Z -> fl (inject_Z z / 2) == inject_Z z / 2.
Proof. apply (fl_exact z (-1)). Qed.

(** Halves are rounded to the even neighbour. *)
Lemma round_half_even_half z :
  round_half_even (inject_Z z / 2) =
  if Z.even z then (z / 2)%Z else if Z.even (z / 2) then (z / 2)%Z else (z / 2 + 1)%Z.
Proof.
  rewrite (round_half_even_proper _ (z # 2)) by (unfold Qeq; cbn; lia).
  unfold round_half_even. cbn [Qnum Qden]. destruct (Z.even z) eqn:E.
  - apply Z.even_spec in E as [m ->].
    replace (2 * m mod 2)%Z with 0%Z by (rewrite Z.mul_comm; symmetry; by apply Z.mod_mul). done.
  - assert (Z.odd z = true) as H by (rewrite <- Z.negb_even, E; done).
    replace (z mod 2)%Z with 1%Z by (rewrite Zmod_odd, H; done). done.
Qed.
