(* ===== verification/PyVal.v ===== *)
(** Python values and strings, as far as the program uses them.

    A [str] is its UTF-8 encoding in a Rocq [string].  A value is what
    [orjson.loads] returns (objects are dicts in insertion order, with distinct
    keys) or an instance of a class with attributes, which only the agent
    runner produces. *)
From Stdlib Require Import Ascii String SpecFloat.
From stdpp Require Import base numbers strings list.
From S2P Require Import Prelude.

(** * Strings *)

(** The UTF-8 encodings of the characters [str.isspace] accepts and
    [str.strip] removes, as byte lists. *)
Definition whitespace : list (list nat) :=
  ((fun b => [b]) <$> [9; 10; 11; 12; 13; 28; 29; 30; 31; 32])
  ++ [[194; 133]; [194; 160]; [225; 154; 128]]
  ++ ((fun b => [226; 128; b]) <$> [128; 129; 130; 131; 132; 133; 134; 135; 136; 137; 138; 168; 169; 175])
  ++ [[226; 129; 159]; [227; 128; 128]].

Fixpoint strip_prefix (p l : list nat) : option (list nat) :=
  match p, l with
  | [], _ => Some l
  | x :: p', y :: l' => if x =? y then strip_prefix p' l' else None
  | _ :: _, [] => None
  end.

(** The rest after the first prefix of [ps] that [l] starts with. *)
Definition strip_any (ps : list (list nat)) (l : list nat) : option (list nat) :=
  head (omap (fun p => strip_prefix p l) ps).

(** Drop leading members of [ps]; the fuel is the length of the string, as
    every step drops at least one byte. *)
Fixpoint strip_all (ps : list (list nat)) (fuel : nat) (l : list nat) : list nat :=
  match fuel with
  | O => l
  | S fuel' => match strip_any ps l with Some l' => strip_all ps fuel' l' | None => l end
  end.

Definition bytes_of (s : string) : list nat := nat_of_ascii <$> list_ascii_of_string s.
Definition of_bytes (l : list nat) : string := string_of_list_ascii (ascii_of_nat <$> l).

Definition lstrip_bytes (l : list nat) : list nat := strip_all whitespace (length l) l.
Definition rstrip_bytes (l : list nat) : list nat :=
  rev (strip_all (@rev nat <$> whitespace) (length l) (rev l)).

(** [s.strip()]. *)
Definition py_strip (s : string) : string := of_bytes (rstrip_bytes (lstrip_bytes (bytes_of s))).

(** [not s.strip()]. *)
Definition is_blank (s : string) : bool := (py_strip s =? "")%string.

(** [len(s)]: continuation bytes [10xxxxxx] do not start a character. *)
Definition py_len (s : string) : nat :=
  length (List.filter (fun b => negb (Nat.div b 64 =? 2)) (bytes_of s)).

Example strip_example : py_strip "  ab c 	" = "ab c"%string.
Proof. reflexivity. Qed.

(** A byte that is in no whitespace character is never stripped. *)
Definition visible (b : nat) : bool := forallb (fun p => negb (existsb (Nat.eqb b) p)) whitespace.

Lemma strip_prefix_app p l l' : strip_prefix p l = Some l' -> l = p ++ l'.
Proof.
  revert l. induction p as [|x p IH]; intros [|y l]; cbn; try done; [congruence..|].
  destruct (Nat.eqb_spec x y) as [->|]; [|done]. intros H. f_equal. auto.
Qed.

Lemma strip_all_keeps ps fuel l b :
  Forall (fun p => b ∉ p) ps -> b ∈ l -> b ∈ strip_all ps fuel l.
Proof.
  intros Hps. revert l. induction fuel as [|fuel IH]; intros l Hb; cbn; [done|].
  destruct (strip_any ps l) as [l'|] eqn:E; [|done]. apply IH.
  unfold strip_any in E. apply head_Some_elem_of in E.
  apply list_elem_of_omap in E as (p & Hp & E).
  apply strip_prefix_app in E as ->. rewrite Forall_forall in Hps.
  apply elem_of_app in Hb as [Hb|Hb]; [|done]. exfalso. by apply (Hps p).
Qed.

Lemma in_rev_elem {A} (x : A) l : x ∈ rev l <-> x ∈ l.
Proof. by rewrite !list_elem_of_In, <- in_rev. Qed.

Lemma visible_nonblank s b : b ∈ bytes_of s -> visible b = true -> is_blank s = false.
Proof.
  intros Hb Hv. unfold is_blank, py_strip.
  assert (Forall (fun p => b ∉ p) whitespace) as Hws.
  { apply Forall_forall. intros p Hp Hin. unfold visible in Hv.
    rewrite forallb_forall in Hv. apply list_elem_of_In, Hv in Hp. apply negb_true_iff in Hp.
    apply not_true_iff_false in Hp. apply Hp, existsb_exists. exists b.
    split; [by apply list_elem_of_In|apply Nat.eqb_refl]. }
  assert (b ∈ rstrip_bytes (lstrip_bytes (bytes_of s))) as Hin.
  { unfold rstrip_bytes. apply in_rev_elem, strip_all_keeps.
    - apply Forall_fmap. eapply Forall_impl; [exact Hws|]. intros p Hp. unfold compose.
      by rewrite in_rev_elem.
    - apply in_rev_elem, strip_all_keeps; done. }
  destruct (rstrip_bytes _); [by apply not_elem_of_nil in Hin|done].
Qed.

(** A text without the character [c] ends where the first [c] stands. *)
Fixpoint free_of (c : ascii) (s : string) : bool :=
  match s with
  | EmptyString => true
  | String a s' => negb (Ascii.eqb a c) && free_of c s'
  end.

Lemma free_of_split c s t s' t' :
  free_of c s = true -> free_of c s' = true ->
  (s +:+ String c t = s' +:+ String c t')%string -> s = s' /\ t = t'.
Proof.
  revert s'. induction s as [|a s IH]; intros [|a' s']; cbn; intros Hs Hs' E.
  - by injection E.
  - injection E as <- _. by rewrite Ascii.eqb_refl in Hs'.
  - injection E as -> _. by rewrite Ascii.eqb_refl in Hs.
  - apply andb_true_iff in Hs as [_ Hs], Hs' as [_ Hs']. injection E as <- E.
    destruct (IH s' Hs Hs' E) as [-> ->]. done.
Qed.

Lemma free_of_list c l : Forall (fun a => Ascii.eqb a c = false) l -> free_of c (string_of_list_ascii l) = true.
Proof. induction 1 as [|a l Ha _ IH]; cbn; [done|]. by rewrite Ha, IH. Qed.

(** Strings as lists of characters. *)
Lemma list_ascii_app s1 s2 :
  list_ascii_of_string (s1 +:+ s2) = list_ascii_of_string s1 ++ list_ascii_of_string s2.
Proof. induction s1 as [|c s1 IH]; [done|].
  change (c :: list_ascii_of_string (s1 +:+ s2) = (c :: list_ascii_of_string s1) ++ list_ascii_of_string s2).
  by rewrite IH.
Qed.

Lemma list_ascii_inj s1 s2 : list_ascii_of_string s1 = list_ascii_of_string s2 -> s1 = s2.
Proof.
  intros H. rewrite <- (string_of_list_ascii_of_string s1), <- (string_of_list_ascii_of_string s2).
  by rewrite H.
Qed.

(** * Values *)

Inductive PyVal :=
  | PNone
  | PBool (b : bool)
  | PInt (n : Z)
  | PFloat (f : spec_float)
  | PStr (s : string)
  | PList (l : list PyVal)
  | PDict (d : list (string * PyVal))
  | PObj (cls : string) (attrs : list (string * PyVal)).

Definition is_none (v : PyVal) : bool := match v with PNone => true | _ => false end.
Definition is_str (v : PyVal) : bool := match v with PStr _ => true | _ => false end.
Definition is_dict (v : PyVal) : bool := match v with PDict _ => true | _ => false end.
Definition is_bool (v : PyVal) : bool := match v with PBool _ => true | _ => false end.

(** [v == s] for a string [s]. *)
Definition py_eq_str (v : PyVal) (s : string) : bool :=
  match v with PStr t => (t =? s)%string | _ => false end.

(** [bool(v)]. *)
Definition truthy (v : PyVal) : bool :=
  match v with
  | PNone => false
  | PBool b => b
  | PInt n => negb (n =? 0)%Z
  | PFloat (S754_zero _) => false
  | PFloat _ => true
  | PStr s => negb (s =? "")%string
  | PList l => negb (bool_decide (length l = 0))
  | PDict d => negb (bool_decide (length d = 0))
  | PObj _ _ => true
  end.

(** Entries of a dict: [d[k]] as an option, [k in d], [d.get(k, default)]. *)
Fixpoint entry (k : string) (d : list (string * PyVal)) : option PyVal :=
  match d with
  | [] => None
  | (k', v) :: d' => if (k =? k')%string then Some v else entry k d'
  end.
Definition has_key (k : string) (d : list (string * PyVal)) : bool :=
  match entry k d with Some _ => true | None => false end.
Definition get_or (d : list (string * PyVal)) (k : string) (default : PyVal) : PyVal :=
  match entry k d with Some v => v | None => default end.
Definition get (d : list (string * PyVal)) (k : string) : PyVal := get_or d k PNone.
Definition item (d : list (string * PyVal)) (k : string) : Res PyVal :=
  or_raise (entry k d) KeyError k.

(** [getattr(v, name, default)]: only instances have the attributes the
    program asks for. *)
Definition getattr_or (v : PyVal) (name : string) (default : PyVal) : PyVal :=
  match v with PObj _ attrs => get_or attrs name default | _ => default end.

(** * Numbers *)

Definition type_error : Exn := mkExn TypeError "unsupported operand type(s)".

(** [v + 1]: a [bool] is the integer 0 or 1, a float is binary64. *)
Definition float_one : spec_float := S754_finite false 4503599627370496 (-52).
Definition plus_one (v : PyVal) : Res PyVal :=
  match v with
  | PInt n => Ok (PInt (n + 1))
  | PBool b => Ok (PInt ((if b then 1 else 0) + 1))
  | PFloat f => Ok (PFloat (SFadd 53 1024 f float_one))
  | _ => Raise type_error
  end.

(** Python compares a float with an int exactly; a NaN has no order. *)
Definition float_compare (f : spec_float) (n : Z) : option comparison :=
  match f with
  | S754_zero _ => Some (0 ?= n)%Z
  | S754_infinity s => Some (if s then Lt else Gt)
  | S754_nan => None
  | S754_finite s m e =>
      let m := if s then Z.neg m else Z.pos m in
      Some (if (0 <=? e)%Z then (m * 2 ^ e ?= n)%Z else (m ?= n * 2 ^ (- e))%Z)
  end.
Definition float_geb (f : spec_float) (n : Z) : bool :=
  match float_compare f n with Some Eq | Some Gt => true | _ => false end.
Definition at_least (v : PyVal) (n : Z) : Res bool :=
  match v with
  | PInt m => Ok (m >=? n)%Z
  | PBool b => Ok ((if b then 1 else 0) >=? n)%Z
  | PFloat f => Ok (float_geb f n)
  | _ => Raise type_error
  end.

Definition is_number (v : PyVal) : bool :=
  match v with PInt _ | PBool _ | PFloat _ => true | _ => false end.

Lemma plus_one_number v : is_number v = true -> exists v', plus_one v = Ok v' /\ is_number v' = true.
Proof. destruct v; try done; cbn; eauto. Qed.

Lemma at_least_number v n : is_number v = true -> exists b, at_least v n = Ok b.
Proof. destruct v; try done; cbn; eauto. Qed.

Example attempt_float : plus_one (PFloat (S754_finite false 1 (-1))) =
  Ok (PFloat (S754_finite false 6755399441055744 (-52))).
Proof. reflexivity. Qed.

(** ** [int(text)]: ASCII text; surrounding whitespace, one sign, and single
    underscores between digits are allowed. *)
Definition digit_value (c : ascii) : option Z :=
  let n := nat_of_ascii c in
  if (48 <=? n) && (n <=? 57) then Some (Z.of_nat (n - 48)) else None.

Fixpoint digits (acc : option Z) (l : list ascii) : option Z :=
  match l with
  | [] => acc
  | c :: l' =>
      if (c =? "_")%char then
        match acc, l' with
        | Some a, d :: l'' => n ← digit_value d; digits (Some (10 * a + n)%Z) l''
        | _, _ => None
        end
      else n ← digit_value c; digits (Some (10 * default 0 acc + n)%Z) l'
  end.

Definition py_int (s : string) : option Z :=
  match list_ascii_of_string (py_strip s) with
  | "-"%char :: l => Z.opp <$> digits None l
  | "+"%char :: l => digits None l
  | l => digits None l
  end.

Example py_int_examples :
  (py_int " 1_000 ", py_int "-5", py_int "1__0", py_int "_1", py_int "", py_int "3.0") =
  (Some 1000%Z, Some (-5)%Z, None, None, None, None).
Proof. reflexivity. Qed.
