(* ===== verification/JsonFixtures.v ===== *)
(** A codec for all Python values, with the round trip JSON promises: the
    concrete [loads] and [dumps] of the witnesses.  A value is a tree of tagged
    nodes, a tree a number, a number its binary digits. *)
From Stdlib Require Import Ascii String SpecFloat.
From stdpp Require Import base numbers strings list countable.
From S2P Require Import Prelude PyVal.

(** * Values as trees *)

Section Induction.
Context (P : PyVal -> Prop).
Context (Hnone : P PNone) (Hbool : forall b, P (PBool b)) (Hint : forall n, P (PInt n))
        (Hfloat : forall f, P (PFloat f)) (Hstr : forall s, P (PStr s))
        (Hlist : forall l, Forall P l -> P (PList l))
        (Hdict : forall d, Forall (fun e => P e.2) d -> P (PDict d))
        (Hobj : forall c d, Forall (fun e => P e.2) d -> P (PObj c d)).

Fixpoint PyVal_nested_ind (v : PyVal) : P v :=
  let entries := fix go (d : list (string * PyVal)) : Forall (fun e => P e.2) d :=
    match d with
    | [] => Forall_nil_2 _
    | (k, v) :: d' => @Forall_cons_2 _ (fun e => P e.2) (k, v) d' (PyVal_nested_ind v) (go d')
    end in
  match v with
  | PNone => Hnone
  | PBool b => Hbool b
  | PInt n => Hint n
  | PFloat f => Hfloat f
  | PStr s => Hstr s
  | PList l => Hlist l ((fix go (l : list PyVal) : Forall P l :=
      match l with
      | [] => Forall_nil_2 _
      | v :: l' => @Forall_cons_2 _ P v l' (PyVal_nested_ind v) (go l')
      end) l)
  | PDict d => Hdict d (entries d)
  | PObj c d => Hobj c d (entries d)
  end.
End Induction.

Definition Leaf : Type := string + (Z + (bool + (bool + bool * positive * Z))).

Definition float_tree (f : spec_float) : gen_tree Leaf :=
  match f with
  | S754_zero s => GenNode 2 [GenLeaf (inr (inr (inl s)))]
  | S754_infinity s => GenNode 3 [GenLeaf (inr (inr (inl s)))]
  | S754_nan => GenNode 4 []
  | S754_finite s m e => GenNode 5 [GenLeaf (inr (inr (inr (inr (s, m, e)))))]
  end.

Fixpoint tree_of (v : PyVal) : gen_tree Leaf :=
  match v with
  | PNone => GenNode 0 []
  | PBool b => GenNode 1 [GenLeaf (inr (inr (inl b)))]
  | PInt n => GenLeaf (inr (inl n))
  | PFloat f => GenNode 9 [float_tree f]
  | PStr s => GenLeaf (inl s)
  | PList l => GenNode 6 (map tree_of l)
  | PDict d => GenNode 7 (map (fun e => GenNode 0 [GenLeaf (inl e.1); tree_of e.2]) d)
  | PObj c d => GenNode 8 (GenLeaf (inl c) :: map (fun e => GenNode 0 [GenLeaf (inl e.1); tree_of e.2]) d)
  end.

Definition tree_float (t : gen_tree Leaf) : spec_float :=
  match t with
  | GenNode 2 [GenLeaf (inr (inr (inl s)))] => S754_zero s
  | GenNode 3 [GenLeaf (inr (inr (inl s)))] => S754_infinity s
  | GenNode 5 [GenLeaf (inr (inr (inr (inr (s, m, e)))))] => S754_finite s m e
  | _ => S754_nan
  end.

Fixpoint value_of (t : gen_tree Leaf) : PyVal :=
  let entry_of (e : gen_tree Leaf) : string * PyVal :=
    match e with
    | GenNode _ [GenLeaf (inl k); t] => (k, value_of t)
    | _ => (EmptyString, PNone)
    end in
  match t with
  | GenNode 1 [GenLeaf (inr (inr (inl b)))] => PBool b
  | GenLeaf (inr (inl n)) => PInt n
  | GenNode 9 [f] => PFloat (tree_float f)
  | GenLeaf (inl s) => PStr s
  | GenNode 6 l => PList (map value_of l)
  | GenNode 7 d => PDict (map entry_of d)
  | GenNode 8 (GenLeaf (inl c) :: d) => PObj c (map entry_of d)
  | _ => PNone
  end.

Lemma map_inverse {A B} (f : A -> B) (g : B -> A) l : Forall (fun a => g (f a) = a) l -> map g (map f l) = l.
Proof. induction 1 as [|a l Ha _ IH]; cbn; [done|]. by rewrite Ha, IH. Qed.

Lemma value_of_tree v : value_of (tree_of v) = v.
Proof.
  induction v as [| | |f| |l IH|d IH|c d IH] using PyVal_nested_ind; try done.
  - by destruct f.
  - cbn. f_equal. by apply map_inverse.
  - cbn. f_equal. apply map_inverse. eapply List.Forall_impl; [|exact IH]. intros [k v] Hv. cbn in *. by rewrite Hv.
  - cbn. f_equal. apply map_inverse. eapply List.Forall_impl; [|exact IH]. intros [k v] Hv. cbn in *. by rewrite Hv.
Qed.

(** * Numbers as text *)

Fixpoint pos_text (p : positive) : string :=
  match p with
  | xH => ""
  | xO p' => String "0" (pos_text p')
  | xI p' => String "1" (pos_text p')
  end.
Fixpoint text_pos (s : string) : positive :=
  match s with
  | EmptyString => xH
  | String c s' => if Ascii.eqb c "0" then xO (text_pos s') else xI (text_pos s')
  end.

Lemma text_pos_text p : text_pos (pos_text p) = p.
Proof. induction p as [p IH|p IH|]; cbn; congruence. Qed.

(** * The codec *)

Definition toy_dumps (v : PyVal) : string := pos_text (encode (tree_of v)).
Definition toy_loads (s : string) : Res PyVal :=
  match decode (text_pos s) with
  | Some t => Ok (value_of t)
  | None => raise JSONDecodeError "unexpected end of data"
  end.

Lemma toy_roundtrip v : toy_loads (toy_dumps v) = Ok v.
Proof. unfold toy_loads, toy_dumps. by rewrite text_pos_text, decode_encode, value_of_tree. Qed.

Lemma toy_raises s : raises_only JSONDecodeError (toy_loads s).
Proof. unfold toy_loads. destruct (decode _); auto with py. Qed.
