(* ===== verification/Effects.v ===== *)
(** Effectful code: programs over a signature of fallible operations.

    [Prog Op A] is the code of one coroutine: it returns, raises, or awaits an
    operation whose outcome, a value or an exception, is up to the
    environment.  [try_], [except_] and [finally_] are Python's statements
    ([except Exception] catches every [Exn]; cancellation is not modelled).
    [wp p Q] says that [Q] holds of the outcome and the trace of operations of
    every run of [p], whatever the environment answers; [run] executes [p]
    against one environment. *)
From stdpp Require Import base numbers strings list.
From S2P Require Import Prelude.

Inductive Prog (Op : Type -> Type) (A : Type) : Type :=
  | Ret (a : A)
  | Throw (e : Exn)
  | Await {R : Type} (o : Op R) (k : Res R -> Prog Op A).
Arguments Ret {Op A} a.
Arguments Throw {Op A} e.
Arguments Await {Op A R} o k.

(** One awaited operation and its outcome. *)
Inductive Event (Op : Type -> Type) : Type :=
  | Ev {R : Type} (o : Op R) (outcome : Res R).
Arguments Ev {Op R} o outcome.

Section Code.
Context {Op : Type -> Type}.

Definition of_res {A} (r : Res A) : Prog Op A :=
  match r with Ok a => Ret a | Raise e => Throw e end.
Definition await {R} (o : Op R) : Prog Op R := Await o of_res.
Definition throw {A} (t : ExnType) (msg : string) : Prog Op A := Throw (mkExn t msg).

Fixpoint prog_bind {A B} (k : A -> Prog Op B) (m : Prog Op A) : Prog Op B :=
  match m with
  | Ret a => k a
  | Throw e => Throw e
  | Await o c => Await o (fun r => prog_bind k (c r))
  end.
#[global] Instance Prog_ret : MRet (Prog Op) := fun A a => Ret a.
#[global] Instance Prog_bind : MBind (Prog Op) := fun A B k m => prog_bind k m.

(** Continue with the outcome, whatever it is. *)
Fixpoint then_ {A B} (m : Prog Op A) (k : Res A -> Prog Op B) : Prog Op B :=
  match m with
  | Ret a => k (Ok a)
  | Throw e => k (Raise e)
  | Await o c => Await o (fun r => then_ (c r) k)
  end.

(** [try: m  except Exception as e: h e]. *)
Definition try_ {A} (m : Prog Op A) (h : Exn -> Prog Op A) : Prog Op A :=
  then_ m (fun r => match r with Ok a => Ret a | Raise e => h e end).
(** [try: m  except cls as e: h e  else: k]: the handler does not see what
    [k] raises. *)
Definition try_else {A B} (m : Prog Op A) (h : Exn -> Prog Op B) (k : A -> Prog Op B) : Prog Op B :=
  then_ m (fun r => match r with Ok a => k a | Raise e => h e end).
(** [try: m  finally: f]. *)
Definition finally_ {A} (m : Prog Op A) (f : Prog Op unit) : Prog Op A :=
  then_ m (fun r => f ≫= fun _ => of_res r).

(** A [try] block whose local state survives its failure: go on with the value
    of [m], or leave with the state so far and the exception. *)
Definition attempt {A S} (m : Prog Op A) (s : S) (k : A -> Prog Op (S * option Exn)) :
    Prog Op (S * option Exn) :=
  try_else m (fun e => mret (s, Some e)) k.

(** * All runs *)

Notation Trace := (list (Event Op)).

Fixpoint wp {A} (m : Prog Op A) (Q : Res A -> Trace -> Prop) : Prop :=
  match m with
  | Ret a => Q (Ok a) []
  | Throw e => Q (Raise e) []
  | Await o c => forall r, wp (c r) (fun res tr => Q res (Ev o r :: tr))
  end.

Lemma wp_mono {A} (m : Prog Op A) (Q Q' : Res A -> Trace -> Prop) :
  (forall r tr, Q r tr -> Q' r tr) -> wp m Q -> wp m Q'.
Proof.
  revert Q Q'. induction m as [a|e|R o c IH]; cbn; intros Q Q' HQ; [auto..|].
  intros H r. eapply IH; [|apply H]. cbn; auto.
Qed.

Lemma wp_then {A B} (m : Prog Op A) (k : Res A -> Prog Op B) Q :
  wp m (fun r tr => wp (k r) (fun r' tr' => Q r' (tr ++ tr'))) -> wp (then_ m k) Q.
Proof.
  revert Q. induction m as [a|e|R o c IH]; cbn; intros Q H; [done..|].
  intros r. apply IH. exact (H r).
Qed.

Lemma bind_then {A B} (m : Prog Op A) (k : A -> Prog Op B) :
  forall Q, wp (then_ m (fun r => match r with Ok a => k a | Raise e => Throw e end)) Q ->
  wp (m ≫= k) Q.
Proof.
  unfold mbind, Prog_bind. induction m as [a|e|R o c IH]; cbn; intros Q H; [done..|].
  intros r. apply IH, H.
Qed.

(** Sequencing: an exception ends the sequence. *)
Lemma wp_bind {A B} (m : Prog Op A) (k : A -> Prog Op B) Q :
  wp m (fun r tr => match r with
                    | Ok a => wp (k a) (fun r' tr' => Q r' (tr ++ tr'))
                    | Raise e => Q (Raise e) tr
                    end) -> wp (m ≫= k) Q.
Proof.
  intros H. apply bind_then, wp_then. eapply wp_mono; [|exact H].
  intros [a|e] tr; [done|]. cbn. by rewrite app_nil_r.
Qed.

Lemma wp_try {A} (m : Prog Op A) (h : Exn -> Prog Op A) Q :
  wp m (fun r tr => match r with
                    | Ok a => Q (Ok a) tr
                    | Raise e => wp (h e) (fun r' tr' => Q r' (tr ++ tr'))
                    end) -> wp (try_ m h) Q.
Proof.
  intros H. apply wp_then. eapply wp_mono; [|exact H].
  intros [a|e] tr; [|done]. cbn. by rewrite app_nil_r.
Qed.

Lemma wp_try_else {A B} (m : Prog Op A) (h : Exn -> Prog Op B) k Q :
  wp m (fun r tr => match r with
                    | Ok a => wp (k a) (fun r' tr' => Q r' (tr ++ tr'))
                    | Raise e => wp (h e) (fun r' tr' => Q r' (tr ++ tr'))
                    end) -> wp (try_else m h k) Q.
Proof. intros H. apply wp_then. eapply wp_mono; [|exact H]. by intros [a|e] tr. Qed.

Lemma wp_finally {A} (m : Prog Op A) (f : Prog Op unit) Q :
  wp m (fun r tr => wp f (fun r' tr' =>
      Q (match r' with Ok _ => r | Raise e => Raise e end) (tr ++ tr'))) ->
  wp (finally_ m f) Q.
Proof.
  intros H. apply wp_then. eapply wp_mono; [|exact H]. intros r tr Hf. cbn.
  apply wp_bind. eapply wp_mono; [|exact Hf]. intros [[]|e] tr' HQ; [|done].
  destruct r; cbn; by rewrite app_nil_r.
Qed.

Lemma wp_await {R} (o : Op R) Q : (forall r, Q r [Ev o r]) -> wp (await o) Q.
Proof. cbn. intros H r. specialize (H r). by destruct r. Qed.

Lemma wp_ret {A} (a : A) (Q : _ -> _ -> Prop) : Q (Ok a) [] -> wp (mret a) Q.
Proof. done. Qed.

(** * Partial runs *)

(** [Exec m tr m']: [m] can go through [tr], and [m'] is what is left of it. *)
Inductive Exec {A} : Prog Op A -> Trace -> Prog Op A -> Prop :=
  | exec_here m : Exec m [] m
  | exec_await {R} (o : Op R) k r tr m : Exec (k r) tr m -> Exec (Await o k) (Ev o r :: tr) m.

Lemma exec_trans {A} (m1 m2 m3 : Prog Op A) tr1 tr2 :
  Exec m1 tr1 m2 -> Exec m2 tr2 m3 -> Exec m1 (tr1 ++ tr2) m3.
Proof. induction 1; cbn; [done|]. intros. by apply exec_await; auto. Qed.

Lemma exec_bind {A B} (m m' : Prog Op A) (k : A -> Prog Op B) tr :
  Exec m tr m' -> Exec (m ≫= k) tr (m' ≫= k).
Proof.
  unfold mbind, Prog_bind. induction 1 as [m|R o c r tr m _ IH]; cbn; [apply exec_here|].
  by apply (exec_await o (fun r => prog_bind k (c r))).
Qed.

(** What holds of all runs holds of the runs that begin so. *)
Lemma wp_exec {A} (m m' : Prog Op A) tr Q :
  Exec m tr m' -> wp m Q -> wp m' (fun r tr' => Q r (tr ++ tr')).
Proof.
  intros He. revert Q. induction He as [m|R o c r tr m _ IH]; intros Q; cbn; [done|].
  intros H. exact (IH _ (H r)).
Qed.

Lemma wp_and {A} (m : Prog Op A) Q1 Q2 : wp m Q1 -> wp m Q2 -> wp m (fun r tr => Q1 r tr /\ Q2 r tr).
Proof. revert Q1 Q2. induction m as [a|e|R o c IH]; cbn; intros Q1 Q2 H1 H2; [done..|]. intros r. by apply IH. Qed.

Lemma wp_true {A} (m : Prog Op A) : wp m (fun _ _ => True).
Proof. induction m as [a|e|R o c IH]; cbn; done. Qed.

(** Every program has a run. *)
Lemma wp_exists {A} (m : Prog Op A) Q : wp m Q -> exists r tr, Q r tr.
Proof.
  revert Q. induction m as [a|e|R o c IH]; cbn; intros Q H; [eauto..|].
  destruct (IH _ _ (H (raise InfraError ""))) as (r & tr & HQ). eauto.
Qed.

(** Every operation a program can ask for satisfies [P]. *)
Fixpoint asks (P : forall R, Op R -> Prop) {A} (m : Prog Op A) : Prop :=
  match m with
  | Ret _ | Throw _ => True
  | Await o c => P _ o /\ forall r, asks P (c r)
  end.

Lemma asks_mono (P P' : forall R, Op R -> Prop) {A} (m : Prog Op A) :
  (forall R o, P R o -> P' R o) -> asks P m -> asks P' m.
Proof. intros HP. induction m as [a|e|R o c IH]; cbn; intros Hm; [done..|]. split; [apply HP, Hm|]. intros r. by apply IH, Hm. Qed.

Lemma asks_then P {A B} (m : Prog Op A) (k : Res A -> Prog Op B) :
  asks P m -> (forall r, asks P (k r)) -> asks P (then_ m k).
Proof.
  induction m as [a|e|R o c IH]; cbn; intros Hm Hk; [auto..|].
  split; [apply Hm|]. intros r. apply IH; [apply Hm|done].
Qed.

Lemma asks_bind P {A B} (m : Prog Op A) (k : A -> Prog Op B) :
  asks P m -> (forall a, asks P (k a)) -> asks P (m ≫= k).
Proof.
  unfold mbind, Prog_bind. induction m as [a|e|R o c IH]; cbn; intros Hm Hk; [auto..|].
  split; [apply Hm|]. intros r. apply IH; [apply Hm|done].
Qed.

Lemma asks_of_res P {A} (r : Res A) : asks P (of_res r).
Proof. by destruct r. Qed.

Lemma asks_await P {R} (o : Op R) : P R o -> asks P (await o).
Proof. intros Ho. split; [done|]. intros r. apply asks_of_res. Qed.

Definition meets (P : forall R, Op R -> Prop) (ev : Event Op) : Prop :=
  match ev with Ev o _ => P _ o end.

Lemma wp_asks P {A} (m : Prog Op A) Q :
  asks P m -> wp m Q -> wp m (fun r tr => Q r tr /\ Forall (meets P) tr).
Proof.
  revert Q. induction m as [a|e|R o c IH]; cbn; intros Q Hm HQ; [by split..|].
  destruct Hm as [Ho Hk]. intros r. eapply wp_mono; [|apply IH; [apply Hk|apply HQ]].
  cbn. intros res tr [H1 H2]. split; [done|]. by constructor.
Qed.

(** * One run *)

Section Run.
Context {W : Type} (env : forall R, Op R -> W -> Res R * W).

Fixpoint run {A} (m : Prog Op A) (w : W) : Res A * W :=
  match m with
  | Ret a => (Ok a, w)
  | Throw e => (Raise e, w)
  | Await o c => let '(r, w') := env _ o w in run (c r) w'
  end.

Fixpoint trace {A} (m : Prog Op A) (w : W) : Trace :=
  match m with
  | Ret _ | Throw _ => []
  | Await o c => let '(r, w') := env _ o w in Ev o r :: trace (c r) w'
  end.

Lemma run_bind {A B} (m : Prog Op A) (k : A -> Prog Op B) w :
  run (m ≫= k) w = match run m w with
                   | (Ok a, w') => run (k a) w'
                   | (Raise e, w') => (Raise e, w')
                   end.
Proof.
  unfold mbind, Prog_bind. revert w. induction m as [a|e|R o c IH]; cbn; intros w; [done..|].
  destruct (env _ o w) as [r w']. apply IH.
Qed.

Lemma run_then {A B} (m : Prog Op A) (k : Res A -> Prog Op B) w :
  run (then_ m k) w = let '(r, w') := run m w in run (k r) w'.
Proof.
  revert w. induction m as [a|e|R o c IH]; cbn; intros w; [done..|].
  destruct (env _ o w) as [r w']. apply IH.
Qed.

Lemma run_await {R} (o : Op R) w : run (await o) w = env _ o w.
Proof. cbn. destruct (env _ o w) as [[]]; done. Qed.

(** What holds of every run holds of this one. *)
Lemma wp_run {A} (m : Prog Op A) Q w : wp m Q -> Q (run m w).1 (trace m w).
Proof.
  revert Q w. induction m as [a|e|R o c IH]; cbn; intros Q w H; [done..|].
  destruct (env _ o w) as [r w']. exact (IH r _ w' (H r)).
Qed.
End Run.

(** An invariant of the environment's state that every operation keeps is
    kept by every program. *)
Lemma run_invariant {W} (env : forall R, Op R -> W -> Res R * W) (I : W -> Prop) {A}
    (m : Prog Op A) w :
  (forall R (o : Op R) w, I w -> I (env R o w).2) -> I w -> I (run env m w).2.
Proof.
  intros Hstep. revert w. induction m as [a|e|R o c IH]; cbn; intros w Hw; [done..|].
  pose proof (Hstep _ o w Hw). destruct (env _ o w) as [r w']. by apply IH.
Qed.
End Code.

Notation Trace Op := (list (Event Op)).

(** [wp_step] takes the next statement of a program apart. *)
Ltac wp_step :=
  lazymatch goal with
  | |- wp (await _) _ => apply wp_await; intros [?|?]
  | |- wp (mret _) _ => apply wp_ret
  | |- wp (_ ≫= _) _ => apply wp_bind
  | |- wp (try_ _ _) _ => apply wp_try
  | |- wp (try_else _ _ _) _ => apply wp_try_else
  | |- wp (finally_ _ _) _ => apply wp_finally
  | |- wp (Ret _) _ => cbn [wp]
  | |- wp (Throw _) _ => cbn [wp]
  | |- wp (throw _ _) _ => unfold throw; cbn [wp]
  | |- wp (if ?b then _ else _) _ => destruct b eqn:?
  | |- wp (match ?x with _ => _ end) _ => destruct x eqn:?
  end.
Ltac wp_steps := repeat (wp_step; cbn beta iota).

(** [asks_step] reduces a claim on every operation of a program to its parts. *)
Ltac asks_step :=
  lazymatch goal with
  | |- asks _ (await _) => apply asks_await
  | |- asks _ (of_res _) => apply asks_of_res
  | |- asks _ (_ ≫= _) => apply asks_bind; [|intros ?]
  | |- asks _ (then_ _ _) => apply asks_then; [|intros ?]
  | |- asks _ (try_ _ _) => unfold try_
  | |- asks _ (try_else _ _ _) => unfold try_else
  | |- asks _ (finally_ _ _) => unfold finally_
  | |- asks _ (mret _) => exact I
  | |- asks _ (Ret _) => exact I
  | |- asks _ (Throw _) => exact I
  | |- asks _ (if ?b then _ else _) => destruct b
  | |- asks _ (match ?x with _ => _ end) => destruct x
  end.
