(* ===== verification/Sessions.v ===== *)
(** Database sessions that run at the same time.

    [Sql] are the statements a transaction sends and [Prog Sql] the code
    between them; [alone] runs such a code with nobody else connected.
    [State] is PostgreSQL at READ COMMITTED with any number of sessions:
    a statement sees the newest committed rows under the session's own writes;
    a locking statement waits while another open transaction holds its row and
    then reads the newest version of it; a commit publishes the writes and a
    rollback drops them, and both free the locks.

    [Follows] is what a transaction has to satisfy for its interleavings to be
    serializable: whatever the others commit while it does not hold a row, it
    ends as it would have ended alone, at the moment it ends. *)
From stdpp Require Import base numbers strings list sets relations sorting.
From S2P Require Import Prelude Models Database Locking Effects.

(** * Statements *)

(** [SelectForUpdate q] locks the row that [q] finds, if it finds one;
    [Update l f] writes the row [l]; [Insert] adds a row of [flight_changes],
    or fails with the driver's exception for a duplicate key. *)
Inductive Sql : Type -> Type :=
  | Select {R} (q : DB -> R) : Sql R
  | SelectForUpdate {R} (q : DB -> option (RowLock * R)) : Sql (option R)
  | Update (l : RowLock) (f : DB -> DB) : Sql unit
  | Insert (change : FlightChange) (duplicate : string) : Sql unit.

(** The lock a statement needs, what it returns and what it writes, on the
    database as its transaction sees it. *)
Definition wants {R} (o : Sql R) (view : DB) : option RowLock :=
  match o with
  | Select _ => None
  | SelectForUpdate q => fst <$> q view
  | Update l _ => Some l
  | Insert change _ => Some (LChange (ch_id change))
  end.
Definition change_taken (id : UUID) (db : DB) : bool :=
  bool_decide (id ∈ ch_id <$> flight_changes db).
Definition outcome {R} (o : Sql R) (view : DB) : Res R :=
  match o with
  | Select q => Ok (q view)
  | SelectForUpdate q => Ok (snd <$> q view)
  | Update _ _ => Ok tt
  | Insert change duplicate =>
      if change_taken (ch_id change) view then raise InfraError duplicate else Ok tt
  end.
Definition effect {R} (o : Sql R) (view : DB) : DB -> DB :=
  match o with
  | Select _ | SelectForUpdate _ => id
  | Update _ f => f
  | Insert change _ =>
      if change_taken (ch_id change) view then id else with_changes (fun t => t ++ [change])
  end.

(** A transaction with nobody else connected: commit or roll back at the end. *)
Definition statement (R : Type) (o : Sql R) (db : DB) : Res R * DB := (outcome o db, effect o db db).
Definition alone {A} (code : Prog Sql A) (db : DB) : Res A * DB :=
  match run statement code db with
  | (Ok a, db') => (Ok a, db')
  | (Raise e, _) => (Raise e, db)
  end.

(** * Sessions *)

(** An open transaction: the code still to run, its writes so far and the
    locks it holds. *)
Inductive Session (A : Type) :=
  | Running (code : Prog Sql A) (own : DB -> DB) (held : list RowLock)
  | Ended (result : Res A).
Arguments Running {A} code own held.
Arguments Ended {A} result.

(** [ended] lists the transactions that are over, in the order they ended. *)
Record State (A : Type) := mkState {
  committed : DB; sessions : list (Session A); ended : list (nat * Res A) }.
Arguments mkState {A} committed sessions ended.
Arguments committed {A} s.
Arguments sessions {A} s.
Arguments ended {A} s.

Definition open_session {A} (code : Prog Sql A) : Session A := Running code id [].
Definition start {A} (codes : list (Prog Sql A)) (db : DB) : State A :=
  mkState db (open_session <$> codes) [].

Definition holds {A} (l : RowLock) (u : Session A) : bool :=
  match u with Running _ _ held => bool_decide (l ∈ held) | Ended _ => false end.

(** No session but number [i] holds [l]. *)
Fixpoint free_for {A} (i : nat) (l : RowLock) (us : list (Session A)) : bool :=
  match us, i with
  | [], _ => true
  | _ :: us', O => forallb (fun u => negb (holds l u)) us'
  | u :: us', S i' => negb (holds l u) && free_for i' l us'
  end.
Definition granted {A} (i : nat) (wanted : option RowLock) (us : list (Session A)) : bool :=
  match wanted with None => true | Some l => free_for i l us end.
Definition take_lock (wanted : option RowLock) (held : list RowLock) : list RowLock :=
  match wanted with None => held | Some l => acquire l held end.

(** Session [i] goes on with [u]. *)
Definition put {A} (i : nat) (u : Session A) (s : State A) : State A :=
  mkState (committed s) (<[i := u]> (sessions s)) (ended s).
Definition finish {A} (i : nat) (r : Res A) (db : DB) (s : State A) : State A :=
  mkState db (<[i := Ended r]> (sessions s)) (ended s ++ [(i, r)]).

(** The next step of session [i]: its next statement, its commit or its
    rollback.  [None]: it is over, or waits for a lock. *)
Definition step_of {A} (i : nat) (s : State A) : option (State A) :=
  match sessions s !! i with
  | Some (Running (Ret a) own _) => Some (finish i (Ok a) (own (committed s)) s)
  | Some (Running (Throw e) _ _) => Some (finish i (Raise e) (committed s) s)
  | Some (Running (Await o k) own held) =>
      let view := own (committed s) in
      if granted i (wants o view) (sessions s) then
        Some (put i (Running (k (outcome o view)) (effect o view ∘ own)
                       (take_lock (wants o view) held)) s)
      else None
  | Some (Ended _) | None => None
  end.

(** The statement of session [i] fails instead: the connection is lost, or the
    server cancels it. *)
Definition fail_of {A} (i : nat) (msg : string) (s : State A) : option (State A) :=
  match sessions s !! i with
  | Some (Running (Await o k) own held) =>
      Some (put i (Running (k (raise InfraError msg)) own held) s)
  | _ => None
  end.

Definition advance {A} (s s' : State A) : Prop := exists i, step_of i s = Some s'.
Inductive step {A} (s s' : State A) : Prop :=
  | step_next i : step_of i s = Some s' -> step s s'
  | step_fail i msg : fail_of i msg s = Some s' -> step s s'.

(** Run the sessions in a given order of steps. *)
Fixpoint schedule {A} (order : list nat) (s : State A) : option (State A) :=
  match order with
  | [] => Some s
  | i :: order' => s' ← step_of i s; schedule order' s'
  end.

Lemma schedule_advance {A} order (s s' : State A) : schedule order s = Some s' -> rtc advance s s'.
Proof.
  revert s. induction order as [|i order IH]; intros s; cbn; [by intros [= ->]|].
  destruct (step_of i s) as [s1|] eqn:E; cbn; [|done].
  intros H. eapply rtc_l; [by exists i|by apply IH].
Qed.

(** Where a schedule ends, if all of its steps can be taken. *)
Definition after {A} (order : list nat) (s : State A) : State A := default s (schedule order s).
Lemma after_reached {A} order (s : State A) : is_Some (schedule order s) -> rtc advance s (after order s).
Proof. intros [s' H]. unfold after. rewrite H. by apply (schedule_advance order). Qed.

Lemma advance_steps {A} (s s' : State A) : rtc advance s s' -> rtc step s s'.
Proof. induction 1 as [|s s1 s' [i Hi] _ IH]; [done|]. eapply rtc_l; [by eapply step_next|done]. Qed.

(** All transactions have committed. *)
Definition all_committed {A} (s : State A) : bool :=
  forallb (fun u => match u with Ended (Ok _) => true | _ => false end) (sessions s).

Lemma free_for_spec {A} i l (us : list (Session A)) :
  free_for i l us = true <-> forall j u, us !! j = Some u -> j <> i -> holds l u = false.
Proof.
  revert i. induction us as [|u us IH]; intros i.
  { destruct i; cbn; by split; [intros _ j u; rewrite lookup_nil|]. }
  destruct i as [|i]; cbn.
  - rewrite forallb_forall. split.
    + intros H [|j] w Hw Hj; [done|]. apply negb_true_iff, H, list_elem_of_In. by eapply list_elem_of_lookup_2.
    + intros H w [j Hw]%list_elem_of_In%list_elem_of_lookup. apply negb_true_iff, (H (S j)); [done|lia].
  - rewrite andb_true_iff, negb_true_iff, IH. split.
    + intros [H0 H] [|j] w Hw Hj; [by simplify_eq/=|]. apply (H j); [done|lia].
    + intros H. split; [by apply (H 0)|]. intros j w Hw Hj. apply (H (S j)); [done|lia].
Qed.

(** * Rows that stay as they are *)

(** What a rebooking never writes: whole tables, and the columns of a row other
    than the seats of a fare, the booking of a segment, the total of a
    reservation and the balance of a credit. *)
Definition fixed_fare (ff : FlightFare) : FlightFare := set_seats 0 ff.
Definition fixed_reservation (r : Reservation) : Reservation := set_total 0 0 r.
Definition fixed_segment (rs : ReservationSegment) : ReservationSegment :=
  set_booking 0 0 0 EmptyString S_CONFIRMED 0 rs.
Definition fixed_credit (c : TravelCredit) : TravelCredit := set_balance 0 C_USED c.

Record same_frame (c c' : DB) : Prop := {
  same_customers : customers c = customers c';
  same_passengers : passengers c = passengers c';
  same_party : reservation_passengers c = reservation_passengers c';
  same_flights : flights c = flights c';
  same_classes : fare_classes c = fare_classes c';
  same_fares fl fc : fixed_fare <$> find_fare c fl fc = fixed_fare <$> find_fare c' fl fc;
  same_reservations id : fixed_reservation <$> find_reservation c id = fixed_reservation <$> find_reservation c' id;
  same_segments id : fixed_segment <$> find_segment c id = fixed_segment <$> find_segment c' id;
  same_credits id : fixed_credit <$> find_credit c id = fixed_credit <$> find_credit c' id }.

(** The row a lock names is the same. *)
Definition same_row (l : RowLock) (c c' : DB) : Prop :=
  match l with
  | LSegment id => find_segment c id = find_segment c' id
  | LReservation id => find_reservation c id = find_reservation c' id
  | LFare fl fc => find_fare c fl fc = find_fare c' fl fc
  | LCredit id => find_credit c id = find_credit c' id
  | LFlight id => find_flight c id = find_flight c' id
  | LChange id => change_taken id c = change_taken id c'
  end.

(** Two databases a transaction that holds [rows] cannot tell apart. *)
Record agree (rows : list RowLock) (c c' : DB) : Prop := {
  agree_frame : same_frame c c';
  agree_row l : l ∈ rows -> same_row l c c' }.

#[export] Instance same_frame_equiv : Equivalence same_frame.
Proof.
  split.
  - by intros c.
  - intros c c' []. by split.
  - intros c c' c'' [] []. split; intros; etrans; eauto.
Qed.
#[export] Instance same_row_equiv l : Equivalence (same_row l).
Proof. destruct l; split; repeat intro; unfold same_row in *; congruence. Qed.
#[export] Instance agree_equiv rows : Equivalence (agree rows).
Proof.
  split.
  - by intros c.
  - intros c c' [? H]. split; [done|]. intros l Hl. symmetry. auto.
  - intros c c' c'' [? H] [? H']. split; [by etrans|]. intros l Hl. etrans; eauto.
Qed.

Lemma agree_mono rows rows' c c' : rows ⊆ rows' -> agree rows' c c' -> agree rows c c'.
Proof. intros Hsub [? H]. split; [done|]. auto. Qed.
#[export] Instance agree_subseteq : Proper ((⊆) ==> eq ==> eq ==> flip impl) agree.
Proof. intros rows rows' Hsub c ? <- c' ? <- H. by eapply agree_mono. Qed.

(** [f] writes rows of [held] only. *)
Record writes_only (held : list RowLock) (f : DB -> DB) : Prop := {
  writes_frame c : same_frame c (f c);
  writes_row l c : l ∉ held -> same_row l c (f c) }.

Lemma writes_nothing held : writes_only held id.
Proof. by split. Qed.
Lemma writes_compose held held' f g :
  held ⊆ held' -> writes_only held f -> writes_only held' g -> writes_only held' (g ∘ f).
Proof.
  intros Hsub [Hf Hf'] [Hg Hg']. split; intros; cbn; [etrans; [apply Hf|apply Hg]|].
  etrans; [apply Hf'|apply Hg']; set_solver.
Qed.

(** Writes of a transaction keep what the others rely on. *)
Lemma writes_agree held f rows c :
  writes_only held f -> (forall l, l ∈ rows -> l ∉ held) -> agree rows c (f c).
Proof. intros [Hf Hf'] Hdisj. split; auto. Qed.

(** * Every interleaving ends *)

(** What a step does to its session. *)
Definition smaller {A} (u' u : Session A) : Prop :=
  match u with
  | Running (Await o k) _ _ => exists r own held, u' = Running (k r) own held
  | Running _ _ _ => exists r, u' = Ended r
  | Ended _ => False
  end.

Lemma smaller_acc {A} (u : Session A) : Acc smaller u.
Proof.
  assert (forall r : Res A, Acc smaller (Ended r)) as Hend by (intros r; by constructor).
  destruct u as [code own held|r]; [|done]. revert own held.
  induction code as [a|e|R o k IH]; intros own held; constructor; cbn.
  - by intros _ [r ->].
  - by intros _ [r ->].
  - by intros _ (r & own' & held' & ->).
Qed.

(** One element of a list goes down. *)
Definition one_smaller {B} (R : B -> B -> Prop) (l' l : list B) : Prop :=
  exists i u u', l !! i = Some u /\ R u' u /\ l' = <[i := u']> l.

Lemma one_smaller_acc {B} (R : B -> B -> Prop) l : Forall (Acc R) l -> Acc (one_smaller R) l.
Proof.
  induction 1 as [|u l Hu _ Hl]; [by constructor; intros ? (i & ? & ? & ? & _)|].
  revert l Hl. induction Hu as [u _ IHu]. intros l Hl. induction Hl as [l Hl IHl].
  constructor. intros _ ([|i] & w & w' & Hw & HR & ->); cbn in *.
  - injection Hw as ->. by apply IHu; [|constructor].
  - apply IHl. by exists i, w, w'.
Qed.

Lemma step_smaller {A} (s s' : State A) : step s s' -> one_smaller smaller (sessions s') (sessions s).
Proof.
  intros [i Hi|i msg Hi]; [unfold step_of in Hi|unfold fail_of in Hi];
    destruct (sessions s !! i) as [[[a|e|R o k] own held|]|] eqn:E; try done.
  - injection Hi as <-. eexists i, _, (Ended (Ok a)). split_and!; [done|by eexists|done].
  - injection Hi as <-. eexists i, _, (Ended (Raise e)). split_and!; [done|by eexists|done].
  - cbv zeta in Hi. destruct (granted _ _ _); [|done]. injection Hi as <-.
    eexists i, _, _. split_and!; [done| |done]. by repeat eexists.
  - injection Hi as <-. eexists i, _, _. split_and!; [done| |done]. by repeat eexists.
Qed.

Lemma step_terminates {A} : well_founded (flip (@step A)).
Proof.
  assert (forall l, Acc (one_smaller smaller) l -> forall s : State A, sessions s = l -> Acc (flip step) s) as H.
  { induction 1 as [l _ IH]. intros s <-. constructor. intros s' Hs. eapply IH; [by apply step_smaller|done]. }
  intros s. eapply H; [|done]. apply one_smaller_acc, Forall_true, smaller_acc.
Qed.

(** * What makes a transaction serializable *)

Lemma elem_of_acquire l l' held : l ∈ acquire l' held <-> l = l' \/ l ∈ held.
Proof. unfold acquire. case_bool_decide; set_solver. Qed.

Lemma take_lock_sub wanted held : held ⊆ take_lock wanted held.
Proof. destruct wanted; cbn; [|done]. intros l Hl. apply elem_of_acquire. by right. Qed.

Section Follows.
Context {A : Type} (valid : DB -> Prop) (private : RowLock -> Prop).
Context (in_order : list RowLock -> RowLock -> Prop).

(** One transaction with its contract, what it does when it runs alone; the
    private rows [mine] are those only this transaction writes.

    However far it has come, and whatever the others have done to the rows it
    neither holds nor owns: a failing statement ends it; a lock it asks for is
    held already or may follow those it holds ([in_order]), and is no other's
    private row; it writes rows it has locked; and it ends with what the
    contract gives at the moment it ends. *)
Fixpoint Follows (contract : DB -> Res A * DB) (mine : list RowLock)
    (code : Prog Sql A) (own : DB -> DB) (held : list RowLock) (c : DB) : Prop :=
  match code with
  | Ret a => forall c', agree (mine ++ held) c c' -> valid c' -> contract c' = (Ok a, own c')
  | Throw e => forall c', agree (mine ++ held) c c' -> valid c' -> contract c' = (Raise e, c')
  | Await o k =>
      (forall msg, k (raise InfraError msg) = Throw (mkExn InfraError msg)) /\
      forall c', agree (mine ++ held) c c' -> valid c' ->
        let view := own c' in
        let held' := take_lock (wants o view) held in
        (forall l, wants o view = Some l ->
           l ∈ held \/ (private l -> l ∈ mine) /\ in_order held l) /\
        writes_only held' (effect o view) /\
        Follows contract mine (k (outcome o view)) (effect o view ∘ own) held' c'
  end.

Lemma follows_agree contract mine code own held c c' :
  agree (mine ++ held) c c' -> Follows contract mine code own held c ->
  Follows contract mine code own held c'.
Proof.
  intros Hag. destruct code as [a|e|R o k]; cbn.
  - intros H c'' Hag'. apply H. by etrans.
  - intros H c'' Hag'. apply H. by etrans.
  - intros [Hk H]. split; [done|]. intros c'' Hag'. apply H. by etrans.
Qed.

(** Alone, it does what its contract says. *)
Lemma follows_alone contract mine code own held c :
  valid c -> Follows contract mine code own held c ->
  contract c = match run statement code (own c) with
               | (Ok a, db) => (Ok a, db)
               | (Raise e, _) => (Raise e, c)
               end.
Proof.
  intros Hv. revert own held. induction code as [a|e|R o k IH]; intros own held; cbn.
  - intros H. by apply H.
  - intros H. by apply H.
  - intros [_ H]. destruct (H _ (reflexivity _) Hv) as (_ & _ & HF). by apply IH in HF.
Qed.

(** Rules for one statement: a read of rows held or owned gives the same
    whenever it is made, and so does a read that locks again or a write of a
    row held. *)
Section Rules.
Context (contract : DB -> Res A * DB) (mine : list RowLock).
Notation Follows := (Follows contract mine).
Definition propagates {R} (k : Res R -> Prog Sql A) : Prop :=
  forall msg, k (raise InfraError msg) = Throw (mkExn InfraError msg).

Lemma follows_select {R} (q : DB -> R) k own held c a :
  propagates k ->
  (forall c', agree (mine ++ held) c c' -> valid c' -> q (own c') = a) ->
  Follows (k (Ok a)) own held c -> Follows (Await (Select q) k) own held c.
Proof.
  intros Hk Hq HF. split; [done|]. intros c' Hag Hv. cbn. split_and!; [done|apply writes_nothing|].
  rewrite Hq by done. by eapply follows_agree.
Qed.

Lemma follows_relock {R} (q : DB -> option (RowLock * R)) l k own held c a :
  propagates k -> l ∈ held ->
  (forall c', agree (mine ++ held) c c' -> valid c' -> q (own c') = Some (l, a)) ->
  Follows (k (Ok (Some a))) own held c -> Follows (Await (SelectForUpdate q) k) own held c.
Proof.
  intros Hk Hl Hq HF. split; [done|]. intros c' Hag Hv. cbn. rewrite Hq by done. cbn.
  rewrite acquire_held by done.
  split_and!; [by intros ? [= <-]; left|apply writes_nothing|]. by eapply follows_agree.
Qed.

Lemma follows_update l f k own held c :
  propagates k -> l ∈ held -> writes_only [l] f ->
  Follows (k (Ok tt)) (f ∘ own) held c -> Follows (Await (Update l f) k) own held c.
Proof.
  intros Hk Hl Hf HF. split; [done|]. intros c' Hag Hv. cbn. rewrite acquire_held by done.
  split_and!; [by intros ? [= <-]; left| |by eapply follows_agree].
  destruct Hf as [Hf Hf']. split; [done|]. intros l' c'' Hl'. apply Hf'. set_solver.
Qed.

(** A write of a row not locked before. *)
Lemma follows_update_new l f k own held c :
  propagates k -> (private l -> l ∈ mine) -> in_order held l -> writes_only [l] f ->
  (forall c', agree (mine ++ held) c c' -> valid c' -> Follows (k (Ok tt)) (f ∘ own) (acquire l held) c') ->
  Follows (Await (Update l f) k) own held c.
Proof.
  intros Hk Hp Hb Hf HF. split; [done|]. intros c' Hag Hv. cbn.
  split_and!; [by intros ? [= <-]; right| |by apply HF].
  destruct Hf as [Hf Hf']. split; [done|]. intros l' c'' Hl'. apply Hf'.
  rewrite elem_of_acquire in Hl'. set_solver.
Qed.

(** The last statement: the key is claimed, and taken or not from then on. *)
Lemma follows_insert change duplicate own held c res :
  (forall db, flight_changes (own db) = flight_changes db) ->
  in_order held (LChange (ch_id change)) -> (private (LChange (ch_id change)) -> LChange (ch_id change) ∈ mine) ->
  (forall c', agree (mine ++ held) c c' -> valid c' ->
     contract c' =
     if change_taken (ch_id change) c' then (raise InfraError duplicate, c')
     else (Ok res, with_changes (fun t => t ++ [change]) (own c'))) ->
  Follows (await (Insert change duplicate) ≫= fun _ => mret res) own held c.
Proof.
  intros Hown Hord Hpr HK. split; [done|]. intros c1 H1 Hv1. cbn.
  assert (forall db, change_taken (ch_id change) (own db) = change_taken (ch_id change) db) as Htaken
    by (intros db; unfold change_taken; by rewrite Hown).
  rewrite Htaken. set (held' := acquire _ held).
  assert (LChange (ch_id change) ∈ held') as Hin by (apply elem_of_acquire; auto).
  assert (forall c', agree (mine ++ held') c1 c' -> agree (mine ++ held) c c') as Hup.
  { intros c' H. etrans; [exact H1|]. eapply agree_mono; [|exact H].
    intros l. rewrite !elem_of_app. unfold held'. rewrite elem_of_acquire. naive_solver. }
  assert (forall c', agree (mine ++ held') c1 c' -> valid c' ->
    change_taken (ch_id change) c' = change_taken (ch_id change) c1) as Hsame.
  { intros c' H _. symmetry. apply (agree_row _ _ _ H (LChange _)). set_solver. }
  split; [intros l [= <-]; by right|]. destruct (change_taken (ch_id change) c1) eqn:E.
  - split; [apply writes_nothing|]. intros c' H Hv'. by rewrite HK, Hsame by auto.
  - split.
    { split; [done|]. intros l db Hl. destruct l; try done. cbn. unfold change_taken. apply bool_decide_ext.
      change (flight_changes _) with (flight_changes db ++ [change]) at 2.
      rewrite fmap_app, elem_of_app. change (ch_id <$> [change]) with [ch_id change].
      rewrite list_elem_of_singleton. split; [by left|]. intros [?| ->]; [done|].
      destruct Hl. apply elem_of_acquire. by left. }
    intros c' H Hv'. by rewrite HK, Hsame by auto.
Qed.
End Rules.

(** * Interleavings are serial *)

Context (contract : nat -> DB -> Res A * DB) (mine : nat -> list RowLock).

(** The transactions of a log, one after the other.  One that failed left
    nothing behind, and failed as it would have done alone or because a
    statement of it was cancelled. *)
Inductive Serial : DB -> list (nat * Res A) -> DB -> Prop :=
  | serial_nil c : Serial c [] c
  | serial_commit c i a c' log c'' :
      contract i c = (Ok a, c') -> Serial c' log c'' -> Serial c ((i, Ok a) :: log) c''
  | serial_abort c i e log c'' :
      contract i c = (Raise e, c) \/ exn_type e = InfraError -> Serial c log c'' ->
      Serial c ((i, Raise e) :: log) c''.

Lemma serial_app c log c' log' c'' : Serial c log c' -> Serial c' log' c'' -> Serial c (log ++ log') c''.
Proof.
  induction 1; cbn; intros; [done| |].
  - eapply serial_commit; eauto.
  - eapply serial_abort; eauto.
Qed.

Context (c0 : DB) (Hc0 : valid c0).
Context (Hvalid : forall i c r c', valid c -> contract i c = (r, c') -> valid c').
Context (Hprivate : forall i l, l ∈ mine i -> private l).
Context (Hmine : forall i j l, l ∈ mine i -> l ∈ mine j -> i = j).

(** What a session of a reachable state satisfies. *)
Definition session_ok (c : DB) (i : nat) (u : Session A) : Prop :=
  match u with
  | Running code own held =>
      writes_only held own /\ (forall l, l ∈ held -> private l -> l ∈ mine i) /\
      (Follows (contract i) (mine i) code own held c \/ exists msg, code = Throw (mkExn InfraError msg))
  | Ended _ => True
  end.

Record Reached (s : State A) : Prop := {
  re_valid : valid (committed s);
  re_serial : Serial c0 (ended s) (committed s);
  re_ok i u : sessions s !! i = Some u -> session_ok (committed s) i u;
  re_locks i j u w l : sessions s !! i = Some u -> sessions s !! j = Some w -> i <> j ->
    holds l u = true -> holds l w = false;
  re_ended i r : sessions s !! i = Some (Ended r) <-> (i, r) ∈ ended s;
  re_once : NoDup (fst <$> ended s) }.

Lemma session_ok_agree c c' i code own held :
  agree (mine i ++ held) c c' ->
  session_ok c i (Running code own held) -> session_ok c' i (Running code own held).
Proof.
  intros Hag (? & ? & HF). split_and!; [done..|].
  destruct HF as [HF|?]; [left; by eapply follows_agree|by right].
Qed.

(** Session [i] ends: its writes touch nothing the others rely on. *)
Lemma commit_agree s i j code own held code' own' held' :
  Reached s -> i <> j ->
  sessions s !! i = Some (Running code own held) ->
  sessions s !! j = Some (Running code' own' held') ->
  agree (mine j ++ held') (committed s) (own (committed s)).
Proof.
  intros [_ _ Hok Hlocks _ _] Hij Hi Hj. destruct (Hok _ _ Hi) as (Hw & Hpr & _).
  apply (writes_agree held); [done|]. intros l Hl Hheld. apply elem_of_app in Hl as [Hl|Hl].
  - apply Hij, (Hmine i j l); [|done]. apply Hpr; [done|]. by apply (Hprivate j).
  - pose proof (Hlocks _ _ _ _ l Hi Hj Hij) as H. cbn in H.
    rewrite bool_decide_eq_true_2, bool_decide_eq_false in H by done. by apply H.
Qed.

Lemma reached_finish s i code own held r db :
  Reached s -> sessions s !! i = Some (Running code own held) ->
  Serial (committed s) [(i, r)] db -> valid db -> db = own (committed s) \/ db = committed s ->
  Reached (finish i r db s).
Proof.
  intros Hre Hi Hser Hv Hdb. destruct Hre as [? Hs Hok Hlocks Hend Hnd] eqn:E. split; cbn.
  - done.
  - by eapply serial_app.
  - intros j u. destruct (decide (i = j)) as [<-|Hij].
    + rewrite list_lookup_insert_eq by (by eapply lookup_lt_Some). by intros [= <-].
    + rewrite list_lookup_insert_ne by done. intros Hj. pose proof (Hok _ _ Hj) as Hu.
      destruct u as [code' own' held'|]; [|done]. destruct Hdb as [->| ->]; [|done].
      eapply session_ok_agree; [|done]. by eapply commit_agree.
  - intros j j' u w l. rewrite !list_lookup_insert_Some.
    intros [(<- & <- & _)|[Hj Hu]] [(<- & <- & _)|[Hj' Hw]] Hne; cbn; try done. eauto.
  - intros j r'. rewrite list_lookup_insert_Some, elem_of_app, list_elem_of_singleton.
    rewrite <- Hend. split.
    + intros [(<- & [= <-] & _)|[_ ?]]; auto.
    + intros [Hj|[= -> ->]].
      * right. split; [|done]. intros <-. rewrite Hi in Hj. done.
      * left. eauto using lookup_lt_Some.
  - rewrite fmap_app. apply NoDup_app. split_and!; [done| |apply NoDup_singleton].
    intros j Hj ->%list_elem_of_singleton. apply list_elem_of_fmap in Hj as ([k r'] & Hk & Hj%Hend).
    cbn in Hk. subst k. rewrite Hj in Hi. done.
Qed.

Lemma reached_put s i u u' :
  Reached s -> sessions s !! i = Some u -> (forall r, u <> Ended r) -> (forall r, u' <> Ended r) ->
  session_ok (committed s) i u' ->
  (forall l, holds l u' = true -> holds l u = true \/
     forall j w, sessions s !! j = Some w -> j <> i -> holds l w = false) ->
  Reached (put i u' s).
Proof.
  intros [? Hs Hok Hlocks Hend Hnd] Hi Hrun Hrun' Hu' Hlk.
  assert (forall j w l, sessions s !! j = Some w -> j <> i -> holds l u' = true -> holds l w = false) as Hnew.
  { intros j w l Hj Hne [Hl|Hl]%Hlk; eauto. }
  split; cbn; [done|done| | | |done].
  - intros j w. rewrite list_lookup_insert_Some. intros [(<- & <- & _)|[_ ?]]; eauto.
  - intros j j' w w' l. rewrite !list_lookup_insert_Some.
    intros [(<- & <- & _)|[Hj Hw]] [(<- & <- & _)|[Hj' Hw']] Hne; try done; [by eapply Hnew| |eauto].
    intros Hl. destruct (holds l u') eqn:E; [|done]. rewrite (Hnew j w l) in Hl; done.
  - intros j r. rewrite <- Hend, list_lookup_insert_Some. split.
    + intros [(_ & E & _)|[_ ?]]; [by destruct (Hrun' r)|done].
    + intros Hj. right. split; [|done]. intros <-. rewrite Hi in Hj. injection Hj as ->. by destruct (Hrun r).
Qed.

Lemma reached_step_of i s s' : Reached s -> step_of i s = Some s' -> Reached s'.
Proof.
  intros Hre. unfold step_of. destruct (sessions s !! i) as [[code own held|]|] eqn:Hi; [|done..].
  destruct Hre as [Hv Hs Hok Hlocks Hend Hnd] eqn:E.
  destruct (Hok _ _ Hi) as (Hw & Hpr & HF).
  destruct code as [a|e|R o k].
  - intros [= <-]. destruct HF as [HF|[msg ?]]; [|done]. specialize (HF _ (reflexivity _) Hv).
    eapply reached_finish; [done|done| |by eapply Hvalid|by left].
    eapply serial_commit; [done|apply serial_nil].
  - intros [= <-]. eapply reached_finish; [done|done| |done|by right].
    apply serial_abort; [|apply serial_nil].
    destruct HF as [HF|[msg [= ->]]]; [|by right]. left. by apply HF.
  - cbv zeta. destruct (granted _ _ _) eqn:Hg; [|done]. intros [= <-].
    destruct HF as [[_ HF]|[msg ?]]; [|done].
    destruct (HF _ (reflexivity _) Hv) as (Hwant & Hwr & HF').
    eapply reached_put; [done|done|done|done| |].
    + split; [|split; [|by left]].
      * eapply writes_compose; [apply take_lock_sub|done|done].
      * intros l. destruct (wants o _) as [l'|]; cbn; [|by apply Hpr].
        rewrite elem_of_acquire. intros [->|?]; [|by apply Hpr].
        destruct (Hwant _ eq_refl) as [?|[? _]]; [by apply Hpr|done].
    + intros l. cbn. destruct (wants o _) as [l'|]; cbn in *; [|by left].
      rewrite bool_decide_eq_true, elem_of_acquire. intros [->|?]; [right|left; by apply bool_decide_eq_true].
      intros j w Hj Hne. eapply free_for_spec; eauto.
Qed.

Lemma reached_fail_of i msg s s' : Reached s -> fail_of i msg s = Some s' -> Reached s'.
Proof.
  intros Hre. unfold fail_of.
  destruct (sessions s !! i) as [[[a|e|R o k] own held|]|] eqn:Hi; try done. intros [= <-].
  destruct (re_ok _ Hre _ _ Hi) as (Hw & Hpr & HF).
  eapply reached_put; [done|done|done|done| |by left].
  split_and!; [done..|]. right. destruct HF as [[Hk _]|[? ?]]; [|done]. by exists msg.
Qed.

Lemma reached_steps s s' : Reached s -> rtc step s s' -> Reached s'.
Proof.
  intros Hre Hsteps. induction Hsteps as [|s s1 s' Hstep _ IH]; [done|]. apply IH.
  destruct Hstep as [i Hi|i msg Hi]; [by eapply reached_step_of|by eapply reached_fail_of].
Qed.

Lemma reached_start codes :
  (forall i code, codes !! i = Some code -> Follows (contract i) (mine i) code id [] c0) ->
  Reached (start codes c0).
Proof.
  intros Hcodes. split; cbn.
  - done.
  - apply serial_nil.
  - intros i u. rewrite list_lookup_fmap. intros (code & Hcode & ->)%fmap_Some.
    split; [apply writes_nothing|]. split; [by intros l ?%elem_of_nil|]. left. by apply Hcodes.
  - intros i j u w l. rewrite list_lookup_fmap. by intros (code & Hcode & ->)%fmap_Some.
  - intros i r. rewrite list_lookup_fmap. split; [by intros (? & _ & ?)%fmap_Some|by intros ?%elem_of_nil].
  - apply NoDup_nil_2.
Qed.

(** * Nobody waits for ever *)

Definition over (s : State A) : Prop := Forall (fun u => exists r, u = Ended r) (sessions s).

#[local] Instance is_ended_dec (u : Session A) : Decision (exists r, u = Ended r).
Proof. destruct u as [|r]; [right; by intros [? ?]|left; by exists r]. Defined.
#[local] Instance over_dec s : Decision (over s).
Proof. unfold over. apply _. Defined.

(** The lock a session asks for next. *)
Definition asks_for (c : DB) (u : Session A) : option RowLock :=
  match u with Running (Await o _) own _ => wants o (own c) | _ => None end.
Definition asked (s : State A) : list RowLock := omap (asks_for (committed s)) (sessions s).

(** A session that cannot go on asks for a lock another one holds. *)
Lemma stuck_waits s i u :
  sessions s !! i = Some u -> (forall r, u <> Ended r) -> step_of i s = None ->
  exists l j w, asks_for (committed s) u = Some l /\ sessions s !! j = Some w /\ j <> i /\ holds l w = true.
Proof.
  intros Hi Hrun. unfold step_of. rewrite Hi. destruct u as [[a|e|R o k] own held|r]; [done..| |by destruct (Hrun r)].
  cbv zeta. destruct (granted _ _ _) eqn:Hg; [done|]. intros _. cbn.
  destruct (wants o _) as [l|]; [|done]. cbn in Hg. exists l.
  destruct (decide (Exists (fun j => j <> i /\ (holds l <$> sessions s !! j) = Some true) (seq 0 (length (sessions s)))))
    as [Hex|Hno].
  - apply Exists_exists in Hex as (j & _ & Hne & (w & Hh & Hj)%fmap_Some). by exists j, w.
  - assert (free_for i l (sessions s) = true) as ?; [|congruence].
    apply free_for_spec. intros j w Hj Hne. apply not_true_is_false. intros Hh. apply Hno, Exists_exists.
    exists j. split; [apply elem_of_seq; apply lookup_lt_Some in Hj; lia|]. rewrite Hj. cbn. by rewrite Hh.
Qed.

Definition sorted_locks : Prop :=
  forall held l, in_order held l -> Forall (fun h => before h l) held.

Lemma advance_exists s :
  sorted_locks -> Reached s -> ~ over s -> exists s', advance s s'.
Proof.
  intros Hsorted Hre Hover.
  destruct (decide (Exists (fun i => step_of i s <> None) (seq 0 (length (sessions s))))) as [Hex|Hno].
  { apply Exists_exists in Hex as (i & _ & Hi). destruct (step_of i s) as [s'|] eqn:E; [|done]. exists s', i. done. }
  exfalso.
  assert (forall i u, sessions s !! i = Some u -> step_of i s = None) as Hstuck.
  { intros i u Hi. destruct (step_of i s) eqn:E; [|done]. exfalso. apply Hno, Exists_exists. exists i.
    split; [apply elem_of_seq; apply lookup_lt_Some in Hi; lia|congruence]. }
  assert (exists u, u ∈ sessions s /\ forall r, u <> Ended r) as (u0 & [i0 Hi0]%list_elem_of_lookup & Hr0).
  { unfold over in Hover. apply not_Forall_Exists in Hover; [|apply _].
    apply Exists_exists in Hover as (u & Hu & Hr). exists u. split; [done|]. intros r ->. apply Hr. by exists r. }
  destruct (stuck_waits _ _ _ Hi0 Hr0 (Hstuck _ _ Hi0)) as (l0 & _ & _ & Hl0 & _).
  destruct (exists_last (asked s) l0) as (m & Hm & Hlast).
  { apply list_elem_of_omap. exists u0. split; [by eapply list_elem_of_lookup_2|done]. }
  apply list_elem_of_omap in Hm as (u & [i Hi]%list_elem_of_lookup & Hask).
  destruct (stuck_waits s i u Hi) as (l & j & w & Hl & Hj & Hji & Hheld); [by intros r ->|by eapply Hstuck|].
  assert (l = m) as -> by congruence.
  destruct (stuck_waits s j w Hj) as (n & k & x & Hn & Hk & Hkj & Hxn);
    [by intros r ->|by eapply Hstuck|].
  apply (Hlast n); [apply list_elem_of_omap; exists w; split; [by eapply list_elem_of_lookup_2|done]|].
  destruct w as [[a|e|R o code] own held|r]; cbn in Hn; [done..| |done].
  destruct (re_ok _ Hre _ _ Hj) as (_ & _ & [[_ HF]|[? ?]]); [|done].
  destruct (HF _ (reflexivity _) (re_valid _ Hre)) as (Hwant & _).
  destruct (Hwant _ Hn) as [Hin|[_ Hall%Hsorted]].
  - pose proof (re_locks _ Hre _ _ _ _ n Hj Hk ltac:(done)) as H. cbn in H.
    rewrite bool_decide_eq_true_2 in H by done. rewrite H in Hxn; done.
  - cbn in Hheld. apply bool_decide_eq_true in Hheld. by eapply Forall_forall in Hall.
Qed.

(** If locks are asked for in the order [before], then from every state all
    sessions can come to their end without any of them being cancelled. *)
Lemma all_can_end s : sorted_locks -> Reached s -> exists s', rtc advance s s' /\ over s'.
Proof.
  intros Hsorted. induction (step_terminates s) as [s _ IH]. intros Hre.
  destruct (decide (over s)) as [?|Hno]; [by exists s|].
  destruct (advance_exists s Hsorted Hre Hno) as (s1 & i & Hi).
  destruct (IH s1) as (s' & ? & ?); [by eapply step_next|by eapply reached_step_of|].
  exists s'. split; [|done]. eapply rtc_l; [by exists i|done].
Qed.
End Follows.
