(* ===== verification/OrmSession.v ===== *)
(** The rebooking transaction as the statements it sends:
    [app/airline/repository/rebooking.py] in a session among others.

    [execute_code] is [execute] again, statement by statement, with the values
    its entities hold between two statements.  A session's identity map is
    weak: what [_snapshot] loads is gone when it returns, since it returns
    schemas, so a later query reads the row anew; [target], [old_fare],
    [segment], [reservation] and [credit_entity] are locals of [execute], and
    an assignment to one of their attributes writes the value computed from
    what was loaded.  Pending assignments are sent before the next query
    ([autoflush]).  A query that joins other rows to the one it locks may read
    an older version of those: of them only columns no rebooking writes are
    used, and which rows are joined depends on columns that only the requests
    about this segment write. *)
From stdpp Require Import base numbers strings list sets relations sorting.
From S2P Require Import Prelude Models Rules Database Uuid Repositories OrmRebooking RebookingInvariants Locking Effects Sessions.
Local Open Scope Z_scope.
Local Open Scope bool_scope.

(** * The statements of a rebooking *)

(** [select(FlightFare)] with its joined flight and fare class. *)
Definition target_query (selection : RebookingSelectionSchema) (db : DB) : option TargetRow :=
  fare ← find_fare db (sel_new_flight_id selection) (sel_new_fare_class_id selection);
  Some (mkTargetRow fare (find_flight db (ff_flight_id fare)) (find_fare_class db (ff_fare_class_id fare))).

(** [select(ReservationSegment)] with its joined reservation, flight and fare class. *)
Record SegmentEntity := mkSegmentEntity {
  se_segment : ReservationSegment; se_reservation : option Reservation;
  se_flight : option Flight; se_fare_class : option FareClass }.
Definition segment_query (selection : RebookingSelectionSchema) (db : DB) : option SegmentEntity :=
  rs ← find_segment db (sel_segment_id selection);
  Some (mkSegmentEntity rs (find_reservation db (rs_reservation_id rs))
          (find_flight db (rs_flight_id rs)) (find_fare_class db (rs_fare_class_id rs))).

(** A query with or without [FOR UPDATE]. *)
Definition query {R} (lock : bool) (name : R -> RowLock) (q : DB -> option R) : Prog Sql (option R) :=
  if lock then await (SelectForUpdate (fun db => row ← q db; Some (name row, row)))
  else await (Select q).

Definition fare_lock (ff : FlightFare) : RowLock := LFare (ff_flight_id ff) (ff_fare_class_id ff).

Definition _target_code (selection : RebookingSelectionSchema) (lock : bool) : Prog Sql TargetRow :=
  target ← query lock (fare_lock ∘ tg_fare) (target_query selection);
  of_res (or_raise target FlightNotFoundError "target flight or fare not found").

Definition lock_fare_code (k : UUID * UUID) : Prog Sql unit :=
  _ ← query true fare_lock (fun db => find_fare db k.1 k.2); mret tt.

Fixpoint lock_each (keys : list (UUID * UUID)) : Prog Sql unit :=
  match keys with [] => mret tt | k :: keys' => lock_fare_code k;; lock_each keys' end.

Definition _lock_fares_code (old_flight_id old_fare_class_id : UUID)
    (selection : RebookingSelectionSchema) : Prog Sql unit :=
  lock_each (lock_keys (old_flight_id, old_fare_class_id)
                       (sel_new_flight_id selection, sel_new_fare_class_id selection)).

Definition attr {A} (o : option A) : Res A :=
  or_raise o AttributeError "'NoneType' object has no attribute".

(** The attributes [RebookingSnapshotSchema(...)] is built from. *)
Definition build_snapshot (entity : SegmentEntity) (count : Z) (target : TargetRow) :
    Res RebookingSnapshotSchema :=
  reservation ← attr (se_reservation entity);
  flight ← attr (se_flight entity);
  fare_class ← attr (se_fare_class entity);
  target_flight ← attr (tg_flight target);
  target_class ← attr (tg_fare_class target);
  Ok (make_snapshot (se_segment entity) reservation flight fare_class (tg_fare target)
        target_flight target_class count).

Definition _snapshot_code (selection : RebookingSelectionSchema) (lock : bool) :
    Prog Sql (RebookingSnapshotSchema * option TravelCreditSchema) :=
  segment ← query lock (fun e => LSegment (rs_id (se_segment e))) (segment_query selection);
  segment ← of_res (or_raise segment SegmentNotFoundError "reservation segment not found");
  count ← match se_reservation segment with
          | Some r => await (Select (fun db => Z.of_nat (length (passengers_of db (r_id r)))))
          | None => mret 0
          end;
  target ← _target_code selection false;
  snapshot ← of_res (build_snapshot segment count target);
  match sel_travel_credit_id selection with
  | None => mret (snapshot, None)
  | Some credit_id =>
      credit ← query lock (LCredit ∘ tc_id) (fun db => find_credit db credit_id);
      credit ← of_res (or_raise credit TravelCreditNotFoundError "travel credit not found");
      mret (snapshot, Some credit)
  end.

(** [entity.available_seats = n] and the [UPDATE] it becomes. *)
Definition write_seats (ff : FlightFare) (n : Z) : Prog Sql unit :=
  await (Update (fare_lock ff)
    (with_flight_fares (update (is_fare (ff_flight_id ff) (ff_fare_class_id ff)) (set_seats n)))).

Definition take_seats_code (validation : RebookingValidationSchema) (target : TargetRow) : Prog Sql unit :=
  if ff_available_seats (tg_fare target) <? va_passenger_count validation then
    throw ValueError "target flight does not have enough seats"
  else write_seats (tg_fare target) (ff_available_seats (tg_fare target) - va_passenger_count validation).

Definition release_seats_code (validation : RebookingValidationSchema) : Prog Sql unit :=
  old_fare ← query true fare_lock
    (fun db => find_fare db (va_old_flight_id validation) (va_old_fare_class_id validation));
  old_fare ← of_res (or_raise old_fare FlightNotFoundError "original fare not found");
  write_seats old_fare (ff_available_seats old_fare + va_passenger_count validation).

(** [session.get] of the reservation takes no lock, and [total_amount] is
    written as computed from what it read. *)
Definition book_segment_code (am : Ambient) (selection : RebookingSelectionSchema)
    (validation : RebookingValidationSchema) : Prog Sql (ReservationSegment * Reservation) :=
  segment ← await (Select (fun db => find_segment db (sel_segment_id selection)));
  reservation ← await (Select (fun db => find_reservation db (va_reservation_id validation)));
  '(segment, reservation) ← of_res (or_raise (s ← segment; r ← reservation; Some (s, r))
    SegmentNotFoundError "reservation segment not found");
  let total := r_total_amount reservation + (va_fare_difference validation
                 + va_change_fee validation - va_travel_credit_used validation) in
  await (Update (LReservation (r_id reservation)) (with_reservations
    (update (fun r => r_id r =? r_id reservation)%N (set_total total (am_now_reservation am)))));;
  await (Update (LSegment (rs_id segment)) (with_segments
    (update (fun s => rs_id s =? rs_id segment)%N (book am validation))));;
  mret (book am validation segment, reservation).

Definition consume_credit_code (selection : RebookingSelectionSchema) : Prog Sql unit :=
  match sel_travel_credit_id selection with
  | None => mret tt
  | Some credit_id =>
      credit_entity ← query true (LCredit ∘ tc_id) (fun db => find_credit db credit_id);
      credit_entity ← of_res (or_raise credit_entity TravelCreditNotFoundError "travel credit not found");
      let remaining := tc_remaining_amount credit_entity - sel_travel_credit_amount selection in
      await (Update (LCredit (tc_id credit_entity)) (with_credits
        (update (fun c => tc_id c =? tc_id credit_entity)%N
           (set_balance remaining (if remaining =? 0 then C_USED else C_PARTIALLY_USED)))))
  end.

(** What [execute] does once the rules have accepted the selection. *)
Definition write_code (am : Ambient) (selection : RebookingSelectionSchema)
    (validation : RebookingValidationSchema) : Prog Sql RebookingResultSchema :=
  target ← _target_code selection true;
  take_seats_code validation target;;
  release_seats_code validation;;
  '(segment, reservation) ← book_segment_code am selection validation;
  consume_credit_code selection;;
  await (Insert (change_of am selection validation) "IntegrityError");;
  mret {| rr_change := Some (change_of am selection validation); rr_segment := segment;
          rr_booking_reference := r_booking_reference reservation |}.

(** The body of [execute]'s [session.begin()] block. *)
Definition execute_code (am : Ambient) (validate : Validate)
    (selection : RebookingSelectionSchema) : Prog Sql RebookingResultSchema :=
  '(snapshot, credit) ← _snapshot_code selection true;
  _lock_fares_code (sn_old_flight_id snapshot) (sn_old_fare_class_id snapshot) selection;;
  '(snapshot, credit) ← _snapshot_code selection true;
  validation ← of_res (validate selection snapshot credit);
  write_code am selection validation.
