(* ===== verification/OrmConcurrency.v ===== *)
(** Rebookings that run at the same time: the statements of [OrmSession]
    interleaved as [Sessions] allows.

    Rebookings of different reservations are serializable, whatever rows they
    compete for otherwise, and always come to an end. *)
From stdpp Require Import base numbers strings list sets relations sorting.
From S2P Require Import Prelude Models Rules Database Uuid Repositories OrmRebooking RebookingInvariants AirlineService Locking Effects Sessions OrmSession.
Local Open Scope Z_scope.
Local Open Scope bool_scope.

(** * Writes of one row *)

Section OneRow.
Context {A : Type} (Q P : A -> bool) (f : A -> A) (t : list A).

Lemma scalar_update_fixed {B} (fixed : A -> B) :
  (forall r, P r = true -> Q (f r) = Q r) -> (forall r, fixed (f r) = fixed r) ->
  fixed <$> scalar Q t = fixed <$> scalar Q (update P f t).
Proof.
  intros HQ Hf. rewrite scalar_update by done. destruct (scalar Q t) as [r|]; cbn; [|done].
  destruct (P r); by rewrite ?Hf.
Qed.

Lemma scalar_update_other :
  (forall r, P r = true -> Q (f r) = Q r) -> (forall r, Q r = true -> P r = false) ->
  scalar Q t = scalar Q (update P f t).
Proof.
  intros HQ HP. rewrite scalar_update by done. destruct (scalar Q t) as [r|] eqn:E; cbn; [|done].
  apply scalar_Some in E as [_ E]. by rewrite HP.
Qed.
End OneRow.

Ltac other_row Hl :=
  apply scalar_update_other; [done|];
  let r := fresh "r" in let Hq := fresh "Hq" in let Hp := fresh "Hp" in
  intros r Hq; apply not_true_is_false; intros Hp; apply Hl, list_elem_of_singleton;
  unfold is_fare in *; autorewrite with py_bool in *; intuition congruence.
Ltac one_row :=
  split; [intros c; split; intros; try done; by apply scalar_update_fixed|];
  let l := fresh "l" in let c := fresh "c" in let Hl := fresh "Hl" in
  intros l c Hl; destruct l; try done; cbn; other_row Hl.

Lemma writes_fare fl fc n :
  writes_only [LFare fl fc] (with_flight_fares (update (is_fare fl fc) (set_seats n))).
Proof. unfold is_fare. one_row. Qed.
Lemma writes_reservation id total at_ :
  writes_only [LReservation id] (with_reservations (update (fun r => r_id r =? id)%N (set_total total at_))).
Proof. one_row. Qed.
Lemma writes_segment am v id :
  writes_only [LSegment id] (with_segments (update (fun s => rs_id s =? id)%N (book am v))).
Proof. one_row. Qed.
Lemma writes_credit id n status :
  writes_only [LCredit id] (with_credits (update (fun c => tc_id c =? id)%N (set_balance n status))).
Proof. one_row. Qed.

(** * Valid databases *)

(** The ids of the fares are UUIDs: 128 bits. *)
Definition uuids_ok (db : DB) : Prop :=
  Forall (fun ff => key_ok (ff_flight_id ff, ff_fare_class_id ff)) (flight_fares db).
Record valid_db (db : DB) : Prop := { vd_inv : db_inv db; vd_uuids : uuids_ok db }.

Definition contract_of (am : Ambient) (sel : RebookingSelectionSchema) : DB -> Res RebookingResultSchema * DB :=
  execute am (validate_rebooking_selection (am_now_validate am)) sel.

Lemma valid_schema db : valid_db db -> schema_ok db.
Proof. by intros [[]]. Qed.
#[local] Hint Resolve valid_schema : py.

Lemma contract_valid am sel db r db' : valid_db db -> contract_of am sel db = (r, db') -> valid_db db'.
Proof.
  unfold contract_of. intros [Hinv Hu] E. destruct r as [res|e].
  - apply execute_Ok_inv in E as (? & ? & ? & ? & ? & ? & ? & Hex & -> & _); [|apply Hinv]. split.
    + by eapply rebooked_inv; [apply Hinv| |].
    + unfold uuids_ok in *. rewrite Forall_forall in *. intros ff Hin. cbn in Hin.
      apply elem_of_update in Hin as (ff1 & Hin & ->). apply elem_of_update in Hin as (ff0 & Hin & ->).
      specialize (Hu _ Hin). by destruct (is_fare _ _ _), (is_fare _ _ _).
  - apply execute_Raise_inv in E as ->; [done|apply Hinv].
Qed.

Lemma fare_key_ok db fl fc ff : valid_db db -> find_fare db fl fc = Some ff -> key_ok (fl, fc).
Proof.
  intros [_ Hu] Hff. destruct (find_fare_key _ _ _ _ Hff) as [<- <-].
  apply scalar_Some in Hff as [Hin _]. by apply (proj1 (Forall_forall _ _) Hu).
Qed.

(** Every booked segment has its reservation, flight, fare class and fare, and
    every fare its flight and fare class. *)
Lemma booked_rows db id seg : valid_db db -> find_segment db id = Some seg ->
  exists r f fc ff, find_reservation db (rs_reservation_id seg) = Some r /\
    find_flight db (rs_flight_id seg) = Some f /\ find_fare_class db (rs_fare_class_id seg) = Some fc /\
    find_fare db (rs_flight_id seg) (rs_fare_class_id seg) = Some ff.
Proof.
  intros [[[] Hsale _ _] _] [Hin _]%scalar_Some.
  destruct (find_row r_id (reservations db) (rs_reservation_id seg)) as [r Hr]; [done|by eapply references_elem|].
  destruct (find_row f_id (flights db) (rs_flight_id seg)) as [f Hf]; [done|by eapply references_elem|].
  destruct (find_row fc_id (fare_classes db) (rs_fare_class_id seg)) as [fc Hfc]; [done|by eapply references_elem|].
  destruct (proj1 (Forall_forall _ _) Hsale _ Hin) as [ff Hff]. eauto 10.
Qed.

Lemma fare_rows db fl fc ff : valid_db db -> find_fare db fl fc = Some ff ->
  exists f c, find_flight db (ff_flight_id ff) = Some f /\ find_fare_class db (ff_fare_class_id ff) = Some c.
Proof.
  intros [[[] _ _ _] _] [Hin _]%scalar_Some.
  destruct (find_row f_id (flights db) (ff_flight_id ff)) as [f Hf]; [done|by eapply references_elem|].
  destruct (find_row fc_id (fare_classes db) (ff_fare_class_id ff)) as [c Hc]; [done|by eapply references_elem|].
  eauto.
Qed.

(** * Snapshots *)

Section Snapshots.
Context (sel : RebookingSelectionSchema).

Lemma snapshot_of_rows db seg r f fc ff tf tc credit :
  SnapshotRows sel db seg r f fc ff tf tc credit ->
  get_snapshot db sel =
  Ok (make_snapshot seg r f fc ff tf tc (Z.of_nat (length (passengers_of db (r_id r)))), credit).
Proof.
  intros [H1 H2 H3 H4 H5 H6 H7 H8].
  unfold get_snapshot, transaction, _snapshot, _target, not_none, lock_if. tx_unfold.
  do 8 (rewrite ?H1, ?H5, ?H2, ?H3, ?H4, ?H6, ?H7; cbn).
  destruct (sel_travel_credit_id sel) as [id|]; [|by rewrite H8].
  destruct H8 as (c & Hc & ->). cbn. by rewrite Hc.
Qed.

Definition missing (e : Exn) (db : DB) : Prop :=
  (find_segment db (sel_segment_id sel) = None /\
     e = mkExn SegmentNotFoundError "reservation segment not found") \/
  (is_Some (find_segment db (sel_segment_id sel)) /\
     find_fare db (sel_new_flight_id sel) (sel_new_fare_class_id sel) = None /\
     e = mkExn FlightNotFoundError "target flight or fare not found") \/
  (is_Some (find_segment db (sel_segment_id sel)) /\
     is_Some (find_fare db (sel_new_flight_id sel) (sel_new_fare_class_id sel)) /\
     exists id, sel_travel_credit_id sel = Some id /\ find_credit db id = None /\
     e = mkExn TravelCreditNotFoundError "travel credit not found").

(** A snapshot of a valid database fails only on a missing row. *)
Lemma snapshot_missing db e : valid_db db -> missing e db -> get_snapshot db sel = Raise e.
Proof.
  intros Hdb Hmiss. unfold get_snapshot, transaction, _snapshot, _target, not_none, lock_if. tx_unfold.
  destruct Hmiss as [[Hseg ->]|[([seg Hseg] & Hff & ->)|([seg Hseg] & [ff Hff] & id & Hsel & Hid & ->)]].
  { by rewrite Hseg. }
  { rewrite Hseg; cbn. by rewrite Hff. }
  destruct (booked_rows _ _ _ Hdb Hseg) as (r & f & fc & _ & Hr & Hf & Hfc & _).
  destruct (fare_rows _ _ _ _ Hdb Hff) as (tf & tc & Htf & Htc).
  do 8 (rewrite ?Hseg, ?Hff, ?Hr, ?Hf, ?Hfc, ?Htf, ?Htc; cbn). by rewrite Hsel; cbn; rewrite Hid.
Qed.

Lemma same_frame_is_Some {A B} (fixed : A -> B) (o o' : option A) :
  fixed <$> o = fixed <$> o' -> is_Some o -> is_Some o'.
Proof. destruct o, o'; naive_solver. Qed.
Lemma same_frame_None {A B} (fixed : A -> B) (o o' : option A) : fixed <$> o = fixed <$> o' -> o = None -> o' = None.
Proof. destruct o, o'; naive_solver. Qed.

(** Rows do not come or go. *)
Lemma missing_frame e db db' : same_frame db db' -> missing e db -> missing e db'.
Proof.
  intros [_ _ _ _ _ Hfa _ Hsg Hcr] Hmiss.
  destruct Hmiss as [[Hn ->]|[(Hs & Hn & ->)|(Hs & Hf & id & Hid & Hn & ->)]]; [left|right; left|right; right].
  - split; [|done]. exact (same_frame_None _ _ _ (Hsg _) Hn).
  - split_and!; [exact (same_frame_is_Some _ _ _ (Hsg _) Hs)|exact (same_frame_None _ _ _ (Hfa _ _) Hn)|done].
  - split_and!; [exact (same_frame_is_Some _ _ _ (Hsg _) Hs)|exact (same_frame_is_Some _ _ _ (Hfa _ _) Hf)|].
    exists id. split_and!; [done|exact (same_frame_None _ _ _ (Hcr _) Hn)|done].
Qed.

Lemma missing_fails am e db : valid_db db -> missing e db -> contract_of am sel db = (Raise e, db).
Proof.
  intros Hdb Hmiss. unfold contract_of. rewrite execute_eq_spec by (by apply valid_schema).
  unfold execute_spec. by rewrite (snapshot_missing _ _ Hdb Hmiss).
Qed.
End Snapshots.

(** * The statements in order *)

Definition is_reservation (l : RowLock) : Prop :=
  match l with LReservation _ => True | _ => False end.

Lemma same_passengers_of c c' id : same_frame c c' -> passengers_of c id = passengers_of c' id.
Proof. intros [_ H1 H2]. unfold passengers_of. by rewrite H1, H2. Qed.
Lemma same_find_flight c c' id : same_frame c c' -> find_flight c id = find_flight c' id.
Proof. intros []. unfold find_flight. congruence. Qed.
Lemma same_find_class c c' id : same_frame c c' -> find_fare_class c id = find_fare_class c' id.
Proof. intros []. unfold find_fare_class. congruence. Qed.

(** The snapshot shows the columns of a reservation that stay as they are. *)
Lemma make_snapshot_fixed seg r r' f fc ff tf tc n :
  fixed_reservation r = fixed_reservation r' ->
  make_snapshot seg r f fc ff tf tc n = make_snapshot seg r' f fc ff tf tc n.
Proof.
  intros E. pose proof (f_equal r_customer_id E) as E1. pose proof (f_equal r_status E) as E2.
  cbn in E1, E2. unfold make_snapshot. by rewrite E1, E2.
Qed.

Lemma db_eq (a b : DB) :
  customers a = customers b -> passengers a = passengers b ->
  reservation_passengers a = reservation_passengers b -> reservations a = reservations b ->
  flights a = flights b -> fare_classes a = fare_classes b -> flight_fares a = flight_fares b ->
  reservation_segments a = reservation_segments b -> travel_credits a = travel_credits b ->
  flight_changes a = flight_changes b -> a = b.
Proof. destruct a, b. cbn. congruence. Qed.

(** Absolute writes of what was read are the relative ones of [rebooked]. *)
Section Writes.
Context (am : Ambient) (sel : RebookingSelectionSchema) (v : RebookingValidationSchema).
Context (c : DB) (Hc : schema_ok c).
Notation n := (va_passenger_count v).

Lemma write_fare_add fl fc t ff k :
  NoDup ((fun ff => (ff_flight_id ff, ff_fare_class_id ff)) <$> t) ->
  scalar (is_fare fl fc) t = Some ff ->
  update (is_fare fl fc) (set_seats (ff_available_seats ff + k)) t = update (is_fare fl fc) (add_seats k) t.
Proof.
  intros Hnd Hff. eapply update_found; [exact Hnd|exact Hff| |done].
  intros r [-> ->]%is_fare_iff. by apply scalar_Some in Hff as [_ [-> ->]%is_fare_iff].
Qed.

Lemma find_fare_written fl fc k fl' fc' :
  find_fare (with_flight_fares (update (is_fare fl fc) (set_seats k)) c) fl' fc' =
  (fun ff => if is_fare fl fc ff then set_seats k ff else ff) <$> find_fare c fl' fc'.
Proof. apply scalar_update. done. Qed.

Lemma write_fares ff off :
  find_fare c (va_new_flight_id v) (va_new_fare_class_id v) = Some ff ->
  find_fare (with_flight_fares (update (is_fare (va_new_flight_id v) (va_new_fare_class_id v))
    (set_seats (ff_available_seats ff - n))) c) (va_old_flight_id v) (va_old_fare_class_id v) = Some off ->
  update (is_fare (va_old_flight_id v) (va_old_fare_class_id v)) (set_seats (ff_available_seats off + n))
    (update (is_fare (va_new_flight_id v) (va_new_fare_class_id v)) (set_seats (ff_available_seats ff - n))
       (flight_fares c)) =
  flight_fares (rebooked am sel v c).
Proof.
  unfold find_fare. intros Hff Hoff. destruct Hc. cbn in *.
  rewrite write_fare_add; [|by rewrite update_key|done].
  f_equal. unfold Z.sub. by apply write_fare_add.
Qed.

Lemma write_total r :
  find_reservation c (va_reservation_id v) = Some r ->
  update (fun x => r_id x =? r_id r)%N
    (set_total (r_total_amount r + (va_fare_difference v + va_change_fee v - va_travel_credit_used v))
       (am_now_reservation am)) (reservations c) =
  reservations (rebooked am sel v c).
Proof.
  intros Hr. rewrite (find_reservation_id _ _ _ Hr). destruct Hc. cbn.
  eapply (update_found r_id); [done|exact Hr| |done].
  intros r' ?%N.eqb_eq. by rewrite (find_reservation_id _ _ _ Hr).
Qed.

Lemma write_balance id cr :
  sel_travel_credit_id sel = Some id -> find_credit c id = Some cr ->
  update (fun x => tc_id x =? tc_id cr)%N
    (set_balance (tc_remaining_amount cr - sel_travel_credit_amount sel)
       (if tc_remaining_amount cr - sel_travel_credit_amount sel =? 0 then C_USED else C_PARTIALLY_USED))
    (travel_credits c) =
  travel_credits (rebooked am sel v c).
Proof.
  intros Hid Hcr. rewrite (find_credit_id _ _ _ Hcr). destruct Hc. cbn. unfold spend_credit. rewrite Hid.
  eapply (update_found tc_id); [done|exact Hcr| |done].
  intros c' ?%N.eqb_eq. by rewrite (find_credit_id _ _ _ Hcr).
Qed.
End Writes.

(** A statement that takes no lock and writes nothing. *)
Ltac no_lock := split; [done|split; [apply writes_nothing|]].

(** Bring the next statement of the code to its head. *)
Ltac code_cbn := cbn [mbind Prog_bind prog_bind await of_res or_raise mret Prog_ret throw].

(** Every lock asked for comes after those held. *)
Definition ascending (held : list RowLock) (l : RowLock) : Prop := Forall (fun h => before h l) held.

Section Transaction.
Context (am : Ambient) (sel : RebookingSelectionSchema) (mine : list RowLock).
Notation Follows := (Follows valid_db is_reservation ascending (contract_of am sel) mine).
Notation new_fare := (LFare (sel_new_flight_id sel) (sel_new_fare_class_id sel)).

Lemma follows_missing e own held c : valid_db c -> missing sel e c -> Follows (Throw e) own held c.
Proof. intros Hv Hm c' [Hf _] Hv'. apply missing_fails; [done|]. by eapply missing_frame. Qed.

(** What the transaction knows when [_snapshot] returns: the segment is the one
    it shows, and if the target's fare is held it is the snapshot of now. *)
Record Snapped (held : list RowLock) (c : DB) (sn : RebookingSnapshotSchema)
    (credit : option TravelCredit) (seg : ReservationSegment) : Prop := {
  sp_segment : find_segment c (sel_segment_id sel) = Some seg;
  sp_old : sn_old_flight_id sn = rs_flight_id seg /\ sn_old_fare_class_id sn = rs_fare_class_id seg;
  sp_reservation : sn_reservation_id sn = rs_reservation_id seg;
  sp_target : is_Some (find_fare c (sel_new_flight_id sel) (sel_new_fare_class_id sel));
  sp_snapshot : new_fare ∈ held -> get_snapshot c sel = Ok (sn, credit) }.

(** Read at several moments, but of rows held or columns that stay. *)
Lemma snapped_at held c1 c2 c3 c' seg r f fc ff tf tc credit :
  LSegment (sel_segment_id sel) ∈ held ->
  agree held c1 c2 -> agree held c1 c3 -> agree held c1 c' ->
  find_segment c1 (sel_segment_id sel) = Some seg ->
  find_reservation c1 (rs_reservation_id seg) = Some r ->
  find_flight c1 (rs_flight_id seg) = Some f -> find_fare_class c1 (rs_fare_class_id seg) = Some fc ->
  find_fare c3 (sel_new_flight_id sel) (sel_new_fare_class_id sel) = Some ff ->
  find_flight c3 (ff_flight_id ff) = Some tf -> find_fare_class c3 (ff_fare_class_id ff) = Some tc ->
  match sel_travel_credit_id sel with
  | Some id => exists c, find_credit c' id = Some c /\ credit = Some c
  | None => credit = None
  end ->
  Snapped held c' (make_snapshot seg r f fc ff tf tc (Z.of_nat (length (passengers_of c2 (r_id r))))) credit seg.
Proof.
  intros Hin H12 H13 H1' Hseg Hr Hf Hfc Hff Htf Htc Hcr.
  assert (find_segment c' (sel_segment_id sel) = Some seg) as Hseg'
    by (rewrite <- Hseg; symmetry; by apply (agree_row _ _ _ H1' (LSegment _))).
  assert (agree held c3 c') as H3' by (etrans; [symmetry|]; done).
  split; [done|done|done| |].
  - eapply same_frame_is_Some; [apply (same_fares _ _ (agree_frame _ _ _ H3'))|by exists ff].
  - intros Hnew. pose proof (agree_row _ _ _ H3' _ Hnew) as E. cbn in E. rewrite Hff in E.
    pose proof (same_reservations _ _ (agree_frame _ _ _ H1') (rs_reservation_id seg)) as Er.
    rewrite Hr in Er. destruct (find_reservation c' _) as [r'|] eqn:Hr'; [|done].
    apply (inj Some) in Er.
    rewrite (snapshot_of_rows sel c' seg r' f fc ff tf tc credit).
    + by rewrite (make_snapshot_fixed _ _ _ _ _ _ _ _ _ Er), (find_reservation_id _ _ _ Hr),
        (find_reservation_id _ _ _ Hr'), (same_passengers_of c' c2) by (etrans; [symmetry; apply H1'|apply H12]).
    + split; try done.
      * rewrite <- Hf. symmetry. apply same_find_flight, H1'.
      * rewrite <- Hfc. symmetry. apply same_find_class, H1'.
      * rewrite <- Htf. symmetry. apply same_find_flight, H3'.
      * rewrite <- Htc. symmetry. apply same_find_class, H3'.
Qed.

Lemma snapped_mono held held' c sn credit seg :
  (new_fare ∈ held' -> new_fare ∈ held) -> Snapped held c sn credit seg -> Snapped held' c sn credit seg.
Proof. intros Hsub []. split; auto. Qed.

(** The locks a snapshot asks for are held, or it is the first one. *)
Definition may_snapshot (held : list RowLock) : Prop := held = [] \/ snapshot_locks sel [] ⊆ held.

Lemma elem_of_snapshot_locks held l :
  l ∈ snapshot_locks sel held <->
  l = LSegment (sel_segment_id sel) \/ (exists id, sel_travel_credit_id sel = Some id /\ l = LCredit id) \/ l ∈ held.
Proof.
  unfold snapshot_locks, credit_lock. destruct (sel_travel_credit_id sel); rewrite ?elem_of_acquire; naive_solver.
Qed.

Lemma follows_snapshot K held c :
  may_snapshot held -> valid_db c ->
  (forall c' sn credit seg, agree (mine ++ held) c c' -> valid_db c' ->
     Snapped (snapshot_locks sel held) c' sn credit seg ->
     Follows (K (sn, credit)) id (snapshot_locks sel held) c') ->
  Follows (_snapshot_code sel true ≫= K) id held c.
Proof.
  intros Hmay Hc HK. split; [done|]. intros c1 H1 Hv1. cbn. unfold segment_query.
  destruct (find_segment c1 (sel_segment_id sel)) as [seg|] eqn:Hseg; cbn.
  2: { no_lock. refine (follows_missing _ id _ _ Hv1 _). by left. }
  rewrite (find_segment_id _ _ _ Hseg). split; [|split; [apply writes_nothing|]].
  { intros l [= <-]. destruct Hmay as [->|Hsub]; [right; split; [done|apply Forall_nil_2]|left]. apply Hsub, elem_of_snapshot_locks. auto. }
  set (held1 := acquire _ held).
  assert (LSegment (sel_segment_id sel) ∈ held1) as Hin1 by (apply elem_of_acquire; auto).
  destruct (booked_rows _ _ _ Hv1 Hseg) as (r & f & fc & _ & Hr & Hf & Hfc & _).
  rewrite Hr, Hf, Hfc. cbn.
  split; [done|]. intros c2 H12 Hv2. cbn. no_lock.
  split; [done|]. intros c3 H23 Hv3. cbn. no_lock.
  assert (agree (mine ++ held1) c1 c3) as H13 by (by etrans).
  assert (is_Some (find_segment c3 (sel_segment_id sel))) as Hseg3.
  { eapply same_frame_is_Some; [apply (same_segments _ _ (agree_frame _ _ _ H13))|by exists seg]. }
  unfold target_query. destruct (find_fare c3 _ _) as [ff|] eqn:Hff; cbn.
  2: { refine (follows_missing _ id _ _ Hv3 _). right. by left. }
  destruct (fare_rows _ _ _ _ Hv3 Hff) as (tf & tc & Htf & Htc). rewrite Htf, Htc. cbn.
  assert (agree (mine ++ held) c c3) as H03.
  { etrans; [exact H1|]. eapply agree_mono; [|exact H13].
    intros l. rewrite !elem_of_app. unfold held1. rewrite elem_of_acquire. naive_solver. }
  unfold snapshot_locks, credit_lock in HK. fold held1 in HK.
  destruct (sel_travel_credit_id sel) as [cid|] eqn:Hid.
  2: { cbn. apply (HK _ _ _ seg); [done..|]. apply (snapped_mono (mine ++ held1)); [set_solver|].
       eapply (snapped_at _ c1 c2 c3); try done; [set_solver|by rewrite Hid]. }
  split; [done|]. intros c4 H34 Hv4. cbn.
  assert (agree (mine ++ held1) c3 c4 ) as H34' by done.
  assert (agree (mine ++ held) c c4) as H04.
  { etrans; [exact H03|]. eapply agree_mono; [|exact H34].
    intros l. rewrite !elem_of_app. unfold held1. rewrite elem_of_acquire. naive_solver. }
  destruct (find_credit c4 cid) as [cr|] eqn:Hcr; cbn.
  2: { no_lock. refine (follows_missing _ id _ _ Hv4 _). right; right. split_and!.
       - eapply same_frame_is_Some; [apply (same_segments _ _ (agree_frame _ _ _ H34))|done].
       - eapply same_frame_is_Some; [apply (same_fares _ _ (agree_frame _ _ _ H34))|by exists ff].
       - eauto. }
  rewrite (find_credit_id _ _ _ Hcr). split; [|split; [apply writes_nothing|]].
  { intros l [= <-]. destruct Hmay as [->|Hsub].
    - right. split; [done|]. unfold held1. rewrite acquire_new by apply not_elem_of_nil. repeat constructor.
    - left. apply elem_of_acquire. right. apply Hsub, elem_of_snapshot_locks. eauto. }
  apply (HK _ _ _ seg); [done..|].
  apply (snapped_mono (mine ++ held1)).
  { rewrite elem_of_acquire. set_solver. }
  eapply (snapped_at _ c1 c2 c3); try done; [set_solver|by etrans|rewrite Hid; eauto].
Qed.

(** The fares are locked in their order. *)
Lemma follows_lock_each keys K held c :
  StronglySorted before ((fun k => LFare k.1 k.2) <$> keys) ->
  Forall (fun k => Forall (fun h => before h (LFare k.1 k.2)) held) keys -> valid_db c ->
  (forall c' held', agree (mine ++ held) c c' -> valid_db c' -> held ⊆ held' ->
     (forall k, k ∈ keys -> is_Some (find_fare c' k.1 k.2) -> LFare k.1 k.2 ∈ held') ->
     (forall l, l ∈ held' -> l ∈ held \/ exists k, l = LFare k.1 k.2) ->
     Follows (K tt) id held' c') ->
  Follows (lock_each keys ≫= K) id held c.
Proof.
  revert held c. induction keys as [|k keys IH]; intros held c Hsort Hbefore Hc HK.
  { apply HK; [done..| |auto]. by intros k ?%elem_of_nil. }
  cbn in Hsort. apply StronglySorted_inv in Hsort as [Hsort Hk]. rewrite Forall_fmap in Hk.
  apply Forall_cons in Hbefore as [Hb Hbefore].
  split; [done|]. intros c1 H1 Hv1. cbn.
  assert (forall held1 l, held ⊆ held1 -> agree (mine ++ held1) c1 l -> agree (mine ++ held) c l) as Hup.
  { intros held1 c' Hsub H. etrans; [exact H1|]. eapply agree_mono; [|exact H]. set_solver. }
  destruct (find_fare c1 k.1 k.2) as [ff|] eqn:Hff; cbn.
  - destruct (find_fare_key _ _ _ _ Hff) as [E1 E2]. unfold fare_lock. rewrite E1, E2.
    split; [|split; [apply writes_nothing|]]; [intros l [= <-]; by right|].
    assert (held ⊆ acquire (LFare k.1 k.2) held) as Hsub by (intros l; rewrite elem_of_acquire; auto).
    apply IH; [done| |done|].
    { apply Forall_forall. intros k' Hk'. apply Forall_forall. intros h. rewrite elem_of_acquire.
      intros [->|Hh]; [exact (proj1 (Forall_forall _ _) Hk _ Hk')|].
      exact (proj1 (Forall_forall _ _) (proj1 (Forall_forall _ _) Hbefore _ Hk') _ Hh). }
    intros c' held' Hag Hv' Hsub' Hall Hnew. apply HK; [by eapply Hup|done|set_solver| |].
    + intros k' [->|Hk']%elem_of_cons Hs; [|by apply Hall]. apply Hsub', elem_of_acquire. auto.
    + intros l [Hl|?]%Hnew; [|by right]. apply elem_of_acquire in Hl as [->|?]; [right; by exists k|auto].
  - no_lock. apply IH; [done..|].
    intros c' held' Hag Hv' Hsub' Hall Hnew. apply HK; [eapply Hup; [|exact Hag]; done|done|done| |done].
    intros k' [->|Hk']%elem_of_cons Hs; [|by apply Hall]. exfalso.
    apply same_frame_None with (fixed := fixed_fare) (o' := find_fare c' k.1 k.2) in Hff;
      [rewrite Hff in Hs; by destruct Hs|apply (same_fares _ _ (agree_frame _ _ _ Hag))].
Qed.

(** The second snapshot is taken, with everything it shows held. *)
Record Prepared (held : list RowLock) (c : DB) (sn : RebookingSnapshotSchema)
    (credit : option TravelCredit) : Prop := {
  pr_valid : valid_db c;
  pr_snapshot : get_snapshot c sel = Ok (sn, credit);
  pr_segment : LSegment (sel_segment_id sel) ∈ held;
  pr_credit id : sel_travel_credit_id sel = Some id -> LCredit id ∈ held;
  pr_new : new_fare ∈ held;
  pr_old : LFare (sn_old_flight_id sn) (sn_old_fare_class_id sn) ∈ held;
  pr_class : Forall (fun l => (lock_class l <= 2)%nat) held;
  pr_mine : LReservation (sn_reservation_id sn) ∈ mine }.

Lemma prepared_agree held c c' sn credit :
  Prepared held c sn credit -> agree (mine ++ held) c c' -> valid_db c' ->
  get_snapshot c' sel = Ok (sn, credit).
Proof.
  intros [Hv Hs Hseg Hcr Hnew _ _ _] Hag Hv'.
  destruct (get_snapshot_rows _ _ _ _ Hs) as (seg & r & f & fc & ff & tf & tc & [R1 R2 R3 R4 R5 R6 R7 R8] & ->).
  eapply (sp_snapshot (mine ++ held)); [|set_solver].
  eapply (snapped_at _ c c c c'); try done; [set_solver|].
  destruct (sel_travel_credit_id sel) as [cid|]; [|done]. destruct R8 as (cr & Hcr' & ->).
  exists cr. split; [|done]. rewrite <- Hcr'. symmetry.
  apply (agree_row _ _ _ Hag (LCredit cid)), elem_of_app. right. by apply Hcr.
Qed.

Lemma prepared_later held c c' sn credit :
  Prepared held c sn credit -> agree (mine ++ held) c c' -> valid_db c' -> Prepared held c' sn credit.
Proof. intros Hp Hag Hv. pose proof (prepared_agree _ _ _ _ _ Hp Hag Hv). by destruct Hp. Qed.

(** The rows a validated rebooking writes. *)
Record Validated (v : RebookingValidationSchema) (seg : ReservationSegment) (r : Reservation)
    (ff off : FlightFare) (cr : option TravelCredit) (c : DB) : Prop := {
  va_segment : find_segment c (sel_segment_id sel) = Some seg;
  va_reservation : find_reservation c (va_reservation_id v) = Some r;
  va_new : find_fare c (va_new_flight_id v) (va_new_fare_class_id v) = Some ff;
  va_old : find_fare c (va_old_flight_id v) (va_old_fare_class_id v) = Some off;
  va_credit : match sel_travel_credit_id sel with Some id => find_credit c id = cr /\ is_Some cr | None => True end }.

Lemma prepared_rows held c sn credit v :
  Prepared held c sn credit ->
  validate_rebooking_selection (am_now_validate am) sel sn credit = Ok v ->
  va_new_flight_id v = sel_new_flight_id sel /\ va_new_fare_class_id v = sel_new_fare_class_id sel /\
  va_old_flight_id v = sn_old_flight_id sn /\ va_old_fare_class_id v = sn_old_fare_class_id sn /\
  va_reservation_id v = sn_reservation_id sn /\
  exists seg r ff off cr, va_passenger_count v <= ff_available_seats ff /\
    forall c', agree (mine ++ held) c c' -> valid_db c' -> Validated v seg r ff off cr c'.
Proof.
  intros Hp Hval. destruct (Hp) as [Hv Hs Hseg Hcr Hnew Hold _ Hm].
  assert (va_old_flight_id v = sn_old_flight_id sn /\ va_old_fare_class_id v = sn_old_fare_class_id sn
          /\ va_reservation_id v = sn_reservation_id sn)
    as (Ho1 & Ho2 & Hr) by (by apply validate_iff in Hval as [_ ->]).
  destruct (validated_rows _ _ _ _ _ _ Hs Hval)
    as (seg & r & ff & f & cl & Hsg & Hof & Hofc & Hrr & Hrid & Hff & _ & _ & Hnf & Hnc & Hseats & _ & Hc).
  destruct (booked_rows _ _ _ Hv Hsg) as (_ & _ & _ & off & _ & _ & _ & Hoff).
  split_and!; [done..|]. exists seg, r, ff, off, (id ← sel_travel_credit_id sel; find_credit c id).
  split; [lia|]. intros c' Hag Hv'.
  assert (forall l, l ∈ mine ++ held -> same_row l c c') as Hrow by (intros l; by apply agree_row).
  split.
  - rewrite <- Hsg. symmetry. apply (Hrow (LSegment _)). set_solver.
  - rewrite <- Hrr. symmetry. apply (Hrow (LReservation _)). rewrite Hr. set_solver.
  - rewrite <- Hff. symmetry. apply (Hrow (LFare _ _)). rewrite Hnf, Hnc. set_solver.
  - rewrite Hof, Hofc, <- Hoff. symmetry. apply (Hrow (LFare _ _)). rewrite <- Hof, <- Hofc, Ho1, Ho2. set_solver.
  - destruct (sel_travel_credit_id sel) as [cid|]; [|done]. destruct Hc as (cr & Hcc & _). cbn. split.
    + symmetry. apply (Hrow (LCredit _)), elem_of_app. right. by apply Hcr.
    + by exists cr.
Qed.

(** What the transaction does from there, alone. *)
Lemma contract_validated c sn credit v seg r ff off cr :
  valid_db c -> get_snapshot c sel = Ok (sn, credit) ->
  validate_rebooking_selection (am_now_validate am) sel sn credit = Ok v ->
  Validated v seg r ff off cr c ->
  contract_of am sel c =
  if change_taken (am_change_id am) c then (raise InfraError "IntegrityError", c)
  else (Ok (mkRebookingResult (Some (change_of am sel v)) (book am v seg) (r_booking_reference r)),
        rebooked am sel v c).
Proof.
  intros Hv Hs Hval [Hseg Hr _ Hoff _]. unfold contract_of. rewrite execute_eq_spec by (by apply valid_schema).
  unfold execute_spec. rewrite Hs, res_bind_ret, Hval, res_bind_ret, Hoff. cbn [or_raise].
  rewrite res_bind_ret, Hseg, Hr. cbn [mbind option_bind or_raise]. rewrite res_bind_ret.
  unfold change_taken. by destruct (bool_decide _).
Qed.

(** The writes of the session amount to those of [rebooked]. *)
Definition seats_left (v : RebookingValidationSchema) (ff : FlightFare) : DB -> DB :=
  with_flight_fares (update (is_fare (ff_flight_id ff) (ff_fare_class_id ff))
    (set_seats (ff_available_seats ff - va_passenger_count v))).
Definition old_seen (v : RebookingValidationSchema) (ff off : FlightFare) : FlightFare :=
  if is_fare (ff_flight_id ff) (ff_fare_class_id ff) off
  then set_seats (ff_available_seats ff - va_passenger_count v) off else off.
Definition seats_back (v : RebookingValidationSchema) (off : FlightFare) : DB -> DB :=
  with_flight_fares (update (is_fare (ff_flight_id off) (ff_fare_class_id off))
    (set_seats (ff_available_seats off + va_passenger_count v))).
Definition total_paid (v : RebookingValidationSchema) (r : Reservation) : DB -> DB :=
  with_reservations (update (fun x => r_id x =? r_id r)%N
    (set_total (r_total_amount r + (va_fare_difference v + va_change_fee v - va_travel_credit_used v))
       (am_now_reservation am))).
Definition segment_moved (v : RebookingValidationSchema) (seg : ReservationSegment) : DB -> DB :=
  with_segments (update (fun s => rs_id s =? rs_id seg)%N (book am v)).
Definition credit_used (cr : TravelCredit) : DB -> DB :=
  let remaining := tc_remaining_amount cr - sel_travel_credit_amount sel in
  with_credits (update (fun x => tc_id x =? tc_id cr)%N
    (set_balance remaining (if remaining =? 0 then C_USED else C_PARTIALLY_USED))).
Definition credit_used_if (cr : option TravelCredit) : DB -> DB :=
  match sel_travel_credit_id sel, cr with Some _, Some cr => credit_used cr | _, _ => id end.

Lemma old_seen_found v ff off c fl fc :
  find_fare c fl fc = Some off -> find_fare (seats_left v ff c) fl fc = Some (old_seen v ff off).
Proof. intros H. unfold seats_left. by rewrite find_fare_written, H. Qed.

Lemma writes_rebooked v seg r ff off cr c :
  valid_db c -> Validated v seg r ff off cr c ->
  with_changes (fun t => t ++ [change_of am sel v])
    (credit_used_if cr (segment_moved v seg (total_paid v r (seats_back v (old_seen v ff off) (seats_left v ff c))))) =
  rebooked am sel v c.
Proof.
  intros Hv [Hseg Hr Hff Hoff Hcr]. pose proof (valid_schema _ Hv) as Hsch.
  pose proof (old_seen_found v ff _ _ _ _ Hoff) as Hseen. unfold seats_left in Hseen.
  destruct (find_fare_key _ _ _ _ Hff) as [Ef1 Ef2]. rewrite Ef1, Ef2 in Hseen.
  destruct (find_fare_key _ _ _ _ Hseen) as [Eo1 Eo2].
  pose proof (write_fares am sel v c Hsch _ _ Hff Hseen) as E1.
  pose proof (write_total am sel v c Hsch _ Hr) as E2.
  assert (travel_credits (credit_used_if cr c) = travel_credits (rebooked am sel v c)) as E3.
  { unfold credit_used_if. destruct (sel_travel_credit_id sel) as [cid|] eqn:Hid.
    - destruct Hcr as [Hcr [cr' ->]]. exact (write_balance am sel v c Hsch cid cr' Hid Hcr).
    - cbn. unfold spend_credit. by rewrite Hid. }
  unfold seats_left, seats_back, total_paid, segment_moved. rewrite Ef1, Ef2, Eo1, Eo2, (find_segment_id _ _ _ Hseg).
  revert E3. unfold credit_used_if. destruct (sel_travel_credit_id sel), cr; cbn [id]; intros E3;
    apply db_eq; first [reflexivity|exact E1|exact E2|exact E3].
Qed.

(** The statements of [write_code] in three groups. *)
Section Write.
Context (held : list RowLock) (c : DB) (v : RebookingValidationSchema).
Context (seg : ReservationSegment) (r : Reservation) (ff off : FlightFare) (cr : option TravelCredit).
Context (Hv : valid_db c) (Hseats : va_passenger_count v <= ff_available_seats ff).
Context (Hrows : forall c', agree (mine ++ held) c c' -> valid_db c' -> Validated v seg r ff off cr c').
Context (Hn : va_new_flight_id v = sel_new_flight_id sel /\ va_new_fare_class_id v = sel_new_fare_class_id sel).
Context (Hfl : fare_lock ff ∈ held) (Hofl : fare_lock off ∈ held) (Hsl : LSegment (sel_segment_id sel) ∈ held).

Lemma same_target c' :
  agree (mine ++ held) c c' -> valid_db c' ->
  target_query sel c' = Some (mkTargetRow ff (find_flight c (ff_flight_id ff)) (find_fare_class c (ff_fare_class_id ff))).
Proof.
  intros Hag Hv'. unfold target_query. destruct Hn as [<- <-].
  destruct (Hrows _ Hag Hv') as [_ _ -> _ _]. cbn. do 2 f_equal; symmetry;
    [by apply same_find_flight, Hag|by apply same_find_class, Hag].
Qed.

Lemma follows_seats rest :
  Follows rest (seats_back v (old_seen v ff off) ∘ (seats_left v ff ∘ id)) held c ->
  Follows (target ← _target_code sel true; take_seats_code v target;; release_seats_code v;; rest) id held c.
Proof.
  intros HF. unfold _target_code, query. code_cbn.
  assert (fare_lock (old_seen v ff off) ∈ held) as Hol by (unfold old_seen; by destruct (is_fare _ _ _)).
  eapply follows_relock; [done|exact Hfl| |].
  { intros c' Hag Hv'. cbn. by rewrite (same_target c'). }
  code_cbn. unfold take_seats_code. cbn [tg_fare]. rewrite (proj2 (Z.ltb_ge _ _) Hseats). unfold write_seats.
  code_cbn. eapply follows_update; [done|exact Hfl|apply writes_fare|].
  unfold release_seats_code, query. code_cbn.
  eapply follows_relock; [done|exact Hol| |].
  { intros c' Hag Hv'. destruct (Hrows _ Hag Hv') as [_ _ _ Ho _].
    pose proof (old_seen_found v ff _ _ _ _ Ho) as E. unfold seats_left in E. unfold compose, id. cbv beta. by rewrite E. }
  code_cbn. eapply follows_update; [done|exact Hol|apply writes_fare|exact HF].
Qed.

Lemma follows_book own K :
  (forall db, reservation_segments (own db) = reservation_segments db /\ reservations (own db) = reservations db) ->
  LReservation (r_id r) ∈ mine -> Forall (fun l => (lock_class l <= 2)%nat) held ->
  (forall c', agree (mine ++ held) c c' -> valid_db c' ->
     Follows (K (book am v seg, r)) (segment_moved v seg ∘ (total_paid v r ∘ own))
       (acquire (LReservation (r_id r)) held) c') ->
  Follows (book_segment_code am sel v ≫= K) own held c.
Proof.
  intros Hown Hml Hcls HF. unfold book_segment_code. code_cbn.
  eapply follows_select; [done| |].
  { intros c' Hag Hv'. destruct (Hrows _ Hag Hv') as [H _ _ _ _]. unfold find_segment. by rewrite (proj1 (Hown _)). }
  code_cbn. eapply follows_select; [done| |].
  { intros c' Hag Hv'. destruct (Hrows _ Hag Hv') as [_ H _ _ _]. unfold find_reservation. by rewrite (proj2 (Hown _)). }
  cbn [mbind option_bind]. code_cbn.
  eapply follows_update_new; [done|done| |apply writes_reservation|].
  { eapply Forall_impl; [exact Hcls|]. intros h Hh. left. cbn in *. lia. }
  intros c1 Hag1 Hv1. destruct (Hrows _ Hag1 Hv1) as [Hseg _ _ _ _].
  code_cbn. eapply follows_update; [done| |apply writes_segment|by apply HF].
  rewrite (find_segment_id _ _ _ Hseg), elem_of_acquire. by right.
Qed.

Lemma follows_consume own held1 c1 rest :
  (forall db, travel_credits (own db) = travel_credits db) -> held ⊆ held1 -> valid_db c1 ->
  (forall id, sel_travel_credit_id sel = Some id -> LCredit id ∈ held) ->
  (forall c', agree (mine ++ held1) c1 c' -> agree (mine ++ held) c c') ->
  Follows rest (credit_used_if cr ∘ own) held1 c1 ->
  Follows (consume_credit_code sel;; rest) own held1 c1.
Proof.
  intros Hown Hsub Hv1 Hcl Hup HF. unfold consume_credit_code, query, credit_used_if in *.
  destruct (Hrows c1) as [_ _ _ _ Hcr]; [by apply Hup|done|].
  destruct (sel_travel_credit_id sel) as [cid|] eqn:Hid; [|done].
  destruct Hcr as [Hcr [cr' ->]]. code_cbn.
  assert (LCredit (tc_id cr') ∈ held1) as Hcl' by (rewrite (find_credit_id _ _ _ Hcr); auto).
  eapply follows_relock; [done|exact Hcl'| |].
  { intros c' Hag Hv'. destruct (Hrows _ (Hup _ Hag) Hv') as [_ _ _ _ H]. rewrite Hid in H. destruct H as [H _].
    unfold find_credit in *. by rewrite Hown, H. }
  code_cbn. eapply follows_update; [done|exact Hcl'|apply writes_credit|exact HF].
Qed.
End Write.

Lemma follows_write held c sn credit v :
  Prepared held c sn credit ->
  validate_rebooking_selection (am_now_validate am) sel sn credit = Ok v ->
  Follows (write_code am sel v) id held c.
Proof.
  intros Hp Hval. destruct (prepared_rows _ _ _ _ _ Hp Hval)
    as (Hn1 & Hn2 & Ho1 & Ho2 & Hrid & seg & r & ff & off & cr & Hseats & Hrows).
  destruct (Hp) as [Hv _ Hsl Hcl Hnl Hol Hcls Hml].
  destruct (Hrows c (reflexivity _) Hv) as [_ Hr Hff Hoff _].
  destruct (find_fare_key _ _ _ _ Hff) as [Ef1 Ef2]. destruct (find_fare_key _ _ _ _ Hoff) as [Eo1 Eo2].
  apply (follows_seats held c v seg r ff off cr); [done..| | |].
  { unfold fare_lock. by rewrite Ef1, Ef2, Hn1, Hn2. }
  { unfold fare_lock. by rewrite Eo1, Eo2, Ho1, Ho2. }
  apply (follows_book held c v seg r ff off cr); [done..|by rewrite (find_reservation_id _ _ _ Hr), Hrid|done|].
  intros c1 Hag1 Hv1.
  assert (held ⊆ acquire (LReservation (r_id r)) held) as Hsub by (intros l; rewrite elem_of_acquire; auto).
  assert (forall c', agree (mine ++ acquire (LReservation (r_id r)) held) c1 c' -> agree (mine ++ held) c c') as Hup.
  { intros c' H. etrans; [exact Hag1|]. eapply agree_mono; [|exact H]. set_solver. }
  apply (follows_consume held c v seg r ff off cr); [done..|].
  apply follows_insert; [| |done|].
  - intros db. unfold compose, credit_used_if. by destruct (sel_travel_credit_id sel), cr.
  - apply Forall_forall. intros h. rewrite elem_of_acquire. intros [->|Hh]; [left; cbn; lia|].
    left. pose proof (proj1 (Forall_forall _ _) Hcls _ Hh). cbn in *. lia.
  - intros c' Hag Hv'. rewrite (contract_validated c' sn credit v seg r ff off cr); [|done|by eapply prepared_agree; eauto|done|by auto].
    unfold compose. by rewrite writes_rebooked by auto.
Qed.

Lemma fare_keys_sorted old new :
  key_ok old -> key_ok new ->
  StronglySorted before ((fun k => LFare k.1 k.2) <$> lock_keys old new) /\
  old ∈ lock_keys old new /\ new ∈ lock_keys old new.
Proof.
  intros Ho Hn. assert (forall a b, pair_lt (fare_key a) (fare_key b) ->
    StronglySorted before ((fun k => LFare k.1 k.2) <$> [a; b])) as H.
  { intros [a1 a2] [b1 b2] E. cbn. repeat (apply SSorted_cons || apply Forall_cons_2 || apply SSorted_nil || apply Forall_nil_2).
    right. done. }
  destruct (lock_keys_cases old new Ho Hn) as [[-> ->]|[[E ->]|[E ->]]].
  - split; [|set_solver]. cbn. apply SSorted_cons; [apply SSorted_nil|apply Forall_nil_2].
  - split; [by apply H|set_solver].
  - split; [by apply H|set_solver].
Qed.

(** A lock of the kinds a rebooking takes before it writes. *)
Lemma snapshot_locks_before held fl fc :
  held = [] -> Forall (fun h => before h (LFare fl fc)) (snapshot_locks sel held).
Proof.
  intros ->. apply Forall_forall. intros h. rewrite elem_of_snapshot_locks.
  intros [->|[(? & _ & ->)|?%elem_of_nil]]; [left; cbn; lia..|done].
Qed.

Lemma follows_rejected held c sn credit e :
  Prepared held c sn credit ->
  validate_rebooking_selection (am_now_validate am) sel sn credit = Raise e ->
  Follows (Throw e) id held c.
Proof.
  intros Hp Hval c' Hag Hv'. unfold contract_of. rewrite execute_eq_spec by (by apply valid_schema).
  unfold execute_spec. by rewrite (prepared_agree _ _ _ _ _ Hp Hag Hv'), res_bind_ret, Hval.
Qed.

Lemma follows_execute c :
  valid_db c ->
  (forall seg, find_segment c (sel_segment_id sel) = Some seg -> LReservation (rs_reservation_id seg) ∈ mine) ->
  Follows (execute_code am (validate_rebooking_selection (am_now_validate am)) sel) id [] c.
Proof.
  intros Hc Hmine. unfold execute_code. apply follows_snapshot; [by left|done|].
  intros c1 sn credit seg H01 Hv1 [Hseg [Ho1 Ho2] Hrid Htarget _]. cbv beta iota.
  destruct (booked_rows _ _ _ Hv1 Hseg) as (_ & _ & _ & off & _ & _ & _ & Hoff). rewrite <- Ho1, <- Ho2 in Hoff.
  destruct Htarget as [ff Hff].
  destruct (fare_keys_sorted _ _ (fare_key_ok _ _ _ _ Hv1 Hoff) (fare_key_ok _ _ _ _ Hv1 Hff)) as (Hsort & Hold & Hnew).
  unfold _lock_fares_code. apply follows_lock_each; [done| |done|].
  { apply Forall_forall. intros k _. by apply snapshot_locks_before. }
  intros c2 held H12 Hv2 Hsub Hfares Honly.
  assert (find_segment c2 (sel_segment_id sel) = Some seg) as Hseg2.
  { rewrite <- Hseg. symmetry. apply (agree_row _ _ _ H12 (LSegment _)). rewrite elem_of_app, elem_of_snapshot_locks. auto. }
  assert (LSegment (sel_segment_id sel) ∈ held) as Hsl by (apply Hsub, elem_of_snapshot_locks; auto).
  apply follows_snapshot; [by right|done|].
  intros c3 sn2 credit2 seg2 H23 Hv3 [Hseg3 [Ho1' Ho2'] Hrid2 _ Hsnap].
  assert (seg2 = seg) as ->.
  { pose proof (agree_row _ _ _ H23 (LSegment (sel_segment_id sel)) ltac:(set_solver)) as E. cbn in E. congruence. }
  assert (forall l, l ∈ held -> l ∈ snapshot_locks sel held) as Hsub2 by (intros l; rewrite elem_of_snapshot_locks; auto).
  assert (forall fl fc fa, find_fare c1 fl fc = Some fa -> is_Some (find_fare c2 fl fc)) as Hstill.
  { intros fl fc fa E. eapply same_frame_is_Some; [apply (same_fares _ _ (agree_frame _ _ _ H12))|by exists fa]. }
  assert (Prepared (snapshot_locks sel held) c3 sn2 credit2) as Hp.
  { assert (new_fare ∈ snapshot_locks sel held) as Hn by (apply Hsub2; by eapply (Hfares (_, _)), Hstill).
    split; [done|by apply Hsnap|by apply Hsub2| |done| | |].
    - intros id Hid. apply elem_of_snapshot_locks. right. left. by exists id.
    - rewrite Ho1', Ho2', <- Ho1, <- Ho2. apply Hsub2. by eapply (Hfares (_, _)), Hstill.
    - apply Forall_forall. intros l. rewrite elem_of_snapshot_locks.
      intros [->|[(? & _ & ->)|Hl]]; [cbn; lia..|].
      apply Honly in Hl as [Hl|[k ->]]; [|done]. apply elem_of_snapshot_locks in Hl as [->|[(? & _ & ->)|?%elem_of_nil]]; [cbn; lia..|done].
    - rewrite Hrid2. pose proof (same_segments _ _ (agree_frame _ _ _ H01) (sel_segment_id sel)) as E.
      rewrite Hseg in E. destruct (find_segment c _) as [seg0|]; [|done].
      apply (inj Some), (f_equal rs_reservation_id) in E. cbn in E. rewrite <- E. by apply Hmine. }
  destruct (validate_rebooking_selection (am_now_validate am) sel sn2 credit2) as [v|e] eqn:Hval; cbv beta iota.
  - code_cbn. by eapply follows_write.
  - code_cbn. by eapply follows_rejected.
Qed.
End Transaction.

(** Alone, the statements do what [execute] does: the two models of the
    transaction are one. *)
Theorem execute_code_alone am sel db :
  valid_db db ->
  alone (execute_code am (validate_rebooking_selection (am_now_validate am)) sel) db =
  execute am (validate_rebooking_selection (am_now_validate am)) sel db.
Proof.
  intros Hdb. symmetry. unfold alone.
  set (mine := match find_segment db (sel_segment_id sel) with
               | Some seg => [LReservation (rs_reservation_id seg)] | None => [] end).
  apply (follows_alone valid_db is_reservation ascending (contract_of am sel) mine _ id []); [done|].
  apply follows_execute; [done|]. intros seg Hseg. unfold mine. rewrite Hseg. set_solver.
Qed.

(** * Any number of rebookings *)

Notation Request := (Ambient * RebookingSelectionSchema)%type.

(** One session per request, as the workers open them. *)
Definition rebooking_codes (reqs : list Request) : list (Prog Sql RebookingResultSchema) :=
  (fun rq => execute_code rq.1 (validate_rebooking_selection (am_now_validate rq.1)) rq.2) <$> reqs.

(** Request number [i], alone. *)
Definition request_alone (reqs : list Request) (i : nat) (db : DB) : Res RebookingResultSchema * DB :=
  match reqs !! i with
  | Some rq => contract_of rq.1 rq.2 db
  | None => (raise InfraError EmptyString, db)
  end.

(** The reservation a request is about. *)
Definition reservation_of (db : DB) (rq : Request) : option UUID :=
  rs_reservation_id <$> find_segment db (sel_segment_id rq.2).
Definition different_reservations (db : DB) (reqs : list Request) : Prop :=
  NoDup (omap (reservation_of db) reqs).

(** The requests that committed, in that order. *)
Definition committed_requests (reqs : list Request) (log : list (nat * Res RebookingResultSchema)) : list Request :=
  omap (fun ir => match ir.2 with Ok _ => reqs !! ir.1 | Raise _ => None end) log.

Lemma NoDup_omap_index {A B} (f : A -> option B) l i j a b x :
  NoDup (omap f l) -> l !! i = Some a -> l !! j = Some b -> f a = Some x -> f b = Some x -> i = j.
Proof.
  revert i j. induction l as [|y l IH]; intros i j Hnd Hi Hj Ha Hb; [done|].
  assert (NoDup (omap f l)) as Hnd'.
  { cbn in Hnd. destruct (f y); [by apply NoDup_cons in Hnd as [_ ?]|done]. }
  assert (forall k c, l !! k = Some c -> f c = Some x -> f y <> Some x) as Hy.
  { intros k c Hk Hc Hyx. cbn in Hnd. rewrite Hyx in Hnd. apply NoDup_cons in Hnd as [Hnot _].
    apply Hnot, list_elem_of_omap. exists c. split; [by eapply list_elem_of_lookup_2|done]. }
  destruct i as [|i], j as [|j]; cbn in Hi, Hj; simplify_eq; try done.
  - exfalso. by eapply Hy.
  - exfalso. by eapply Hy.
  - f_equal. by apply IH.
Qed.

Section Requests.
Context (reqs : list Request) (db : DB).
Context (Hdb : valid_db db) (Hdiff : different_reservations db reqs).

Definition reservations_of (i : nat) : list RowLock :=
  match reqs !! i ≫= reservation_of db with Some id => [LReservation id] | None => [] end.

Lemma elem_of_reservations_of i l :
  l ∈ reservations_of i <-> exists rq id, reqs !! i = Some rq /\ reservation_of db rq = Some id /\ l = LReservation id.
Proof.
  unfold reservations_of. destruct (reqs !! i) as [rq|]; cbn.
  - destruct (reservation_of db rq) as [id|] eqn:E; rewrite ?list_elem_of_singleton, ?elem_of_nil; naive_solver.
  - rewrite elem_of_nil. naive_solver.
Qed.

Lemma requests_valid i c r c' : valid_db c -> request_alone reqs i c = (r, c') -> valid_db c'.
Proof. intros Hv. unfold request_alone. destruct (reqs !! i); [by apply contract_valid|by intros [= _ <-]]. Qed.

Lemma requests_private i l : l ∈ reservations_of i -> is_reservation l.
Proof. by intros (rq & id & _ & _ & ->)%elem_of_reservations_of. Qed.

Lemma requests_apart i j l : l ∈ reservations_of i -> l ∈ reservations_of j -> i = j.
Proof.
  intros (rq & id & Hi & Hid & ->)%elem_of_reservations_of (rq' & id' & Hj & Hid' & [= <-])%elem_of_reservations_of.
  by eapply NoDup_omap_index.
Qed.

Lemma rebookings_reached s :
  rtc step (start (rebooking_codes reqs) db) s ->
  Reached valid_db is_reservation ascending (request_alone reqs) reservations_of db s.
Proof.
  apply reached_steps; [apply requests_valid|apply requests_private|apply requests_apart|].
  apply reached_start; [done|]. intros i code. unfold rebooking_codes. rewrite list_lookup_fmap.
  intros (rq & Hi & ->)%fmap_Some. unfold request_alone. rewrite Hi. apply follows_execute; [done|].
  intros seg Hseg. apply elem_of_reservations_of. exists rq, (rs_reservation_id seg).
  split_and!; [done| |done]. unfold reservation_of. by rewrite Hseg.
Qed.

Lemma rebookings_can_end s :
  rtc step (start (rebooking_codes reqs) db) s -> exists s', rtc advance s s' /\ over s'.
Proof.
  intros Hs. eapply all_can_end;
    [apply requests_valid|apply requests_private|apply requests_apart|intros held l H; exact H|by apply rebookings_reached].
Qed.

Lemma serial_rebook_all c log c' :
  Serial (request_alone reqs) c log c' -> c' = rebook_all (committed_requests reqs log) c.
Proof.
  induction 1 as [c|c i a c' log c'' Hi _ IH|c i e log c'' _ _ IH]; [done| |done].
  unfold committed_requests in *. cbn. unfold request_alone in Hi. destruct (reqs !! i) as [rq|]; [|done].
  rewrite IH. cbn. unfold rebook. unfold contract_of in Hi. by rewrite Hi.
Qed.
End Requests.

(** C11: rebookings that run at the same time are serializable.  However the
    statements of any number of transactions interleave, with any of them
    waiting for row locks or failing at any point, the committed database is
    the one that executing the committed requests one after the other, in the
    order of their commits, would have left; each of them returned what it
    returns there, and one that failed has left nothing.  The requests are
    about different reservations; they may compete for the same fares and
    travel credits. *)
Theorem rebookings_serializable reqs db s :
  valid_db db -> different_reservations db reqs ->
  rtc step (start (rebooking_codes reqs) db) s ->
  Serial (request_alone reqs) db (ended s) (committed s) /\
  committed s = rebook_all (committed_requests reqs (ended s)) db /\
  NoDup (fst <$> ended s) /\ (forall i r, sessions s !! i = Some (Ended r) <-> (i, r) ∈ ended s).
Proof.
  intros Hdb Hdiff Hs. destruct (rebookings_reached _ _ Hdb Hdiff _ Hs) as [_ Hser _ _ Hend Honce].
  split_and!; [done|by apply serial_rebook_all|done|done].
Qed.

(** So no interleaving breaks the airline's books: at every moment what is
    committed is well-formed, no fare is oversold and no credit overdrawn, the
    seats of every fare are free or taken by its passengers as before, and
    the money reconciles with the change log. *)
Theorem concurrent_rebookings_keep_books reqs db s :
  valid_db db -> different_reservations db reqs ->
  rtc step (start (rebooking_codes reqs) db) s ->
  db_inv (committed s) /\
  (forall fl fc, is_Some (find_fare db fl fc) ->
     seats_of (committed s) fl fc + occupancy (committed s) fl fc = seats_of db fl fc + occupancy db fl fc) /\
  credit_balance (committed s) + credit_spent (committed s) = credit_balance db + credit_spent db /\
  totals (committed s) - charged (committed s) = totals db - charged db /\
  prices (committed s) - differences (committed s) = prices db - differences db.
Proof.
  intros Hdb Hdiff Hs. destruct (rebookings_reached _ _ Hdb Hdiff _ Hs) as [_ Hser _ _ _ _].
  rewrite (serial_rebook_all _ _ _ _ Hser). destruct Hdb as [Hdb _].
  split; [by apply keeps_invariant|]. split; [by intros; apply conserves_seats|by apply reconciles].
Qed.

(** C12: and they always come to an end.  No interleaving goes on for ever, and
    from every state it can reach, whatever has happened, every transaction can
    still end without being cancelled: somebody holds the lock everybody
    waits for, since all of them ask for their locks in one global order. *)
Theorem concurrent_rebookings_end reqs db s :
  valid_db db -> different_reservations db reqs ->
  rtc step (start (rebooking_codes reqs) db) s ->
  (exists s', rtc advance s s' /\ over s') /\ Acc (flip step) s.
Proof.
  intros Hdb Hdiff Hs. split; [|apply step_terminates].
  by apply (rebookings_can_end reqs db).
Qed.
