(* ===== verification/SqlConcurrency.v ===== *)
(** The asyncpg rebookings that run at the same time: the statements of
    [app/airline/repository/sql/rebooking.py] in sessions among others.

    Every row the transaction reads is locked when it is read and every write
    is relative, so nothing is asked of the requests but that they are about
    different segments: two of them may be about one reservation.  Their locks
    are not ordered, so they may deadlock, which a rollback ends. *)
From stdpp Require Import base numbers strings list sets relations sorting.
From S2P Require Import Prelude Models Rules Database Uuid Repositories OrmRebooking RebookingInvariants AirlineService SqlRebooking SqlRepositories.
From S2P Require Import Locking Effects Sessions OrmSession OrmConcurrency.
Local Open Scope Z_scope.
Local Open Scope bool_scope.

(** * The statements *)

(** [SELECT ... FOR UPDATE OF a, b]: the rows are locked one after the other. *)
Definition query_both {R} (first second : R -> RowLock) (q : DB -> option R) : Prog Sql (option R) :=
  row ← query true first q;
  match row with None => mret None | Some _ => query true second q end.

Definition sql_snapshot_code (selection : RebookingSelectionSchema) :
    Prog Sql (RebookingSnapshotSchema * option TravelCreditSchema) :=
  segment ← query_both (fun s => LSegment (rs_id (sg_segment s))) (fun s => LReservation (r_id (sg_reservation s)))
    (GET_REBOOKING_SEGMENT_FOR_UPDATE (sel_segment_id selection));
  segment ← of_res (or_raise segment SegmentNotFoundError "reservation segment not found");
  target ← query_both (fun t => LFlight (f_id (jr_flight t))) (fun t => fare_lock (jr_fare t))
    (GET_REBOOKING_TARGET_FOR_UPDATE (sel_new_flight_id selection) (sel_new_fare_class_id selection));
  target ← of_res (or_raise target FlightNotFoundError "target flight or fare not found");
  let snapshot := sql_make_snapshot segment target in
  match sel_travel_credit_id selection with
  | None => mret (snapshot, None)
  | Some credit_id =>
      credit ← query true (LCredit ∘ tc_id)
        (GET_TRAVEL_CREDIT_FOR_UPDATE credit_id (r_customer_id (sg_reservation segment)));
      credit ← of_res (or_raise credit TravelCreditNotFoundError "travel credit not found");
      mret (snapshot, Some credit)
  end.

(** An [UPDATE flight_fares] locks the row it matches, if it matches one. *)
Definition update_fare (flight_id fare_class_id : UUID) (f : DB -> DB) : Prog Sql unit :=
  row ← query true fare_lock (fun db => find_fare db flight_id fare_class_id);
  match row with None => mret tt | Some ff => await (Update (fare_lock ff) f) end.

Definition sql_change (now : datetime) (change_id : UUID) (selection : RebookingSelectionSchema)
    (validation : RebookingValidationSchema) : FlightChange := {|
  ch_id := change_id; ch_reservation_segment_id := sel_segment_id selection;
  ch_old_flight_id := va_old_flight_id validation; ch_new_flight_id := va_new_flight_id validation;
  ch_old_fare_class_id := va_old_fare_class_id validation;
  ch_new_fare_class_id := va_new_fare_class_id validation;
  ch_fare_difference := va_fare_difference validation; ch_change_fee := va_change_fee validation;
  ch_travel_credit_used := va_travel_credit_used validation;
  ch_currency := va_currency validation; ch_created_at := now |}.

(** The statements after [validate]. *)
Definition sql_write_code (now : datetime) (change_id : UUID) (selection : RebookingSelectionSchema)
    (validation : RebookingValidationSchema) : Prog Sql RebookingResultSchema :=
  update_fare (va_new_flight_id validation) (va_new_fare_class_id validation)
    (DECREMENT_FLIGHT_FARE_SEATS (va_passenger_count validation)
       (va_new_flight_id validation) (va_new_fare_class_id validation));;
  update_fare (va_old_flight_id validation) (va_old_fare_class_id validation)
    (INCREMENT_FLIGHT_FARE_SEATS (va_passenger_count validation)
       (va_old_flight_id validation) (va_old_fare_class_id validation));;
  await (Update (LSegment (sel_segment_id selection))
    (UPDATE_RESERVATION_SEGMENT now (sel_segment_id selection) (va_new_flight_id validation)
       (va_new_fare_class_id validation) (va_new_price validation) (va_currency validation)));;
  await (Update (LReservation (va_reservation_id validation))
    (UPDATE_RESERVATION_TOTAL now (va_reservation_id validation)
       (va_fare_difference validation + va_change_fee validation - va_travel_credit_used validation)));;
  match sel_travel_credit_id selection with
  | Some credit_id =>
      await (Update (LCredit credit_id) (CONSUME_TRAVEL_CREDIT credit_id (sel_travel_credit_amount selection)))
  | None => mret tt
  end;;
  await (Insert (sql_change now change_id selection validation) "UniqueViolationError");;
  mret {| rr_change := Some (sql_change now change_id selection validation);
          rr_segment := mkReservationSegment (sel_segment_id selection) (va_reservation_id validation)
            (va_new_flight_id validation) (va_new_fare_class_id validation) S_CHANGED
            (va_new_price validation) (va_currency validation) now now;
          rr_booking_reference := "" |}.

(** [now] is the transaction's [NOW()], [change_id] its [uuid4()]. *)
Definition sql_execute_code (now : datetime) (change_id : UUID) (validate : Validate)
    (selection : RebookingSelectionSchema) : Prog Sql RebookingResultSchema :=
  '(snapshot, credit) ← sql_snapshot_code selection;
  validation ← of_res (validate selection snapshot credit);
  sql_write_code now change_id selection validation.

(** * Writes of one row *)

Lemma writes_decrement n fl fc : writes_only [LFare fl fc] (DECREMENT_FLIGHT_FARE_SEATS n fl fc).
Proof. unfold DECREMENT_FLIGHT_FARE_SEATS, is_fare. one_row. Qed.
Lemma writes_increment n fl fc : writes_only [LFare fl fc] (INCREMENT_FLIGHT_FARE_SEATS n fl fc).
Proof. unfold INCREMENT_FLIGHT_FARE_SEATS, is_fare. one_row. Qed.
Lemma writes_moved now id fl fc price currency :
  writes_only [LSegment id] (UPDATE_RESERVATION_SEGMENT now id fl fc price currency).
Proof. unfold UPDATE_RESERVATION_SEGMENT. one_row. Qed.
Lemma writes_paid now id amount : writes_only [LReservation id] (UPDATE_RESERVATION_TOTAL now id amount).
Proof. unfold UPDATE_RESERVATION_TOTAL. one_row. Qed.
Lemma writes_consumed id amount : writes_only [LCredit id] (CONSUME_TRAVEL_CREDIT id amount).
Proof. unfold CONSUME_TRAVEL_CREDIT. one_row. Qed.

(** * The contract *)

Definition sql_contract (now nv : datetime) (change_id : UUID) (sel : RebookingSelectionSchema) :
    DB -> Res RebookingResultSchema * DB :=
  sql_execute now change_id (validate_rebooking_selection nv) sel.

Lemma sql_contract_keeps now nv change_id sel db r db' :
  db_inv db -> sql_contract now nv change_id sel db = (r, db') -> db_inv db'.
Proof.
  intros Hinv E. destruct Hinv as [Hdb Hsale H1 H2] eqn:Hi.
  destruct (sql_equivalent now nv change_id sel db Hdb Hsale) as [Heq _].
  unfold sql_contract in E. rewrite E in Heq. cbn in Heq. rewrite <- Heq.
  exact (keeps_invariant [(mkAmbient nv now now change_id now, sel)] db Hinv).
Qed.

(** A transaction whose snapshot fails does nothing. *)
Lemma sql_contract_raise now nv change_id sel db e :
  schema_ok db -> sql_get_snapshot db sel = Raise e -> sql_contract now nv change_id sel db = (Raise e, db).
Proof.
  intros Hdb H. unfold sql_contract, sql_execute, transaction, sql_execute_body.
  unfold sql_get_snapshot, transaction in H. rewrite txm_bind_eq.
  destruct (sql_snapshot sel (mkTx db [])) as [[[sn credit] tx]|e']; [done|]. by injection H as ->.
Qed.

Section SqlTransaction.
Context (now nv : datetime) (change_id : UUID) (sel : RebookingSelectionSchema) (mine : list RowLock).
Definition is_segment (l : RowLock) : Prop := match l with LSegment _ => True | _ => False end.
Definition any_order (held : list RowLock) (l : RowLock) : Prop := True.
Notation Follows := (Follows db_inv is_segment any_order (sql_contract now nv change_id sel) mine).

Context (Hmine : LSegment (sel_segment_id sel) ∈ mine).

(** The snapshot of a database, from its rows. *)
Definition party_size (db : DB) (seg : ReservationSegment) : Z :=
  Z.of_nat (length (select (fun rp => rp_reservation_id rp =? rs_reservation_id seg)%N (reservation_passengers db))).

Lemma sql_snapshot_of_rows db seg r f fc ff tf tc credit :
  schema_ok db -> SnapshotRows sel db seg r f fc ff tf tc credit ->
  f_id tf = ff_flight_id ff ->
  get_snapshot db sel = Ok (sql_make_snapshot (mkSegmentRow seg r f fc (party_size db seg)) (mkFareRow ff tf tc), credit).
Proof.
  intros Hdb Hrows Hid. rewrite (snapshot_of_rows sel db seg r f fc ff tf tc credit Hrows).
  do 2 f_equal. destruct Hrows as [_ Hr _ _ _ _ _ _]. rewrite (find_reservation_id _ _ _ Hr), passenger_counts by done.
  unfold sql_make_snapshot, make_snapshot; cbn. by rewrite Hid.
Qed.

(** A snapshot that misses a row misses it ever after. *)
Definition sql_missing (e : Exn) (db : DB) : Prop :=
  (find_segment db (sel_segment_id sel) = None /\
     e = mkExn SegmentNotFoundError "reservation segment not found") \/
  (is_Some (find_segment db (sel_segment_id sel)) /\
     find_fare db (sel_new_flight_id sel) (sel_new_fare_class_id sel) = None /\
     e = mkExn FlightNotFoundError "target flight or fare not found") \/
  (exists seg r id, find_segment db (sel_segment_id sel) = Some seg /\
     find_reservation db (rs_reservation_id seg) = Some r /\
     is_Some (find_fare db (sel_new_flight_id sel) (sel_new_fare_class_id sel)) /\
     sel_travel_credit_id sel = Some id /\
     (forall c, find_credit db id = Some c -> tc_customer_id c <> r_customer_id r) /\
     e = mkExn TravelCreditNotFoundError "travel credit not found").

Lemma sql_missing_fails e db : db_inv db -> sql_missing e db -> sql_contract now nv change_id sel db = (Raise e, db).
Proof.
  intros [Hdb _ _ _] Hmiss. apply sql_contract_raise; [done|]. rewrite sql_get_snapshot_eq by done.
  destruct Hmiss as [[Hseg ->]|[([seg Hseg] & Hff & ->)|(seg & r & id & Hseg & Hr & [ff Hff] & Hsel & Hcr & ->)]].
  - unfold get_snapshot, transaction, _snapshot. tx_unfold. by rewrite Hseg.
  - unfold get_snapshot, transaction, _snapshot, _target. tx_unfold. rewrite Hseg; cbn. by rewrite Hff.
  - destruct (segment_rows _ _ _ Hdb Hseg) as (r' & f & fc & Hr' & _ & Hf & Hfc).
    rewrite Hr in Hr'. injection Hr' as <-.
    pose proof (target_rows db (sel_new_flight_id sel) (sel_new_fare_class_id sel) Hdb) as Ht.
    rewrite Hff in Ht. destruct Ht as (tf & tc & Htf & Htid & Htc & _).
    destruct (find_credit db id) as [c|] eqn:Hc.
    + assert (SnapshotRows sel db seg r f fc ff tf tc (Some c)) as Hrows by (split; try done; rewrite Hsel; eauto).
      rewrite (sql_snapshot_of_rows db seg r f fc ff tf tc (Some c) Hdb Hrows Htid). cbn. by rewrite (proj2 (N.eqb_neq _ _) (Hcr _ eq_refl)).
    + unfold get_snapshot, transaction, _snapshot, _target, not_none, lock_if. tx_unfold.
      do 8 (rewrite ?Hseg, ?Hff, ?Hr, ?Hf, ?Hfc, ?Htf, ?Htc; cbn). by rewrite Hsel; cbn; rewrite Hc.
Qed.

Lemma same_fixed {A B K} (fixed : A -> B) (key : B -> K) (key' : A -> K) (o o' : option A) a :
  fixed <$> o = fixed <$> o' -> (forall x, key (fixed x) = key' x) -> o = Some a ->
  exists a', o' = Some a' /\ key' a' = key' a.
Proof.
  intros E Hk ->. destruct o' as [a'|]; [|done]. apply (inj Some) in E. exists a'. split; [done|].
  by rewrite <- !Hk, E.
Qed.

Lemma sql_missing_frame e db db' : same_frame db db' -> sql_missing e db -> sql_missing e db'.
Proof.
  intros [_ _ _ _ _ Hfa Hre Hsg Hcr] Hmiss.
  destruct Hmiss as [[Hn ->]|[(Hs & Hn & ->)|(seg & r & id & Hseg & Hr & Hff & Hsel & Hc & ->)]];
    [left|right; left|right; right].
  - split; [|done]. exact (same_frame_None _ _ _ (Hsg _) Hn).
  - split_and!; [exact (same_frame_is_Some _ _ _ (Hsg _) Hs)|exact (same_frame_None _ _ _ (Hfa _ _) Hn)|done].
  - destruct (same_fixed fixed_segment rs_reservation_id rs_reservation_id _ _ _ (Hsg _) ltac:(done) Hseg)
      as (seg' & Hseg' & E).
    destruct (same_fixed fixed_reservation r_customer_id r_customer_id _ _ _ (Hre _) ltac:(done) Hr) as (r' & Hr' & Ecu).
    exists seg', r', id. rewrite E, Ecu.
    split_and!; [done|done|exact (same_frame_is_Some _ _ _ (Hfa _ _) Hff)|done| |done].
    intros c' Hc'. destruct (same_fixed fixed_credit tc_customer_id tc_customer_id _ _ _ (eq_sym (Hcr _)) ltac:(done) Hc')
      as (c & Hcc & <-). by apply Hc.
Qed.

Lemma sql_follows_missing e own held c : sql_missing e c -> Follows (Throw e) own held c.
Proof. intros Hm c' [Hf _] Hv'. apply sql_missing_fails; [done|]. by eapply sql_missing_frame. Qed.

(** The snapshot is taken, and everything it shows is held. *)
Record SqlPrepared (held : list RowLock) (c : DB) (sn : RebookingSnapshotSchema)
    (credit : option TravelCredit) : Prop := {
  sp_own : own_credit sn credit = true;
  sp_always c' : agree (mine ++ held) c c' -> db_inv c' -> get_snapshot c' sel = Ok (sn, credit);
  sp_held_segment : LSegment (sel_segment_id sel) ∈ held;
  sp_held_reservation : LReservation (sn_reservation_id sn) ∈ held;
  sp_held_fare : LFare (sel_new_flight_id sel) (sel_new_fare_class_id sel) ∈ held;
  sp_held_credit id : sel_travel_credit_id sel = Some id -> LCredit id ∈ held }.

Lemma follows_lock {R} (q : DB -> option R) (name : R -> RowLock) k own held c :
  propagates k ->
  (forall c1, agree (mine ++ held) c c1 -> db_inv c1 ->
     match q (own c1) with
     | None => Follows (k (Ok None)) own held c1
     | Some a => (is_segment (name a) -> name a ∈ mine) /\ Follows (k (Ok (Some a))) own (acquire (name a) held) c1
     end) ->
  Follows (Await (SelectForUpdate (fun db => row ← q db; Some (name row, row))) k) own held c.
Proof.
  intros Hk H. split; [exact Hk|]. intros c1 Hag Hv. specialize (H c1 Hag Hv). cbn.
  destruct (q (own c1)) as [a|]; cbn; [|by no_lock]. destruct H as [Hp HF].
  split; [|split; [apply writes_nothing|done]]. intros l [= <-]. by right.
Qed.

(** The segment is found again, and the same, once it is locked. *)
Lemma segment_found c : schema_ok c ->
  match find_segment c (sel_segment_id sel) with
  | None => GET_REBOOKING_SEGMENT_FOR_UPDATE (sel_segment_id sel) c = None
  | Some seg => exists r f fc, find_reservation c (rs_reservation_id seg) = Some r /\
      find_flight c (rs_flight_id seg) = Some f /\ find_fare_class c (rs_fare_class_id seg) = Some fc /\
      GET_REBOOKING_SEGMENT_FOR_UPDATE (sel_segment_id sel) c = Some (mkSegmentRow seg r f fc (party_size c seg))
  end.
Proof.
  intros Hc. unfold GET_REBOOKING_SEGMENT_FOR_UPDATE.
  destruct (find_segment c (sel_segment_id sel)) as [seg|] eqn:Hseg; [|done].
  destruct (segment_rows _ _ _ Hc Hseg) as (r & f & fc & Hr & _ & Hf & Hfc).
  exists r, f, fc. split_and!; [done..|]. cbn. rewrite Hr. cbn. rewrite Hf. cbn. by rewrite Hfc.
Qed.

(** The row stays what it is while its locks are held. *)
Definition segment_stays (held : list RowLock) (c : DB) (row : SegmentRow) : Prop :=
  forall c', agree (mine ++ held) c c' -> db_inv c' ->
    find_segment c' (sel_segment_id sel) = Some (sg_segment row) /\
    find_reservation c' (rs_reservation_id (sg_segment row)) = Some (sg_reservation row) /\
    find_flight c' (rs_flight_id (sg_segment row)) = Some (sg_flight row) /\
    find_fare_class c' (rs_fare_class_id (sg_segment row)) = Some (sg_fare_class row) /\
    party_size c' (sg_segment row) = sg_passenger_count row.

Lemma party_size_frame c c' seg : same_frame c c' -> party_size c seg = party_size c' seg.
Proof. intros []. unfold party_size. congruence. Qed.

Lemma sql_follows_segment {B} (K : SegmentRow -> Prog Sql B) (K2 : B -> Prog Sql RebookingResultSchema) c :
  (forall c' row, db_inv c' ->
     let held := [LSegment (sel_segment_id sel); LReservation (rs_reservation_id (sg_segment row))] in
     segment_stays held c' row -> Follows (K row ≫= K2) id held c') ->
  Follows ((segment ← query_both (fun s => LSegment (rs_id (sg_segment s))) (fun s => LReservation (r_id (sg_reservation s)))
             (GET_REBOOKING_SEGMENT_FOR_UPDATE (sel_segment_id sel));
           segment ← of_res (or_raise segment SegmentNotFoundError "reservation segment not found"); K segment) ≫= K2)
    id [] c.
Proof.
  intros HK.
  assert (forall c1 held, find_segment c1 (sel_segment_id sel) = None ->
    Follows (Throw (mkExn SegmentNotFoundError "reservation segment not found")) id held c1) as Hfail.
  { intros c1 held H. apply sql_follows_missing. by left. }
  unfold query_both, query. code_cbn. eapply follows_lock; [done|].
  intros c1 H1 Hv1. pose proof (segment_found c1 (inv_schema _ Hv1)) as Hs. cbn [id].
  destruct (find_segment c1 _) as [seg|] eqn:Hseg; [|rewrite Hs; code_cbn; by apply Hfail].
  destruct Hs as (r1 & f1 & fc1 & _ & _ & _ & ->). cbn [sg_segment]. rewrite (find_segment_id _ _ _ Hseg).
  split; [done|]. code_cbn. eapply follows_lock; [done|].
  intros c2 H2 Hv2. pose proof (segment_found c2 (inv_schema _ Hv2)) as Hs. cbn [id].
  assert (find_segment c2 (sel_segment_id sel) = Some seg) as Hseg2.
  { rewrite <- Hseg. symmetry. apply (agree_row _ _ _ H2 (LSegment _)). set_solver. }
  rewrite Hseg2 in Hs. destruct Hs as (r & f & fc & Hr & Hf & Hfc & ->). cbn [sg_reservation].
  rewrite (find_reservation_id _ _ _ Hr). split; [done|]. code_cbn.
  apply HK; [done|]. cbn [sg_segment]. intros c' Hag Hv'. cbn.
  split_and!.
  - rewrite <- Hseg2. symmetry. apply (agree_row _ _ _ Hag (LSegment _)). set_solver.
  - rewrite <- Hr. symmetry. apply (agree_row _ _ _ Hag (LReservation _)). set_solver.
  - rewrite <- Hf. symmetry. apply same_find_flight, Hag.
  - rewrite <- Hfc. symmetry. apply same_find_class, Hag.
  - symmetry. apply party_size_frame, Hag.
Qed.

Definition target_stays (held : list RowLock) (c : DB) (row : FareRow) : Prop :=
  forall c', agree (mine ++ held) c c' ->
    find_fare c' (sel_new_flight_id sel) (sel_new_fare_class_id sel) = Some (jr_fare row) /\
    find_flight c' (ff_flight_id (jr_fare row)) = Some (jr_flight row) /\
    find_fare_class c' (ff_fare_class_id (jr_fare row)) = Some (jr_class row) /\
    f_id (jr_flight row) = ff_flight_id (jr_fare row).

Lemma sql_follows_target {B} held (K : FareRow -> Prog Sql B) (K2 : B -> Prog Sql RebookingResultSchema) c :
  is_Some (find_segment c (sel_segment_id sel)) ->
  (forall c' row held', db_inv c' -> agree (mine ++ held) c c' -> held ⊆ held' ->
     LFare (sel_new_flight_id sel) (sel_new_fare_class_id sel) ∈ held' -> target_stays held' c' row ->
     Follows (K row ≫= K2) id held' c') ->
  Follows ((target ← query_both (fun t => LFlight (f_id (jr_flight t))) (fun t => fare_lock (jr_fare t))
             (GET_REBOOKING_TARGET_FOR_UPDATE (sel_new_flight_id sel) (sel_new_fare_class_id sel));
           target ← of_res (or_raise target FlightNotFoundError "target flight or fare not found"); K target) ≫= K2)
    id held c.
Proof.
  intros Hseg HK.
  assert (forall c1 held1, agree (mine ++ held) c c1 ->
    find_fare c1 (sel_new_flight_id sel) (sel_new_fare_class_id sel) = None ->
    Follows (Throw (mkExn FlightNotFoundError "target flight or fare not found")) id held1 c1) as Hfail.
  { intros c1 held1 H Hn. apply sql_follows_missing. right; left. split_and!; [|done|done].
    exact (same_frame_is_Some _ _ _ (same_segments _ _ (agree_frame _ _ _ H) _) Hseg). }
  unfold query_both, query. code_cbn. eapply follows_lock; [done|]. intros c1 H1 Hv1. cbn [id].
  pose proof (target_rows c1 (sel_new_flight_id sel) (sel_new_fare_class_id sel) (inv_schema _ Hv1)) as Ht.
  destruct (find_fare c1 _ _) as [ff1|] eqn:Hff; [|rewrite Ht; code_cbn; exact (Hfail _ _ H1 Hff)]. clear Hff.
  destruct Ht as (f1 & cl1 & _ & _ & _ & ->). split; [done|]. code_cbn.
  assert (held ⊆ acquire (LFlight (f_id f1)) held) as Hsub1 by (intros l; rewrite elem_of_acquire; auto).
  eapply follows_lock; [done|]. intros c2 H2 Hv2. cbn [id jr_flight].
  assert (agree (mine ++ held) c c2) as H02 by (etrans; [exact H1|]; eapply agree_mono; [|exact H2]; set_solver).
  pose proof (target_rows c2 (sel_new_flight_id sel) (sel_new_fare_class_id sel) (inv_schema _ Hv2)) as Ht.
  destruct (find_fare c2 _ _) as [ff|] eqn:Hff; [|rewrite Ht; code_cbn; exact (Hfail _ _ H02 Hff)].
  destruct Ht as (f & cl & Hf & Hid & Hcl & ->). split; [done|]. code_cbn. cbn [jr_fare].
  destruct (find_fare_key _ _ _ _ Hff) as [E1 E2]. unfold fare_lock. rewrite E1, E2.
  apply HK; [done|done|..].
  - intros l Hl. apply elem_of_acquire. right. by apply Hsub1.
  - apply elem_of_acquire. by left.
  - intros c' Hag. cbn. split_and!; [| | |done].
    + rewrite <- Hff. symmetry. apply (agree_row _ _ _ Hag (LFare _ _)). rewrite elem_of_app, elem_of_acquire. auto.
    + rewrite <- Hf. symmetry. apply same_find_flight, Hag.
    + rewrite <- Hcl. symmetry. apply same_find_class, Hag.
Qed.

Lemma segment_stays_later held held' c c' row :
  segment_stays held c row -> held ⊆ held' -> agree (mine ++ held) c c' -> segment_stays held' c' row.
Proof.
  intros H Hsub Hag c'' Hag' Hv. apply H; [|done]. etrans; [exact Hag|]. eapply agree_mono; [|exact Hag']. set_solver.
Qed.
Lemma target_stays_later held held' c c' row :
  target_stays held c row -> held ⊆ held' -> agree (mine ++ held) c c' -> target_stays held' c' row.
Proof.
  intros H Hsub Hag c'' Hag'. apply H. etrans; [exact Hag|]. eapply agree_mono; [|exact Hag']. set_solver.
Qed.

Lemma prepared_snapshot_rows held c seg target credit :
  segment_stays held c seg -> target_stays held c target ->
  (forall c', agree (mine ++ held) c c' ->
    match sel_travel_credit_id sel with
    | Some id => exists cr, find_credit c' id = Some cr /\ credit = Some cr
    | None => credit = None
    end) ->
  forall c', agree (mine ++ held) c c' -> db_inv c' -> get_snapshot c' sel = Ok (sql_make_snapshot seg target, credit).
Proof.
  intros Hs Ht Hc c' Hag Hv. destruct (Hs c' Hag Hv) as (H1 & H2 & H3 & H4 & H5).
  destruct (Ht c' Hag) as (T1 & T2 & T3 & T4). destruct seg as [s r f fc n], target as [ff tf tc]. cbn in *.
  rewrite <- H5. apply sql_snapshot_of_rows; [apply Hv| |done]. split; try done. by apply Hc.
Qed.

Lemma sql_follows_snapshot K c :
  (forall c' sn credit held, db_inv c' -> SqlPrepared held c' sn credit -> Follows (K (sn, credit)) id held c') ->
  Follows (sql_snapshot_code sel ≫= K) id [] c.
Proof.
  intros HK. unfold sql_snapshot_code. apply sql_follows_segment.
  intros c1 seg Hv1 held1 Hseg. destruct (Hseg c1 (reflexivity _) Hv1) as (Hs1 & _).
  apply sql_follows_target; [by rewrite Hs1|].
  intros c2 target held2 Hv2 H2 Hsub Hfare Htarget.
  pose proof (segment_stays_later _ _ _ _ _ Hseg Hsub H2) as Hseg2.
  assert (forall credit held c', db_inv c' -> held2 ⊆ held -> agree (mine ++ held2) c2 c' ->
    own_credit (sql_make_snapshot seg target) credit = true ->
    (forall id, sel_travel_credit_id sel = Some id -> LCredit id ∈ held) ->
    (forall c'', agree (mine ++ held) c' c'' ->
      match sel_travel_credit_id sel with
      | Some id => exists cr, find_credit c'' id = Some cr /\ credit = Some cr
      | None => credit = None
      end) -> SqlPrepared held c' (sql_make_snapshot seg target) credit) as Hprep.
  { intros credit held c' Hv' Hsub2 Hag Hown Hheld Hcr.
    split; [done| |apply Hsub2, Hsub; set_solver|apply Hsub2, Hsub; cbn; set_solver|by apply Hsub2|done].
    apply prepared_snapshot_rows; [by eapply segment_stays_later|by eapply target_stays_later|done]. }
  destruct (sel_travel_credit_id sel) as [cid|] eqn:Hid.
  2: { code_cbn. apply HK; [done|]. by apply Hprep. }
  unfold query. code_cbn. eapply follows_lock; [done|]. intros c3 H3 Hv3. cbn [id].
  rewrite credit_rows by apply Hv3. destruct (Hseg2 c3 H3 Hv3) as (Hs3 & Hr3 & _).
  assert (forall c', sql_missing (mkExn TravelCreditNotFoundError "travel credit not found") c' ->
    Follows (Throw (mkExn TravelCreditNotFoundError "travel credit not found")) id held2 c') as Hfail.
  { intros c' H. by apply sql_follows_missing. }
  destruct (find_credit c3 cid) as [cr|] eqn:Hcr.
  2: { code_cbn. refine (Hfail _ _). right; right. exists (sg_segment seg), (sg_reservation seg), cid.
       split_and!; try done; [|by rewrite Hcr]. destruct (Htarget c3 H3) as [-> _]. done. }
  destruct (N.eqb_spec (tc_customer_id cr) (r_customer_id (sg_reservation seg))) as [Hcu|Hcu].
  2: { code_cbn. refine (Hfail _ _). right; right. exists (sg_segment seg), (sg_reservation seg), cid.
       split_and!; try done; [destruct (Htarget c3 H3) as [-> _]; done|]. rewrite Hcr. by intros ? [= <-]. }
  split; [done|]. code_cbn. cbn [compose]. rewrite (find_credit_id _ _ _ Hcr). apply HK; [done|].
  apply Hprep; [done|intros l; rewrite elem_of_acquire; auto|done| | |].
  - cbn. by apply N.eqb_eq.
  - intros id [= <-]. apply elem_of_acquire. by left.
  - intros c' Hag. exists cr. split; [|done]. rewrite <- Hcr. symmetry.
    apply (agree_row _ _ _ Hag (LCredit _)). rewrite elem_of_app, elem_of_acquire. auto.
Qed.

Lemma sql_prepared_agree held held' c c' sn credit :
  SqlPrepared held c sn credit -> held ⊆ held' -> agree (mine ++ held) c c' -> SqlPrepared held' c' sn credit.
Proof.
  intros [] Hsub Hag. split; auto. intros c'' Hag' Hv. apply sp_always0; [|done].
  etrans; [exact Hag|]. eapply agree_mono; [|exact Hag']. set_solver.
Qed.

Lemma found_lock db fl fc ff : find_fare db fl fc = Some ff -> fare_lock ff = LFare fl fc.
Proof. intros H. unfold fare_lock. by destruct (find_fare_key _ _ _ _ H) as [-> ->]. Qed.

(** The old fare is there, whatever the decrement has written. *)
Lemma old_fare_found db sn credit v :
  get_snapshot db sel = Ok (sn, credit) -> validate_rebooking_selection nv sel sn credit = Ok v -> db_inv db ->
  exists off, find_fare (DECREMENT_FLIGHT_FARE_SEATS (va_passenger_count v)
    (va_new_flight_id v) (va_new_fare_class_id v) db) (va_old_flight_id v) (va_old_fare_class_id v) = Some off.
Proof.
  intros Hs Hval Hv. destruct (validated_rows _ _ _ _ _ _ Hs Hval) as (seg & _ & _ & _ & _ & Hseg & Ho1 & Ho2 & _).
  apply scalar_Some in Hseg as [Hin _]. destruct (proj1 (Forall_forall _ _) (inv_on_sale _ Hv) _ Hin) as [off Hoff].
  rewrite Ho1, Ho2. unfold find_fare, DECREMENT_FLIGHT_FARE_SEATS, with_flight_fares. cbn [flight_fares].
  rewrite scalar_update by done. unfold find_fare in Hoff. rewrite Hoff. by eexists.
Qed.

Lemma sql_follows_write held c sn credit v :
  db_inv c -> SqlPrepared held c sn credit ->
  validate_rebooking_selection nv sel sn credit = Ok v ->
  Follows (sql_write_code now change_id sel v) id held c.
Proof.
  intros Hv Hp Hval. destruct (Hp) as [Hown Hsnap Hsl Hrl Hfl Hcl].
  assert (va_reservation_id v = sn_reservation_id sn) as Hrid by (by apply validate_iff in Hval as [_ ->]).
  unfold sql_write_code, update_fare, query. code_cbn. eapply follows_lock; [done|]. intros c1 H1 Hv1. cbn [id].
  destruct (validated_rows _ _ _ _ _ _ (Hsnap c1 H1 Hv1) Hval)
    as (seg & r & ff & f & cl & _ & _ & _ & _ & _ & Hff & _ & _ & Hn1 & Hn2 & _).
  rewrite Hff, (found_lock _ _ _ _ Hff). rewrite <- Hn1, <- Hn2 in Hfl.
  split; [done|]. rewrite acquire_held by done.
  code_cbn. rewrite (found_lock _ _ _ _ Hff).
  eapply follows_update; [done|exact Hfl|apply writes_decrement|].
  code_cbn. eapply follows_lock; [done|]. intros c2 H2 Hv2. unfold compose, id. cbv beta.
  assert (agree (mine ++ held) c c2) as H02 by (etrans; [exact H1|exact H2]).
  destruct (old_fare_found c2 sn credit v (Hsnap c2 H02 Hv2) Hval Hv2) as [off Hoff]. rewrite Hoff.
  rewrite (found_lock _ _ _ _ Hoff). split; [done|].
  set (held1 := acquire _ held). assert (held ⊆ held1) as Hsub by (intros l; unfold held1; rewrite elem_of_acquire; auto).
  assert (forall c', agree (mine ++ held1) c2 c' -> agree (mine ++ held) c c') as Hup.
  { intros c' H. etrans; [exact H02|]. eapply agree_mono; [|exact H]. set_solver. }
  code_cbn. rewrite (found_lock _ _ _ _ Hoff).
  eapply follows_update; [done|apply elem_of_acquire; by left|apply writes_increment|].
  code_cbn. eapply follows_update; [done|by apply Hsub|apply writes_moved|].
  code_cbn. eapply follows_update; [done|rewrite Hrid; by apply Hsub|apply writes_paid|].
  assert (forall own, (forall db, flight_changes (own db) = flight_changes db) ->
    (forall c', agree (mine ++ held) c c' -> db_inv c' ->
       with_changes (fun t => t ++ [sql_change now change_id sel v]) (own c') = rebooked (mkAmbient nv now now change_id now) sel v c') ->
    Follows (await (Insert (sql_change now change_id sel v) "UniqueViolationError") ≫= fun _ => mret (sql_result now nv change_id sel v)) own held1 c2) as Hlast.
  { intros own Hch Hw. apply follows_insert; [done|done|done|]. intros c' Hag Hv'.
    rewrite Hw by auto. unfold sql_contract.
    rewrite (sql_execute_run now nv change_id sel c' (inv_schema _ Hv') sn credit v (Hsnap c' (Hup _ Hag) Hv') Hval Hown).
    unfold change_taken. by destruct (bool_decide _). }
  pose proof (fun c' Hag Hv' => sql_writes now nv change_id sel c' (inv_schema c' Hv') sn credit v (Hsnap c' Hag Hv') Hval)
    as Hwrites.
  destruct (sel_travel_credit_id sel) as [cid|] eqn:Hid.
  - code_cbn. eapply follows_update; [done|by apply Hsub, Hcl|apply writes_consumed|].
    apply Hlast; [done|]. exact Hwrites.
  - apply Hlast; [done|]. exact Hwrites.
Qed.

Lemma sql_follows_execute c :
  db_inv c -> Follows (sql_execute_code now change_id (validate_rebooking_selection nv) sel) id [] c.
Proof.
  intros Hc. unfold sql_execute_code. apply sql_follows_snapshot. intros c' sn credit held Hv' Hp. cbv beta iota.
  destruct (validate_rebooking_selection nv sel sn credit) as [v|e] eqn:Hval; code_cbn; [by eapply sql_follows_write|].
  intros c'' Hag Hv''. unfold sql_contract, sql_execute, transaction, sql_execute_body.
  destruct (sql_snapshot_run c'' [] sel (inv_schema _ Hv'')) as [held' Hrun].
  rewrite (sp_always _ _ _ _ Hp c'' Hag Hv''), (sp_own _ _ _ _ Hp) in Hrun.
  rewrite txm_bind_eq, Hrun, txm_bind_eq. unfold lift at 1. by rewrite Hval.
Qed.
End SqlTransaction.

(** Alone, the statements do what [sql_execute] does. *)
Theorem sql_execute_code_alone now nv change_id sel db :
  db_inv db ->
  alone (sql_execute_code now change_id (validate_rebooking_selection nv) sel) db =
  sql_execute now change_id (validate_rebooking_selection nv) sel db.
Proof.
  intros Hdb. symmetry. unfold alone.
  apply (follows_alone db_inv is_segment any_order (sql_contract now nv change_id sel)
    [LSegment (sel_segment_id sel)] _ id []); [done|].
  apply sql_follows_execute; [set_solver|done].
Qed.

(** * Any number of rebookings *)

Record SqlRequest := mkSqlRequest {
  sq_now : datetime; sq_validated : datetime; sq_change_id : UUID; sq_selection : RebookingSelectionSchema }.

Definition sql_codes (reqs : list SqlRequest) : list (Prog Sql RebookingResultSchema) :=
  (fun rq => sql_execute_code (sq_now rq) (sq_change_id rq)
               (validate_rebooking_selection (sq_validated rq)) (sq_selection rq)) <$> reqs.
Definition sql_alone (reqs : list SqlRequest) (i : nat) (db : DB) : Res RebookingResultSchema * DB :=
  match reqs !! i with
  | Some rq => sql_contract (sq_now rq) (sq_validated rq) (sq_change_id rq) (sq_selection rq) db
  | None => (raise InfraError EmptyString, db)
  end.

(** The same request to the SQLAlchemy variant. *)
Definition orm_request (rq : SqlRequest) : Request :=
  (mkAmbient (sq_validated rq) (sq_now rq) (sq_now rq) (sq_change_id rq) (sq_now rq), sq_selection rq).

Definition different_segments (reqs : list SqlRequest) : Prop :=
  NoDup ((fun rq => sel_segment_id (sq_selection rq)) <$> reqs).

Section SqlRequests.
Context (reqs : list SqlRequest) (db : DB) (Hdb : db_inv db) (Hdiff : different_segments reqs).

Definition segments_of (i : nat) : list RowLock :=
  match reqs !! i with Some rq => [LSegment (sel_segment_id (sq_selection rq))] | None => [] end.

Lemma elem_of_segments_of i l :
  l ∈ segments_of i <-> exists rq, reqs !! i = Some rq /\ l = LSegment (sel_segment_id (sq_selection rq)).
Proof.
  unfold segments_of. destruct (reqs !! i) as [rq|]; rewrite ?list_elem_of_singleton, ?elem_of_nil; naive_solver.
Qed.

Lemma sql_rebookings_reached s :
  rtc step (start (sql_codes reqs) db) s ->
  Reached db_inv is_segment any_order (sql_alone reqs) segments_of db s.
Proof.
  apply reached_steps.
  - intros i c r c' Hv. unfold sql_alone. destruct (reqs !! i); [by apply sql_contract_keeps|by intros [= _ <-]].
  - by intros i l (rq & _ & ->)%elem_of_segments_of.
  - intros i j l (rq & Hi & ->)%elem_of_segments_of (rq' & Hj & [= E])%elem_of_segments_of.
    eapply (NoDup_lookup _ _ _ (sel_segment_id (sq_selection rq)) Hdiff); rewrite list_lookup_fmap; [by rewrite Hi|].
    rewrite Hj. cbn. by rewrite E.
  - apply reached_start; [done|]. intros i code. unfold sql_codes. rewrite list_lookup_fmap.
    intros (rq & Hi & ->)%fmap_Some. unfold sql_alone. rewrite Hi. apply sql_follows_execute; [|done].
    apply elem_of_segments_of. by exists rq.
Qed.

Lemma sql_serial_rebook_all c log c' :
  db_inv c -> Serial (sql_alone reqs) c log c' ->
  c' = rebook_all (committed_requests (orm_request <$> reqs) log) c.
Proof.
  intros Hc Hser. revert Hc. induction Hser as [c|c i a c' log c'' Hi _ IH|c i e log c'' _ _ IH]; intros Hc; [done| |by apply IH].
  unfold committed_requests in *. cbn. rewrite list_lookup_fmap. unfold sql_alone in Hi.
  destruct (reqs !! i) as [rq|]; [|done]. cbn.
  destruct (sql_equivalent (sq_now rq) (sq_validated rq) (sq_change_id rq) (sq_selection rq) c
    (inv_schema _ Hc) (inv_on_sale _ Hc)) as [E _].
  pose proof (sql_contract_keeps _ _ _ _ _ _ _ Hc Hi) as Hc'. unfold sql_contract in Hi. rewrite Hi in E. cbn in E.
  rewrite (IH Hc'). unfold rebook_all, rebook. cbn. by rewrite E.
Qed.
End SqlRequests.

(** C14: the rebookings of the asyncpg variant are serializable whenever they
    are about different segments, of one reservation or of several: every row
    is locked when it is read, and the total is written relative to what is
    there.  So the books hold at every moment of every interleaving, the
    reservation totals included. *)
Theorem sql_rebookings_serializable reqs db s :
  db_inv db -> different_segments reqs ->
  rtc step (start (sql_codes reqs) db) s ->
  Serial (sql_alone reqs) db (ended s) (committed s) /\
  committed s = rebook_all (committed_requests (orm_request <$> reqs) (ended s)) db /\
  db_inv (committed s) /\ totals (committed s) - charged (committed s) = totals db - charged db.
Proof.
  intros Hdb Hdiff Hs. destruct (sql_rebookings_reached _ _ Hdb Hdiff _ Hs) as [Hv Hser _ _ _ _].
  pose proof (sql_serial_rebook_all _ _ _ _ Hdb Hser) as E.
  split_and!; [done|done|done|]. rewrite E. by apply reconciles.
Qed.
