(* ===== verification/VerifyLater.v ===== *)
(** Verification among other rebookings: after its commit a rebooking is
    confirmed at every later moment, whatever else commits before [verify]
    reads, and between its two reads. *)
From stdpp Require Import base numbers strings list sets relations sorting.
From S2P Require Import Prelude Models Rules Database Uuid Repositories OrmRebooking RebookingInvariants RebookingOutcome AirlineService SqlRebooking SqlRepositories.
From S2P Require Import Locking Effects Sessions OrmSession OrmConcurrency SqlConcurrency.
Local Open Scope Z_scope.
Local Open Scope bool_scope.

(** [RebookingRepository.verify] as the two statements it sends: the segment is
    read in one committed state, its reservation in a later one. *)
Definition verify_across (db1 db2 : DB) (selection : RebookingSelectionSchema) : Res RebookingResultSchema :=
  segment ← or_raise (find_segment db1 (sel_segment_id selection))
              SegmentNotFoundError "reservation segment not found";
  if negb (rs_flight_id segment =? sel_new_flight_id selection)%N
     || negb (rs_fare_class_id segment =? sel_new_fare_class_id selection)%N
     || negb (bool_decide (rs_status segment = S_CHANGED)) then
    raise RebookingVerificationError "rebooking verification failed"
  else
    reservation ← or_raise (find_reservation db2 (rs_reservation_id segment))
                    RebookingVerificationError "rebooking reservation not found";
    Ok (mkRebookingResult None segment (r_booking_reference reservation)).

Lemma verify_across_same db sel : verify_across db db sel = verify db sel.
Proof. done. Qed.

(** What [verify] looks for: the segment on the selected flight and fare, and
    the reference of its reservation. *)
Record Confirmed (sel : RebookingSelectionSchema) (seg : ReservationSegment) (reference : string) (db : DB) : Prop := {
  cd_segment : find_segment db (sel_segment_id sel) = Some seg;
  cd_reference : r_booking_reference <$> find_reservation db (rs_reservation_id seg) = Some reference;
  cd_flight : rs_flight_id seg = sel_new_flight_id sel;
  cd_fare : rs_fare_class_id seg = sel_new_fare_class_id sel;
  cd_status : rs_status seg = S_CHANGED }.

Lemma confirmed_verifies sel seg reference db1 db2 :
  Confirmed sel seg reference db1 -> Confirmed sel seg reference db2 ->
  verify_across db1 db2 sel = Ok (mkRebookingResult None seg reference).
Proof.
  intros [Hs _ Hf Hc Hst] [_ Hr _ _ _]. unfold verify_across. rewrite Hs. cbn [or_raise mbind Res_bind].
  rewrite Hf, Hc, !N.eqb_refl, Hst. cbn [negb orb]. rewrite bool_decide_eq_true_2 by done. cbn [negb].
  destruct (find_reservation db2 _); [|done]. cbn in Hr. by injection Hr as <-.
Qed.

(** A rebooking leaves its segment confirmed. *)
Lemma executed_confirmed am sel db sn credit v seg r nf off :
  Executed am sel db sn credit v seg r nf off ->
  Confirmed sel (book am v seg) (r_booking_reference r) (rebooked am sel v db).
Proof.
  intros Hex. pose proof Hex as [_ _ _ _ [Hn1 Hn2]]. split; try done.
  - by eapply rebooked_segment_row.
  - cbn [book set_booking rs_reservation_id].
    by rewrite (rebooked_reservation_row _ _ _ _ _ _ _ _ _ _ Hex).
Qed.

(** A rebooking of another segment leaves it so. *)
Lemma confirmed_other am sel' v db sel seg reference :
  sel_segment_id sel' <> sel_segment_id sel ->
  Confirmed sel seg reference db -> Confirmed sel seg reference (rebooked am sel' v db).
Proof.
  intros Hne [Hs Hr Hf Hc Hst]. split; try done.
  - rewrite (rebooked_find_segment am sel' db v), Hs. cbn.
    rewrite (find_segment_id _ _ _ Hs). by rewrite (proj2 (N.eqb_neq _ _) (not_eq_sym Hne)).
  - rewrite (rebooked_find_reservation am sel' db v). rewrite <- Hr.
    destruct (find_reservation db _); [|done]. cbn. by case_match.
Qed.

(** * Along a serial log *)

Section Serial.
Context {A : Type} (contract : nat -> DB -> Res A * DB) (valid : DB -> Prop).
Context (Hvalid : forall i c r c', valid c -> contract i c = (r, c') -> valid c').

(** What one transaction establishes and the others keep holds at the end. *)
Lemma serial_after (P : DB -> Prop) i a c log c'' :
  Serial contract c log c'' -> valid c -> NoDup (fst <$> log) -> (i, Ok a) ∈ log ->
  (forall c c', valid c -> contract i c = (Ok a, c') -> P c') ->
  (forall j b c c', j <> i -> valid c -> P c -> contract j c = (Ok b, c') -> P c') ->
  P c''.
Proof using Hvalid.
  intros Hser Hc Hnd Hin Hown Hothers.
  assert (forall c log c'', Serial contract c log c'' -> valid c -> P c -> i ∉ (fst <$> log) -> P c'') as Hkeep.
  { clear -Hvalid Hothers. induction 1 as [c|c j b c' log c'' Hj _ IH|c j e log c'' _ _ IH]; intros Hc HP Hi; [done|..].
    - apply IH; [by eapply Hvalid| |set_solver]. eapply Hothers; [|done..]. set_solver.
    - apply IH; [done..|set_solver]. }
  revert Hc Hnd Hin. induction Hser as [c|c j b c' log c'' Hj Hser IH|c j e log c'' _ _ IH]; intros Hc Hnd Hin.
  - by apply not_elem_of_nil in Hin.
  - apply NoDup_cons in Hnd as [Hj' Hnd]. apply elem_of_cons in Hin as [[= <- <-]|Hin].
    + apply (Hkeep c' log); [done|by eapply Hvalid|by eapply Hown|done].
    + apply IH; [by eapply Hvalid|done..].
  - apply NoDup_cons in Hnd as [_ Hnd]. apply elem_of_cons in Hin as [[=]|Hin]. by apply IH.
Qed.
End Serial.

(** * Either variant *)

(** A segment of the start is a segment later, of the same reservation. *)
Definition same_segments (db c : DB) : Prop :=
  forall id, rs_reservation_id <$> find_segment c id = rs_reservation_id <$> find_segment db id.

Lemma same_segments_rebooked am sel v db c : same_segments db c -> same_segments db (rebooked am sel v c).
Proof.
  intros H id. rewrite <- H, (rebooked_find_segment am sel c v).
  destruct (find_segment c id); [|done]. cbn. by case_match.
Qed.

Section Orm.
Context (reqs : list Request) (db : DB) (Hdb : valid_db db) (Hdiff : different_reservations db reqs).

Lemma same_segments_alone j c r c' :
  valid_db c /\ same_segments db c -> request_alone reqs j c = (r, c') -> valid_db c' /\ same_segments db c'.
Proof.
  intros [Hv Hsame] Hj. split; [by eapply requests_valid|].
  unfold request_alone, contract_of in Hj. destruct (reqs !! j) as [rq'|]; [|by injection Hj as _ <-].
  destruct r as [b|e].
  - destruct (execute_Ok_inv _ _ _ _ _ (valid_schema _ Hv) Hj) as (? & ? & v & ? & ? & ? & ? & _ & -> & _).
    by apply same_segments_rebooked.
  - by rewrite (execute_Raise_inv _ _ _ _ _ (valid_schema _ Hv) Hj).
Qed.

(** A request that commits alone leaves its segment confirmed. *)
Lemma alone_confirmed i rq res c c' :
  reqs !! i = Some rq -> valid_db c -> request_alone reqs i c = (Ok res, c') ->
  Confirmed rq.2 (rr_segment res) (rr_booking_reference res) c'.
Proof.
  intros Hi Hv. unfold request_alone, contract_of. rewrite Hi. intros Hex.
  destruct (execute_Ok_inv _ _ _ _ _ (valid_schema _ Hv) Hex) as (? & ? & v & seg & r & ? & ? & He & -> & ->).
  by eapply executed_confirmed.
Qed.

(** One that commits later is of another segment. *)
Lemma alone_keeps_confirmed i j rq seg reference res c c' :
  j <> i -> reqs !! i = Some rq -> valid_db c /\ same_segments db c ->
  Confirmed rq.2 seg reference c -> request_alone reqs j c = (Ok res, c') ->
  Confirmed rq.2 seg reference c'.
Proof.
  intros Hj Hi [Hv Hsame] HP. unfold request_alone, contract_of. destruct (reqs !! j) as [rq'|] eqn:Ej; [|done].
  intros Hex.
  destruct (execute_Ok_inv _ _ _ _ _ (valid_schema _ Hv) Hex) as (? & ? & v & seg' & r & ? & ? & He & -> & _).
  apply confirmed_other; [|done]. intros Heq. apply Hj.
  assert (reservation_of db rq' = reservation_of db rq) as Hres by (unfold reservation_of; by rewrite Heq).
  assert (reservation_of db rq = Some (rs_reservation_id seg)) as Hrq.
  { unfold reservation_of. by rewrite <- (Hsame (sel_segment_id rq.2)), (cd_segment _ _ _ _ HP). }
  exact (NoDup_omap_index (reservation_of db) reqs j i rq' rq _ Hdiff Ej Hi (eq_trans Hres Hrq) Hrq).
Qed.

(** So it is confirmed in every state reached after it committed. *)
Lemma reached_confirmed s i rq res :
  rtc step (start (rebooking_codes reqs) db) s -> reqs !! i = Some rq -> (i, Ok res) ∈ ended s ->
  Confirmed rq.2 (rr_segment res) (rr_booking_reference res) (committed s).
Proof using Hdb Hdiff.
  intros Hs Hi Hin. destruct (rebookings_reached _ _ Hdb Hdiff _ Hs) as [_ Hser _ _ _ Honce].
  eapply (serial_after _ (fun c => valid_db c /\ same_segments db c) same_segments_alone _ i res _ _ _ Hser).
  - split; [exact Hdb|done].
  - exact Honce.
  - exact Hin.
  - intros c c' [Hv _]. by apply alone_confirmed.
  - intros j b c c' Hj Hc HP. by apply (alone_keeps_confirmed i j rq _ _ b c).
Qed.
End Orm.

(** What is over stays over. *)
Lemma ended_grows {A} (s s' : State A) x : rtc step s s' -> x ∈ ended s -> x ∈ ended s'.
Proof.
  induction 1 as [s|s s1 s' Hstep _ IH]; [done|]. intros Hx. apply IH.
  destruct Hstep as [i Hi|i msg Hi]; [unfold step_of in Hi|unfold fail_of in Hi].
  - destruct (sessions s !! i) as [[[a|e|o k] own held|]|]; try done; [..|cbn in Hi; destruct (granted _ _ _)];
      simplify_eq; cbn; rewrite ?elem_of_app; auto.
  - by destruct (sessions s !! i) as [[[a|e|o k] own held|]|]; simplify_eq.
Qed.

(** C13: the rebookings of SQLAlchemy: whenever [verify] runs after the commit, its
    two reads at any two later moments, it returns what [execute] returned. *)
Theorem concurrent_verified reqs db s1 s2 i rq res :
  valid_db db -> different_reservations db reqs ->
  rtc step (start (rebooking_codes reqs) db) s1 -> rtc step s1 s2 ->
  reqs !! i = Some rq -> (i, Ok res) ∈ ended s1 ->
  verify_across (committed s1) (committed s2) rq.2
  = Ok (mkRebookingResult None (rr_segment res) (rr_booking_reference res)).
Proof.
  intros Hdb Hdiff H1 H12 Hi Hin. apply confirmed_verifies.
  - exact (reached_confirmed reqs db Hdb Hdiff s1 i rq res H1 Hi Hin).
  - apply (reached_confirmed reqs db Hdb Hdiff s2 i rq res); [by etrans|done|by eapply ended_grows].
Qed.

(** * The asyncpg variant *)

(** Its [verify] is one statement. *)
Lemma confirmed_sql_verifies sel seg reference db :
  schema_ok db -> Confirmed sel seg reference db ->
  sql_verify db sel = Ok {| rr_change := None;
    rr_segment := mkReservationSegment (rs_id seg) (rs_reservation_id seg) (rs_flight_id seg)
      (rs_fare_class_id seg) (rs_status seg) (rs_price_paid seg) (rs_currency seg) _EPOCH _EPOCH;
    rr_booking_reference := reference |}.
Proof.
  intros Hdb HP. pose proof (sql_verify_equivalent db sel Hdb) as H.
  rewrite <- verify_across_same, (confirmed_verifies _ _ _ _ _ HP HP) in H.
  destruct (sql_verify db sel) as [[ch s' ref']|]; [|done]. cbn in H. by destruct H as (-> & -> & ->).
Qed.

(** No rebooking renames a reservation. *)
Definition same_references (db c : DB) : Prop :=
  forall id, r_booking_reference <$> find_reservation c id = r_booking_reference <$> find_reservation db id.

Lemma same_references_rebooked am sel v db c : same_references db c -> same_references db (rebooked am sel v c).
Proof.
  intros H id. rewrite <- H, (rebooked_find_reservation am sel c v).
  destruct (find_reservation c id); [|done]. cbn. by case_match.
Qed.

Section Sql.
Context (reqs : list SqlRequest) (db : DB) (Hdb : db_inv db) (Hdiff : different_segments reqs).

(** A rebooking of it, as one of the other variant. *)
Lemma sql_alone_Ok i rq c res c' :
  db_inv c -> reqs !! i = Some rq -> sql_alone reqs i c = (Ok res, c') ->
  exists am v seg reference, c' = rebooked am (sq_selection rq) v c /\
    Confirmed (sq_selection rq) seg reference c' /\
    rr_segment res = mkReservationSegment (rs_id seg) (rs_reservation_id seg) (rs_flight_id seg)
      (rs_fare_class_id seg) (rs_status seg) (rs_price_paid seg) (rs_currency seg) (sq_now rq) (sq_now rq).
Proof.
  intros Hc Hi. unfold sql_alone, sql_contract. rewrite Hi. intros Hsql.
  destruct (sql_equivalent (sq_now rq) (sq_validated rq) (sq_change_id rq) (sq_selection rq) c
    (inv_schema _ Hc) (inv_on_sale _ Hc)) as [E Heq].
  rewrite Hsql in E, Heq. cbn in E, Heq.
  set (am := mkAmbient _ _ _ _ _) in *.
  destruct (execute am _ _ c) as [[a|e] c1] eqn:Horm; [|done]. cbn in E, Heq. subst c1.
  destruct (execute_Ok_inv am _ _ _ _ (inv_schema _ Hc) Horm) as (? & ? & v & seg & r & ? & ? & He & -> & ->).
  exists am, v, (book am v seg), (r_booking_reference r). split; [done|].
  split; [by eapply executed_confirmed|apply Heq].
Qed.

Lemma sql_alone_keeps i c r c' :
  db_inv c /\ same_references db c -> sql_alone reqs i c = (r, c') -> db_inv c' /\ same_references db c'.
Proof.
  intros [Hc Hsame] E. destruct (reqs !! i) as [rq|] eqn:Hi.
  2: { unfold sql_alone in E. rewrite Hi in E. by injection E as _ <-. }
  split; [unfold sql_alone in E; rewrite Hi in E; by eapply sql_contract_keeps|].
  destruct r as [res|e].
  - destruct (sql_alone_Ok i rq c res c' Hc Hi E) as (am & v & seg & reference & -> & _).
    by apply same_references_rebooked.
  - unfold sql_alone, sql_contract, sql_execute, transaction in E. rewrite Hi in E.
    destruct (sql_execute_body _ _ _ _ _) as [[??]|]; [done|]. by injection E as _ <-.
Qed.

(** What stays of a rebooking: its segment, confirmed. *)
Definition sql_confirmed (rq : SqlRequest) (res : RebookingResultSchema) (c : DB) : Prop :=
  exists seg reference, Confirmed (sq_selection rq) seg reference c /\
    r_booking_reference <$> find_reservation db (rs_reservation_id seg) = Some reference /\
    rr_segment res = mkReservationSegment (rs_id seg) (rs_reservation_id seg) (rs_flight_id seg)
      (rs_fare_class_id seg) (rs_status seg) (rs_price_paid seg) (rs_currency seg) (sq_now rq) (sq_now rq).

Lemma sql_reached_confirmed s i rq res :
  rtc step (start (sql_codes reqs) db) s -> reqs !! i = Some rq -> (i, Ok res) ∈ ended s ->
  db_inv (committed s) /\ sql_confirmed rq res (committed s).
Proof using Hdb Hdiff.
  intros Hs Hi Hin. destruct (sql_rebookings_reached _ _ Hdb Hdiff _ Hs) as [Hv Hser _ _ _ Honce].
  split; [exact Hv|].
  eapply (serial_after _ (fun c => db_inv c /\ same_references db c) sql_alone_keeps _ i res _ _ _ Hser).
  - split; [exact Hdb|done].
  - exact Honce.
  - exact Hin.
  - intros c c' Hc E. destruct (sql_alone_keeps _ _ _ _ Hc E) as [_ Hsame].
    destruct (sql_alone_Ok i rq c res c' (proj1 Hc) Hi E) as (am & v & seg & reference & _ & HP & Hseg).
    exists seg, reference. split; [done|]. split; [|done]. rewrite <- Hsame. apply HP.
  - intros j b c c' Hj [Hc _] (seg & reference & HP & Href & Hseg) E.
    destruct (reqs !! j) as [rq'|] eqn:Ej; [|by unfold sql_alone in E; rewrite Ej in E].
    destruct (sql_alone_Ok j rq' c b c' Hc Ej E) as (am & v & seg' & reference' & -> & _).
    exists seg, reference. split; [|done]. apply confirmed_other; [|done]. intros Heq. apply Hj.
    apply (NoDup_lookup _ _ _ (sel_segment_id (sq_selection rq)) Hdiff);
      rewrite list_lookup_fmap; [by rewrite Ej; cbn; rewrite Heq|by rewrite Hi].
Qed.
End Sql.

(** The asyncpg variant: at every moment after its commit [verify] finds the
    segment that [execute] returned and supplies the reference it left out. *)
Theorem sql_concurrent_verified reqs db s1 s2 i rq res :
  db_inv db -> different_segments reqs ->
  rtc step (start (sql_codes reqs) db) s1 -> rtc step s1 s2 ->
  reqs !! i = Some rq -> (i, Ok res) ∈ ended s1 ->
  let segment := rr_segment res in
  exists reference,
    r_booking_reference <$> find_reservation db (rs_reservation_id segment) = Some reference /\
    sql_verify (committed s2) (sq_selection rq) = Ok {| rr_change := None;
      rr_segment := mkReservationSegment (rs_id segment) (rs_reservation_id segment) (rs_flight_id segment)
        (rs_fare_class_id segment) (rs_status segment) (rs_price_paid segment) (rs_currency segment) _EPOCH _EPOCH;
      rr_booking_reference := reference |}.
Proof.
  intros Hdb Hdiff H1 H12 Hi Hin.
  destruct (sql_reached_confirmed reqs db Hdb Hdiff s2 i rq res) as [Hv (seg & reference & HP & Href & ->)];
    [by etrans|done|by eapply ended_grows|].
  exists reference. split; [exact Href|].
  exact (confirmed_sql_verifies _ _ _ _ (inv_schema _ Hv) HP).
Qed.
