(* ===== verification/LoadGenerator.v ===== *)
(** The closed-loop load generator: [bench/loadgen.py], up to the statistics.

    Times are rationals (see PyFloat); the clock, the HTTP API, the status
    watcher and the queue's management API are awaited operations.  The
    [StatusWatcher] is a state machine over its waiters; the statistics of a
    level are in LoadSummary, the levels and the worker processes in LoadRuns,
    the comparison of runs in Report. *)
From Stdlib Require Import Ascii String QArith.
From stdpp Require Import base numbers strings list sets gmap.
From S2P Require Import Prelude Models Uuid PyVal Effects.
Local Open Scope string_scope.

(** * Seeded identifiers *)

(** [f"{n:0{w}d}"]: the digits of [n], at least [w] of them. *)
Fixpoint dec (w : nat) (n : N) : list ascii :=
  match w with
  | O => []
  | S w' => (dec w' (n / 10) ++ [hex_digit (n mod 10)])%list
  end.
Fixpoint count_digits (fuel : nat) (n : N) : nat :=
  match fuel with
  | O => 1
  | S fuel' => if (n <? 10)%N then 1 else S (count_digits fuel' (n / 10))
  end.
Definition width (n : N) : nat := count_digits (N.size_nat n) n.
Definition zero_padded (w : nat) (n : N) : string :=
  string_of_list_ascii (dec (Nat.max w (width n)) n).

Example padded : (zero_padded 6 42, zero_padded 2 1234, zero_padded 1 0) = ("000042", "1234", "0").
Proof. reflexivity. Qed.

(** The dict [ids] returns. *)
Record Ids := mkIds {
  id_user_id : string; id_segment_id : string; id_new_flight_id : string;
  id_booking_reference : string }.

Definition FARE_CLASS_ID : string := "b0000000-0000-0000-0000-000000000001".

Definition ids (index groups : N) : Res Ids :=
  if (groups =? 0)%N then raise ZeroDivisionError "integer modulo by zero"
  else
    let group := (index mod groups)%N in
    Ok (mkIds ("b3000000-0000-0000-0000-" +:+ zero_padded 12 index)
              ("b6000000-0000-0000-0000-" +:+ zero_padded 12 index)
              ("b1100000-0000-0000-0000-" +:+ zero_padded 12 group)
              ("BK" +:+ zero_padded 6 index)).

(** * Conversations *)

Notation Timing := (gmap string Z).

Record Conversation := mkConversation {
  cv_index : N; client_start : Q; client_end : Q; cv_ok : bool; cv_error : string;
  start_job : string; resume_job : string; timings : gmap string Timing }.

Definition new_conversation (index : N) (start : Q) : Conversation :=
  mkConversation index start 0 false "" "" "" ∅.
Definition with_start_job (job : string) (c : Conversation) : Conversation :=
  mkConversation (cv_index c) (client_start c) (client_end c) (cv_ok c) (cv_error c) job (resume_job c) (timings c).
Definition with_resume_job (job : string) (c : Conversation) : Conversation :=
  mkConversation (cv_index c) (client_start c) (client_end c) (cv_ok c) (cv_error c) (start_job c) job (timings c).
Definition finished (ok : bool) (error : string) (at_ : Q) (c : Conversation) : Conversation :=
  mkConversation (cv_index c) (client_start c) at_ ok error (start_job c) (resume_job c) (timings c).

(** [text[:n]], counted in characters. *)
Fixpoint take_chars (n : nat) (s : string) : string :=
  match s with
  | "" => ""
  | String a s' =>
      if (Nat.div (nat_of_ascii a) 64 =? 2)%nat then String a (take_chars n s')
      else match n with O => "" | S n' => String a (take_chars n' s') end
  end.

(** What a conversation awaits: [self.http.post] of a body with its key, whose
    successful reply is the endpoint's [dict[str, str]], and
    [self.watcher.wait]. *)
Inductive BenchOp : Type -> Type :=
  | PostChat (body : PyVal) (key : string) : BenchOp (list (string * string))
  | WaitStatus (job_id : string) (targets : list string) : BenchOp string.
Notation BenchM := (Prog BenchOp).

Fixpoint reply_id (reply : list (string * string)) : Res string :=
  match reply with
  | [] => raise KeyError "id"
  | (k, v) :: reply' => if k =? "id" then Ok v else reply_id reply'
  end.
Definition post (body : PyVal) (key : string) : BenchM string :=
  reply ← await (PostChat body key); of_res (reply_id reply).

Section Conversation.
Context (run_id : string) (groups : N).
(** [type(error).__name__]. *)
Context (type_name : Exn -> string).

Definition session_of (index : N) : string :=
  "bench-" +:+ run_id +:+ "-" +:+ zero_padded 1 index.
Definition base (index : N) (seeded : Ids) : list (string * PyVal) :=
  [("user_id", PStr (id_user_id seeded)); ("session_id", PStr (session_of index))].
Definition bench_message (seeded : Ids) : string :=
  "I need to rebook reservation " +:+ id_booking_reference seeded +:+ " between 2026-09-21 and 2026-09-23".
Definition start_body (index : N) (seeded : Ids) : PyVal :=
  PDict (base index seeded ++ [("message", PStr (bench_message seeded))])%list.
Definition bench_selection (seeded : Ids) : PyVal :=
  PDict [("segment_id", PStr (id_segment_id seeded)); ("new_flight_id", PStr (id_new_flight_id seeded));
         ("new_fare_class_id", PStr FARE_CLASS_ID); ("travel_credit_amount", PStr "0")].
Definition resume_body (index : N) (seeded : Ids) : PyVal :=
  PDict (base index seeded
         ++ [("resume", PDict [("confirmed", PBool true); ("selection", bench_selection seeded)])])%list.
Definition bench_key (index : N) (phase : string) : string :=
  run_id +:+ "-" +:+ zero_padded 1 index +:+ "-" +:+ phase.

(** The [try] block of [conversation]: the conversation as far as it got, and
    the exception that ended it. *)
Definition converse (index : N) (seeded : Ids) (conv : Conversation) :
    BenchM (Conversation * option Exn) :=
  attempt (post (start_body index seeded) (bench_key index "start")) conv (fun job =>
    let conv := with_start_job job conv in
    attempt (await (WaitStatus (start_job conv) ["waiting_for_confirmation"])) conv (fun status =>
      if negb (status =? "waiting_for_confirmation") then
        mret (conv, Some (mkExn RuntimeError ("start job " +:+ status)))
      else
        attempt (post (resume_body index seeded) (bench_key index "resume")) conv (fun job =>
          let conv := with_resume_job job conv in
          attempt (await (WaitStatus (resume_job conv) ["completed"])) conv (fun status =>
            if negb (status =? "completed") then
              mret (conv, Some (mkExn RuntimeError ("resume job " +:+ status)))
            else mret (conv, None))))).

Definition error_text (e : Exn) : string :=
  if isinstance e TimeoutError then "timeout"
  else take_chars 200 (type_name e +:+ ": " +:+ exn_str e).

(** [conversation], for the index [take_index] yields and the times read at its
    start and end. *)
Definition conversation (index : N) (start end_ : Q) : BenchM Conversation :=
  seeded ← of_res (ids index groups);
  '(conv, error) ← converse index seeded (new_conversation index start);
  mret (match error with
        | None => finished true "" end_ conv
        | Some e => finished false (error_text e) end_ conv
        end).
End Conversation.

(** * Sharing the seeded indices and the users *)

(** The state of a generator: the next index, with its fixed step and limit. *)
Definition take_index (seeded step next : N) : Res (N * N) :=
  if (seeded <? next)%N then
    raise SeedsExhausted "ran out of seeded reservations; seed more conversations"
  else Ok (next, (next + step)%N).

Definition first_of_shard (first_index shard : N) : N := (first_index + shard)%N.

(** The indices [n] calls of [take_index] yield. *)
Fixpoint taken (seeded step next : N) (n : nat) : list N :=
  match n with
  | O => []
  | S n' =>
      match take_index seeded step next with
      | Ok (index, next') => index :: taken seeded step next' n'
      | Raise _ => []
      end
  end.

(** The users of a shard: [users // shards + (1 if shard < users % shards else 0)]. *)
Definition users_of_shard (users shards shard : N) : N :=
  (users / shards + (if shard <? users mod shards then 1 else 0))%N.

(** * A virtual user *)

Inductive UserOp : Type -> Type :=
  | UserNow : UserOp Q
  | Converse : UserOp Conversation
  | UserSleep (seconds : Q) : UserOp unit.
Notation UserM := (Prog UserOp).

(** [user]: the conversations it appends.  The loop ends by the clock, so the
    fuel bounds its rounds. *)
Fixpoint user (fuel : nat) (stop_at : Q) (conversations : list Conversation) :
    UserM (list Conversation) :=
  match fuel with
  | O => mret conversations
  | S fuel' =>
      now ← await UserNow;
      if negb (Qle_bool stop_at now) then
        try_else (await Converse)
          (fun e => if isinstance e SeedsExhausted then mret conversations else Throw e)
          (fun conv =>
             (if cv_ok conv then mret tt else await (UserSleep 1));;
             user fuel' stop_at (conversations ++ [conv])%list)
      else mret conversations
  end.

(** * Draining the queue *)

Inductive DrainOp : Type -> Type :=
  | DrainNow : DrainOp Q
  | GetQueue : DrainOp (list (string * Z))
  | DrainSleep (seconds : Q) : DrainOp unit.
Notation DrainM := (Prog DrainOp).

Fixpoint count_of (key : string) (data : list (string * Z)) : Z :=
  match data with
  | [] => 0
  | (k, v) :: data' => if k =? key then v else count_of key data'
  end.
Definition backlog (data : list (string * Z)) : Z :=
  (count_of "messages_ready" data + count_of "messages_unacknowledged" data)%Z.

(** The loop of [drain]: whether the queue was seen empty; running out of time
    only warns. *)
Fixpoint drain_loop (fuel : nat) (deadline : Q) : DrainM (option bool) :=
  match fuel with
  | O => mret None
  | S fuel' =>
      now ← await DrainNow;
      if negb (Qle_bool deadline now) then
        data ← await GetQueue;
        if (backlog data =? 0)%Z then mret (Some true)
        else await (DrainSleep 1);; drain_loop fuel' deadline
      else mret (Some false)
  end.

(** * The status watcher *)

Record Waiter := mkWaiter { w_targets : gset string; w_result : option string }.
Notation Waiters := (gmap string Waiter).

(** [wait] registers a waiter, and removes it whatever the outcome. *)
Definition register (job_id : string) (targets : gset string) (w : Waiters) : Waiters :=
  <[job_id := mkWaiter (targets ∪ {["failed"]}) None]> w.
Definition unregister (job_id : string) (w : Waiters) : Waiters := delete job_id w.

(** One pair of the inner loop of [_loop]. *)
Definition settle (w : Waiters) (reading : string * option string) : Waiters :=
  match w !! reading.1, reading.2 with
  | Some waiter, Some status =>
      if decide (status ∈ w_targets waiter) then
        match w_result waiter with
        | None => <[reading.1 := mkWaiter (w_targets waiter) (Some status)]> w
        | Some _ => w
        end
      else w
  | _, _ => w
  end.
Definition settle_chunk (chunk : list string) (statuses : list (option string)) (w : Waiters) : Waiters :=
  foldl settle w (zip chunk statuses).

(** [range(0, len(l), n)] and [l[offset : offset + n]]. *)
Fixpoint chunks_of {A} (fuel n : nat) (l : list A) : list (list A) :=
  match fuel, l with
  | _, [] => []
  | O, _ => []
  | S fuel', _ => firstn n l :: chunks_of fuel' n (skipn n l)
  end.
Definition chunks {A} (n : nat) (l : list A) : list (list A) := chunks_of (length l) n l.

(** One round of [_loop] when nothing else runs: every chunk is read with one
    MGET of [status]. *)
Definition poll (status : string -> option string) (w : Waiters) : Waiters :=
  foldl (fun w chunk => settle_chunk chunk (status <$> chunk) w) w
    (chunks 500 (map_to_list w).*1).

(** Coroutines interleave at their awaits: a chunk may be settled long after
    its keys were read, with any statuses. *)
Inductive WatcherStep (w : Waiters) : Waiters -> Prop :=
  | ws_wait job_id targets : WatcherStep w (register job_id targets w)
  | ws_poll chunk statuses : WatcherStep w (settle_chunk chunk statuses w)
  | ws_done job_id : WatcherStep w (unregister job_id w).
