(* ===== verification/LoadProperties.v ===== *)
(** What holds of the load generator: its identifiers are distinct, its shards
    share the seeded reservations and the users exactly, a conversation reports
    what happened, waiters get a status they wait for, and the queue's drain
    ends. *)
From Stdlib Require Import Ascii String QArith Lqa.
From stdpp Require Import base numbers strings list sets gmap relations.
From S2P Require Import Prelude Models Uuid PyVal Effects LoadGenerator.
Local Open Scope string_scope.

(** * Decimal text *)

Definition of_dec (l : list ascii) : N := foldl (fun acc c => acc * 10 + digit_of c)%N 0%N l.

Lemma of_dec_dec w n : of_dec (dec w n) = (n mod 10 ^ N.of_nat w)%N.
Proof.
  revert n; induction w as [|w IH]; intros n; [cbn; by rewrite N.mod_1_r|].
  rewrite Nat2N.inj_succ, N.pow_succ_r'. cbn [dec]. unfold of_dec. rewrite foldl_app.
  fold (of_dec (dec w (n / 10))). rewrite IH. cbn [foldl].
  assert (digit_of (hex_digit (n mod 10)) = n mod 10)%N as ->.
  { assert (n mod 10 < 10)%N as Hd by (apply N.mod_lt; lia). revert Hd. generalize (n mod 10)%N. intros d Hd.
    assert (Forall (fun x => digit_of (hex_digit (N.of_nat x)) = N.of_nat x) (seq 0 10)) as HF
      by (vm_compute; repeat constructor).
    rewrite Forall_forall in HF. rewrite <- (N2Nat.id d). apply HF, elem_of_seq. lia. }
  rewrite (N.Div0.mod_mul_r n 10). lia.
Qed.

Lemma count_digits_bound fuel n : (n < 2 ^ N.of_nat fuel)%N -> (n < 10 ^ N.of_nat (count_digits fuel n))%N.
Proof.
  revert n; induction fuel as [|fuel IH]; intros n Hn; [cbn in *; lia|].
  cbn [count_digits]. destruct (N.ltb_spec n 10); [done|].
  rewrite Nat2N.inj_succ, N.pow_succ_r' in *.
  assert (n / 10 < 10 ^ N.of_nat (count_digits fuel (n / 10)))%N as H'.
  { apply IH. apply N.Div0.div_lt_upper_bound. lia. }
  pose proof (N.div_mod' n 10). assert (n mod 10 < 10)%N by (apply N.mod_lt; lia). lia.
Qed.

Lemma width_bound n : (n < 10 ^ N.of_nat (width n))%N.
Proof.
  apply count_digits_bound. destruct n as [|p]; [done|]. pose proof (N.size_gt (N.pos p)) as H.
  cbn [N.size N.size_nat] in *.
  replace (N.of_nat (Pos.size_nat p)) with (N.pos (Pos.size p)); [done|].
  clear H. induction p as [p IH|p IH|]; cbn [Pos.size_nat Pos.size]; [..|done]; lia.
Qed.

(** Padded decimals are read back, so they are distinct. *)
Lemma zero_padded_value w n : of_dec (list_ascii_of_string (zero_padded w n)) = n.
Proof.
  unfold zero_padded. rewrite list_ascii_of_string_of_list_ascii, of_dec_dec. apply N.mod_small.
  eapply N.lt_le_trans; [apply width_bound|]. apply N.pow_le_mono_r; lia.
Qed.

Lemma zero_padded_inj w n m : zero_padded w n = zero_padded w m -> n = m.
Proof. intros H. by rewrite <- (zero_padded_value w n), H, zero_padded_value. Qed.

Lemma append_inj s t t' : s +:+ t = s +:+ t' -> t = t'.
Proof. induction s as [|a s IH]; cbn; [done|]. intros [= H]. auto. Qed.

(** Only digits are printed. *)
Lemma zero_padded_free c w n : is_hex_digit c = false -> free_of c (zero_padded w n) = true.
Proof.
  intros Hc. apply free_of_list. generalize (Nat.max w (width n)). intros k. revert n.
  induction k as [|k IH]; intros n; cbn; [constructor|]. apply Forall_app. split; [apply IH|].
  constructor; [|constructor]. apply hex_digit_other; [|done]. pose proof (N.mod_lt n 10). lia.
Qed.

(** * Seeded identifiers *)

Lemma ids_distinct_users groups i j a b :
  ids i groups = Ok a -> ids j groups = Ok b -> id_user_id a = id_user_id b -> i = j.
Proof.
  unfold ids. destruct (groups =? 0)%N; [done|]. intros [= <-] [= <-] H.
  apply append_inj in H. by apply zero_padded_inj in H.
Qed.

(** No two conversations share a booking: the ids of different indices
    differ in user, segment, booking reference, session and in both idempotency
    keys; they fly to the same flight exactly when they are in one group. *)
Theorem ids_distinct run_id groups i j a b :
  ids i groups = Ok a -> ids j groups = Ok b ->
  (id_user_id a = id_user_id b <-> i = j) /\
  (id_segment_id a = id_segment_id b <-> i = j) /\
  (id_booking_reference a = id_booking_reference b <-> i = j) /\
  (session_of run_id i = session_of run_id j <-> i = j) /\
  (forall phase phase', bench_key run_id i phase = bench_key run_id j phase' <-> i = j /\ phase = phase') /\
  (id_new_flight_id a = id_new_flight_id b <-> (i mod groups = j mod groups)%N).
Proof.
  unfold ids. destruct (groups =? 0)%N; [done|]. intros [= <-] [= <-]. cbn.
  assert (forall w n m, zero_padded w n = zero_padded w m <-> n = m) as Hz
    by (split; [apply zero_padded_inj|congruence]).
  assert (forall s t t' : string, s +:+ t = s +:+ t' <-> t = t') as Ha
    by (split; [apply append_inj|congruence]).
  split_and!; try (rewrite Ha, Hz; done).
  - unfold session_of. by rewrite !Ha, Hz.
  - intros phase phase'. unfold bench_key. rewrite !Ha. split; [|by intros [-> ->]].
    intros H. apply (free_of_split "-") in H as [H ->]; [|by apply zero_padded_free..].
    by apply zero_padded_inj in H as ->.
Qed.

(** * Shards *)

Lemma taken_spec seeded step next n : (0 < step)%N ->
  taken seeded step next n =
  List.filter (fun i => i <=? seeded)%N ((fun k => next + N.of_nat k * step)%N <$> seq 0 n).
Proof.
  intros Hs. revert next. induction n as [|n IH]; intros next; [done|].
  cbn [taken seq]. unfold take_index. rewrite <- fmap_S_seq. cbn [fmap list_fmap List.filter].

  rewrite N.mul_0_l, N.add_0_r.
  assert (((fun k => next + N.of_nat k * step)%N <$> (S <$> seq 0 n)) =
          ((fun k => next + step + N.of_nat k * step)%N <$> seq 0 n)) as E.
  { rewrite <- list_fmap_compose. apply list_fmap_ext. intros _ k _. unfold compose. lia. }
  destruct (N.ltb_spec seeded next) as [Hlt|Hge].
  - rewrite (proj2 (N.leb_gt next seeded)) by done. symmetry.
    apply filter_none. intros i Hi. apply list_elem_of_fmap in Hi as (k & -> & _).
    apply N.leb_gt. lia.
  - rewrite (proj2 (N.leb_le next seeded)) by done. f_equal. by rewrite IH, E.
Qed.

(** The indices a shard takes with [n] calls. *)
Definition shard_indices (first_index seeded shards shard : N) (n : nat) : list N :=
  taken seeded shards (first_of_shard first_index shard) n.

(** The shards share the seeded reservations exactly: what a shard takes
    is seeded and taken once; an index belongs to one shard only; and every
    seeded index from the first on is taken, by the shard of its residue,
    within as many calls as there are indices. *)
Theorem shards_partition first_index seeded shards : (0 < shards)%N ->
  (forall k n, (k < shards)%N ->
     NoDup (shard_indices first_index seeded shards k n) /\
     forall i, i ∈ shard_indices first_index seeded shards k n ->
       (first_index <= i <= seeded)%N /\ ((i - first_index) mod shards = k)%N) /\
  (forall i, (first_index <= i <= seeded)%N ->
     i ∈ shard_indices first_index seeded shards ((i - first_index) mod shards) (S (N.to_nat (i - first_index)))).
Proof.
  intros Hs. unfold shard_indices, first_of_shard. split.
  - intros k n Hk. rewrite taken_spec by done. split.
    + apply NoDup_ListNoDup, List.NoDup_filter, NoDup_ListNoDup. apply NoDup_fmap_2; [|apply NoDup_seq].
      intros a b E. nia.
    + intros i [Hi Hle]%elem_of_filter_bool. apply N.leb_le in Hle.
      apply list_elem_of_fmap in Hi as (j & -> & _). split; [lia|].
      replace (first_index + k + N.of_nat j * shards - first_index)%N with (k + N.of_nat j * shards)%N by lia.
      rewrite N.Div0.mod_add. by apply N.mod_small.
  - intros i [H1 H2]. rewrite taken_spec by done. apply elem_of_filter_bool. split; [|by apply N.leb_le].
    pose proof (N.div_mod' (i - first_index) shards) as E.
    apply list_elem_of_fmap. exists (N.to_nat ((i - first_index) / shards)).
    split; [rewrite N2Nat.id; lia|].
    assert ((i - first_index) / shards <= i - first_index)%N as Hq
      by (apply N.Div0.div_le_upper_bound; nia).
    clear E. apply elem_of_seq. split; [apply Nat.le_0_l|]. revert Hq. generalize ((i - first_index) / shards)%N.
    intros q Hq. lia.
Qed.

Definition sum_N (l : list N) : N := foldr N.add 0%N l.

Lemma sum_N_app l k : sum_N (l ++ k) = (sum_N l + sum_N k)%N.
Proof. induction l as [|x l IH]; cbn; [done|]. fold (sum_N l) (sum_N (l ++ k)). rewrite IH. lia. Qed.

Lemma shares_sum a r n :
  sum_N ((fun k => a + (if N.of_nat k <? r then 1 else 0))%N <$> seq 0 n) =
  (N.of_nat n * a + N.min (N.of_nat n) r)%N.
Proof.
  induction n as [|n IH]; [cbn; lia|]. rewrite seq_S, fmap_app, sum_N_app, IH. cbn.
  destruct (N.ltb_spec (N.of_nat n) r); lia.
Qed.

(** The shards share the users: their numbers sum to the users of the
    level and differ by at most one. *)
Theorem users_split users shards : (0 < shards)%N ->
  sum_N (users_of_shard users shards <$> (N.of_nat <$> seq 0 (N.to_nat shards))) = users /\
  forall k, (k < shards)%N ->
    (users / shards <= users_of_shard users shards k <= users / shards + 1)%N.
Proof.
  intros Hs. split; [|intros k _; unfold users_of_shard; case_match; lia].
  rewrite <- list_fmap_compose. unfold compose, users_of_shard. rewrite shares_sum, N2Nat.id.
  pose proof (N.div_mod' users shards). pose proof (N.mod_lt users shards). lia.
Qed.

(** * The status watcher *)

Definition waiter_ok (waiter : Waiter) : Prop :=
  "failed" ∈ w_targets waiter /\ forall s, w_result waiter = Some s -> s ∈ w_targets waiter.
Definition waiters_ok (w : Waiters) : Prop := map_Forall (fun _ => waiter_ok) w.

(** What one reading does to each waiter. *)
Lemma settle_lookup w reading id :
  settle w reading !! id =
  match w !! id with
  | Some waiter =>
      Some (if decide (id = reading.1 /\ w_result waiter = None) then
              match reading.2 with
              | Some s => if decide (s ∈ w_targets waiter) then mkWaiter (w_targets waiter) (Some s) else waiter
              | None => waiter
              end
            else waiter)
  | None => None
  end.
Proof.
  destruct reading as [id' [s|]]; unfold settle; cbn [fst snd].
  - destruct (w !! id') as [[ts r]|] eqn:E; cbn [w_targets w_result].
    + destruct (decide (id = id')) as [->|Hne].
      * rewrite E. destruct (decide (s ∈ ts)) as [Hin|Hin]; [|rewrite E; repeat case_decide; done].
        destruct r as [r|]; [rewrite E; repeat case_decide; naive_solver|].
        rewrite lookup_insert_eq. cbn. repeat case_decide; naive_solver.
      * assert (match w !! id with Some waiter => Some (if decide (id = id' /\ w_result waiter = None) then
            (if decide (s ∈ w_targets waiter) then mkWaiter (w_targets waiter) (Some s) else waiter) else waiter)
            | None => None end = w !! id) as ->
          by (destruct (w !! id); [case_decide; naive_solver|done]).
        repeat case_match; try done; by rewrite lookup_insert_ne.
    + destruct (w !! id) eqn:E'; [|done]. case_decide; naive_solver.
  - destruct (w !! id') eqn:E; destruct (w !! id); try done; by case_decide.
Qed.

Lemma settle_ok w reading : waiters_ok w -> waiters_ok (settle w reading).
Proof.
  intros Hw id waiter. rewrite settle_lookup. destruct (w !! id) as [x|] eqn:E; [|done].
  specialize (Hw _ _ E). destruct Hw as [Hf Hr]. intros [= <-].
  case_decide; [|done]. destruct (reading.2) as [s|]; [|done]. case_decide; [|done].
  split; [done|]. by intros ? [= <-].
Qed.

Lemma settle_chunk_ok chunk statuses w : waiters_ok w -> waiters_ok (settle_chunk chunk statuses w).
Proof.
  unfold settle_chunk. revert w. induction (zip chunk statuses) as [|r l IH]; intros w Hw; cbn; [done|].
  apply IH. by apply settle_ok.
Qed.

Lemma settle_keeps w reading id waiter s :
  w !! id = Some waiter -> w_result waiter = Some s -> settle w reading !! id = Some waiter.
Proof. intros Hw Hs. rewrite settle_lookup, Hw. case_decide; [|done]. destruct H. congruence. Qed.

(** A job's waiter only ever gets a status it waits for or "failed", in
    whatever order waits, polls with any answers and timeouts interleave; and
    no later poll replaces the status it got. *)
Theorem watcher_delivers_targets w :
  rtc WatcherStep ∅ w ->
  forall id waiter, w !! id = Some waiter ->
    "failed" ∈ w_targets waiter /\
    (forall s, w_result waiter = Some s -> s ∈ w_targets waiter) /\
    forall s chunk statuses, w_result waiter = Some s -> settle_chunk chunk statuses w !! id = Some waiter.
Proof.
  intros Hw id waiter Hid.
  assert (waiters_ok w) as Hok.
  { remember (∅ : Waiters) as w0 eqn:E0. assert (waiters_ok w0) as H0 by (subst; apply map_Forall_empty).
    clear E0 Hid. induction Hw as [w|w w1 w2 Hstep _ IH]; [done|]. apply IH. destruct Hstep as [job targets|chunk statuses|job].
    - apply map_Forall_insert_2; [|done]. split; [set_solver|done].
    - by apply settle_chunk_ok.
    - by apply map_Forall_delete. }
  destruct (Hok _ _ Hid) as [Hf Hr]. split; [done|]. split; [done|].
  intros s chunk statuses Hs. unfold settle_chunk. revert w Hid Hok Hw.
  induction (zip chunk statuses) as [|r l IH]; intros w Hid Hok Hw; cbn; [done|].
  apply IH; [by eapply settle_keeps|by apply settle_ok|].
  eapply rtc_r; [exact Hw|]. pose proof (ws_poll w [r.1] [r.2]) as Hp. by destruct r.
Qed.

(** What a reading of [status] does to a pending waiter. *)
Definition answered (status : option string) (waiter : Waiter) : Waiter :=
  match w_result waiter, status with
  | None, Some s => if decide (s ∈ w_targets waiter) then mkWaiter (w_targets waiter) (Some s) else waiter
  | _, _ => waiter
  end.

Lemma answered_twice s waiter : answered s (answered s waiter) = answered s waiter.
Proof.
  destruct waiter as [ts [r|]], s as [s|]; unfold answered; cbn; try done.
  destruct (decide (s ∈ ts)) as [Hs|Hs]; cbn; [done|]. by rewrite decide_False.
Qed.

Lemma settle_answered w id s id' :
  settle w (id, s) !! id' = (if decide (id' = id) then answered s else Datatypes.id) <$> w !! id'.
Proof.
  rewrite settle_lookup. cbn [fst snd]. destruct (w !! id') as [[ts r]|]; [|done]. cbn. f_equal.
  unfold answered. cbn. destruct (decide (id' = id)); case_decide as H; try done; destruct r, s; naive_solver.
Qed.

Lemma settle_readings status l w id :
  settle_chunk l (status <$> l) w !! id = (if decide (id ∈ l) then answered (status id) else Datatypes.id) <$> w !! id.
Proof.
  revert w. induction l as [|x l IH]; intros w.
  - cbn. case_decide; [set_solver|]. by rewrite option_fmap_id.
  - change (settle_chunk (x :: l) (status <$> x :: l) w)
      with (settle_chunk l (status <$> l) (settle w (x, status x))).
    rewrite IH, settle_answered, <- option_fmap_compose. destruct (w !! id) as [waiter|]; [|done]. cbn. f_equal.
    destruct (decide (id ∈ l)) as [Hl|Hl], (decide (id ∈ x :: l)) as [Hx|Hx],
      (decide (id = x)) as [->|Hne]; cbn; try set_solver. by rewrite answered_twice.
Qed.

Lemma chunks_concat {A} n (l : list A) : (0 < n)%nat -> List.concat (chunks n l) = l.
Proof.
  intros Hn. unfold chunks.
  assert (forall fuel (l : list A), (length l <= fuel)%nat -> List.concat (chunks_of fuel n l) = l) as H; [|by apply H].
  clear l. induction fuel as [|fuel IH]; intros [|x l] Hl; cbn in *; try done; [lia|].
  destruct n as [|n]; [lia|]. cbn [firstn skipn List.concat app]. f_equal.
  rewrite IH; [apply firstn_skipn|]. rewrite length_skipn. lia.
Qed.

Lemma chunks_bounded {A} n (l : list A) : Forall (fun c => length c <= n)%nat (chunks n l).
Proof.
  unfold chunks. generalize (length l) as fuel. intros fuel. revert l.
  induction fuel as [|fuel IH]; intros [|x l]; cbn; constructor; [rewrite length_firstn; lia|apply IH].
Qed.

Lemma foldl_chunks {A B} (f : B -> A -> B) (cs : list (list A)) b :
  foldl (fun b c => foldl f b c) b cs = foldl f b (List.concat cs).
Proof. revert b. induction cs as [|c cs IH]; intros b; cbn; [done|]. by rewrite IH, foldl_app. Qed.

(** Reading the statuses in chunks of 500 is reading each one: a round of
    the watcher resolves exactly the pending waiters whose job has reached one of
    their statuses, and no read asks for more than 500 keys. *)
Theorem poll_settles_all status w :
  (forall id, poll status w !! id = answered (status id) <$> w !! id) /\
  Forall (fun chunk => length chunk <= 500)%nat (chunks 500 (map_to_list w).*1).
Proof.
  split; [|apply chunks_bounded]. intros id. unfold poll.
  assert (forall cs w, foldl (fun w chunk => settle_chunk chunk (status <$> chunk) w) w cs =
    foldl (fun w id => settle w (id, status id)) w (List.concat cs)) as ->.
  { intros cs w0. rewrite <- foldl_chunks. revert w0. induction cs as [|c cs IH]; intros w0; cbn; [done|].
    rewrite IH. f_equal. unfold settle_chunk. clear. revert w0.
    induction c as [|x c IH]; intros w0; cbn; [done|]. apply IH. }
  rewrite chunks_concat by lia.
  assert (forall l w, foldl (fun w id => settle w (id, status id)) w l = settle_chunk l (status <$> l) w) as ->.
  { intros l. unfold settle_chunk. induction l as [|x l IH]; intros w0; cbn; [done|]. apply IH. }
  rewrite settle_readings. destruct (w !! id) as [waiter|] eqn:E; [|done]. cbn.
  rewrite decide_True; [done|]. apply list_elem_of_fmap. exists (id, waiter). split; [done|].
  by apply elem_of_map_to_list.
Qed.

(** * Conversations *)

Section Conversation.
Context (run_id : string) (groups : N) (type_name : Exn -> string).

Notation start_ev index seeded := (PostChat (start_body run_id index seeded) (bench_key run_id index "start")).
Notation resume_ev index seeded := (PostChat (resume_body run_id index seeded) (bench_key run_id index "resume")).

(** How a wait for [target] ends a conversation, if it does. *)
Definition wait_error (phase target : string) (r : Res string) : option Exn :=
  match r with
  | Ok status => if status =? target then None else Some (mkExn RuntimeError (phase +:+ " job " +:+ status))
  | Raise e => Some e
  end.

(** The course of a conversation: the jobs it got, what ended it, and what it
    awaited. *)
Inductive Course (index : N) (seeded : Ids) :
    string -> string -> option Exn -> Trace BenchOp -> Prop :=
  | course_not_started r e :
      r ≫= reply_id = Raise e -> Course index seeded "" "" (Some e) [Ev (start_ev index seeded) r]
  | course_not_asked reply job r e :
      reply_id reply = Ok job -> wait_error "start" "waiting_for_confirmation" r = Some e ->
      Course index seeded job "" (Some e)
        [Ev (start_ev index seeded) (Ok reply); Ev (WaitStatus job ["waiting_for_confirmation"]) r]
  | course_not_answered reply job r e :
      reply_id reply = Ok job -> r ≫= reply_id = Raise e ->
      Course index seeded job "" (Some e)
        [Ev (start_ev index seeded) (Ok reply);
         Ev (WaitStatus job ["waiting_for_confirmation"]) (Ok "waiting_for_confirmation");
         Ev (resume_ev index seeded) r]
  | course_answered reply job reply' job' r :
      reply_id reply = Ok job -> reply_id reply' = Ok job' ->
      Course index seeded job job' (wait_error "resume" "completed" r)
        [Ev (start_ev index seeded) (Ok reply);
         Ev (WaitStatus job ["waiting_for_confirmation"]) (Ok "waiting_for_confirmation");
         Ev (resume_ev index seeded) (Ok reply');
         Ev (WaitStatus job' ["completed"]) r].

Lemma wp_post body key Q :
  (forall reply job, reply_id reply = Ok job -> Q (Ok job) [Ev (PostChat body key) (Ok reply)]) ->
  (forall r e, r ≫= reply_id = Raise e -> Q (Raise e) [Ev (PostChat body key) r]) ->
  wp (post body key) Q.
Proof.
  intros Hok Hfail. unfold post. wp_step. wp_step; cbn beta iota; [|by apply Hfail].
  destruct (reply_id a) as [job|e] eqn:E; cbn [of_res wp]; [by apply Hok|by apply Hfail].
Qed.

Lemma converse_course index seeded start :
  wp (converse run_id index seeded (new_conversation index start)) (fun r tr => exists s j error,
    r = Ok (with_resume_job j (with_start_job s (new_conversation index start)), error) /\
    Course index seeded s j error tr).
Proof using Type.
  unfold converse, attempt.
  apply wp_try_else, wp_post; [|intros; cbn [wp]; eexists "", "", _; split; [done|]; by constructor].
  intros reply job Hjob. cbn beta iota zeta.
  apply wp_try_else, wp_await. intros [status|e]; cbn beta iota;
    [|cbn [wp]; eexists job, "", _; split; [done|]; by apply (course_not_asked _ _ reply)].
  destruct (status =? "waiting_for_confirmation") eqn:Hs; cbn [negb].
  2: { cbn [wp]. eexists job, "", _. split; [done|]. apply (course_not_asked _ _ reply); [done|].
       cbn. by rewrite Hs. }
  apply String.eqb_eq in Hs as ->.
  apply wp_try_else, wp_post; [|intros; cbn [wp]; eexists job, "", _; split; [done|];
                                by apply (course_not_answered _ _ reply)].
  intros reply' job' Hjob'. cbn beta iota zeta.
  apply wp_try_else, wp_await. intros r.
  pose proof (course_answered index seeded reply job reply' job' r Hjob Hjob') as Hc.
  destruct r as [status|e]; cbn beta iota; cbn in Hc.
  - destruct (status =? "completed"); cbn [negb wp]; eexists job, job', _; (split; [done|]); exact Hc.
  - cbn [wp]. eexists job, job', _. split; [done|]. exact Hc.
Qed.

(** A conversation is one course through the API, and its record tells it:
    it never raises; it is ok exactly when the start job reached the
    confirmation and the resume job completed; it confirms only after the start
    job waited for it; both jobs are named as soon as their requests were
    accepted; and a failed one has a text that is "timeout" for a timeout. *)
Theorem conversation_course index seeded start end_ :
  ids index groups = Ok seeded ->
  wp (conversation run_id groups type_name index start end_) (fun r tr =>
    exists c error, r = Ok c /\ Course index seeded (start_job c) (resume_job c) error tr /\
      cv_index c = index /\ client_start c = start /\ client_end c = end_ /\ timings c = ∅ /\
      (cv_ok c = true <-> error = None) /\
      cv_error c = match error with Some e => error_text type_name e | None => "" end).
Proof using Type.
  intros Hids. unfold conversation. rewrite Hids. cbn [of_res]. apply wp_bind. cbn [wp].
  apply wp_bind. eapply wp_mono; [|apply converse_course]. cbn beta.
  intros r tr (s & j & error & -> & Hc). cbn [wp mret Prog_ret app].
  exists (match error with
          | None => finished true "" end_ (with_resume_job j (with_start_job s (new_conversation index start)))
          | Some e => finished false (error_text type_name e) end_
                        (with_resume_job j (with_start_job s (new_conversation index start)))
          end), error.
  rewrite app_nil_r. destruct error; cbn; split_and!; done.
Qed.
End Conversation.

(** * Virtual users *)

(** A conversation starts only before the end of the level, and after a failed
    one the user pauses before anything else. *)
Inductive UserRun (stop_at : Q) : list Conversation -> Trace UserOp -> Prop :=
  | ur_stopped : UserRun stop_at [] []
  | ur_late t : (stop_at <= t)%Q -> UserRun stop_at [] [Ev UserNow (Ok t)]
  | ur_clock e : UserRun stop_at [] [Ev UserNow (Raise e)]
  | ur_failed t e : (t < stop_at)%Q -> UserRun stop_at [] [Ev UserNow (Ok t); Ev Converse (Raise e)]
  | ur_ok t c cs tr : (t < stop_at)%Q -> cv_ok c = true -> UserRun stop_at cs tr ->
      UserRun stop_at (c :: cs) (Ev UserNow (Ok t) :: Ev Converse (Ok c) :: tr)
  | ur_paused t c r cs tr : (t < stop_at)%Q -> cv_ok c = false -> UserRun stop_at cs tr ->
      UserRun stop_at (c :: cs)
        (Ev UserNow (Ok t) :: Ev Converse (Ok c) :: Ev (UserSleep 1) r :: tr).

(** A virtual user starts conversations only while the level runs, keeps
    every one of them in order, pauses a second after each failed one, and stops
    quietly when the seeded reservations run out. *)
Theorem user_runs fuel stop_at conversations :
  wp (user fuel stop_at conversations) (fun r tr =>
    exists cs, UserRun stop_at cs tr /\
      match r with
      | Ok result => result = (conversations ++ cs)%list
      | Raise e => isinstance e SeedsExhausted = false \/ exists t, last tr = Some (Ev (UserSleep 1) (Raise e)) \/ last tr = Some (Ev UserNow t)
      end).
Proof.
  revert conversations. induction fuel as [|fuel IH]; intros conversations; cbn [user].
  - exists []. split; [constructor|]. by rewrite app_nil_r.
  - wp_step. wp_step; cbn beta iota.
    2: { exists []. split; [constructor|]. right. exists (Raise e). by right. }
    destruct (Qle_bool stop_at a) eqn:Ht; cbn [negb].
    { apply Qle_bool_iff in Ht. wp_step. exists []. split; [by constructor|]. by rewrite app_nil_r. }
    assert (a < stop_at)%Q as Hlt.
    { destruct (Qlt_le_dec a stop_at) as [|Hge]; [done|]. apply Qle_bool_iff in Hge. congruence. }
    apply wp_try_else, wp_await. intros [c|e]; cbn beta iota.
    + destruct (cv_ok c) eqn:Hok.
      * apply wp_bind. cbn [wp mret Prog_ret]. eapply wp_mono; [|apply IH]. cbn beta.
        intros r tr (cs & Hcs & Hr). exists (c :: cs). split; [by apply ur_ok|].
        destruct r; [by rewrite Hr, <- app_assoc|]. destruct Hr as [Hr|(t & Hl)]; [by left|].
        right. exists t. cbn [app]. destruct tr; [by destruct Hl|]. done.
      * apply wp_bind, wp_await. intros [[]|e]; cbn beta iota.
        -- eapply wp_mono; [|apply IH]. cbn beta.
           intros r tr (cs & Hcs & Hr). exists (c :: cs). split; [by apply ur_paused|].
           destruct r; [by rewrite Hr, <- app_assoc|]. destruct Hr as [Hr|(t & Hl)]; [by left|].
           right. exists t. cbn [app]. destruct tr; [by destruct Hl|]. done.
        -- exists [c]. split; [apply ur_paused; [done..|constructor]|]. right. exists (Raise e). by left.
    + destruct (isinstance e SeedsExhausted) eqn:He; cbn [wp]; exists []; (split; [by constructor|]).
      * by rewrite app_nil_r.
      * by left.
Qed.

(** * Draining the queue *)

Lemma drain_loop_sees fuel deadline :
  wp (drain_loop fuel deadline) (fun r tr =>
    match r with
    | Ok (Some true) => exists data, last tr = Some (Ev GetQueue (Ok data)) /\ backlog data = 0%Z
    | Ok (Some false) => exists now, last tr = Some (Ev DrainNow (Ok now)) /\ (deadline <= now)%Q
    | _ => True
    end).
Proof.
  induction fuel as [|fuel IH]; cbn [drain_loop]; [done|].
  wp_step. wp_step; cbn beta iota; [|done]. destruct (Qle_bool deadline a) eqn:Ht; cbn [negb].
  { wp_step. exists a. split; [done|]. by apply Qle_bool_iff. }
  wp_step. wp_step; cbn beta iota; [|done]. destruct (backlog a0 =? 0)%Z eqn:Hb.
  { wp_step. exists a0. split; [done|]. by apply Z.eqb_eq. }
  wp_step. wp_step; cbn beta iota; [|done]. eapply wp_mono; [|exact IH]. cbn beta.
  intros [[[]|]|] tr; try done; intros (x & Hl & Hx); exists x; (split; [|done]); cbn [app];
    destruct tr; [done| |done|]; done.
Qed.

(** How a drain that ended did: it saw an empty queue last, or the deadline
    passed, or a request raised. *)
Definition drain_ended (deadline : Q) (r : Res (option bool)) (tr : Trace DrainOp) : Prop :=
  match r with
  | Ok (Some true) => exists data, last tr = Some (Ev GetQueue (Ok data)) /\ backlog data = 0%Z
  | Ok (Some false) => exists now, last tr = Some (Ev DrainNow (Ok now)) /\ (deadline <= now)%Q
  | Ok None => False
  | Raise e => True
  end.

Section Drain.
(** A clock that does not turn back and that a sleep of a second advances by
    at least one. *)
Context {W : Type} (env : forall R, DrainOp R -> W -> Res R * W) (clock : W -> Q).
Context (now_reads : forall w, env _ DrainNow w = (Ok (clock w), w))
        (queue_takes : forall w, (clock w <= clock (env _ GetQueue w).2)%Q)
        (sleep_takes : forall w, (clock w + 1 <= clock (env _ (DrainSleep 1) w).2)%Q).

(** Waiting for the queue to drain ends: with [n] seconds left it looks at
    the queue at most [n] times; it reports an empty queue only after seeing
    one, and gives up only at the deadline. *)
Theorem drain_terminates n w deadline fuel :
  (deadline <= clock w + inject_Z (Z.of_nat n))%Q -> (n < fuel)%nat ->
  drain_ended deadline (run env (drain_loop fuel deadline) w).1 (trace env (drain_loop fuel deadline) w).
Proof using now_reads queue_takes sleep_takes.
  intros Hd Hf. pose proof (wp_run env _ _ w (drain_loop_sees fuel deadline)) as Hsees.
  assert ((run env (drain_loop fuel deadline) w).1 <> Ok None) as Hne;
    [|unfold drain_ended; by destruct (run _ _ _).1 as [[[]|]|]].
  clear Hsees. revert w n Hd Hf. induction fuel as [|fuel IH]; intros w n Hd Hf; [lia|].
  cbn [drain_loop]. rewrite run_bind, run_await, now_reads.
  destruct (Qle_bool deadline (clock w)) eqn:Ht; cbn [negb]; [done|].
  assert (clock w < deadline)%Q as Hlt.
  { destruct (Qlt_le_dec (clock w) deadline) as [|Hge]; [done|]. apply Qle_bool_iff in Hge. congruence. }
  destruct n as [|n].
  { exfalso. change (inject_Z (Z.of_nat 0)) with 0%Q in Hd. lra. }
  rewrite run_bind, run_await. pose proof (queue_takes w) as Hq. destruct (env _ GetQueue w) as [[data|e] w1]; [|done].
  destruct (backlog data =? 0)%Z; [done|].
  rewrite run_bind, run_await. pose proof (sleep_takes w1) as Hsl. destruct (env _ (DrainSleep 1) w1) as [[[]|e] w2]; [|done].
  cbn [snd] in *. apply (IH w2 n); [|lia].
  rewrite Nat2Z.inj_succ, <- Z.add_1_r, inject_Z_plus in Hd. change (inject_Z 1) with 1%Q in Hd. lra.
Qed.
End Drain.
