(* ===== verification/LoadSummary.v ===== *)
(** The statistics of a level: [fetch_timings], [percentile], [dist] and
    [summarize] of [bench/loadgen.py].

    [summarize] is split into the definitions of its local values; the samples
    of [docker stats] it folds into ["services"] are those of LoadServices.
    Numbers are those of PyFloat. *)
From Stdlib Require Import Ascii String QArith.
From stdpp Require Import base numbers strings list sets gmap.
From S2P Require Import Prelude Models PyVal PyFloat Effects LoadGenerator.

(** * [fetch_timings] *)

(** The jobs of the conversations, each with the position of its conversation
    and the name its timing gets. *)
Definition jobs_of (conversations : list Conversation) : list (nat * string * string) :=
  List.concat (imap (fun i conv =>
    (if (start_job conv =? "")%string then [] else [(i, "start"%string, start_job conv)])
    ++ (if (resume_job conv =? "")%string then [] else [(i, "resume"%string, resume_job conv)])) conversations).

Definition with_timing (name : string) (timing : Timing) (c : Conversation) : Conversation :=
  mkConversation (cv_index c) (client_start c) (client_end c) (cv_ok c) (cv_error c)
    (start_job c) (resume_job c) (<[name := timing]> (timings c)).

(** [{key: int(value) for key, value in timing.items()}]. *)
Definition int_timing (hash : list (string * string)) : Res Timing :=
  foldr (fun e acc =>
    n ← or_raise (py_int e.2) ValueError "invalid literal for int() with base 10";
    timing ← acc;
    mret (<[e.1 := n]> timing)) (Ok ∅) hash.

Definition store_timing (job : nat * string * string) (hash : list (string * string))
    (conversations : list Conversation) : Res (list Conversation) :=
  timing ← int_timing hash; mret (alter (with_timing job.1.2 timing) job.1.1 conversations).

(** One pipeline per 500 jobs; [hgetall] is what the server has. *)
Definition fetch_timings (hgetall : string -> list (string * string))
    (conversations : list Conversation) : Res (list Conversation) :=
  foldl (fun acc chunk =>
    foldl (fun acc (jr : (nat * string * string) * list (string * string)) =>
             convs ← acc; store_timing jr.1 jr.2 convs)
      acc (zip chunk ((fun job => hgetall ("job:" +:+ job.2 +:+ ":timing")) <$> chunk)))
    (Ok conversations) (chunks 500 (jobs_of conversations)).

(** * [percentile] and [dist] *)

Local Open Scope Q_scope.

Definition number (n : nat) : Q := inject_Z (Z.of_nat n).

Definition rank (pct : Z) (n : nat) : nat :=
  let x := fl (fl (fl (inject_Z pct / 100) * number n) + (1 # 2)) in
  Z.to_nat (Z.max 0 (Z.min (Z.of_nat n - 1) (round_half_even x - 1))).

Definition percentile (values : list Q) (pct : Z) : option Q :=
  match values with
  | [] => None
  | _ => round_to 1 <$> sort_by Qle_bool values !! rank pct (length values)
  end.

(** [statistics.fmean]: the exact sum, rounded, divided. *)
Definition fmean (values : list Q) : Q := fl (fl (foldr Qplus 0 values) / number (length values)).

Definition qmax (values : list Q) : option Q :=
  match values with
  | [] => None
  | x :: l => Some (foldl (fun m y => if Qle_bool y m then m else y) x l)
  end.

Record Dist := mkDist { p50 : option Q; p95 : option Q; p99 : option Q; mean : option Q; max_ : option Q }.

Definition dist (values : list Q) : Dist := {|
  p50 := percentile values 50;
  p95 := percentile values 95;
  p99 := percentile values 99;
  mean := match values with [] => None | _ => Some (round_to 1 (fmean values)) end;
  max_ := round_to 1 <$> qmax values |}.

(** * [summarize] *)

Definition measured (conversations : list Conversation) (measure_from : Q) : list Conversation :=
  List.filter (fun conv => Qle_bool measure_from (client_start conv)) conversations.
Definition ok_of (measured : list Conversation) : list Conversation := List.filter cv_ok measured.
Definition failed_of (measured : list Conversation) : list Conversation :=
  List.filter (fun conv => negb (cv_ok conv)) measured.
Definition completed_in_window (conversations : list Conversation) (measure_from stop_at : Q) :
    list Conversation :=
  List.filter (fun conv => cv_ok conv && Qle_bool measure_from (client_end conv)
                           && Qle_bool (client_end conv) stop_at) conversations.

(** [conv.timings.get(name, {})], and one of its fields. *)
Definition timing_of (conv : Conversation) (name : string) : Timing := default ∅ (timings conv !! name).
Definition stamp (conv : Conversation) (name field : string) : option Z := timing_of conv name !! field.

(** A difference of two stamps, for the conversations that have both. *)
Definition span (conv : Conversation) (name start end_ : string) : option Z :=
  s ← stamp conv name start; e ← stamp conv name end_; Some (e - s)%Z.

Definition job_values (ok : list Conversation) (name start end_ : string) : list Q :=
  omap (fun conv => inject_Z <$> span conv name start end_) ok.

Definition conversation_span (conv : Conversation) : option Z :=
  f ← stamp conv "resume" "finished_ms"; p ← stamp conv "start" "published_ms"; Some (f - p)%Z.
Definition server_span (conv : Conversation) : option Z :=
  a ← span conv "start" "published_ms" "finished_ms";
  b ← span conv "resume" "published_ms" "finished_ms"; Some (a + b)%Z.
Definition gap_span (conv : Conversation) : option Z :=
  f ← stamp conv "start" "finished_ms"; p ← stamp conv "resume" "published_ms"; Some (p - f)%Z.

Definition conversation_ms (ok : list Conversation) : list Q := omap (fun c => inject_Z <$> conversation_span c) ok.
Definition server_ms (ok : list Conversation) : list Q := omap (fun c => inject_Z <$> server_span c) ok.
Definition client_gap (ok : list Conversation) : list Q := omap (fun c => inject_Z <$> gap_span c) ok.
Definition client_ms (ok : list Conversation) : list Q :=
  (fun c => fl (fl (client_end c - client_start c) * 1000)) <$> ok.

Definition queue_wait (ok : list Conversation) : list Q :=
  job_values ok "start" "published_ms" "started_ms" ++ job_values ok "resume" "published_ms" "started_ms".
Definition execution (ok : list Conversation) : list Q :=
  job_values ok "start" "started_ms" "finished_ms" ++ job_values ok "resume" "started_ms" "finished_ms".

(** The timings of a conversation whose job was attempted more than once. *)
Definition retries (conv : Conversation) : nat :=
  size (filter (fun e => (1 < default 1 (e.2 !! "attempts"%string))%Z) (timings conv)).
Definition retried_jobs (measured : list Conversation) : nat := sum_list (retries <$> measured).

(** The failures by their text. *)
Definition count_error (errors : gmap string nat) (conv : Conversation) : gmap string nat :=
  <[cv_error conv := S (default 0%nat (errors !! cv_error conv))]> errors.
Definition errors_of (failed : list Conversation) : gmap string nat := foldl count_error ∅ failed.

(** A sample of the queue. *)
Record QueueSample := mkQueueSample { q_at : Q; q_ready : Z; q_unacked : Z }.
Definition queue_window (samples : list QueueSample) (measure_from stop_at : Q) : list QueueSample :=
  List.filter (fun s => Qle_bool measure_from (q_at s) && Qle_bool (q_at s) stop_at) samples.
Definition zmax (values : list Z) : option Z :=
  match values with [] => None | x :: l => Some (foldl Z.max x l) end.

(** The summary, without ["services"]. *)
Record Summary := mkSummary {
  s_users : N; s_conversations_measured : nat; s_conversations_ok : nat;
  s_conversations_failed : nat; s_error_rate : option Q; s_throughput : Q;
  s_conversation_ms : Dist; s_server_conversation_ms : Dist; s_client_gap_ms : Dist;
  s_client_conversation_ms : Dist; s_job_queue_wait_ms : Dist; s_job_execution_ms : Dist;
  s_retried_jobs : nat; s_queue_ready_max : option Z; s_queue_unacked_max : option Z;
  s_errors : gmap string nat }.

Definition error_rate (failed measured : nat) : option Q :=
  match measured with
  | O => None
  | _ => Some (round_to 4 (fl (number failed / number measured)))
  end.

Definition summarize (users : N) (conversations : list Conversation) (measure_from stop_at : Q)
    (samples : list QueueSample) (duration : Q) : Summary :=
  let measured := measured conversations measure_from in
  let ok := ok_of measured in
  let failed := failed_of measured in
  let window := queue_window samples measure_from stop_at in
  {| s_users := users;
     s_conversations_measured := length measured;
     s_conversations_ok := length ok;
     s_conversations_failed := length failed;
     s_error_rate := error_rate (length failed) (length measured);
     s_throughput :=
       round_to 2 (fl (number (length (completed_in_window conversations measure_from stop_at)) / duration));
     s_conversation_ms := dist (conversation_ms ok);
     s_server_conversation_ms := dist (server_ms ok);
     s_client_gap_ms := dist (client_gap ok);
     s_client_conversation_ms := dist (client_ms ok);
     s_job_queue_wait_ms := dist (queue_wait ok);
     s_job_execution_ms := dist (execution ok);
     s_retried_jobs := retried_jobs measured;
     s_queue_ready_max := zmax (q_ready <$> window);
     s_queue_unacked_max := zmax (q_unacked <$> window);
     s_errors := errors_of failed |}.

Example dist_example :
  let d := dist (inject_Z <$> [30; 10; 20; 40]%Z) in
  (p50 d, p95 d, mean d, max_ d) = (Some 20, Some 40, Some 25, Some 40).
Proof. vm_compute. reflexivity. Qed.
Example ranks : (rank 50 1, rank 50 2, rank 50 4, rank 95 20, rank 99 1000) = (0, 1, 1, 19, 989)%nat.
Proof. vm_compute. reflexivity. Qed.
