(* ===== verification/SummaryProperties.v ===== *)
(** What the statistics of a level mean: the counts add up, the percentiles are
    values of the sample in the right order, and the times of a conversation
    decompose into the server's and the client's. *)
From Stdlib Require Import Ascii String QArith Lqa.
From stdpp Require Import base numbers strings list sets gmap sorting.
From S2P Require Import Prelude Models PyVal PyFloat Effects LoadGenerator LoadProperties LoadSummary.
Local Open Scope Q_scope.

(** * Percentiles *)

Lemma Qle_bool_total x y : Qle_bool x y = true \/ Qle_bool y x = true.
Proof. rewrite !Qle_bool_iff. destruct (Qlt_le_dec x y); [left|right]; [by apply Qlt_le_weak|done]. Qed.
Lemma Qle_bool_trans x y z : Qle_bool x y = true -> Qle_bool y z = true -> Qle_bool x z = true.
Proof. rewrite !Qle_bool_iff. apply Qle_trans. Qed.

Notation ordered := (sort_by Qle_bool).

Lemma ordered_length values : length (ordered values) = length values.
Proof. by rewrite sort_by_perm. Qed.

Lemma ordered_le values i j x y :
  (i <= j)%nat -> ordered values !! i = Some x -> ordered values !! j = Some y -> x <= y.
Proof.
  intros Hij Hx Hy. pose proof (sort_by_sorted Qle_bool Qle_bool_total Qle_bool_trans values) as Hs.
  revert i j Hij Hx Hy. induction Hs as [|a l _ IH Ha]; intros [|i] [|j] Hij Hx Hy; cbn in *; try done.
  - injection Hx as <-. injection Hy as <-. apply Qle_refl.
  - injection Hx as <-. rewrite Forall_forall in Ha. apply Qle_bool_iff, Ha. by eapply list_elem_of_lookup_2.
  - lia.
  - apply (IH i j); [lia|done..].
Qed.

Lemma rank_bound pct n : (0 < n)%nat -> (rank pct n < n)%nat.
Proof. intros Hn. unfold rank. cbv zeta. lia. Qed.

Lemma rank_mono pct pct' n : (pct <= pct')%Z -> (rank pct n <= rank pct' n)%nat.
Proof.
  intros H. unfold rank. cbv zeta. apply Z2Nat.inj_le; [lia..|].
  apply Z.max_le_compat_l, Z.min_le_compat_l, Z.sub_le_mono_r, round_half_even_mono, fl_mono.
  apply Qplus_le_compat; [|apply Qle_refl]. apply fl_mono. apply Qmult_le_compat_r.
  - apply fl_mono. apply Qmult_le_compat_r; [by rewrite <- Zle_Qle|discriminate].
  - unfold number. change 0 with (inject_Z 0). rewrite <- Zle_Qle. lia.
Qed.

(** The percentile of a non-empty sample is the value at its rank. *)
Lemma percentile_value values pct : values <> [] ->
  exists x, x ∈ values /\ ordered values !! rank pct (length values) = Some x /\
    percentile values pct = Some (round_to 1 x).
Proof.
  intros Hv. destruct values as [|v l] eqn:E; [done|]. rewrite <- E in *.
  assert (rank pct (length values) < length (ordered values))%nat as Hr.
  { rewrite ordered_length. apply rank_bound. rewrite E. cbn. lia. }
  apply lookup_lt_is_Some in Hr as [x Hx]. exists x. split_and!; [|done|].
  - rewrite <- (sort_by_perm Qle_bool values). by eapply list_elem_of_lookup_2.
  - unfold percentile. rewrite E. rewrite <- E. by rewrite Hx.
Qed.

Lemma qmax_bound values m : qmax values = Some m -> m ∈ values /\ forall x, x ∈ values -> x <= m.
Proof.
  destruct values as [|v l]; [done|]. intros [= <-]. revert v. induction l as [|y l IH]; intros v; cbn.
  - split; [set_solver|]. intros x Hx. apply list_elem_of_singleton in Hx as ->. apply Qle_refl.
  - destruct (IH (if Qle_bool y v then v else y)) as [Hin Hub]. split.
    + destruct (Qle_bool y v); set_solver.
    + intros x Hx. destruct (Qle_bool y v) eqn:E.
      * apply Qle_bool_iff in E. apply elem_of_cons in Hx as [->|Hx]; [apply Hub; set_solver|].
        apply elem_of_cons in Hx as [->|Hx]; [|apply Hub; set_solver].
        eapply Qle_trans; [exact E|]. apply Hub. set_solver.
      * assert (v <= y) as Hvy.
        { destruct (Qle_bool_total y v) as [|H]; [congruence|by apply Qle_bool_iff]. }
        apply elem_of_cons in Hx as [->|Hx]; [|apply Hub; set_solver].
        eapply Qle_trans; [exact Hvy|]. apply Hub. set_solver.
Qed.

(** C40: the statistics of a sample exist exactly when it is not empty; every
    percentile is a value of the sample, rounded to a tenth, and they are
    ordered: p50, p95 and p99 never decrease and never exceed the maximum. *)
Theorem percentiles_ordered values :
  (values = [] -> dist values = mkDist None None None None None) /\
  (values <> [] -> exists a b c m,
     dist values = mkDist (Some (round_to 1 a)) (Some (round_to 1 b)) (Some (round_to 1 c))
                     (Some (round_to 1 (fmean values))) (Some (round_to 1 m)) /\
     a ∈ values /\ b ∈ values /\ c ∈ values /\ m ∈ values /\
     round_to 1 a <= round_to 1 b /\ round_to 1 b <= round_to 1 c /\ round_to 1 c <= round_to 1 m).
Proof.
  split; [by intros ->|]. intros Hv.
  destruct (percentile_value values 50 Hv) as (a & Ha & Hra & Hpa).
  destruct (percentile_value values 95 Hv) as (b & Hb & Hrb & Hpb).
  destruct (percentile_value values 99 Hv) as (c & Hc & Hrc & Hpc).
  destruct (qmax values) as [m|] eqn:Hm; [|by destruct values].
  destruct (qmax_bound _ _ Hm) as [Hin Hub]. exists a, b, c, m.
  split; [unfold dist; rewrite Hpa, Hpb, Hpc, Hm; by destruct values|].
  split_and!; try done; apply round_to_mono; [| |by apply Hub].
  - eapply ordered_le; [|exact Hra|exact Hrb]. by apply rank_mono.
  - eapply ordered_le; [|exact Hrb|exact Hrc]. by apply rank_mono.
Qed.

(** ** The median *)

Lemma rank_50 n : (0 < n)%nat -> (Z.of_nat n < 2 ^ 52)%Z ->
  (n <= 2 * S (rank 50 n))%nat /\ (2 * rank 50 n <= n)%nat.
Proof.
  intros H0 Hn. unfold rank. cbv zeta.
  assert (fl (fl (fl (inject_Z 50 / 100) * number n) + (1 # 2)) == inject_Z (Z.of_nat n + 1) / 2) as E.
  { change (fl (inject_Z 50 / 100)) with (1 # 2). unfold number.
    assert ((1 # 2) * inject_Z (Z.of_nat n) == inject_Z (Z.of_nat n) / 2) as -> by field.
    rewrite fl_half by lia.
    assert (inject_Z (Z.of_nat n) / 2 + (1 # 2) == inject_Z (Z.of_nat n + 1) / 2) as ->
      by (rewrite inject_Z_plus; change (inject_Z 1) with 1; field).
    apply fl_half. lia. }
  rewrite (round_half_even_proper _ _ E), round_half_even_half.
  assert (forall m, (2 * (m / 2) <= m < 2 * (m / 2) + 2)%Z) as Hdiv
    by (intros m; pose proof (Z.div_mod m 2 ltac:(lia)); pose proof (Z.mod_pos_bound m 2 ltac:(lia)); lia).
  pose proof (Hdiv (Z.of_nat n + 1)%Z) as Hd. destruct (Z.even (Z.of_nat n + 1)) eqn:Hev.
  - apply Z.even_spec in Hev as [m Hm]. lia.
  - assert (Z.odd (Z.of_nat n + 1) = true) as Hodd by (rewrite <- Z.negb_even, Hev; done).
    apply Z.odd_spec in Hodd as [m Hm]. case_match; lia.
Qed.

Definition at_most (x : Q) (values : list Q) : nat := length (List.filter (fun v => Qle_bool v x) values).
Definition at_least (x : Q) (values : list Q) : nat := length (List.filter (fun v => Qle_bool x v) values).

Lemma count_perm (f : Q -> bool) l k : l ≡ₚ k -> length (List.filter f l) = length (List.filter f k).
Proof. induction 1; cbn; repeat case_match; cbn; congruence. Qed.

Lemma count_all (f : Q -> bool) l : (forall x, x ∈ l -> f x = true) -> length (List.filter f l) = length l.
Proof.
  induction l as [|x l IH]; intros H; cbn; [done|]. rewrite H by (by left). cbn. f_equal.
  apply IH. intros y Hy. apply H. by right.
Qed.

Lemma count_app (f : Q -> bool) l k :
  length (List.filter f (l ++ k)) = (length (List.filter f l) + length (List.filter f k))%nat.
Proof. by rewrite List.filter_app, length_app. Qed.

(** How many values are on either side of the one at position [r]. *)
Lemma ordered_counts values r x : ordered values !! r = Some x ->
  (S r <= at_most x values)%nat /\ (length values - r <= at_least x values)%nat.
Proof.
  intros Hx. pose proof (lookup_lt_Some _ _ _ Hx) as Hr. rewrite ordered_length in Hr.
  unfold at_most, at_least. rewrite <- !(count_perm _ _ _ (sort_by_perm Qle_bool values)). split.
  - rewrite <- (take_drop (S r) (ordered values)), count_app, (count_all _ (take (S r) _)).
    + rewrite length_take, ordered_length. lia.
    + intros y Hy. apply list_elem_of_lookup in Hy as [i Hi]. apply lookup_take_Some in Hi as [Hi Hlt].
      apply Qle_bool_iff. eapply ordered_le; [|exact Hi|exact Hx]. lia.
  - rewrite <- (take_drop r (ordered values)), count_app, (count_all _ (drop r _)).
    + rewrite length_drop, ordered_length. lia.
    + intros y Hy. apply list_elem_of_lookup in Hy as [i Hi]. rewrite lookup_drop in Hi.
      apply Qle_bool_iff. eapply ordered_le; [|exact Hx|exact Hi]. lia.
Qed.

(** P50 is a median, in spite of binary rounding: at least half of the
    values are at most, and at least half at least, the value it rounds; the
    float arithmetic of the rank is exact for it up to 2^52 values. *)
Theorem p50_is_median values : values <> [] -> (Z.of_nat (length values) < 2 ^ 52)%Z ->
  exists x, x ∈ values /\ percentile values 50 = Some (round_to 1 x) /\
    (length values <= 2 * at_most x values)%nat /\ (length values <= 2 * at_least x values)%nat.
Proof.
  intros Hv Hn. destruct (percentile_value values 50 Hv) as (x & Hx & Hr & Hp). exists x.
  split; [done|]. split; [done|]. destruct (ordered_counts _ _ _ Hr) as [Hlo Hhi].
  assert (0 < length values)%nat as Hpos by (destruct values; [done|cbn; lia]).
  destruct (rank_50 _ Hpos Hn) as [H1 H2]. lia.
Qed.

(** * Counts *)

Lemma ok_failed_length l : length l = (length (ok_of l) + length (failed_of l))%nat.
Proof.
  unfold ok_of, failed_of. induction l as [|c l IH]; cbn; [done|]. destruct (cv_ok c); cbn; rewrite IH; lia.
Qed.

Definition total (errors : gmap string nat) : nat := map_fold (fun _ n acc => (n + acc)%nat) 0%nat errors.

Lemma total_insert errors k : total (<[k := S (default 0%nat (errors !! k))]> errors) = S (total errors).
Proof.
  unfold total. destruct (errors !! k) as [n|] eqn:E; cbn [default].
  - rewrite <- insert_delete_eq. rewrite map_fold_insert_L; [|intros; lia|apply lookup_delete_eq].
    rewrite (map_fold_delete_L _ _ k n errors); [|intros; lia|done]. done.
  - rewrite map_fold_insert_L; [done|intros; lia|done].
Qed.

Lemma errors_total_from failed errors : total (foldl count_error errors failed) = (total errors + length failed)%nat.
Proof.
  revert errors. induction failed as [|c l IH]; intros errors; cbn; [lia|].
  rewrite IH. unfold count_error. rewrite total_insert. lia.
Qed.

Lemma errors_lookup failed k errors :
  default 0%nat (foldl count_error errors failed !! k) =
  (default 0%nat (errors !! k) + length (List.filter (fun c => (cv_error c =? k)%string) failed))%nat.
Proof.
  revert errors. induction failed as [|c l IH]; intros errors; cbn; [lia|]. rewrite IH. unfold count_error.
  destruct (String.eqb_spec (cv_error c) k) as [<-|Hne].
  - rewrite lookup_insert_eq. cbn. lia.
  - by rewrite lookup_insert_ne.
Qed.

Lemma rate_bounds f m rate : (f <= m)%nat -> error_rate f m = Some rate -> 0 <= rate /\ rate <= 1.
Proof.
  intros Hf. destruct m as [|m]; [done|]. intros [= <-].
  assert (0 < number (S m)) as Hm by (unfold number; change 0 with (inject_Z 0); rewrite <- Zlt_Qlt; lia).
  assert (fl (number f / number (S m)) <= 1) as H1.
  { change 1 with (fl 1). apply fl_mono, Qle_shift_div_r; [done|]. rewrite Qmult_1_l.
    unfold number. rewrite <- Zle_Qle. lia. }
  assert (0 <= fl (number f / number (S m))) as H0.
  { change 0 with (fl 0). apply fl_mono, Qle_shift_div_l; [done|]. rewrite Qmult_0_l.
    unfold number. change 0 with (inject_Z 0). rewrite <- Zle_Qle. lia. }
  apply (round_to_mono 4) in H0, H1. exact (conj H0 H1).
Qed.

(** A summary's counts add up: every measured conversation is ok or failed,
    each failure is counted once under its own text, and the error rate exists
    exactly when something was measured and lies between 0 and 1. *)
Theorem summary_counts users conversations measure_from stop_at samples duration :
  let s := summarize users conversations measure_from stop_at samples duration in
  s_conversations_measured s = (s_conversations_ok s + s_conversations_failed s)%nat /\
  total (s_errors s) = s_conversations_failed s /\
  (forall text, default 0%nat (s_errors s !! text) =
     length (List.filter (fun c => (cv_error c =? text)%string)
       (failed_of (measured conversations measure_from)))) /\
  (s_error_rate s = None <-> s_conversations_measured s = 0%nat) /\
  (forall rate, s_error_rate s = Some rate -> 0 <= rate /\ rate <= 1).
Proof.
  cbv zeta. unfold summarize.
  cbn [s_conversations_measured s_conversations_ok s_conversations_failed s_errors s_error_rate].
  set (l := measured conversations measure_from). pose proof (ok_failed_length l) as Hl.
  split; [done|]. split; [apply errors_total_from|]. split; [intros text; apply errors_lookup|].
  split; [unfold error_rate; by destruct (length l)|]. intros rate. apply rate_bounds. lia.
Qed.

(** * Times *)

(** A conversation with the four stamps of its two jobs. *)
Definition stamped (conv : Conversation) : Prop :=
  is_Some (stamp conv "start" "published_ms") /\ is_Some (stamp conv "start" "finished_ms") /\
  is_Some (stamp conv "resume" "published_ms") /\ is_Some (stamp conv "resume" "finished_ms").

Lemma span_sum conv : stamped conv -> exists t s g,
  conversation_span conv = Some t /\ server_span conv = Some s /\ gap_span conv = Some g /\ t = (s + g)%Z.
Proof.
  intros ([p1 H1] & [f1 H2] & [p2 H3] & [f2 H4]).
  unfold conversation_span, server_span, gap_span, span. rewrite H1, H2, H3, H4. cbn.
  eexists _, _, _. split_and!; try done. lia.
Qed.

(** The time of a conversation is the server's plus the client's: over
    conversations with all stamps, the three samples have one entry each per
    conversation, and each conversation time is the sum of its server time and
    its client gap. *)
Theorem conversation_time_decomposes ok : Forall stamped ok ->
  length (conversation_ms ok) = length ok /\
  Forall2 Qeq (conversation_ms ok) (zip_with Qplus (server_ms ok) (client_gap ok)).
Proof.
  induction 1 as [|conv ok Hc _ [IHl IHs]]; [split; [done|constructor]|].
  destruct (span_sum _ Hc) as (t & s & g & Ht & Hs & Hg & ->).
  unfold conversation_ms, server_ms, client_gap in *. cbn. rewrite Ht, Hs, Hg. cbn.
  split; [congruence|]. constructor; [|done]. rewrite inject_Z_plus. apply Qeq_refl.
Qed.

(** * Timings *)

Section Fetch.
Context (hgetall : string -> list (string * string)).

Definition hash_of (job : string) : list (string * string) := hgetall ("job:" +:+ job +:+ ":timing").
Definition job_hash (job : nat * string * string) : list (string * string) := hash_of job.2.

(** A conversation with the timing of one of its jobs, if it has the job. *)
Definition fetch_job (name job : string) (c : Conversation) : Res Conversation :=
  if (job =? "")%string then Ok c
  else timing ← int_timing (hash_of job); mret (with_timing name timing c).
Definition fetch_one (c : Conversation) : Res Conversation :=
  c' ← fetch_job "start" (start_job c) c; fetch_job "resume" (resume_job c) c'.

Definition store (acc : Res (list Conversation)) (job : nat * string * string) : Res (list Conversation) :=
  convs ← acc; store_timing job (job_hash job) convs.

Lemma store_raise e jobs : foldl store (Raise e) jobs = Raise e.
Proof. by induction jobs. Qed.

(** The jobs of the conversation at position [i]. *)
Definition jobs_at (i : nat) (conv : Conversation) : list (nat * string * string) :=
  (if (start_job conv =? "")%string then [] else [(i, "start"%string, start_job conv)])
  ++ (if (resume_job conv =? "")%string then [] else [(i, "resume"%string, resume_job conv)]).

Lemma store_at before c rest name job :
  store (Ok (before ++ c :: rest)) (length before, name, job) =
  (timing ← int_timing (hash_of job); Ok (before ++ with_timing name timing c :: rest)).
Proof.
  unfold store, store_timing, job_hash. rewrite res_bind_ret. cbn [fst snd].
  destruct (int_timing (hash_of job)) as [t|e]; [|done]. rewrite !res_bind_ret. unfold mret, Res_ret. f_equal.
  replace (length before) with (length before + 0)%nat by lia. by rewrite alter_app_r.
Qed.

Lemma store_jobs before c rest :
  foldl store (Ok (before ++ c :: rest)) (jobs_at (length before) c) =
  (c' ← fetch_one c; Ok (before ++ c' :: rest)).
Proof.
  unfold jobs_at, fetch_one, fetch_job.
  destruct (start_job c =? "")%string; [rewrite res_bind_ret|]; cbn [app foldl]; [|rewrite store_at].
  - destruct (resume_job c =? "")%string; [done|]. cbn [foldl]. rewrite store_at.
    by destruct (int_timing _).
  - destruct (int_timing (hash_of (start_job c))) as [t|e]; cbn [mbind Res_bind mret Res_ret].
    + destruct (resume_job c =? "")%string; [done|]. cbn [foldl]. rewrite store_at.
      by destruct (int_timing _).
    + destruct (resume_job c =? "")%string; [done|]. done.
Qed.

Lemma store_all before rest :
  foldl store (Ok (before ++ rest)) (List.concat (imap (fun i => jobs_at (length before + i)) rest)) =
  (rest' ← mapM fetch_one rest; Ok (before ++ rest')).
Proof.
  revert before. induction rest as [|c rest IH]; intros before; [done|].
  rewrite imap_cons. cbn [List.concat]. rewrite foldl_app, Nat.add_0_r, store_jobs. cbn [mapM].
  destruct (fetch_one c) as [c'|e]; [|apply store_raise]. rewrite !res_bind_ret.
  specialize (IH (before ++ [c'])). rewrite <- app_assoc in IH. cbn [app] in IH.
  erewrite imap_ext; [rewrite IH|].
  - rewrite res_bind_assoc. destruct (mapM fetch_one rest) as [cs|e]; [|done]. cbn. by rewrite <- app_assoc.
  - intros i x _. unfold compose. rewrite length_app. cbn. f_equal. lia.
Qed.

(** Fetching the timings in pipelines of 500 reads exactly the hashes of the
    jobs that exist: each conversation, independently of the others and of the
    chunks, gets the integer stamps of its start and resume job. *)
Theorem fetch_timings_each conversations :
  fetch_timings hgetall conversations = mapM fetch_one conversations.
Proof.
  unfold fetch_timings.
  assert (forall cs acc, foldl (fun acc chunk =>
      foldl (fun acc (jr : (nat * string * string) * list (string * string)) =>
               convs ← acc; store_timing jr.1 jr.2 convs)
        acc (zip chunk ((fun job : nat * string * string => hgetall ("job:" +:+ job.2 +:+ ":timing")) <$> chunk)))
      acc cs = foldl store acc (List.concat cs)) as ->.
  { intros cs acc. rewrite <- foldl_chunks. revert acc. induction cs as [|c cs IH]; intros acc; cbn [foldl]; [done|].
    rewrite IH. f_equal. clear. revert acc. induction c as [|j c IH]; intros acc; cbn; [done|]. apply IH. }
  rewrite chunks_concat by lia.
  pose proof (store_all [] conversations) as H. cbn [app length Nat.add] in H.
  change (jobs_of conversations) with (List.concat (imap (fun i => jobs_at i) conversations)).
  etransitivity; [exact H|]. by destruct (mapM fetch_one conversations).
Qed.
End Fetch.
