(* ===== verification/LoadServices.v ===== *)
(** The containers of a level: the rows of [docker stats] that [Sampler._docker]
    keeps and the services table [summarize] folds them into
    ([bench/loadgen.py]).

    [json.loads] and [float] of a text are parameters; Python's [sum] of floats
    is one too, since its rounding is not that of repeated addition. *)
From Stdlib Require Import Ascii String QArith.
From stdpp Require Import base numbers strings list sets gmap sorting.
From S2P Require Import Prelude Models PyVal PyFloat Effects LoadGenerator LoadSummary.
Local Open Scope string_scope.
Local Open Scope list_scope.

(** * [_docker] *)

Record Sample := mkSample {
  sm_at : Q; sm_container : string; sm_service : string; sm_cpu_percent : Q; sm_mem_mib : Q }.

(** [s.startswith(p)], and what follows it. *)
Fixpoint after_prefix (p s : list ascii) : option (list ascii) :=
  match p, s with
  | [], _ => Some s
  | c :: p', d :: s' => if (c =? d)%char then after_prefix p' s' else None
  | _ :: _, [] => None
  end.

(** [s[:-len(suffix)]] if [s.endswith(suffix)]. *)
Definition before_suffix (suffix s : string) : option string :=
  (fun l => string_of_list_ascii (rev l)) <$>
    after_prefix (rev (list_ascii_of_string suffix)) (rev (list_ascii_of_string s)).

(** [s.rsplit("-", 1)[0]]: what comes before the last hyphen, if there is one. *)
Fixpoint drop_last_part (reversed : list ascii) : option (list ascii) :=
  match reversed with
  | [] => None
  | c :: l => if (c =? "-")%char then Some l else drop_last_part l
  end.
Definition rsplit_head (s : list ascii) : list ascii :=
  match drop_last_part (rev s) with Some l => rev l | None => s end.

(** The service of a container of the compose project. *)
Definition service_of (project name : string) : option string :=
  (fun l => string_of_list_ascii (rsplit_head l)) <$>
    after_prefix (list_ascii_of_string (project +:+ "-")) (list_ascii_of_string name).

Definition units : list (string * Q) :=
  [("KiB", 1 / 1024); ("MiB", 1); ("GiB", 1024); ("kB", 1 / 1024); ("MB", 1); ("GB", 1024);
   ("B", 1 / 1024 / 1024)]%Q.

Section Sampler.
Context (float_of_text : string -> Res Q) (py_sum : list Q -> Q).

Fixpoint mib_in (units : list (string * Q)) (value : string) : Res Q :=
  match units with
  | [] => Ok 0%Q
  | (unit, factor) :: units' =>
      match before_suffix unit value with
      | Some n => x ← float_of_text n; Ok (fl (x * factor))
      | None => mib_in units' value
      end
  end.
Definition _mib (value : string) : Res Q := mib_in units (py_strip value).

(** [text.split("/")[0]]. *)
Fixpoint before_slash (l : list ascii) : list ascii :=
  match l with [] => [] | c :: l' => if (c =? "/")%char then [] else c :: before_slash l' end.
(** [text.rstrip("%")]. *)
Fixpoint drop_percent (reversed : list ascii) : list ascii :=
  match reversed with c :: l => if (c =? "%")%char then drop_percent l else reversed | [] => [] end.
Definition rstrip_percent (s : string) : string :=
  string_of_list_ascii (rev (drop_percent (rev (list_ascii_of_string s)))).

Definition text_of_row (row : list (string * PyVal)) (key : string) : Res string :=
  v ← item row key; match v with PStr s => Ok s | _ => raise AttributeError "object has no attribute" end.

(** One line of [docker stats]: [None] for a container of another project. *)
Definition sample_of (project : string) (at_ : Q) (row : list (string * PyVal)) : Res (option Sample) :=
  name ← text_of_row row "Name";
  match service_of project name with
  | None => Ok None
  | Some service =>
      cpu ← text_of_row row "CPUPerc";
      let digits := rstrip_percent cpu in
      cpu_percent ← (if (digits =? "")%string then Ok 0%Q else float_of_text digits);
      mem ← text_of_row row "MemUsage";
      mem_mib ← _mib (string_of_list_ascii (before_slash (list_ascii_of_string mem)));
      Ok (Some (mkSample at_ name service cpu_percent mem_mib))
  end.

(** * The services table of [summarize] *)

(** [by_time.setdefault(key, []).append(row)], a dict in insertion order. *)
Fixpoint append_at {A} (key : Z) (row : A) (by_time : list (Z * list A)) : list (Z * list A) :=
  match by_time with
  | [] => [(key, [row])]
  | (k, group) :: rest =>
      if (k =? key)%Z then (k, group ++ [row]) :: rest else (k, group) :: append_at key row rest
  end.
Definition by_time (rows : list Sample) : list (Z * list Sample) :=
  foldl (fun groups row => append_at (round_half_even (sm_at row)) row groups) [] rows.

Record ServiceUse := mkServiceUse { cpu_percent_mean : Q; cpu_percent_max : option Q; mem_mib_max : option Q }.

Definition service_use (rows : list Sample) : ServiceUse :=
  let groups := snd <$> by_time rows in
  let cpu_totals := (fun group => py_sum (sm_cpu_percent <$> group)) <$> groups in
  let mem_totals := (fun group => py_sum (sm_mem_mib <$> group)) <$> groups in
  mkServiceUse (round_to 1 (fmean cpu_totals)) (round_to 1 <$> qmax cpu_totals) (round_to 1 <$> qmax mem_totals).

Definition sample_window (containers : list Sample) (measure_from stop_at : Q) : list Sample :=
  List.filter (fun s => Qle_bool measure_from (sm_at s) && Qle_bool (sm_at s) stop_at) containers.
(** [sorted({sample["service"] for sample in window})]. *)
Definition service_names (window : list Sample) : list string :=
  sort_by (fun a b => negb (String.ltb b a)) (remove_dups (sm_service <$> window)).
Definition rows_of (service : string) (window : list Sample) : list Sample :=
  List.filter (fun s => (sm_service s =? service)%string) window.
Definition services (containers : list Sample) (measure_from stop_at : Q) : list (string * ServiceUse) :=
  let window := sample_window containers measure_from stop_at in
  (fun service => (service, service_use (rows_of service window))) <$> service_names window.
End Sampler.

Example worker_service : service_of "bench" "bench-fake-llm-2" = Some "fake-llm" /\ service_of "bench" "other-1" = None.
Proof. split; reflexivity. Qed.

(** * What they mean *)

Lemma after_prefix_app p s : after_prefix p (p ++ s) = Some s.
Proof. induction p as [|c p IH]; cbn; [by destruct s|]. by rewrite Ascii.eqb_refl. Qed.

Lemma drop_last_part_app l s :
  Forall (fun a => (a =? "-")%char = false) l -> drop_last_part (l ++ "-"%char :: s) = Some s.
Proof. induction 1 as [|a l Ha _ IH]; cbn; [done|]. by rewrite Ha. Qed.

Lemma free_of_Forall c s : free_of c s = true -> Forall (fun a => (a =? c)%char = false) (list_ascii_of_string s).
Proof.
  induction s as [|a s IH]; cbn; [constructor|]. intros [Ha Hs]%andb_true_iff.
  constructor; [by apply negb_true_iff|auto].
Qed.

(** A container named by compose gives its service, hyphens included. *)
Theorem service_of_name project service number :
  free_of "-" number = true ->
  service_of project ((project +:+ "-") +:+ (service +:+ "-" +:+ number)) = Some service.
Proof.
  intros Hn%free_of_Forall. unfold service_of. rewrite (list_ascii_app (project +:+ "-")), after_prefix_app.
  cbn [fmap option_fmap option_map]. f_equal. rewrite !list_ascii_app. unfold rsplit_head.
  rewrite !rev_app_distr, <- app_assoc. cbn [list_ascii_of_string rev app].
  rewrite drop_last_part_app by (by apply Forall_rev in Hn). rewrite rev_involutive.
  apply string_of_list_ascii_of_string.
Qed.

(** Quantities are read in the unit they end with. *)
Definition decimal_digit (a : ascii) : bool := bool_decide (48 <= nat_of_ascii a <= 57)%nat.
Lemma before_suffix_app s unit : before_suffix unit (s +:+ unit) = Some s.
Proof.
  unfold before_suffix. rewrite list_ascii_app, rev_app_distr, after_prefix_app.
  cbn [fmap option_fmap option_map]. by rewrite rev_involutive, string_of_list_ascii_of_string.
Qed.

Theorem mib_in_unit float_of_text n d unit factor x :
  decimal_digit d = true -> float_of_text (n +:+ String d "") = Ok x -> (unit, factor) ∈ units ->
  mib_in float_of_text units ((n +:+ String d "") +:+ unit) = Ok (fl (x * factor)).
Proof.
  intros Hd Hx Hin. set (s := n +:+ String d "") in *.
  assert (forall u u', (forall l, after_prefix (rev (list_ascii_of_string u')) (rev (list_ascii_of_string u) ++ d :: l) = None) ->
    before_suffix u' (s +:+ u) = None) as Hother.
  { intros u u' Hu. unfold before_suffix, s. rewrite !list_ascii_app, !rev_app_distr. cbn [list_ascii_of_string rev app].
    by rewrite Hu. }
  assert (forall u l, Forall (fun p => before_suffix p.1 (s +:+ u) = None) l -> forall f us,
    mib_in float_of_text (l ++ (u, f) :: us) (s +:+ u) = Ok (fl (x * f))) as Hfind.
  { intros u l Hl f us. induction Hl as [|[u' f'] l Hu _ IH]; cbn [mib_in app]; [|cbn [fst] in Hu; by rewrite Hu].
    rewrite before_suffix_app, Hx. done. }
  apply list_elem_of_split in Hin as (l & us & E). rewrite E. apply Hfind. clear Hfind.
  unfold units in E. destruct d as [[] [] [] [] [] [] [] []]; try discriminate Hd;
    (repeat (destruct l as [|? l]; simplify_eq/=); repeat constructor; by apply Hother).
Qed.

(** * The groups of one second *)

Definition second_of (row : Sample) : Z := round_half_even (sm_at row).
Definition at_second (k : Z) (rows : list Sample) : list Sample :=
  List.filter (fun row => (second_of row =? k)%Z) rows.

Lemma append_at_keys {A} key (row : A) groups :
  fst <$> append_at key row groups =
  if bool_decide (key ∈ fst <$> groups) then fst <$> groups else (fst <$> groups) ++ [key].
Proof.
  induction groups as [|[k g] groups IH]; [done|]. cbn. destruct (Z.eqb_spec k key) as [->|Hne]; cbn.
  - rewrite bool_decide_eq_true_2 by (by left). done.
  - rewrite IH. repeat case_bool_decide; set_solver.
Qed.

Lemma elem_of_append_at {A} key (row : A) groups k g : NoDup (fst <$> groups) ->
  (k, g) ∈ append_at key row groups <->
  (k <> key /\ (k, g) ∈ groups) \/
  (k = key /\ ((exists g0, (key, g0) ∈ groups /\ g = g0 ++ [row]) \/ (key ∉ fst <$> groups /\ g = [row]))).
Proof.
  induction groups as [|[k' g'] groups IH]; intros Hnd; cbn.
  - rewrite list_elem_of_singleton. split; [intros [= -> ->]; right; split; [done|right; set_solver]|].
    intros [[_ []%elem_of_nil]|[-> [(? & []%elem_of_nil & _)|[_ ->]]]]; done.
  - apply NoDup_cons in Hnd as [Hk Hnd]. specialize (IH Hnd).
    assert (forall g0, (k', g0) ∉ groups) as Hno.
    { intros g0 H. apply Hk. by apply (list_elem_of_fmap_2 fst) in H. }
    destruct (Z.eqb_spec k' key) as [->|Hne].
    + setoid_rewrite elem_of_cons. split.
      * intros [[= -> ->]|H]; [right; split; [done|left; exists g'; split; [by left|done]]|].
        left. split; [intros ->; by eapply Hno|by right].
      * intros [[Hk' [[= -> ->]|H]]|[-> [(g0 & [[= ->]|H] & ->)|[H _]]]]; [done|by right|by left|by eapply Hno in H|set_solver].
    + rewrite elem_of_cons, IH. setoid_rewrite elem_of_cons. naive_solver.
Qed.

(** Grouping by the rounded time of the sample keeps every sample once. *)
Theorem by_time_groups rows :
  NoDup (fst <$> by_time rows) /\
  forall k g, (k, g) ∈ by_time rows <-> g = at_second k rows /\ g <> [].
Proof.
  induction rows as [|row rows [Hnd IH]] using rev_ind.
  - cbn. split; [constructor|]. intros k g. split; [by intros ?%elem_of_nil|]. by intros [-> []].
  - unfold by_time in *. rewrite foldl_snoc. set (groups := foldl _ _ _) in *. fold (second_of row). split.
    + rewrite append_at_keys. case_bool_decide; [done|]. apply NoDup_app. split_and!; [done|set_solver|apply NoDup_singleton].
    + assert (second_of row ∉ fst <$> groups <-> at_second (second_of row) rows = []) as Hnew.
      { rewrite list_elem_of_fmap. split.
        - intros H. destruct (at_second _ rows) as [|r l] eqn:E; [done|]. destruct H.
          exists (second_of row, r :: l). split; [done|]. apply IH. by rewrite E.
        - intros E ([k g] & E' & [-> Hg]%IH). cbn in E'. subst k. by apply Hg. }
      intros k g. rewrite elem_of_append_at by done. rewrite Hnew. setoid_rewrite IH.
      unfold at_second. rewrite List.filter_app. cbn [List.filter].
      destruct (Z.eqb_spec (second_of row) k) as [<-|Hne]; [|rewrite app_nil_r; naive_solver].
      split.
      * intros [[[] _]|[_ [(g0 & [-> _] & ->)|[E ->]]]]; [done|by split; [|destruct (List.filter _ _)]|by rewrite E].
      * intros [-> _]. right. split; [done|]. fold (at_second (second_of row) rows).
        destruct (at_second (second_of row) rows) as [|r l] eqn:E; [by right|left]. by exists (r :: l).
Qed.

(** * The table *)

(** Every service that has a sample in the window has one row, computed from
    its samples, and no other service has one; the rows are in order. *)
Theorem services_table py_sum containers measure_from stop_at :
  let window := sample_window containers measure_from stop_at in
  let table := services py_sum containers measure_from stop_at in
  NoDup (fst <$> table) /\
  forall service use, (service, use) ∈ table <->
    use = service_use py_sum (rows_of service window) /\ rows_of service window <> [].
Proof.
  intros window table.
  assert (fst <$> table = service_names window) as Hkeys.
  { unfold table, services. cbv zeta. fold window. rewrite <- list_fmap_compose. apply list_fmap_id. }
  split.
  - rewrite Hkeys. unfold service_names. rewrite sort_by_perm. apply NoDup_remove_dups.
  - intros service use. unfold table, services. cbv zeta. fold window. rewrite list_elem_of_fmap.
    assert (service ∈ service_names window <-> rows_of service window <> []) as Hin.
    { unfold service_names. rewrite sort_by_perm, elem_of_remove_dups, list_elem_of_fmap. unfold rows_of. split.
      - intros (s & -> & Hs) E. apply (not_elem_of_nil s). rewrite <- E. apply list_elem_of_In, filter_In.
        split; [by apply list_elem_of_In|apply String.eqb_refl].
      - destruct (List.filter _ window) as [|s l] eqn:E; [done|]. intros _. exists s.
        assert (s ∈ s :: l) as Hs by (by left). rewrite <- E in Hs.
        apply list_elem_of_In, filter_In in Hs as [Hs Heq]. split; [by apply String.eqb_eq in Heq|by apply list_elem_of_In]. }
    split.
    + by intros (s & [= -> ->] & Hs%Hin).
    + intros [-> Hs]. exists service. split; [done|by apply Hin].
Qed.
