(* ===== verification/LoadRuns.v ===== *)
(** A benchmark run: the samplers, the worker processes and the levels of
    [bench/loadgen.py].

    Processes, pipes, [docker stats] and the management API are awaited
    operations.  A loop that only its task's cancellation ends has fuel, which
    bounds its rounds. *)
From Stdlib Require Import Ascii String QArith.
From stdpp Require Import base numbers strings list sets gmap.
From S2P Require Import Prelude Models PyVal PyFloat Effects LoadGenerator LoadProperties LoadSummary LoadServices.
Local Open Scope string_scope.

(** * [StatusWatcher.wait] *)

Definition JOB_TIMEOUT_SECONDS : Z := 120.

Inductive WatchOp : Type -> Type :=
  | Register (job_id : string) (targets : list string) : WatchOp unit
  | WaitFor (job_id : string) (seconds : Z) : WatchOp string
  | Unregister (job_id : string) : WatchOp unit.

Definition wait (job_id : string) (targets : list string) : Prog WatchOp string :=
  await (Register job_id targets);;
  finally_ (await (WaitFor job_id JOB_TIMEOUT_SECONDS)) (await (Unregister job_id)).

(** * [Sampler] *)

Inductive SamplerOp : Type -> Type :=
  | DockerStats : SamplerOp (list string)
  | QueueDepth : SamplerOp (list (string * Z))
  | SamplerNow : SamplerOp Q
  | SamplerSleep (seconds : Z) : SamplerOp unit.
Notation SamplerM := (Prog SamplerOp).

Section Sampler.
Context (loads : string -> Res (list (string * PyVal))) (float_of_text : string -> Res Q).

(** The lines of one output; a line that raises ends the task, with the
    samples kept so far. *)
Fixpoint docker_lines (project : string) (at_ : Q) (lines : list string) (containers : list Sample) :
    list Sample * option Exn :=
  match lines with
  | [] => (containers, None)
  | line :: lines' =>
      match (row ← loads line; sample_of float_of_text project at_ row) with
      | Ok (Some sample) => docker_lines project at_ lines' (containers ++ [sample])
      | Ok None => docker_lines project at_ lines' containers
      | Raise e => (containers, Some e)
      end
  end.

Fixpoint _docker (fuel : nat) (project : string) (containers : list Sample) :
    SamplerM (list Sample * option Exn) :=
  match fuel with
  | O => mret (containers, None)
  | S fuel' =>
      attempt (await DockerStats) containers (fun lines =>
        attempt (await SamplerNow) containers (fun at_ =>
          let '(containers, error) := docker_lines project at_ lines containers in
          match error with
          | Some e => mret (containers, Some e)
          | None => attempt (await (SamplerSleep 1)) containers (fun _ =>
                      _docker fuel' project containers)
          end))
  end.

(** [httpx.HTTPError] is an error of a client library, a malformed body a
    [ValueError]. *)
Definition _rabbit_error (e : Exn) : bool := isinstance e InfraError || isinstance e ValueError.

Definition queue_sample (at_ : Q) (data : list (string * Z)) : QueueSample :=
  mkQueueSample at_ (count_of "messages_ready" data) (count_of "messages_unacknowledged" data).

Fixpoint _rabbit (fuel : nat) (queue : list QueueSample) : SamplerM (list QueueSample * option Exn) :=
  match fuel with
  | O => mret (queue, None)
  | S fuel' =>
      let next queue := attempt (await (SamplerSleep 1)) queue (fun _ => _rabbit fuel' queue) in
      try_else (data ← await QueueDepth; at_ ← await SamplerNow; mret (queue_sample at_ data))
        (fun e => if _rabbit_error e then next queue else mret (queue, Some e))
        (fun sample => next (queue ++ [sample])%list)
  end.
End Sampler.

(** * A conversation on its way through a pipe *)

Inductive FieldValue :=
  | FIndex (n : N) | FTime (t : Q) | FBool (b : bool) | FText (s : string)
  | FTimings (t : gmap string Timing).
Notation Row := (list (string * FieldValue)).

(** [asdict(conv)]. *)
Definition asdict (c : Conversation) : Row :=
  [("index", FIndex (cv_index c)); ("client_start", FTime (client_start c));
   ("client_end", FTime (client_end c)); ("ok", FBool (cv_ok c)); ("error", FText (cv_error c));
   ("start_job", FText (start_job c)); ("resume_job", FText (resume_job c));
   ("timings", FTimings (timings c))].

(** One keyword argument of [Conversation]; an unknown one is refused. *)
Definition set_field (c : Conversation) (field : string * FieldValue) : Res Conversation :=
  let '(k, v) := field in
  let c' index start end_ ok error start_job resume_job timings :=
    Ok (mkConversation index start end_ ok error start_job resume_job timings) in
  match v with
  | FIndex n => if k =? "index" then c' n (client_start c) (client_end c) (cv_ok c) (cv_error c) (start_job c) (resume_job c) (timings c)
                else raise TypeError k
  | FTime t => if k =? "client_start" then c' (cv_index c) t (client_end c) (cv_ok c) (cv_error c) (start_job c) (resume_job c) (timings c)
               else if k =? "client_end" then c' (cv_index c) (client_start c) t (cv_ok c) (cv_error c) (start_job c) (resume_job c) (timings c)
               else raise TypeError k
  | FBool b => if k =? "ok" then c' (cv_index c) (client_start c) (client_end c) b (cv_error c) (start_job c) (resume_job c) (timings c)
               else raise TypeError k
  | FText s => if k =? "error" then c' (cv_index c) (client_start c) (client_end c) (cv_ok c) s (start_job c) (resume_job c) (timings c)
               else if k =? "start_job" then c' (cv_index c) (client_start c) (client_end c) (cv_ok c) (cv_error c) s (resume_job c) (timings c)
               else if k =? "resume_job" then c' (cv_index c) (client_start c) (client_end c) (cv_ok c) (cv_error c) (start_job c) s (timings c)
               else raise TypeError k
  | FTimings t => if k =? "timings" then c' (cv_index c) (client_start c) (client_end c) (cv_ok c) (cv_error c) (start_job c) (resume_job c) t
                  else raise TypeError k
  end.

(** [Conversation(...)] of a row: the index and the start are required. *)
Definition conversation_from_row (row : Row) : Res Conversation :=
  if forallb (fun k => existsb (fun f : string * FieldValue => f.1 =? k) row) ["index"; "client_start"] then
    foldl (fun acc field => c ← acc; set_field c field) (Ok (new_conversation 0 0)) row
  else raise TypeError "missing required argument".

(** * A worker process: [shard_main] *)

Inductive ShardOp : Type -> Type :=
  | WatcherStart : ShardOp unit
  | ShardReceive : ShardOp (option (N * Q))
  | ShardNow : ShardOp Q
  | ShardSleep (seconds : Q) : ShardOp unit
  | CpuSeconds : ShardOp Q
  | GatherUsers (users : N) (stop_at : Q) : ShardOp (list Conversation)
  | ShardSend (rows : list Row) (cpu : Q) : ShardOp unit
  | WatcherStop : ShardOp unit
  | CloseHttp : ShardOp unit
  | CloseRedis : ShardOp unit.
Notation ShardM := (Prog ShardOp).

Local Open Scope Q_scope.

Definition level_stop (level_start warmup duration : Q) : Q := fl (fl (level_start + warmup) + duration).

(** The CPU percentage of a process since the level started. *)
Definition cpu_percent (before after now level_start : Q) : Q :=
  let elapsed := fl (now - level_start) in
  let tiny := fl (1 # 1000000000) in
  fl (fl (fl (after - before) / (if Qle_bool elapsed tiny then tiny else elapsed)) * 100).

Definition run_users (warmup duration : Q) (users : N) (level_start : Q) : ShardM (list Conversation * Q) :=
  now ← await ShardNow;
  await (ShardSleep (let d := fl (level_start - now) in if Qle_bool d 0 then 0 else d));;
  cpu_before ← await CpuSeconds;
  conversations ← await (GatherUsers users (level_stop level_start warmup duration));
  cpu_after ← await CpuSeconds;
  now ← await ShardNow;
  mret (conversations, cpu_percent cpu_before cpu_after now level_start).

Fixpoint serve_loop (fuel : nat) (warmup duration : Q) : ShardM unit :=
  match fuel with
  | O => mret tt
  | S fuel' =>
      message ← await ShardReceive;
      match message with
      | None => mret tt
      | Some (users, level_start) =>
          '(conversations, cpu) ← run_users warmup duration users level_start;
          await (ShardSend (asdict <$> conversations) cpu);;
          serve_loop fuel' warmup duration
      end
  end.

(** [LoadGenerator.close]. *)
Definition close : ShardM unit := await WatcherStop;; await CloseHttp;; await CloseRedis.

Definition serve (fuel : nat) (warmup duration : Q) : ShardM unit :=
  await WatcherStart;; finally_ (serve_loop fuel warmup duration) close.

(** * One level: [run_level] *)

Record LevelResult := mkLevelResult {
  lr_summary : Summary; lr_services : list (string * ServiceUse);
  lr_generator_processes : nat; lr_generator_cpu_percent : Q }.

Inductive LevelOp : Type -> Type :=
  | LevelNow : LevelOp Q
  | SendLevel (shard : nat) (users : N) (level_start : Q) : LevelOp unit
  | SamplerStart : LevelOp unit
  | ReceiveReply (shard : nat) : LevelOp (list Row * Q)
  | SamplerStop : LevelOp (list Sample * list QueueSample)
  | ReadTimings : LevelOp (string -> list (string * string)).
Notation LevelM := (Prog LevelOp).

Section Level.
Context (py_sum : list Q -> Q).

(** What the results of a level are made of. *)
Definition level_result (shards : nat) (warmup duration : Q) (users : N) (now : Q)
    (conversations : list Conversation) (containers : list Sample) (queue : list QueueSample) (cpu : Q) :
    LevelResult :=
  let measure_from := fl (fl (now + (1 # 2)) + warmup) in
  let stop_at := fl (measure_from + duration) in
  mkLevelResult (summarize users conversations measure_from stop_at queue duration)
    (services py_sum containers measure_from stop_at) shards (round_to 1 cpu).

Definition run_level (shards : nat) (warmup duration : Q) (users : N) : LevelM LevelResult :=
  now ← await LevelNow;
  let level_start := fl (now + (1 # 2)) in
  mapM (fun shard => await (SendLevel shard
    (users_of_shard users (N.of_nat shards) (N.of_nat shard)) level_start)) (seq 0 shards);;
  await SamplerStart;;
  replies ← mapM (fun shard => await (ReceiveReply shard)) (seq 0 shards);
  '(containers, queue) ← await SamplerStop;
  conversations ← of_res (mapM conversation_from_row (List.concat (fst <$> replies)));
  hgetall ← await ReadTimings;
  conversations ← of_res (fetch_timings hgetall conversations);
  cpu ← of_res (or_raise (qmax (snd <$> replies)) ValueError "max() iterable argument is empty");
  mret (level_result shards warmup duration users now conversations containers queue cpu).
End Level.

(** * All levels: [main] *)

Inductive MainOp : Type -> Type :=
  | RunLevel (users : N) : MainOp LevelResult
  | DrainQueue : MainOp unit
  | WriteOut (levels : list LevelResult) : MainOp unit
  | SendStop (shard : nat) : MainOp unit
  | JoinShard (shard : nat) (timeout : Z) : MainOp unit
  | CloseMaster : MainOp unit.
Notation MainM := (Prog MainOp).

Fixpoint levels_loop (todo : list N) (levels : list LevelResult) : MainM unit :=
  match todo with
  | [] => mret tt
  | users :: todo' =>
      result ← await (RunLevel users);
      await DrainQueue;;
      let levels := (levels ++ [result])%list in
      await (WriteOut levels);;
      levels_loop todo' levels
  end.

Definition stop_shards (shards : nat) : MainM unit :=
  mapM (fun shard => await (SendStop shard)) (seq 0 shards);;
  mapM (fun shard => await (JoinShard shard 30)) (seq 0 shards);;
  await CloseMaster.

Definition main_levels (shards : nat) (todo : list N) : MainM unit :=
  finally_ (levels_loop todo []) (stop_shards shards).

(** [LoadGenerator.__init__]: the connections of one process. *)
Definition connections (levels : list N) (shards : N) : Res N :=
  match levels with
  | [] => raise ValueError "max() iterable argument is empty"
  | l :: ls => if (shards =? 0)%N then raise ZeroDivisionError "integer division or modulo by zero"
               else Ok (foldl N.max l ls / shards + 10)%N
  end.

(** [raise_open_file_limit]: the limits to set, if any. *)
Definition raise_open_file_limit (soft hard : Z) : option (Z * Z) :=
  if (soft <? hard)%Z then Some (hard, hard) else None.

(** * Awaiting one operation after the other *)

Lemma wp_mapM_await {Op : Type -> Type} {A R} (o : A -> Op R) (l : list A) (Q : Res (list R) -> Trace Op -> Prop) :
  (forall rs, length rs = length l -> Q (Ok rs) (zip_with (fun x r => Ev (o x) (Ok r)) l rs)) ->
  (forall l1 x l2 rs e, l = (l1 ++ x :: l2)%list -> length rs = length l1 ->
     Q (Raise e) (zip_with (fun x r => Ev (o x) (Ok r)) l1 rs ++ [Ev (o x) (Raise e)])%list) ->
  wp (mapM (fun x => await (o x)) l) Q.
Proof.
  revert Q. induction l as [|x l IH]; intros Q Hok Hbad; cbn [mapM].
  - apply wp_ret. by apply (Hok []).
  - apply wp_bind, wp_await. intros [r|e]; [|by apply (Hbad [] x l [])].
    apply wp_bind, IH.
    + intros rs Hrs. apply wp_ret. rewrite app_nil_r. apply (Hok (r :: rs)). cbn. by rewrite Hrs.
    + intros l1 y l2 rs e -> Hrs. apply (Hbad (x :: l1) y l2 (r :: rs)); [done|]. cbn. by rewrite Hrs.
Qed.

(** * What they do *)

(** A conversation survives its way through the pipe. *)
Lemma asdict_round_trip c : conversation_from_row (asdict c) = Ok c.
Proof. by destruct c. Qed.

Lemma asdict_rows (convs : list (list Conversation)) :
  mapM conversation_from_row (List.concat ((fun cs : list Conversation => asdict <$> cs) <$> convs)) = Ok (List.concat convs).
Proof.
  apply mapM_Res_Ok. induction convs as [|cs convs IH]; cbn; [constructor|].
  apply Forall2_app; [|exact IH]. induction cs as [|c cs IHc]; constructor; [apply asdict_round_trip|done].
Qed.

(** A waiter is removed whatever ends the wait, whose outcome is the future's. *)
Theorem wait_unregisters job_id targets :
  wp (wait job_id targets) (fun r tr =>
    (exists e, tr = [Ev (Register job_id targets) (Raise e)] /\ r = Raise e) \/
    exists out removed, tr = [Ev (Register job_id targets) (Ok tt);
        Ev (WaitFor job_id JOB_TIMEOUT_SECONDS) out; Ev (Unregister job_id) removed] /\
      r = match removed with Ok _ => out | Raise e => Raise e end).
Proof.
  unfold wait. wp_step. wp_step; [|left; by eexists].
  destruct a. apply wp_finally. wp_step; wp_step; right; by repeat eexists.
Qed.

Lemma foldl_max_ge ls l u : u ∈ l :: ls -> (u <= foldl N.max l ls)%N.
Proof.
  revert l u. induction ls as [|l' ls IH]; intros l u Hu; cbn.
  - apply list_elem_of_singleton in Hu. lia.
  - pose proof (IH (N.max l l') (N.max l l') ltac:(by left)).
    apply elem_of_cons in Hu as [->|Hu]; [lia|].
    apply elem_of_cons in Hu as [->|Hu]; [lia|]. apply IH. by right.
Qed.

(** A process has a connection for each of its users at every level. *)
Theorem connections_enough levels shards shard users n :
  connections levels shards = Ok n -> users ∈ levels -> (users_of_shard users shards shard <= n)%N.
Proof.
  unfold connections, users_of_shard. destruct levels as [|l ls]; [done|].
  destruct (N.eqb_spec shards 0) as [|Hs]; [done|]. intros [= <-] Hu.
  pose proof (foldl_max_ge ls l users Hu) as Hm.
  pose proof (N.Div0.div_le_mono users (foldl N.max l ls) shards Hm).
  destruct (_ <? _)%N; lia.
Qed.

Section SamplerFacts.
Context (loads : string -> Res (list (string * PyVal))) (float_of_text : string -> Res Q).

(** The samples of a line. *)
Definition line_sample (project : string) (at_ : Q) (line : string) : Res (option Sample) :=
  row ← loads line; sample_of float_of_text project at_ row.

(** Of one output the lines up to the first one that raises are kept. *)
Theorem docker_lines_spec project at_ lines containers :
  exists good rest kept,
    lines = (good ++ rest)%list /\ mapM (line_sample project at_) good = Ok kept /\
    match rest with
    | [] => docker_lines loads float_of_text project at_ lines containers
            = ((containers ++ omap id kept)%list, None)
    | line :: _ => exists e, line_sample project at_ line = Raise e /\
        docker_lines loads float_of_text project at_ lines containers
        = ((containers ++ omap id kept)%list, Some e)
    end.
Proof.
  revert containers. induction lines as [|line lines IH]; intros containers; cbn [docker_lines].
  - exists [], [], []. split_and!; [done..|]. cbn. by rewrite app_nil_r.
  - fold (line_sample project at_ line).
    destruct (line_sample project at_ line) as [[sample|]|e] eqn:E.
    + destruct (IH (containers ++ [sample])%list) as (good & rest & kept & -> & Hk & Hr).
      exists (line :: good), rest, (Some sample :: kept). split; [done|]. split.
      { cbn. rewrite E. cbn. by rewrite Hk. }
      cbn. by rewrite <- app_assoc in Hr.
    + destruct (IH containers) as (good & rest & kept & -> & Hk & Hr).
      exists (line :: good), rest, (None :: kept). split; [done|]. split; [|done].
      cbn. rewrite E. cbn. by rewrite Hk.
    + exists [], (line :: lines), []. split_and!; [done..|]. exists e. split; [done|].
      cbn. by rewrite app_nil_r.
Qed.

(** The container samples only ever grow, and a line that raises ends the task:
    nothing is read after it. *)
Definition docker_reads (tr : Trace SamplerOp) : list (Res (list string)) :=
  omap (fun ev => match ev with
    | Ev o r => match o in SamplerOp R return Res R -> option (Res (list string)) with
                | DockerStats => Some | _ => fun _ => None end r end) tr.

Theorem docker_sampling fuel project containers :
  wp (_docker loads float_of_text fuel project containers) (fun r tr =>
    exists new e, r = Ok ((containers ++ new)%list, e) /\
      (e = None -> length (docker_reads tr) = fuel) /\
      (forall lines, Ok lines ∈ docker_reads tr -> last (docker_reads tr) <> Some (Ok lines) ->
         forall line, line ∈ lines -> exists at_ s, line_sample project at_ line = Ok s)).
Proof.
  revert containers. induction fuel as [|fuel IH]; intros containers; cbn [_docker].
  - apply wp_ret. exists [], None. rewrite app_nil_r. split_and!; [done..|].
    intros lines Hl. by apply not_elem_of_nil in Hl.
  - unfold attempt. wp_step. wp_step.
    2:{ apply wp_ret. exists [], (Some e). rewrite app_nil_r. split_and!; [done..|].
        cbn. intros lines Hl. by apply list_elem_of_singleton in Hl. }
    rename a into lines. wp_step. wp_step.
    2:{ apply wp_ret. exists [], (Some e). rewrite app_nil_r. split_and!; [done..|]. cbn.
        intros ls Hl. apply list_elem_of_singleton in Hl. injection Hl as <-. done. }
    rename a into at_.
    destruct (docker_lines_spec project at_ lines containers) as (good & rest & kept & Hl & Hk & Hr).
    destruct rest as [|line rest].
    + rewrite Hr. wp_step. wp_step.
      2:{ apply wp_ret. exists (omap id kept), (Some e). split_and!; [done..|]. cbn.
          intros ls Hls. apply list_elem_of_singleton in Hls. injection Hls as <-. done. }
      eapply wp_mono; [|apply IH]. intros r tr (new & e & -> & He & Hlines). cbn.
      exists (omap id kept ++ new)%list, e. rewrite app_assoc. split_and!; [done|auto|].
      intros ls Hls Hlast. apply elem_of_cons in Hls as [[= ->]|Hls].
      * intros line Hline. rewrite app_nil_r in Hl. subst lines.
        apply mapM_Res_Ok in Hk. apply list_elem_of_lookup in Hline as [i Hi].
        destruct (Forall2_lookup_l _ _ _ _ _ Hk Hi) as (s & _ & Hs). eauto.
      * apply (Hlines ls Hls). intros Hlast'. apply Hlast.
        change (last (Ok lines :: docker_reads tr) = Some (Ok ls)). by rewrite last_cons, Hlast'.
    + destruct Hr as (e & He & ->). apply wp_ret. exists (omap id kept), (Some e).
      split_and!; [done..|]. cbn. intros ls Hls. apply list_elem_of_singleton in Hls.
      injection Hls as <-. done.
Qed.

(** An event of the management API the loop survives. *)
Definition survived (ev : Event SamplerOp) : Prop :=
  match ev with
  | Ev o r => match o in SamplerOp R return Res R -> Prop with
              | QueueDepth => fun r => forall e, r = Raise e -> _rabbit_error e = true
              | _ => fun r => is_ok r = true
              end r
  end.
Definition depths (tr : Trace SamplerOp) : list (Z * Z) :=
  omap (fun ev => match ev with
    | Ev o r => match o in SamplerOp R return Res R -> option (Z * Z) with
                | QueueDepth => fun r => match r with
                    | Ok d => Some (count_of "messages_ready" d, count_of "messages_unacknowledged" d)
                    | Raise _ => None end
                | _ => fun _ => None end r end) tr.

(** A management API that is down or answers nonsense does not end the sampling
    of the queue: every successful read becomes one sample. *)
Theorem rabbit_goes_on fuel queue :
  wp (_rabbit fuel queue) (fun r tr => Forall survived tr ->
    exists new, r = Ok ((queue ++ new)%list, None) /\
      (fun s => (q_ready s, q_unacked s)) <$> new = depths tr).
Proof.
  revert queue. induction fuel as [|fuel IH]; intros queue; cbn [_rabbit].
  - apply wp_ret. intros _. exists []. by rewrite app_nil_r.
  - assert (forall q pre, (Forall survived pre -> exists new0, q = (queue ++ new0)%list /\
              (fun s => (q_ready s, q_unacked s)) <$> new0 = depths pre) ->
      wp (attempt (await (SamplerSleep 1)) q (fun _ => _rabbit fuel q)) (fun r tr =>
        Forall survived (pre ++ tr)%list -> exists new, r = Ok ((queue ++ new)%list, None) /\
          (fun s => (q_ready s, q_unacked s)) <$> new = depths (pre ++ tr)%list)) as Hnext.
    { intros q pre Hq. unfold attempt. wp_step. wp_step.
      - eapply wp_mono; [|apply IH]. intros r tr H Hs. apply Forall_app in Hs as [Hp Hs].
        inversion Hs as [|? ? _ Hs']; subst. destruct (H Hs') as (new & -> & Hnew).
        destruct (Hq Hp) as (new0 & -> & Hnew0). exists (new0 ++ new)%list. rewrite app_assoc. split; [done|].
        rewrite fmap_app, Hnew, Hnew0. unfold depths. by rewrite omap_app.
      - apply wp_ret. intros Hs. apply Forall_app in Hs as [_ Hs]. inversion Hs as [|? ? Hf _]; subst. done. }
    wp_step. wp_step. wp_step.
    + wp_step. wp_step.
      * apply wp_ret. cbn [app]. eapply wp_mono; [|apply (Hnext _ [Ev QueueDepth (Ok a); Ev SamplerNow (Ok a0)])].
        { intros r tr H. exact H. }
        intros _. by exists [queue_sample a0 a].
      * cbn [app]. destruct (_rabbit_error e) eqn:Ee.
        -- eapply wp_mono; [|apply (Hnext queue [Ev QueueDepth (Ok a); Ev SamplerNow (Raise e)])].
           { intros r tr H. exact H. }
           intros Hs. inversion Hs as [|? ? _ Hs']; subst. by inversion Hs'.
        -- apply wp_ret. cbn. intros Hs. inversion Hs as [|? ? _ Hs']; subst. by inversion Hs'.
    + cbn [app]. destruct (_rabbit_error e) eqn:Ee.
      * eapply wp_mono; [|apply (Hnext queue [Ev QueueDepth (Raise e)])]; [by intros r tr H|].
        intros _. exists []. by rewrite app_nil_r.
      * apply wp_ret. cbn. intros Hs. inversion Hs as [|? ? H _]; subst. cbn in H.
        specialize (H e eq_refl). congruence.
Qed.
End SamplerFacts.

(** * The protocol of a worker process *)

Definition shard_ask (ev : Event ShardOp) : option (N * Q) :=
  match ev with
  | Ev o r => match o in ShardOp R return Res R -> option (N * Q) with
              | ShardReceive => fun r => match r with Ok m => m | Raise _ => None end
              | _ => fun _ => None end r
  end.
Definition shard_level (ev : Event ShardOp) : option (N * Q * list Conversation) :=
  match ev with
  | Ev o r => match o in ShardOp R return Res R -> option (N * Q * list Conversation) with
              | GatherUsers users stop_at => fun r =>
                  match r with Ok cs => Some (users, stop_at, cs) | Raise _ => None end
              | _ => fun _ => None end r
  end.
Definition shard_reply (ev : Event ShardOp) : option (list Row) :=
  match ev with
  | Ev o _ => match o with ShardSend rows _ => Some rows | _ => None end
  end.

(** The events of a trace, in order. *)
Definition asked (tr : Trace ShardOp) : list (N * Q) := omap shard_ask tr.
Definition levels_run (tr : Trace ShardOp) : list (N * Q * list Conversation) := omap shard_level tr.
Definition replied (tr : Trace ShardOp) : list (list Row) := omap shard_reply tr.

(** The levels are the ones that were asked for, in order, the replies those of
    the levels, and at most one request is left without its reply. *)
Definition in_step (warmup duration : Q) (tr : Trace ShardOp) : Prop :=
  (fst <$> levels_run tr) `prefix_of`
    ((fun m : N * Q => (m.1, level_stop m.2 warmup duration)) <$> asked tr) /\
  replied tr `prefix_of` ((fun l : N * Q * list Conversation => asdict <$> l.2) <$> levels_run tr) /\
  (length (asked tr) <= S (length (replied tr)))%nat.

Lemma in_step_quiet warmup duration tr : levels_run tr = [] -> replied tr = [] ->
  (length (asked tr) <= 1)%nat -> in_step warmup duration tr.
Proof. intros Hl Hr Ha. unfold in_step. rewrite Hl, Hr. split_and!; [apply prefix_nil..|cbn; lia]. Qed.

(** A whole round in front. *)
Lemma in_step_round warmup duration pre tr users start cs :
  asked pre = [(users, start)] -> levels_run pre = [(users, level_stop start warmup duration, cs)] ->
  replied pre = [asdict <$> cs] -> in_step warmup duration tr -> in_step warmup duration (pre ++ tr)%list.
Proof.
  intros Ha Hl Hr (H1 & H2 & H3). unfold in_step, asked, levels_run, replied in *.
  rewrite !omap_app, Ha, Hl, Hr. cbn. split_and!; [by apply prefix_cons..|lia].
Qed.

Ltac quiet_round := intros; apply in_step_quiet; [done|done|cbn; lia].

Lemma serve_loop_steps fuel warmup duration :
  wp (serve_loop fuel warmup duration) (fun r tr => in_step warmup duration tr).
Proof.
  induction fuel as [|fuel IH]; cbn [serve_loop]; [apply wp_ret; quiet_round|].
  wp_step. wp_step; [|quiet_round].
  destruct a as [[users start]|]; [|apply wp_ret; quiet_round].
  unfold run_users. wp_step. wp_step. wp_step; [|quiet_round].
  wp_step. wp_step; [|quiet_round]. wp_step. wp_step; [|quiet_round].
  wp_step. wp_step; [rename a2 into cs|quiet_round].
  wp_step. wp_step.
  2:{ unfold in_step. cbn. split_and!; [by apply prefix_cons, prefix_nil|apply prefix_nil|lia]. }
  wp_step. wp_step.
  2:{ unfold in_step. cbn. split_and!; [by apply prefix_cons, prefix_nil|apply prefix_nil|lia]. }
  wp_step. wp_step. wp_step.
  2:{ unfold in_step. cbn. split_and!; [by apply prefix_cons, prefix_nil|by apply prefix_cons, prefix_nil|lia]. }
  eapply wp_mono; [|apply IH]. intros r tr Hs.
  by apply (in_step_round _ _ (_ :: _ :: _ :: _ :: _ :: _ :: _ :: [_]) tr users start cs).
Qed.

(** A worker process answers the levels it is asked for one by one, each with
    the conversations of its users up to the end of that level; and whatever
    ends it, closing its clients is begun. *)
Theorem serve_protocol fuel warmup duration :
  wp (serve fuel warmup duration) (fun r tr =>
    in_step warmup duration tr /\
    (is_ok r = true -> exists tr0, tr = (tr0 ++ [Ev WatcherStop (Ok tt); Ev CloseHttp (Ok tt); Ev CloseRedis (Ok tt)])%list) /\
    ((exists e, tr = [Ev WatcherStart (Raise e)]) \/ exists stopped, Ev WatcherStop stopped ∈ tr)).
Proof.
  unfold serve. wp_step. wp_step; [|split_and!; [quiet_round|done|eauto]].
  apply wp_finally. eapply wp_mono; [|apply serve_loop_steps]. intros r tr Hs. cbn beta iota.
  assert (forall post, levels_run post = [] -> replied post = [] -> asked post = [] ->
    in_step warmup duration (Ev WatcherStart (Ok a) :: tr ++ post)%list) as Hpost.
  { intros post Hl Hr Ha. unfold in_step, asked, levels_run, replied in *. cbn.
    by rewrite !omap_app, Hl, Hr, Ha, !app_nil_r. }
  unfold close. wp_step. wp_step.
  2:{ split_and!; [by apply Hpost|by destruct r|right]. exists (Raise e).
      apply elem_of_cons; right. apply elem_of_app; right. by left. }
  wp_step. wp_step.
  2:{ split_and!; [by apply Hpost|by destruct r|right]. exists (Ok a0).
      apply elem_of_cons; right. apply elem_of_app; right. by left. }
  wp_step.
  - split_and!; [by apply Hpost| |right; exists (Ok a0)].
    + intros _. exists (Ev WatcherStart (Ok a) :: tr)%list. by destruct a0, a1, a2.
    + apply elem_of_cons; right. apply elem_of_app; right. by left.
  - split_and!; [by apply Hpost|by destruct r|right]. exists (Ok a0).
    apply elem_of_cons; right. apply elem_of_app; right. by left.
Qed.

(** * What a level measures *)

Lemma zip_units {Op : Type -> Type} {A} (o : A -> Op unit) l us : length us = length l ->
  zip_with (fun x (r : unit) => Ev (o x) (Ok r)) l us = (fun x => Ev (o x) (Ok tt)) <$> l.
Proof.
  revert us. induction l as [|x l IH]; intros [|[] us] H; try done. cbn. f_equal. apply IH. by injection H.
Qed.

Definition sent_level (now : Q) (shards : nat) (users : N) (shard : nat) : Event LevelOp :=
  Ev (SendLevel shard (users_of_shard users (N.of_nat shards) (N.of_nat shard)) (fl (now + (1 # 2)))) (Ok tt).

(** A level that ends sends every shard its share of the users before it samples
    and takes one reply of each; its result is the summary, over the same
    window, of exactly the conversations the shards replied. *)
Theorem run_level_spec py_sum shards warmup duration users :
  wp (run_level py_sum shards warmup duration users) (fun r tr => forall lr, r = Ok lr ->
    exists now replies containers queue hgetall conversations timed cpu,
      tr = (Ev LevelNow (Ok now) :: (sent_level now shards users <$> seq 0 shards)
            ++ Ev SamplerStart (Ok tt)
            :: zip_with (fun shard reply => Ev (ReceiveReply shard) (Ok reply)) (seq 0 shards) replies
            ++ [Ev SamplerStop (Ok (containers, queue)); Ev ReadTimings (Ok hgetall)])%list /\
      length replies = shards /\
      mapM conversation_from_row (List.concat (fst <$> replies)) = Ok conversations /\
      fetch_timings hgetall conversations = Ok timed /\
      qmax (snd <$> replies) = Some cpu /\
      lr = level_result py_sum shards warmup duration users now timed containers queue cpu).
Proof.
  unfold run_level. wp_step. wp_step; [rename a into now|done].
  apply wp_bind, wp_mapM_await; [|by intros].
  intros us Hus. apply wp_bind. wp_step; [|done].
  apply wp_bind, wp_mapM_await; [|by intros].
  intros replies Hr. apply wp_bind. wp_step; [|done]. destruct a0 as [containers queue].
  apply wp_bind. destruct (mapM conversation_from_row _) as [conversations|] eqn:Ec; [|done].
  apply wp_ret, wp_bind. wp_step; [rename a0 into hgetall|done].
  apply wp_bind. destruct (fetch_timings _ _) as [timed|] eqn:Et; [|done]. apply wp_ret, wp_bind.
  destruct (qmax _) as [cpu|] eqn:Eq; [|done]. do 2 apply wp_ret.
  intros lr [= <-]. exists now, replies, containers, queue, hgetall, conversations, timed, cpu.
  split_and!; try done; [|by rewrite Hr, length_seq].
  rewrite (zip_units (fun shard => SendLevel shard
    (users_of_shard users (N.of_nat shards) (N.of_nat shard)) (fl (now + (1 # 2))))) by done.
  by destruct a.
Qed.

(** * What a run writes, and how it ends *)

Definition main_run (ev : Event MainOp) : option (N * LevelResult) :=
  match ev with
  | Ev o r => match o in MainOp R return Res R -> option (N * LevelResult) with
              | RunLevel users => fun r => match r with Ok lr => Some (users, lr) | Raise _ => None end
              | _ => fun _ => None end r
  end.
Definition main_write (ev : Event MainOp) : option (list LevelResult) :=
  match ev with Ev o _ => match o with WriteOut levels => Some levels | _ => None end end.
Definition results (tr : Trace MainOp) : list (N * LevelResult) := omap main_run tr.
Definition written (tr : Trace MainOp) : list (list LevelResult) := omap main_write tr.

(** [l] and its longer and longer prefixes, from the first on, [old] in front. *)
Fixpoint growing {A} (old l : list A) : list (list A) :=
  match l with [] => [] | x :: l' => (old ++ [x])%list :: growing (old ++ [x])%list l' end.

Lemma levels_loop_writes todo old :
  wp (levels_loop todo old) (fun r tr =>
    (results tr).*1 `prefix_of` todo /\
    (exists k, written tr = growing old (take k (results tr).*2) /\ (length (results tr) <= S k)%nat) /\
    (r = Ok tt -> (results tr).*1 = todo /\ written tr = growing old (results tr).*2)).
Proof.
  revert old. induction todo as [|users todo IH]; intros old; cbn [levels_loop].
  - apply wp_ret. split_and!; [done| |done]. exists O. split; [done|cbn; lia].
  - wp_step. wp_step.
    2:{ split_and!; [apply prefix_nil| |done]. exists O. split; [done|cbn; lia]. }
    rename a into lr. wp_step. wp_step.
    2:{ split_and!; [by apply prefix_cons, prefix_nil| |done]. exists O. split; [done|cbn; lia]. }
    wp_step. wp_step.
    2:{ split_and!; [by apply prefix_cons, prefix_nil| |done]. exists 1%nat. split; [done|cbn; lia]. }
    eapply wp_mono; [|apply IH]. intros r tr (Hp & (k & Hk & Hl) & Hr). cbn. split_and!.
    + by apply prefix_cons.
    + exists (S k). split; [|cbn; fold (results tr); lia].
      change ((old ++ [lr])%list :: written tr
              = (old ++ [lr])%list :: growing (old ++ [lr]) (take k (results tr).*2)). by rewrite Hk.
    + intros Hok. destruct (Hr Hok) as [H1 H2]. split.
      * change (users :: (results tr).*1 = users :: todo). by rewrite H1.
      * change ((old ++ [lr])%list :: written tr
                = (old ++ [lr])%list :: growing (old ++ [lr]) (results tr).*2). by rewrite H2.
Qed.

(** The orders given to the worker processes at the end. *)
Definition stopping (shards : nat) : Trace MainOp :=
  (((fun s => Ev (SendStop s) (Ok tt)) <$> seq 0 shards)
   ++ ((fun s => Ev (JoinShard s 30) (Ok tt)) <$> seq 0 shards) ++ [Ev CloseMaster (Ok tt)])%list.

Lemma omap_zip_none {A B C D} (f : C -> option D) (g : A -> B -> C) l us :
  (forall x u, f (g x u) = None) -> omap f (zip_with g l us) = [].
Proof.
  intros Hf. revert us. induction l as [|x l IH]; intros [|u us]; try done.
  cbn [zip_with omap list_omap]. rewrite Hf. apply IH.
Qed.

Lemma stop_shards_all shards :
  wp (stop_shards shards) (fun r tr => results tr = [] /\ written tr = [] /\
    (r = Ok tt -> tr = stopping shards) /\
    ((0 < shards)%nat -> exists out, head tr = Some (Ev (SendStop 0) out))).
Proof.
  assert (forall (o : nat -> MainOp unit) l us, (forall s r, main_run (Ev (o s) r) = None) ->
    results (zip_with (fun x (r : unit) => Ev (o x) (Ok r)) l us) = []) as Hres
    by (intros; by apply omap_zip_none).
  assert (forall (o : nat -> MainOp unit) l us, (forall s r, main_write (Ev (o s) r) = None) ->
    written (zip_with (fun x (r : unit) => Ev (o x) (Ok r)) l us) = []) as Hwr
    by (intros; by apply omap_zip_none).
  unfold stop_shards.
  apply wp_bind, wp_mapM_await.
  2:{ intros l1 x l2 us e Hl Hus. unfold results, written in *. rewrite !omap_app, Hres, Hwr by done.
      split_and!; [done..|]. intros Hs. destruct l1 as [|y l1]; destruct shards as [|n]; try lia; injection Hl as <- _.
      - by eexists. - destruct us; [done|]. by eexists. }
  intros us Hus. apply wp_bind, wp_mapM_await.
  2:{ intros l1 x l2 us' e Hl Hus'. unfold results, written in *.
      rewrite !omap_app, !Hres, !Hwr by done. split_and!; [done..|].
      intros Hs. destruct shards, us; try done; try lia. by eexists. }
  intros us' Hus'. wp_step; unfold results, written in *; rewrite !omap_app, !Hres, !Hwr by done;
    (split_and!; [done|done| |intros Hs; destruct shards, us; try done; try lia; by eexists]).
  - intros _. unfold stopping. destruct a.
    by rewrite (zip_units SendStop _ us Hus), (zip_units (fun s => JoinShard s 30) _ us' Hus').
  - done.
Qed.

(** The levels are run in order; the results file is written after each one,
    with all results so far, so that a failure loses at most the level it
    happened in; however the levels end, the worker processes are told to stop,
    and a run that ends normally has stopped and joined all of them. *)
Theorem main_levels_spec shards todo :
  wp (main_levels shards todo) (fun r tr =>
    (results tr).*1 `prefix_of` todo /\
    (exists k, written tr = growing [] (take k (results tr).*2) /\ (length (results tr) <= S k)%nat) /\
    ((0 < shards)%nat -> exists out, Ev (SendStop 0) out ∈ tr) /\
    (r = Ok tt -> (results tr).*1 = todo /\ written tr = growing [] (results tr).*2 /\
       exists tr0, tr = (tr0 ++ stopping shards)%list)).
Proof.
  apply wp_finally. eapply wp_mono; [|apply levels_loop_writes]. intros r tr (Hp & Hk & Hr).
  eapply wp_mono; [|apply stop_shards_all]. intros r' tr' (H1 & H2 & H3 & H4). cbn beta.
  assert (results (tr ++ tr')%list = results tr) as -> by (unfold results in *; by rewrite omap_app, H1, app_nil_r).
  assert (written (tr ++ tr')%list = written tr) as -> by (unfold written in *; by rewrite omap_app, H2, app_nil_r).
  split_and!; [done..| |].
  - intros Hs. destruct (H4 Hs) as (out & Hh). exists out. apply elem_of_app. right.
    by apply head_Some_elem_of.
  - destruct r' as [[]|e]; [|done]. intros ->. destruct (Hr eq_refl). split_and!; [done..|].
    exists tr. by rewrite H3.
Qed.
