(* ===== verification/Report.v ===== *)
(** The comparison of benchmark runs: [bench/report.py].

    A level is what the report reads of its JSON object.  The definitions are
    the functions of the script and the values its [main] computes per run; the
    tables it prints are in ReportTables. *)
From Stdlib Require Import Ascii String QArith Lqa.
From stdpp Require Import base numbers strings list sets gmap sorting.
From S2P Require Import Prelude Models PyVal PyFloat Effects LoadGenerator LoadProperties LoadSummary SummaryProperties.
Local Open Scope Q_scope.

Record Level := mkLevel {
  lv_users : N; lv_p95 : option Q; lv_error_rate : option Q; lv_throughput : Q;
  lv_worker_cpu : option Q; lv_errors : gmap string nat }.

(** The level a summary is written as; the worker's CPU comes from the
    container samples. *)
Definition level_of (s : Summary) (worker_cpu : option Q) : Level :=
  mkLevel (s_users s) (p95 (s_conversation_ms s)) (s_error_rate s) (s_throughput s) worker_cpu (s_errors s).

(** [bool(x)] of a number or [None]. *)
Definition nonzero (x : option Q) : bool := match x with Some q => negb (Qeq_bool q 0) | None => false end.

(** * [capacity] *)

Definition baseline_of (levels : list Level) : option Q :=
  level ← List.find (fun level => nonzero (lv_p95 level)) levels; lv_p95 level.

Definition breaks (slo max_error_rate : Q) (level : Level) : bool :=
  match lv_p95 level with
  | None => true
  | Some p95 =>
      negb (Qle_bool (default 0 (lv_error_rate level)) max_error_rate) || negb (Qle_bool p95 slo)
  end.

Fixpoint best_users (slo max_error_rate : Q) (best : option N) (levels : list Level) : option N :=
  match levels with
  | [] => best
  | level :: levels' =>
      if breaks slo max_error_rate level then best
      else best_users slo max_error_rate (Some (lv_users level)) levels'
  end.

Definition capacity (levels : list Level) (slo_factor max_error_rate : Q) : option N * option Q :=
  match baseline_of levels with
  | None => (None, None)
  | Some baseline =>
      let slo := fl (slo_factor * baseline) in
      (best_users slo max_error_rate None levels, Some slo)
  end.

(** * The other functions and values *)

Definition cpu_ms_per_conversation (level : Level) : option Q :=
  match lv_worker_cpu level with
  | Some cpu =>
      if Qeq_bool cpu 0 || Qeq_bool (lv_throughput level) 0 then None
      else Some (round_to 1 (fl (fl (cpu * 10) / lv_throughput level)))
  | None => None
  end.

Definition cell (value : option string) (suffix : string) : string :=
  match value with None => "-" | Some v => v +:+ suffix end.

Section Label.
(** [str(value)] in an f-string. *)
Context (str_of : PyVal -> string).

Definition label (runtime : string) (config : list (string * PyVal)) : string :=
  let llm := if py_eq_str (get config "llm") "openrouter" then get config "llm_model" else PStr "fake LLM" in
  let processes :=
    if (runtime =? "python")%string && truthy (get config "worker_processes")
    then ", " +:+ str_of (get config "worker_processes") +:+ " proc" else "" in
  let access :=
    if truthy (get config "data_access") then ", " +:+ str_of (get config "data_access") else "" in
  runtime +:+ access +:+ ", " +:+ str_of llm +:+ ", " +:+ str_of (get_or config "worker_cpus" (PStr "?"))
    +:+ " CPU" +:+ processes +:+ ", " +:+ str_of (get_or config "worker_replicas" (PStr "?")) +:+ " worker".
End Label.

(** [max(levels, key=throughput)]: the first of the best. *)
Definition peak (levels : list Level) : Res Level :=
  match levels with
  | [] => raise ValueError "max() iterable argument is empty"
  | level :: levels' =>
      Ok (foldl (fun best l => if Qle_bool (lv_throughput l) (lv_throughput best) then best else l) level levels')
  end.

(** The smallest cost of a level that has one. *)
Definition cheapest (levels : list Level) : option Q :=
  match omap cpu_ms_per_conversation levels with
  | [] => None
  | c :: cs => Some (foldl (fun m x => if Qle_bool m x then m else x) c cs)
  end.

(** The failures of all levels by their text. *)
Definition errors_of_run (levels : list Level) : gmap string nat :=
  foldl (fun errors level => union_with (fun a b => Some (a + b)%nat) errors (lv_errors level)) ∅ levels.

(** * What they mean *)

Section Capacity.
Context (slo_factor max_error_rate : Q).

(** A level that measured something within the error rate and the SLO. *)
Definition meets (slo : Q) (level : Level) : Prop :=
  (exists x, lv_p95 level = Some x /\ x <= slo) /\ default 0 (lv_error_rate level) <= max_error_rate.

Lemma breaks_iff slo level : breaks slo max_error_rate level = false <-> meets slo level.
Proof.
  unfold breaks, meets. destruct (lv_p95 level) as [x|]; [|split; [done|by intros [(? & ? & _) _]]].
  rewrite orb_false_iff, !negb_false_iff, !Qle_bool_iff. naive_solver.
Qed.

Lemma best_users_spec slo best levels :
  exists kept rest, levels = kept ++ rest /\ Forall (meets slo) kept /\
    (forall level, head rest = Some level -> ~ meets slo level) /\
    best_users slo max_error_rate best levels = match last kept with Some l => Some (lv_users l) | None => best end.
Proof.
  revert best. induction levels as [|l levels IH]; intros best; cbn; [by exists [], []|].
  destruct (breaks slo max_error_rate l) eqn:E.
  - exists [], (l :: levels). split_and!; try done. intros level [= <-] Hm. apply breaks_iff in Hm. congruence.
  - destruct (IH (Some (lv_users l))) as (kept & rest & -> & Hk & Hr & ->).
    exists (l :: kept), rest. split_and!; try done; [constructor; [by apply breaks_iff|done]|].
    rewrite last_cons. by destruct (last kept).
Qed.

Lemma sorted_last_max kept l : StronglySorted (fun a b => lv_users a < lv_users b)%N kept ->
  last kept = Some l -> forall x, x ∈ kept -> (lv_users x <= lv_users l)%N.
Proof.
  induction 1 as [|a kept Hs IH Ha]; [done|]. intros Hl x Hx. destruct kept as [|b kept].
  - injection Hl as <-. apply list_elem_of_singleton in Hx as ->. lia.
  - rewrite last_cons_cons in Hl. apply elem_of_cons in Hx as [->|Hx]; [|by apply IH].
    rewrite Forall_forall in Ha. specialize (Ha l (last_Some_elem_of _ _ Hl)). lia.
Qed.

(** The reported capacity, for levels of increasing users: it is the users
    of a level such that this level and every smaller one meet the error rate
    and the SLO while the next one does not; there is none exactly when the
    first level already fails; and nothing is reported exactly when no level
    measured a non-zero p95, whose first one, times the factor, is the SLO. *)
Theorem capacity_spec levels :
  StronglySorted (fun a b => lv_users a < lv_users b)%N levels ->
  match capacity levels slo_factor max_error_rate with
  | (best, None) => best = None /\ forall l, l ∈ levels -> nonzero (lv_p95 l) = false
  | (best, Some slo) =>
      (exists b, baseline_of levels = Some b /\ ~ b == 0 /\ slo = fl (slo_factor * b)) /\
      match best with
      | None => forall l, head levels = Some l -> ~ meets slo l
      | Some u =>
          (exists l, l ∈ levels /\ lv_users l = u) /\
          (forall l, l ∈ levels -> (lv_users l <= u)%N -> meets slo l) /\
          (forall l, l ∈ levels -> (u < lv_users l)%N ->
             exists l', l' ∈ levels /\ (u < lv_users l' <= lv_users l)%N /\ ~ meets slo l')
      end
  end.
Proof.
  intros Hs. unfold capacity, baseline_of.
  destruct (List.find _ levels) as [bl|] eqn:Hb; cbn [mbind option_bind].
  - apply find_some in Hb as [Hbin Hbl]. destruct (lv_p95 bl) as [b|] eqn:Hp; [|done]. cbn in Hbl.
    destruct (best_users_spec (fl (slo_factor * b)) None levels) as (kept & rest & -> & Hk & Hr & ->).
    split. { exists b. split_and!; try done. apply negb_true_iff in Hbl. by apply Qeq_bool_neq. }
    destruct (last kept) as [l|] eqn:Hl.
    + apply StronglySorted_app in Hs as (Hcross & Hsk & Hsr).
      pose proof (last_Some_elem_of _ _ Hl) as Hlin. rewrite Forall_forall in Hk. split_and!.
      * exists l. split; [apply elem_of_app; by left|done].
      * intros x [Hx|Hx]%elem_of_app Hle; [by apply Hk|]. specialize (Hcross l x Hlin Hx). lia.
      * intros x [Hx|Hx]%elem_of_app Hlt.
        -- pose proof (sorted_last_max _ _ Hsk Hl x Hx). lia.
        -- destruct rest as [|f rest]; [by apply not_elem_of_nil in Hx|].
           exists f. split; [apply elem_of_app; right; by left|]. split; [|by apply Hr].
           specialize (Hcross l f Hlin ltac:(by left)). split; [done|].
           apply elem_of_cons in Hx as [->|Hx]; [done|]. inversion Hsr as [|? ? _ Hf]; subst.
           rewrite Forall_forall in Hf. specialize (Hf x Hx). lia.
    + apply last_None in Hl as ->. intros l Hl. by apply Hr.
  - split; [done|]. intros l Hl. apply find_none with (x := l) in Hb; [done|]. by apply list_elem_of_In.
Qed.
End Capacity.

Lemma total_union a b : total (union_with (fun x y => Some (x + y)%nat) a b) = (total a + total b)%nat.
Proof.
  revert b. induction a as [|k n a Hk IH] using map_ind; intros b.
  - by rewrite (left_id_L ∅ (union_with _)).
  - unfold total at 2. rewrite map_fold_insert_L; [|intros; lia|done]. fold (total a).
    destruct (b !! k) as [m|] eqn:Hb.
    + rewrite <- (insert_delete_id b k m Hb), <- (insert_union_with _ a (delete k b) k n m (n + m)%nat) by done.
      unfold total at 1. rewrite map_fold_insert_L; [|intros; lia|].
      * fold (total (union_with (fun x y => Some (x + y)%nat) a (delete k b))). rewrite IH.
        unfold total at 4. rewrite map_fold_insert_L; [|intros; lia|apply lookup_delete_eq].
        fold (total (delete k b)). lia.
      * rewrite lookup_union_with, Hk, lookup_delete_eq. done.
    + rewrite <- insert_union_with_l by done. unfold total at 1.
      rewrite map_fold_insert_L; [|intros; lia|rewrite lookup_union_with, Hk, Hb; done].
      fold (total (union_with (fun x y => Some (x + y)%nat) a b)). rewrite IH. lia.
Qed.

(** The report loses no failure: the errors it prints for a run of
    summarised levels sum to the failed conversations of its levels. *)
Theorem report_errors_total (summaries : list (Summary * option Q)) :
  Forall (fun s => total (s_errors s.1) = s_conversations_failed s.1) summaries ->
  total (errors_of_run ((fun s => level_of s.1 s.2) <$> summaries)) =
  sum_list ((fun s => s_conversations_failed s.1) <$> summaries).
Proof.
  intros Hs. unfold errors_of_run.
  assert (forall acc, total (foldl (fun errors level => union_with (fun a b => Some (a + b)%nat) errors (lv_errors level))
      acc ((fun s => level_of s.1 s.2) <$> summaries)) =
    (total acc + sum_list ((fun s => s_conversations_failed s.1) <$> summaries))%nat) as H; [|apply H].
  induction Hs as [|[s cpu] l Hs _ IH]; intros acc; cbn; [lia|].
  rewrite IH, total_union. cbn in Hs. cbn. lia.
Qed.

Lemma peak_best levels l : peak levels = Ok l ->
  l ∈ levels /\ forall x, x ∈ levels -> lv_throughput x <= lv_throughput l.
Proof.
  destruct levels as [|a levels]; [done|]. intros [= <-]. revert a.
  induction levels as [|b levels IH]; intros a; cbn.
  - split; [set_solver|]. intros x Hx. apply list_elem_of_singleton in Hx as ->. apply Qle_refl.
  - destruct (IH (if Qle_bool (lv_throughput b) (lv_throughput a) then a else b)) as [Hin Hub].
    destruct (Qle_bool (lv_throughput b) (lv_throughput a)) eqn:E; (split; [set_solver|]); intros x Hx.
    + apply Qle_bool_iff in E. apply elem_of_cons in Hx as [->|[->|Hx]%elem_of_cons]; [apply Hub; set_solver| |apply Hub; set_solver].
      eapply Qle_trans; [exact E|]. apply Hub. set_solver.
    + assert (lv_throughput a <= lv_throughput b) as Hab.
      { destruct (Qle_bool_total (lv_throughput b) (lv_throughput a)) as [|H]; [congruence|by apply Qle_bool_iff]. }
      apply elem_of_cons in Hx as [->|[->|Hx]%elem_of_cons]; [|apply Hub; set_solver..].
      eapply Qle_trans; [exact Hab|]. apply Hub. set_solver.
Qed.
