(* ===== verification/JobService.v ===== *)
(** The job service: [app/jobs/service.py].

    [Job] is the envelope of [app/platform/rabbitmq.py], whose fields hold
    whatever the queue delivered.  [JobOp] lists the operations the service
    awaits: the methods of the [JobStore] and [JobBroker] protocols, the
    agent runner, the queue message and the two ambient inputs.  [publish],
    [consume] and the private methods are programs over them ([Effects]); the
    log calls have no effect on the state and are left out. *)
From Stdlib Require Import String SpecFloat.
From stdpp Require Import base numbers strings list.
From S2P Require Import Prelude Models Uuid PyVal Effects.

Definition STATUS_PUBLISHED : string := "published".
Definition STATUS_PROCESSING : string := "processing".
Definition STATUS_WAITING_FOR_CONFIRMATION : string := "waiting_for_confirmation".
Definition STATUS_COMPLETED : string := "completed".
Definition STATUS_FAILED : string := "failed".
Definition STATUS_RETRYING : string := "retrying".
Definition TERMINAL_STATUSES : list string :=
  [STATUS_COMPLETED; STATUS_WAITING_FOR_CONFIRMATION; STATUS_FAILED].

Definition TIMING_PUBLISHED : string := "published_ms".
Definition TIMING_STARTED : string := "started_ms".
Definition TIMING_FINISHED : string := "finished_ms".
Definition TIMING_ATTEMPTS : string := "attempts".

(** [Job]: [attempt] counts failed processing attempts. *)
Record Job := mkJob { j_id : PyVal; j_payload : PyVal; j_attempt : PyVal; j_error : PyVal }.

(** [Job( **data )]. *)
Definition construct_job (data : PyVal) : Res Job :=
  match data with
  | PDict d =>
      if forallb (fun e => bool_decide (e.1 ∈ ["id"; "payload"; "attempt"; "error"]%string)) d then
        id ← or_raise (entry "id" d) TypeError "missing a required argument: 'id'";
        payload ← or_raise (entry "payload" d) TypeError "missing a required argument: 'payload'";
        mret (mkJob id payload (get_or d "attempt" (PInt 0)) (get d "error"))
      else raise TypeError "got an unexpected keyword argument"
  | _ => raise TypeError "argument after ** must be a mapping"
  end.

(** [replace(job, attempt=...)] and [replace(job, error=...)]. *)
Definition with_attempt (attempt : PyVal) (job : Job) : Job :=
  mkJob (j_id job) (j_payload job) attempt (j_error job).
Definition with_error (error : string) (job : Job) : Job :=
  mkJob (j_id job) (j_payload job) (j_attempt job) (PStr error).

Record WorkerOptions := mkWorkerOptions {
  concurrency : Z; max_attempts : Z; lock_ttl_ms : Z }.
Definition default_options : WorkerOptions := mkWorkerOptions 1 3 300000.

Inductive JobOp : Type -> Type :=
  (* JobStore *)
  | SetJobStatus (job_id : PyVal) (status : string) : JobOp unit
  | GetJobStatus (job_id : PyVal) : JobOp string
  | SetJobMetadata (job_id : PyVal) (metadata : PyVal) : JobOp unit
  | MarkJobTiming (job_id : PyVal) (field : string) (at_ : datetime) : JobOp unit
  | SetJobTiming (job_id : PyVal) (field : string) (value : PyVal) : JobOp unit
  | ClaimIdempotencyKey (key : string) (job_id : PyVal) : JobOp (PyVal * bool)
  | ReleaseIdempotencyKey (key : string) : JobOp unit
  | AcquireConversationLock (conversation : string) (token : PyVal) (ttl_ms : Z) : JobOp bool
  | ReleaseConversationLock (conversation : string) (token : PyVal) : JobOp unit
  (* JobBroker *)
  | BrokerPublish (job : Job) : JobOp unit
  | BrokerRetry (job : Job) (level : PyVal) : JobOp unit
  | BrokerDeadLetter (job : Job) : JobOp unit
  | BrokerConsume (prefetch : Z) : JobOp string
  | BrokerCancelConsumer (consumer_tag : string) : JobOp unit
  (* AgentRunner *)
  | RunnerRun (user_id session_id message : PyVal) : JobOp (list (string * PyVal))
  | RunnerResume (user_id session_id answer : PyVal) : JobOp (list (string * PyVal))
  (* the delivered message *)
  | MessageAck : JobOp unit
  | MessageNack (requeue : bool) : JobOp unit
  (* ambient inputs *)
  | Now : JobOp datetime
  | Uuid4 : JobOp UUID.

Notation JobM := (Prog JobOp).

(** [int(at.timestamp() * 1000)]: the microseconds are divided by 10^6 in
    binary64, multiplied by 1000 and truncated. *)
Definition float_of (n : Z) : spec_float := binary_normalize 53 1024 n 0 false.
Definition float_trunc (f : spec_float) : Z :=
  match f with
  | S754_finite s m e =>
      let n := if (0 <=? e)%Z then (Z.pos m * 2 ^ e)%Z else (Z.pos m / 2 ^ (- e))%Z in
      if s then (- n)%Z else n
  | _ => 0%Z
  end.
Definition epoch_ms (at_ : datetime) : Z :=
  float_trunc (SFmul 53 1024 (SFdiv 53 1024 (float_of at_) (float_of 1000000)) (float_of 1000)).

Definition _now_ms : JobM PyVal := now ← await Now; mret (PInt (epoch_ms now)).

Section JobService.
(** [orjson.loads], and Python's [str] on values that are not strings. *)
Context (orjson_loads : string -> Res PyVal) (str_of : PyVal -> string).

Definition py_str (v : PyVal) : string := match v with PStr s => s | _ => str_of v end.

Definition is_blank_field (value : PyVal) : bool :=
  match value with PStr s => is_blank s | _ => true end.

Definition validate_request (payload : PyVal) : Res (list (string * PyVal)) :=
  match payload with
  | PDict d =>
      if is_blank_field (get d "user_id") then raise InvalidJobError "user_id is required"
      else if is_blank_field (get d "session_id") then raise InvalidJobError "session_id is required"
      else
        let has_message := negb (is_blank_field (get d "message")) in
        let resume := get d "resume" in
        if Bool.eqb has_message (negb (is_none resume)) then
          raise InvalidJobError "exactly one of message or resume is required"
        else if is_none resume then Ok d
        else
          match resume with
          | PDict r =>
              if negb (is_bool (get r "confirmed")) then
                raise InvalidJobError "resume.confirmed is required"
              else if truthy (get r "confirmed") && negb (truthy (get r "selection")) then
                raise InvalidJobError "resume.selection is required when confirmed"
              else Ok d
          | _ => raise InvalidJobError "resume must be an object"
          end
  | _ => raise InvalidJobError "payload must be an object"
  end.

(** The state of a [JobService]: whether a runner is attached, its options
    and the consumer tag. *)
Context (has_runner : bool) (options : WorkerOptions).

Definition start : JobM (option string) :=
  if (concurrency options <=? 0)%Z then mret None
  else tag ← await (BrokerConsume (concurrency options)); mret (Some tag).

Definition stop (consumer_tag : option string) : JobM (option string) :=
  match consumer_tag with
  | Some tag => await (BrokerCancelConsumer tag);; mret None
  | None => mret None
  end.

Definition _delay (job : Job) (level : PyVal) : JobM unit :=
  try_else (await (BrokerRetry job level))
    (fun _ => await (MessageNack true))
    (fun _ => await MessageAck).

Definition _dead_letter (job : Job) (error : Exn) : JobM unit :=
  let job := with_error (exn_str error) job in
  try_ (await (SetJobStatus (j_id job) STATUS_FAILED);;
        now ← _now_ms;
        await (SetJobTiming (j_id job) TIMING_FINISHED now)) (fun _ => mret tt);;
  try_else (await (BrokerDeadLetter job))
    (fun _ => await (MessageNack false))
    (fun _ => await MessageAck).

Definition _retry (job : Job) (error : Exn) : JobM unit :=
  attempt ← of_res (plus_one (j_attempt job));
  let job := with_attempt attempt job in
  exhausted ← of_res (at_least (j_attempt job) (max_attempts options));
  if exhausted : bool then _dead_letter job error
  else
    try_ (await (SetJobStatus (j_id job) STATUS_RETRYING)) (fun _ => mret tt);;
    _delay job (j_attempt job).

(** [value if isinstance(value, dict) else {}] of the first interrupt. *)
Definition interrupt_value (interrupts : PyVal) : Res (list (string * PyVal)) :=
  match interrupts with
  | PList (interrupt :: _) =>
      match getattr_or interrupt "value" interrupt with
      | PDict value => Ok value
      | _ => Ok []
      end
  | PList [] => raise IndexError "list index out of range"
  | PStr s => if (s =? "")%string then raise IndexError "string index out of range" else Ok []
  | PDict _ => raise KeyError "0"
  | _ => raise TypeError "object is not subscriptable"
  end.

(** [final.get(name)] or [getattr(final, name, default)]. *)
Definition final_field (final : PyVal) (name : string) (default : PyVal) : PyVal :=
  match final with
  | PDict d => get d name
  | _ => getattr_or final name default
  end.

Definition _finish (job : Job) (user_id session_id : PyVal) (result : list (string * PyVal)) :
    JobM unit :=
  let conclude status : JobM unit :=
    now ← _now_ms;
    await (SetJobTiming (j_id job) TIMING_FINISHED now);;
    await (SetJobStatus (j_id job) status);;
    await MessageAck in
  match entry "__interrupt__" result with
  | Some interrupts =>
      value ← of_res (interrupt_value interrupts);
      await (SetJobMetadata (j_id job) (PDict [
        ("user_id"%string, user_id); ("session_id"%string, session_id);
        ("message"%string, get_or value "message" (PStr ""));
        ("evaluation"%string, get value "evaluation")]));;
      conclude STATUS_WAITING_FOR_CONFIRMATION
  | None =>
      let final := get result "final" in
      if py_eq_str (final_field final "status" PNone) "failed" then
        _dead_letter job (mkExn RuntimeError (py_str (final_field final "message" (PStr ""))))
      else conclude STATUS_COMPLETED
  end.

(** The innermost [try] block: [runner.resume] or [runner.run]. *)
Definition call_agent (request : list (string * PyVal)) : JobM (list (string * PyVal)) :=
  let user_id := get request "user_id" in
  let session_id := get request "session_id" in
  if has_key "resume" request then
    answer ← of_res (item request "resume");
    await (RunnerResume user_id session_id answer)
  else
    message ← of_res (item request "message");
    await (RunnerRun user_id session_id message).

(** The [try] block that runs the agent under the conversation lock. *)
Definition run_agent (job : Job) (request : list (string * PyVal)) : JobM unit :=
  let user_id := get request "user_id" in
  let session_id := get request "session_id" in
  await (SetJobStatus (j_id job) STATUS_PROCESSING);;
  now ← await Now;
  await (MarkJobTiming (j_id job) TIMING_STARTED now);;
  attempts ← of_res (plus_one (j_attempt job));
  await (SetJobTiming (j_id job) TIMING_ATTEMPTS attempts);;
  try_else (call_agent request)
    (fun error =>
       if isinstance error NoPendingInputError then _dead_letter job error
       else _retry job error)
    (fun result => _finish job user_id session_id result).

Definition conversation_of (request : list (string * PyVal)) : string :=
  py_str (get request "user_id") +:+ ":" +:+ py_str (get request "session_id").

(** The payload check that [_process] wraps in [except InvalidJobError]. *)
Definition accept_request (payload : PyVal) : Res (list (string * PyVal)) :=
  request ← validate_request payload;
  if has_runner then Ok request else raise InvalidJobError "agent runner is required".

Definition _process (job : Job) : JobM unit :=
  status ← await (GetJobStatus (j_id job));
  if bool_decide (status ∈ TERMINAL_STATUSES) then await MessageAck
  else
    match accept_request (j_payload job) with
    | Raise error =>
        if isinstance error InvalidJobError then _dead_letter job error else Throw error
    | Ok request =>
        let conversation := conversation_of request in
        acquired ← await (AcquireConversationLock conversation (j_id job) (lock_ttl_ms options));
        if negb acquired then _delay job (PInt 1)
        else
          finally_ (run_agent job request)
            (try_ (await (ReleaseConversationLock conversation (j_id job))) (fun _ => mret tt))
    end.

(** The envelope [consume] decodes before anything else. *)
Definition decode (body : string) : Res Job :=
  data ← orjson_loads body;
  job ← construct_job data;
  if negb (truthy (j_id job)) then raise ValueError "job id is required" else Ok job.

Definition consume (body : string) : JobM unit :=
  match decode body with
  | Raise _ => await (MessageNack false)
  | Ok job => try_ (_process job) (fun error => _retry job error)
  end.

Definition with_key (key : option string) (p : string -> JobM unit) : JobM unit :=
  match key with
  | Some k => if (k =? "")%string then mret tt else p k
  | None => mret tt
  end.

Definition publish (payload : PyVal) (idempotency_key : option string) :
    JobM (PyVal * bool) :=
  uuid ← await Uuid4;
  let job := mkJob (PStr (uuid_str uuid)) payload (PInt 0) PNone in
  let queue : JobM (PyVal * bool) :=
    try_ (await (SetJobStatus (j_id job) STATUS_PUBLISHED);;
          now ← await Now;
          await (MarkJobTiming (j_id job) TIMING_PUBLISHED now);;
          try_ (await (BrokerPublish job))
            (fun e => await (SetJobStatus (j_id job) STATUS_FAILED);; Throw e))
      (fun e => with_key idempotency_key (fun k => await (ReleaseIdempotencyKey k));; Throw e);;
    mret (j_id job, false) in
  match idempotency_key with
  | Some k =>
      if (k =? "")%string then queue
      else
        '(owner, claimed) ← await (ClaimIdempotencyKey k (j_id job));
        if negb claimed then mret (owner, true) else queue
  | None => queue
  end.
End JobService.

(** * Observations of a trace *)

(** What one event contributes to an observation. *)
Definition observe {X} (f : forall R, JobOp R -> Res R -> option X) (tr : Trace JobOp) : list X :=
  omap (fun ev => match ev with Ev o r => f _ o r end) tr.

Lemma observe_app {X} (f : forall R, JobOp R -> Res R -> option X) tr1 tr2 :
  observe f (tr1 ++ tr2) = observe f tr1 ++ observe f tr2.
Proof. apply omap_app. Qed.

(** The outcomes of the acks and nacks of the message. *)
Definition settle_event {R} (o : JobOp R) (r : Res R) : option (Res unit) :=
  match o in JobOp R return Res R -> option (Res unit) with
  | MessageAck => Some
  | MessageNack _ => Some
  | _ => fun _ => None
  end r.
Definition settlements : Trace JobOp -> list (Res unit) := observe (@settle_event).

(** The calls of the agent. *)
Definition agent_event {R} (o : JobOp R) (r : Res R) : option (Res (list (string * PyVal))) :=
  match o in JobOp R return Res R -> option (Res (list (string * PyVal))) with
  | RunnerRun _ _ _ => Some
  | RunnerResume _ _ _ => Some
  | _ => fun _ => None
  end r.
Definition agent_calls : Trace JobOp -> list (Res (list (string * PyVal))) := observe (@agent_event).

(** The statuses written successfully. *)
Definition status_event {R} (o : JobOp R) (r : Res R) : option string :=
  match o, r with
  | SetJobStatus _ status, Ok _ => Some status
  | _, _ => None
  end.
Definition status_writes : Trace JobOp -> list string := observe (@status_event).

(** The statuses read. *)
Definition read_event {R} (o : JobOp R) (r : Res R) : option string :=
  match o in JobOp R return Res R -> option string with
  | GetJobStatus _ => fun r => match r with Ok s => Some s | Raise _ => None end
  | _ => fun _ => None
  end r.
Definition status_reads : Trace JobOp -> list string := observe (@read_event).

(** The jobs handed to the broker, with the queue they go to. *)
Inductive Outgoing := ToQueue (job : Job) | ToRetry (job : Job) (level : PyVal) | ToDead (job : Job).
Definition outgoing_event {R} (o : JobOp R) (r : Res R) : option Outgoing :=
  match o, r with
  | BrokerPublish job, Ok _ => Some (ToQueue job)
  | BrokerRetry job level, Ok _ => Some (ToRetry job level)
  | BrokerDeadLetter job, Ok _ => Some (ToDead job)
  | _, _ => None
  end.
Definition outgoing : Trace JobOp -> list Outgoing := observe (@outgoing_event).

(** The conversation lock and the agent, in order. *)
Inductive LockEvent :=
  | Acquired (conversation : string) (token : PyVal) (outcome : Res bool)
  | AgentRan (user_id session_id : PyVal)
  | Released (conversation : string) (token : PyVal).
Definition lock_event {R} (o : JobOp R) : Res R -> option LockEvent :=
  match o in JobOp R return Res R -> option LockEvent with
  | AcquireConversationLock c t _ => fun r => Some (Acquired c t r)
  | RunnerRun u s _ => fun _ => Some (AgentRan u s)
  | RunnerResume u s _ => fun _ => Some (AgentRan u s)
  | ReleaseConversationLock c t => fun _ => Some (Released c t)
  | _ => fun _ => None
  end.
Definition lock_events : Trace JobOp -> list LockEvent := observe (@lock_event).

(** Claims and releases of idempotency keys. *)
Inductive KeyEvent :=
  | KeyClaim (key : string) (job_id : PyVal) (outcome : Res (PyVal * bool))
  | KeyRelease (key : string).
Definition key_event {R} (o : JobOp R) : Res R -> option KeyEvent :=
  match o in JobOp R return Res R -> option KeyEvent with
  | ClaimIdempotencyKey k id => fun r => Some (KeyClaim k id r)
  | ReleaseIdempotencyKey k => fun _ => Some (KeyRelease k)
  | _ => fun _ => None
  end.
Definition key_events : Trace JobOp -> list KeyEvent := observe (@key_event).
