(* ===== verification/JobProperties.v ===== *)
(** What the job service guarantees, for every behaviour of the store, the
    broker, the agent and the queue message. *)
From Stdlib Require Import String.
From stdpp Require Import base numbers strings list sets.
From S2P Require Import Prelude Models Uuid PyVal Effects JobService.

(** Simplify the observations of a symbolic trace. *)
Ltac obs :=
  unfold settlements, agent_calls, status_writes, status_reads, outgoing, lock_events in *;
  rewrite ?observe_app in *; cbn in *.

(** No agent call, status read or lock operation. *)
Definition quiet (tr : Trace JobOp) : Prop :=
  agent_calls tr = [] /\ status_reads tr = [] /\ lock_events tr = [].

Lemma quiet_nil : quiet [].
Proof. done. Qed.
Lemma quiet_app tr1 tr2 : quiet tr1 -> quiet tr2 -> quiet (tr1 ++ tr2).
Proof. intros (H1 & H2 & H3) (H1' & H2' & H3'). unfold quiet in *; obs. by rewrite H1, H2, H3. Qed.
#[export] Hint Resolve quiet_nil quiet_app : py.

(** One attempt to settle the message, whose outcome is the outcome of the call. *)
Record Settles (sent : list Outgoing) (statuses : list string)
    (r : Res unit) (tr : Trace JobOp) : Prop := {
  st_settled : settlements tr = [r];
  st_quiet : quiet tr;
  st_sent : outgoing tr = [] \/ outgoing tr = sent;
  st_statuses : status_writes tr = [] \/ status_writes tr = statuses }.

Section Service.
Context (str_of : PyVal -> string) (options : WorkerOptions).

Lemma delay_spec job level : wp (_delay job level) (Settles [ToRetry job level] []).
Proof.
  unfold _delay. wp_step. wp_step; cbn beta iota; wp_step; split; try done; unfold quiet; obs; auto.
Qed.

Lemma dead_letter_spec job error :
  wp (_dead_letter job error)
    (Settles [ToDead (with_error (exn_str error) job)] [STATUS_FAILED]).
Proof.
  unfold _dead_letter, _now_ms.
  wp_steps; cbn [wp]; split; try done; unfold quiet; obs; auto.
Qed.

(** What a failed attempt hands to the broker, and the status it leaves. *)
Definition retry_plan (job : Job) (error : Exn) : Res (list Outgoing * list string) :=
  attempt ← plus_one (j_attempt job);
  let job := with_attempt attempt job in
  exhausted ← at_least attempt (max_attempts options);
  mret (if exhausted : bool then ([ToDead (with_error (exn_str error) job)], [STATUS_FAILED])
        else ([ToRetry job attempt], [STATUS_RETRYING])).

Lemma retry_spec job error :
  wp (_retry options job error) (fun r tr =>
    match retry_plan job error with
    | Ok (sent, statuses) => Settles sent statuses r tr
    | Raise e => r = Raise e /\ tr = []
    end).
Proof.
  unfold _retry, retry_plan. destruct (plus_one (j_attempt job)) as [a|e]; [|done].
  cbn [of_res]. rewrite res_bind_ret. cbn [mbind Prog_bind prog_bind j_attempt with_attempt].
  destruct (at_least a _) as [[]|e]; [|..|done]; cbn [of_res]; rewrite res_bind_ret;
    cbn [mbind Prog_bind prog_bind mret Res_ret].
  - apply dead_letter_spec.
  - apply bind_then, wp_then. wp_step. wp_step; cbn beta iota; try wp_step;
      (eapply wp_mono; [|apply delay_spec]); intros r tr [Hs (Hq1 & Hq2 & Hq3) Ho Hst];
      split; unfold quiet; obs; auto; destruct Hst as [->| ->]; auto.
Qed.

(** What a finished agent run leads to. *)
Definition finish_plan (job : Job) (result : list (string * PyVal)) :
    Res (list Outgoing * list string) :=
  match entry "__interrupt__" result with
  | Some interrupts =>
      _ ← interrupt_value interrupts; mret ([], [STATUS_WAITING_FOR_CONFIRMATION])
  | None =>
      if py_eq_str (final_field (get result "final") "status" PNone) "failed" then
        let reason := py_str str_of (final_field (get result "final") "message" (PStr "")) in
        mret ([ToDead (with_error reason job)], [STATUS_FAILED])
      else mret ([], [STATUS_COMPLETED])
  end.

(** The call raised before the message was settled. *)
Record Unsettled (r : Res unit) (tr : Trace JobOp) : Prop := {
  us_settled : settlements tr = [];
  us_quiet : quiet tr;
  us_sent : outgoing tr = [];
  us_statuses : status_writes tr = [];
  us_raised : exists e, r = Raise e }.

Definition follows_plan (plan : Res (list Outgoing * list string)) (r : Res unit)
    (tr : Trace JobOp) : Prop :=
  (exists sent statuses, plan = Ok (sent, statuses) /\ Settles sent statuses r tr) \/ Unsettled r tr.

Lemma finish_spec job user_id session_id result :
  wp (_finish str_of job user_id session_id result) (follows_plan (finish_plan job result)).
Proof.
  assert (forall status, wp (now ← _now_ms;
    await (SetJobTiming (j_id job) TIMING_FINISHED now);;
    await (SetJobStatus (j_id job) status);; await MessageAck)
    (follows_plan (Ok ([], [status])))) as Hconclude.
  { intros status. unfold _now_ms. unfold follows_plan.
    wp_steps; cbn [wp];
    solve [left; eexists _, _; split; [done|]; split; try done; unfold quiet; obs; auto
          |right; split; try done; unfold quiet; obs; eauto]. }
  unfold _finish, finish_plan. destruct (entry "__interrupt__" result) as [interrupts|].
  - destruct (interrupt_value interrupts) as [value|e]; cbn [of_res mbind Prog_bind prog_bind].
    + wp_step. wp_step; cbn beta iota.
      * eapply wp_mono; [|apply Hconclude]. intros r tr [(sent & sts & Hp & [Hs (Hq1 & Hq2 & Hq3) Ho Hst])|[]].
        -- left. exists sent, sts. split; [done|]. split; unfold quiet; obs; auto.
        -- right. unfold quiet in *. split; unfold quiet; obs; auto; tauto.
      * right. split; unfold quiet; obs; eauto.
    + right. split; unfold quiet; cbn; eauto.
  - cbv zeta. repeat case_match; try apply Hconclude.
    eapply wp_mono; [|apply dead_letter_spec]. intros r tr Hs. left. eexists _, _. eauto.
Qed.

(** What the outcome of the agent call leads to. *)
Definition agent_plan (job : Job) (outcome : Res (list (string * PyVal))) :
    Res (list Outgoing * list string) :=
  match outcome with
  | Ok result => finish_plan job result
  | Raise error =>
      if isinstance error NoPendingInputError then
        Ok ([ToDead (with_error (exn_str error) job)], [STATUS_FAILED])
      else retry_plan job error
  end.

(** All observations of a run. *)
Record Summary := mkSummary {
  s_settled : list (Res unit); s_agent : list (Res (list (string * PyVal)));
  s_sent : list Outgoing; s_statuses : list string; s_reads : list string;
  s_locks : list LockEvent }.
Definition summary (tr : Trace JobOp) : Summary :=
  mkSummary (settlements tr) (agent_calls tr) (outgoing tr) (status_writes tr)
    (status_reads tr) (lock_events tr).

Definition planned (plan : Res (list Outgoing * list string)) (r : Res unit)
    (settled : list (Res unit)) (sent : list Outgoing) (statuses : list string) : Prop :=
  (exists sent0 statuses0, plan = Ok (sent0, statuses0) /\ settled = [r] /\
     (sent = [] \/ sent = sent0) /\ (statuses = [] \/ statuses = statuses0)) \/
  (settled = [] /\ sent = [] /\ statuses = [] /\ exists e, r = Raise e).

Lemma follows_planned plan r tr :
  follows_plan plan r tr ->
  planned plan r (settlements tr) (outgoing tr) (status_writes tr) /\ quiet tr.
Proof.
  intros [(sent & sts & Hp & [Hs Hq Ho Hst])|[Hs Hq Ho Hst He]]; split; try done.
  - left. exists sent, sts. done.
  - right. done.
Qed.

Lemma retry_follows job error : wp (_retry options job error) (follows_plan (retry_plan job error)).
Proof.
  eapply wp_mono; [|apply retry_spec]. intros r tr. cbn beta.
  destruct (retry_plan job error) as [[sent sts]|e]; intros Hr; [left; eauto|].
  destruct Hr as [-> ->]. right. split; try done. eauto.
Qed.

(** A request that says how to call the agent. *)
Definition callable (request : list (string * PyVal)) : Prop :=
  has_key "resume" request = true \/ has_key "message" request = true.

Lemma validated_callable payload request :
  validate_request payload = Ok request -> payload = PDict request /\ callable request.
Proof.
  unfold validate_request. destruct payload; try done.
  repeat case_match; try done. all: intros [= <-]; split; [done|]; unfold callable, has_key.
  - right. unfold get, get_or in *. destruct (entry "message" d); [done|].
    exfalso. by destruct (is_none (get_or d "resume" PNone)).
  - left. unfold get, get_or in *. by destruct (entry "resume" d).
Qed.

Inductive AgentRun (job : Job) (request : list (string * PyVal)) : Res unit -> Summary -> Prop :=
  | run_not_started e statuses :
      statuses = [] \/ statuses = [STATUS_PROCESSING] ->
      AgentRun job request (Raise e) (mkSummary [] [] [] statuses [] [])
  | run_done attempts outcome r settled sent statuses :
      plus_one (j_attempt job) = Ok attempts ->
      planned (agent_plan job outcome) r settled sent statuses ->
      AgentRun job request r
        (mkSummary settled [outcome] sent (STATUS_PROCESSING :: statuses) []
           [AgentRan (get request "user_id") (get request "session_id")]).

Lemma after_agent job request attempts tr0 outcome r tr :
  plus_one (j_attempt job) = Ok attempts ->
  follows_plan (agent_plan job outcome) r tr ->
  summary tr0 = mkSummary [] [outcome] [] [STATUS_PROCESSING] []
    [AgentRan (get request "user_id") (get request "session_id")] ->
  AgentRun job request r (summary (tr0 ++ tr)).
Proof.
  intros Hn [Hp (Hq1 & Hq2 & Hq3)]%follows_planned [=]. unfold summary. obs.
  repeat match goal with H : observe _ _ = _ |- _ => rewrite H; clear H end.
  cbn. by eapply run_done.
Qed.

Lemma agent_handler_spec job user_id session_id outcome :
  wp (match outcome with
      | Ok result => _finish str_of job user_id session_id result
      | Raise error => if isinstance error NoPendingInputError then _dead_letter job error
                       else _retry options job error
      end) (follows_plan (agent_plan job outcome)).
Proof.
  destruct outcome as [result|e]; [apply finish_spec|]. cbn.
  destruct (isinstance e NoPendingInputError).
  - eapply wp_mono; [|apply dead_letter_spec]. intros r tr Hs. left. eauto.
  - apply retry_follows.
Qed.

Lemma call_agent_spec request :
  callable request ->
  wp (call_agent request) (fun r tr => summary tr =
    mkSummary [] [r] [] [] [] [AgentRan (get request "user_id") (get request "session_id")]).
Proof.
  intros Hc. unfold call_agent, callable, has_key, item in *. cbv zeta.
  destruct (entry "resume" request); [|destruct (entry "message" request); [|by destruct Hc]];
    cbn; intros [|]; done.
Qed.

Lemma run_agent_spec job request :
  callable request ->
  wp (run_agent str_of options job request) (fun r tr => AgentRun job request r (summary tr)).
Proof.
  intros Hc. unfold run_agent. cbv zeta.
  wp_step. wp_step; cbn beta iota; [|by constructor; left].
  wp_step. wp_step; cbn beta iota; [|by constructor; right].
  wp_step. wp_step; cbn beta iota; [|by constructor; right].
  wp_step. destruct (plus_one (j_attempt job)) as [n|e] eqn:En; cbn [of_res wp];
    [|by constructor; right].
  wp_step. wp_step; cbn beta iota; [|by constructor; right].
  wp_step. eapply wp_mono; [|by apply call_agent_spec]. intros outcome tr Hs.
  assert (forall r tr', follows_plan (agent_plan job outcome) r tr' ->
    AgentRun job request r (summary ([Ev (SetJobStatus (j_id job) STATUS_PROCESSING) (Ok a)] ++
      [Ev Now (Ok a0)] ++ [Ev (MarkJobTiming (j_id job) TIMING_STARTED a0) (Ok a1)] ++ [] ++
      [Ev (SetJobTiming (j_id job) TIMING_ATTEMPTS n) (Ok a2)] ++ tr ++ tr'))) as Hafter.
  { intros r tr' Hp. rewrite app_nil_l, !app_assoc. eapply after_agent; [exact En|exact Hp|].
    revert Hs. unfold summary. obs. by intros [= -> -> -> -> -> ->]. }
  pose proof (agent_handler_spec job (get request "user_id") (get request "session_id") outcome) as Hh.
  destruct outcome; (eapply wp_mono; [|exact Hh]); auto.
Qed.

(** * One delivery *)

Definition lock_of (job : Job) (request : list (string * PyVal)) (outcome : Res bool) : LockEvent :=
  Acquired (conversation_of str_of request) (j_id job) outcome.

Context (has_runner : bool).

Inductive Processed (job : Job) : Res unit -> Summary -> Prop :=
  | proc_unread e : Processed job (Raise e) (mkSummary [] [] [] [] [] [])
  | proc_duplicate s r :
      s ∈ TERMINAL_STATUSES -> Processed job r (mkSummary [r] [] [] [] [s] [])
  | proc_invalid s error r sent statuses :
      s ∉ TERMINAL_STATUSES -> accept_request has_runner (j_payload job) = Raise error ->
      sent = [] \/ sent = [ToDead (with_error (exn_str error) job)] ->
      statuses = [] \/ statuses = [STATUS_FAILED] ->
      Processed job r (mkSummary [r] [] sent statuses [s] [])
  | proc_lock_error s request e :
      s ∉ TERMINAL_STATUSES -> accept_request has_runner (j_payload job) = Ok request ->
      Processed job (Raise e) (mkSummary [] [] [] [] [s] [lock_of job request (Raise e)])
  | proc_busy s request r sent :
      s ∉ TERMINAL_STATUSES -> accept_request has_runner (j_payload job) = Ok request ->
      sent = [] \/ sent = [ToRetry job (PInt 1)] ->
      Processed job r (mkSummary [r] [] sent [] [s] [lock_of job request (Ok false)])
  | proc_run s request r sm :
      s ∉ TERMINAL_STATUSES -> accept_request has_runner (j_payload job) = Ok request ->
      AgentRun job request r sm ->
      Processed job r (mkSummary (s_settled sm) (s_agent sm) (s_sent sm) (s_statuses sm) [s]
        (lock_of job request (Ok true) :: s_locks sm ++
         [Released (conversation_of str_of request) (j_id job)])).

Lemma accept_request_Raise payload error :
  accept_request has_runner payload = Raise error -> isinstance error InvalidJobError = true.
Proof.
  unfold accept_request, validate_request. intros H.
  repeat (case_match; simplify_eq/=; try done).
  all: by injection H as <-.
Qed.

Lemma accept_request_Ok payload request :
  accept_request has_runner payload = Ok request ->
  validate_request payload = Ok request /\ has_runner = true.
Proof.
  unfold accept_request. destruct (validate_request payload); [|done]. cbn.
  by destruct has_runner; intros [= ->].
Qed.

Lemma agent_run_reads job request r sm : AgentRun job request r sm -> s_reads sm = [].
Proof. by destruct 1. Qed.

(** The [finally] block adds one release and keeps the outcome. *)
Lemma release_spec conversation token (r : Res unit) :
  wp (try_ (await (ReleaseConversationLock conversation token)) (fun _ => mret tt))
    (fun r' tr => (match r' with Ok _ => r | Raise e => Raise e end) = r /\
       summary tr = mkSummary [] [] [] [] [] [Released conversation token]).
Proof. wp_step. wp_step; cbn beta iota; [done|]. wp_step. done. Qed.

Lemma process_spec job :
  wp (_process str_of has_runner options job) (fun r tr => Processed job r (summary tr)).
Proof.
  unfold _process. wp_step. wp_step; cbn beta iota; [|constructor].
  case_bool_decide as Hterm.
  { wp_step; by apply proc_duplicate. }
  destruct (accept_request has_runner (j_payload job)) as [request|error] eqn:Hacc.
  - pose proof (accept_request_Ok _ _ Hacc) as [[Hpay Hcall]%validated_callable _].
    wp_step. wp_step; cbn beta iota; [|by eapply proc_lock_error].
    destruct a0; cbn [negb].
    + wp_step. eapply wp_mono; [|by apply run_agent_spec]. intros r tr Hrun.
      eapply wp_mono; [|apply (release_spec _ _ r)]. cbn beta. intros r' tr' [-> Hs'].
      pose proof (proc_run job _ _ _ _ Hterm Hacc Hrun) as Hp. apply agent_run_reads in Hrun.
      revert Hp Hs' Hrun. unfold summary. obs.
      intros Hp [= -> -> -> -> -> ->] ->. by rewrite !app_nil_r.
    + eapply wp_mono; [|apply delay_spec]. intros r tr [Hs (Hq1 & Hq2 & Hq3) Ho Hst].
      assert (status_writes tr = []) as Hst' by (destruct Hst; done).
      pose proof (fun sent => proc_busy job a request r sent Hterm Hacc) as Hp.
      unfold summary. obs. rewrite Hs, Hq1, Hq2, Hq3, Hst'. auto.
  - rewrite (accept_request_Raise _ _ Hacc).
    eapply wp_mono; [|apply dead_letter_spec]. intros r tr [Hs (Hq1 & Hq2 & Hq3) Ho Hst].
    pose proof (fun sent sts => proc_invalid job a error r sent sts Hterm Hacc) as Hp.
    unfold summary. obs. rewrite Hs, Hq1, Hq2, Hq3. auto.
Qed.

Context (orjson_loads : string -> Res PyVal).

(** What one delivery does, all observations at once. *)
Inductive Consumed (body : string) : Res unit -> Summary -> Prop :=
  | cons_undecodable e r :
      decode orjson_loads body = Raise e -> Consumed body r (mkSummary [r] [] [] [] [] [])
  | cons_processed job sm :
      decode orjson_loads body = Ok job -> Processed job (Ok tt) sm -> Consumed body (Ok tt) sm
  | cons_retried job sm e sent0 statuses0 r sent statuses :
      decode orjson_loads body = Ok job -> Processed job (Raise e) sm ->
      retry_plan job e = Ok (sent0, statuses0) ->
      sent = [] \/ sent = sent0 -> statuses = [] \/ statuses = statuses0 ->
      Consumed body r (mkSummary (s_settled sm ++ [r]) (s_agent sm) (s_sent sm ++ sent)
                         (s_statuses sm ++ statuses) (s_reads sm) (s_locks sm))
  | cons_stuck job sm e e' :
      decode orjson_loads body = Ok job -> Processed job (Raise e) sm ->
      retry_plan job e = Raise e' -> Consumed body (Raise e') sm.

Lemma consume_spec body :
  wp (consume orjson_loads str_of has_runner options body)
    (fun r tr => Consumed body r (summary tr)).
Proof.
  unfold consume. destruct (decode orjson_loads body) as [job|e] eqn:Hd.
  - wp_step. eapply wp_mono; [|apply process_spec]. intros [[]|e] tr Hp; cbn beta iota.
    + by eapply cons_processed.
    + eapply wp_mono; [|apply retry_spec]. cbn beta. intros r tr'.
      destruct (retry_plan job e) as [[sent sts]|e'] eqn:Hplan.
      * intros [Hs (Hq1 & Hq2 & Hq3) Ho Hst].
        pose proof (cons_retried body job _ e sent sts r _ _ Hd Hp Hplan Ho Hst) as Hc.
        revert Hc. unfold summary; obs. rewrite Hs, Hq1, Hq2, Hq3. by rewrite !app_nil_r.
      * intros [-> ->]. rewrite app_nil_r. by eapply cons_stuck.
  - wp_step; by eapply cons_undecodable.
Qed.
End Service.

(** * Properties of one delivery *)

Lemma plus_one_is_number v v' : plus_one v = Ok v' -> is_number v = true.
Proof. by destruct v. Qed.

Lemma retry_plan_number options job e :
  is_number (j_attempt job) = true -> exists sent statuses, retry_plan options job e = Ok (sent, statuses).
Proof.
  intros (a & Ha & Hn)%plus_one_number. unfold retry_plan. rewrite Ha, res_bind_ret. cbv zeta.
  destruct (at_least_number a (max_attempts options) Hn) as [b ->]. rewrite res_bind_ret.
  destruct b; eauto.
Qed.

Section Delivery.
Context (orjson_loads : string -> Res PyVal) (str_of : PyVal -> string)
        (has_runner : bool) (options : WorkerOptions).

Lemma process_settled job r sm :
  Processed str_of options has_runner job r sm ->
  s_settled sm = [r] \/ (s_settled sm = [] /\ exists e, r = Raise e).
Proof.
  destruct 1 as [| | | | |s request r sm _ _ Hrun]; cbn; eauto.
  destruct Hrun as [|attempts outcome r settled sent sts _ [(? & ? & ? & ? & ?)|(? & ? & ? & ?)]]; cbn; eauto.
Qed.

(** C22: every delivery is settled: whatever fails, [consume] acks or nacks
    the message exactly once and returns or raises what that call did; it
    asks a second time only when the first ack or nack itself raised.  The one
    exception is a message whose [attempt] is not a number: its failure is not
    handled, [consume] raises, and no ack or nack has succeeded. *)
Theorem consume_settles body :
  wp (consume orjson_loads str_of has_runner options body) (fun r tr =>
    settlements tr = [r] \/ (exists e, settlements tr = [Raise e; r]) \/
    exists job e, decode orjson_loads body = Ok job /\ is_number (j_attempt job) = false /\
      r = Raise e /\ (settlements tr = [] \/ exists e', settlements tr = [Raise e'])).
Proof.
  eapply wp_mono; [|apply consume_spec]. cbn beta. intros r tr Hc.
  change (settlements tr) with (s_settled (summary tr)).
  destruct Hc as [e r Hd|job sm Hd Hp|job sm e sent0 sts0 r sent sts Hd Hp Hplan _ _|job sm e e' Hd Hp Hplan].
  - by left.
  - apply process_settled in Hp as [->|[_ [e [=]]]]. by left.
  - apply process_settled in Hp as [->|[-> _]]; cbn; eauto.
  - right; right. exists job, e'. split; [done|]. split; [|split; [done|]].
    + apply not_true_iff_false. intros Hn. destruct (retry_plan_number options job e Hn) as (? & ? & ?). congruence.
    + apply process_settled in Hp as [->|[-> _]]; eauto.
Qed.

(** C23: the agent runs at most once per delivery, only for a well-formed
    request whose job has no final status yet, and only while this job holds
    its conversation's lock, which is released afterwards. *)
Theorem agent_runs_once_under_lock body :
  wp (consume orjson_loads str_of has_runner options body) (fun _ tr =>
    agent_calls tr = [] /\ (forall u s, AgentRan u s ∉ lock_events tr) \/
    exists job request status outcome,
      decode orjson_loads body = Ok job /\
      accept_request has_runner (j_payload job) = Ok request /\
      status_reads tr = [status] /\ status ∉ TERMINAL_STATUSES /\
      agent_calls tr = [outcome] /\
      lock_events tr =
        [Acquired (conversation_of str_of request) (j_id job) (Ok true);
         AgentRan (get request "user_id") (get request "session_id");
         Released (conversation_of str_of request) (j_id job)]).
Proof.
  eapply wp_mono; [|apply consume_spec]. cbn beta. intros r tr Hc.
  assert (forall job r sm, Processed str_of options has_runner job r sm ->
    s_agent sm = [] /\ (forall u s, AgentRan u s ∉ s_locks sm) \/
    exists request status outcome,
      accept_request has_runner (j_payload job) = Ok request /\
      s_reads sm = [status] /\ status ∉ TERMINAL_STATUSES /\ s_agent sm = [outcome] /\
      s_locks sm = [Acquired (conversation_of str_of request) (j_id job) (Ok true);
         AgentRan (get request "user_id") (get request "session_id");
         Released (conversation_of str_of request) (j_id job)]) as Hproc.
  { clear. intros job r sm. destruct 1 as [| | | | |s request r sm ? ? Hrun];
      try (left; split; [done|]; cbn; intros; unfold lock_of; set_solver).
    destruct Hrun; cbn; [left; split; [done|]; unfold lock_of; set_solver|].
    right. eexists _, _, _. eauto. }
  change (agent_calls tr) with (s_agent (summary tr)).
  change (lock_events tr) with (s_locks (summary tr)).
  change (status_reads tr) with (s_reads (summary tr)).
  destruct Hc as [e r Hd|job sm Hd Hp|job sm e sent0 sts0 r sent sts Hd Hp Hplan _ _|job sm e e' Hd Hp Hplan];
    [left; split; [done|]; set_solver|apply Hproc in Hp; cbn; naive_solver..].
Qed.

(** Where a job may go next: a busy conversation delays it unchanged, a
    failed attempt counts, and the last one is dead-lettered. *)
Definition budgeted (job : Job) (n : Z) (ran : bool) (out : Outgoing) : Prop :=
  match out with
  | ToQueue _ => False
  | ToRetry job' level =>
      (job' = job /\ level = PInt 1 /\ ran = false) \/
      (job' = with_attempt (PInt (n + 1)) job /\ level = PInt (n + 1) /\
       (n + 1 < max_attempts options)%Z)
  | ToDead job' => exists error attempt,
      job' = with_error error (with_attempt (PInt attempt) job) /\ (n <= attempt <= n + 1)%Z /\
      (attempt = n + 1 -> max_attempts options <= n + 1)%Z
  end.

Lemma retry_plan_budget job n e sent statuses ran :
  j_attempt job = PInt n -> retry_plan options job e = Ok (sent, statuses) ->
  Forall (budgeted job n ran) sent.
Proof.
  intros Hn. unfold retry_plan. rewrite Hn. cbn.
  destruct (n + 1 >=? max_attempts options)%Z eqn:E; cbn; intros [= <- <-];
    (constructor; [|constructor]); cbn.
  - eexists _, (n + 1)%Z. split; [done|]. apply Z.geb_le in E. lia.
  - right. split; [done|]. split; [done|]. rewrite Z.geb_leb in E. apply Z.leb_gt in E. lia.
Qed.

Lemma dead_budget job n error ran :
  j_attempt job = PInt n -> budgeted job n ran (ToDead (with_error error job)).
Proof.
  intros Hn. exists error, n. split; [|lia]. destruct job; cbn in *; by subst.
Qed.

Lemma agent_plan_budget job n outcome sent statuses :
  j_attempt job = PInt n -> agent_plan str_of options job outcome = Ok (sent, statuses) ->
  Forall (budgeted job n true) sent.
Proof.
  intros Hn. destruct outcome as [result|e]; cbn.
  - unfold finish_plan. destruct (entry "__interrupt__" result).
    + destruct (interrupt_value _); [|done]. intros [= <- _]. constructor.
    + repeat case_match; intros [= <- _]; repeat constructor; by apply dead_budget.
  - destruct (isinstance e NoPendingInputError).
    + intros [= <- <-]. apply Forall_singleton. by apply dead_budget.
    + by apply retry_plan_budget.
Qed.

Lemma sublist_budget job n ran (sent sent0 : list Outgoing) :
  sent = [] \/ sent = sent0 -> Forall (budgeted job n ran) sent0 -> Forall (budgeted job n ran) sent.
Proof. intros [->| ->]; [constructor|done]. Qed.

Definition ran (sm : Summary) : bool := negb (bool_decide (s_agent sm = [])).

Lemma process_budget job n r sm :
  j_attempt job = PInt n -> Processed str_of options has_runner job r sm ->
  Forall (budgeted job n (ran sm)) (s_sent sm).
Proof.
  intros Hn. destruct 1 as [| |s error r sent sts _ _ Hs _| |s request r sent _ _ Hs|s request r sm _ _ Hrun];
    cbn; try constructor.
  - eapply sublist_budget; [exact Hs|]. apply Forall_singleton. by apply dead_budget.
  - eapply sublist_budget; [exact Hs|]. apply Forall_singleton. by left.
  - destruct Hrun as [|attempts outcome r settled sent sts _ [(? & ? & Hp & _ & Hs & _)|(_ & -> & _)]]; cbn;
      try constructor.
    eapply sublist_budget; [exact Hs|]. by eapply agent_plan_budget.
Qed.

(** C29: the attempts of a job are bounded: a delivery at attempt [n] sends
    the job to a retry queue only as attempt [n + 1 < max_attempts], or
    unchanged at the first level when the agent did not run; otherwise it goes
    to the dead queue, with its id and payload, at attempt [n + 1] only when
    the attempts are exhausted. *)
Theorem attempts_bounded body job n :
  decode orjson_loads body = Ok job -> j_attempt job = PInt n ->
  wp (consume orjson_loads str_of has_runner options body) (fun _ tr =>
    Forall (budgeted job n (negb (bool_decide (agent_calls tr = [])))) (outgoing tr)).
Proof.
  intros Hdec Hn. eapply wp_mono; [|apply consume_spec]. cbn beta. intros r tr Hc.
  change (outgoing tr) with (s_sent (summary tr)).
  change (agent_calls tr) with (s_agent (summary tr)).
  destruct Hc as [e r Hd|job' sm Hd Hp|job' sm e sent0 sts0 r sent sts Hd Hp Hplan Hs _|job' sm e e' Hd Hp Hplan];
    cbn; [constructor|rewrite Hdec in Hd; injection Hd as <-..].
  - by eapply process_budget.
  - apply Forall_app. split; [by eapply process_budget|].
    eapply sublist_budget; [exact Hs|]. by eapply retry_plan_budget.
  - by eapply process_budget.
Qed.

(** When a status may be written, given the agent calls of the delivery. *)
Definition justified (calls : list (Res (list (string * PyVal)))) (status : string) : Prop :=
  if bool_decide (status = STATUS_COMPLETED) then
    exists result, calls = [Ok result] /\ entry "__interrupt__" result = None /\
      py_eq_str (final_field (get result "final") "status" PNone) "failed" = false
  else if bool_decide (status = STATUS_WAITING_FOR_CONFIRMATION) then
    exists result, calls = [Ok result] /\ has_key "__interrupt__" result = true
  else status ∈ [STATUS_PROCESSING; STATUS_FAILED; STATUS_RETRYING].

Lemma retry_plan_justified job e sent statuses calls :
  retry_plan options job e = Ok (sent, statuses) -> Forall (justified calls) statuses.
Proof.
  unfold retry_plan. destruct (plus_one _) as [a|]; [|done]. rewrite res_bind_ret. cbv zeta.
  destruct (at_least _ _) as [[]|]; [| |done]; cbn; intros [= <- <-]; apply Forall_singleton;
    unfold justified; cbn; set_solver.
Qed.

Lemma agent_plan_justified job outcome sent statuses :
  agent_plan str_of options job outcome = Ok (sent, statuses) ->
  Forall (justified [outcome]) statuses.
Proof.
  destruct outcome as [result|e]; cbn.
  - unfold finish_plan. destruct (entry "__interrupt__" result) eqn:Ei.
    + destruct (interrupt_value _); [|done]. intros [= _ <-]. apply Forall_singleton.
      unfold justified; cbn. exists result. split; [done|]. unfold has_key. by rewrite Ei.
    + destruct (py_eq_str _ _) eqn:Hf; intros [= _ <-]; apply Forall_singleton.
      * unfold justified; cbn. set_solver.
      * by exists result.
  - destruct (isinstance e NoPendingInputError); [|apply retry_plan_justified].
    intros [= <- <-]. apply Forall_singleton. unfold justified; cbn. set_solver.
Qed.

Lemma sublist_justified calls (statuses statuses0 : list string) :
  statuses = [] \/ statuses = statuses0 -> Forall (justified calls) statuses0 ->
  Forall (justified calls) statuses.
Proof. intros [->| ->]; [constructor|done]. Qed.

Lemma process_justified job r sm :
  Processed str_of options has_runner job r sm -> Forall (justified (s_agent sm)) (s_statuses sm).
Proof.
  assert (forall calls, justified calls STATUS_PROCESSING /\ justified calls STATUS_FAILED) as Hb
    by (intros; unfold justified; cbn; set_solver).
  destruct 1 as [| |s error r sent sts _ _ _ Hs| |s request r sent _ _ Hs|s request r sm _ _ Hrun];
    cbn; try apply Forall_nil_2.
  - eapply sublist_justified; [exact Hs|]. apply Forall_singleton, Hb.
  - destruct Hrun as [e sts Hs|attempts outcome r settled sent sts _ [(? & ? & Hp & _ & _ & Hs)|(_ & _ & -> & _)]];
      cbn.
    + eapply sublist_justified; [exact Hs|]. apply Forall_singleton, Hb.
    + apply Forall_cons_2; [apply Hb|].
      eapply sublist_justified; [exact Hs|]. by eapply agent_plan_justified.
    + apply Forall_singleton, Hb.
Qed.

(** The statuses tell the truth: a delivery marks a job completed only
    after the agent returned a result that is not a failure, and waiting for
    confirmation only after it returned an interrupt; the other statuses it
    writes are processing, retrying and failed. *)
Theorem statuses_justified body :
  wp (consume orjson_loads str_of has_runner options body) (fun _ tr =>
    Forall (justified (agent_calls tr)) (status_writes tr)).
Proof.
  eapply wp_mono; [|apply consume_spec]. cbn beta. intros r tr Hc.
  change (status_writes tr) with (s_statuses (summary tr)).
  change (agent_calls tr) with (s_agent (summary tr)).
  destruct Hc as [e r Hd|job' sm Hd Hp|job' sm e sent0 sts0 r sent sts Hd Hp Hplan _ Hs|job' sm e e' Hd Hp Hplan];
    cbn; [constructor|..].
  - by eapply process_justified.
  - apply Forall_app. split; [by eapply process_justified|].
    eapply sublist_justified; [exact Hs|]. by eapply retry_plan_justified.
  - by eapply process_justified.
Qed.

(** A delivery whose [attempt] is not a number is lost to the consumer:
    whenever it gets the conversation lock, [consume] raises and the message
    is never acked nor nacked, whatever the store, broker and agent do. *)
Theorem malformed_attempt_never_settled body job :
  decode orjson_loads body = Ok job -> is_number (j_attempt job) = false ->
  wp (consume orjson_loads str_of has_runner options body) (fun r tr =>
    (exists conversation token, Acquired conversation token (Ok true) ∈ lock_events tr) ->
    settlements tr = [] /\ exists e, r = Raise e).
Proof.
  intros Hdec Hn. eapply wp_mono; [|apply consume_spec]. cbn beta. intros r tr Hc.
  change (settlements tr) with (s_settled (summary tr)).
  change (lock_events tr) with (s_locks (summary tr)).
  assert (forall sm r, Processed str_of options has_runner job r sm ->
    (exists c t, Acquired c t (Ok true) ∈ s_locks sm) -> s_settled sm = [] /\ exists e, r = Raise e) as Hproc.
  { clear -Hn. intros sm r. destruct 1 as [| | |s request e|s request r sent|s request r sm _ _ Hrun]; cbn;
      unfold lock_of;
      try (intros (? & ? & Hin); exfalso;
           (by apply elem_of_nil in Hin) || (apply list_elem_of_singleton in Hin; discriminate)).
    destruct Hrun as [|attempts ? ? ? ? ? Hp]; [eauto|].
    apply plus_one_is_number in Hp. congruence. }
  destruct Hc as [e r Hd|job' sm Hd Hp|job' sm e sent0 sts0 r sent sts Hd Hp Hplan _ Hs|job' sm e e' Hd Hp Hplan];
    [cbn; intros (? & ? & ?); set_solver|rewrite Hdec in Hd; injection Hd as <-..].
  - by apply Hproc.
  - unfold retry_plan in Hplan. destruct (plus_one (j_attempt job)) eqn:E; [|done].
    apply plus_one_is_number in E. congruence.
  - intros Hl. destruct (Hproc _ _ Hp Hl). eauto.
Qed.
End Delivery.
