(* ===== verification/JobRequests.v ===== *)
(** Requests and publication: which payloads the worker accepts, how it calls
    the agent for them, and what [JobService.publish] promises. *)
From Stdlib Require Import String.
From stdpp Require Import base numbers strings list sets.
From S2P Require Import Prelude Models Uuid PyVal Effects JobService JobProperties.

(** * The queued payload *)

(** A string with a visible character. *)
Definition nonblank (v : PyVal) : Prop := exists s, v = PStr s /\ is_blank s = false.

Lemma is_blank_field_iff v : is_blank_field v = false <-> nonblank v.
Proof. unfold nonblank. destruct v; cbn; naive_solver. Qed.

Lemma is_blank_field_true v : is_blank_field v = true <-> ~ nonblank v.
Proof. rewrite <- is_blank_field_iff. by destruct (is_blank_field v). Qed.

(** A resume answer: confirmed or not, with a selection when confirmed. *)
Definition answer_ok (v : PyVal) : Prop :=
  exists r, v = PDict r /\
    (get r "confirmed" = PBool false \/
     get r "confirmed" = PBool true /\ truthy (get r "selection") = true).

(** The request contract: a user and a session, and either a message or an
    answer to a confirmation. *)
Record request_valid (d : list (string * PyVal)) : Prop := {
  rq_user : nonblank (get d "user_id");
  rq_session : nonblank (get d "session_id");
  rq_action :
    (nonblank (get d "message") /\ get d "resume" = PNone) \/
    (~ nonblank (get d "message") /\ answer_ok (get d "resume")) }.

(** C34: [validate_request] accepts exactly the payloads of the contract and
    returns them unchanged; it rejects every other one with [InvalidJobError]. *)
Theorem validate_request_spec payload :
  (forall request, validate_request payload = Ok request <->
     payload = PDict request /\ request_valid request) /\
  raises_only InvalidJobError (validate_request payload).
Proof.
  split.
  - intros request. split.
    + intros Hok. pose proof (validated_callable _ _ Hok) as [-> _]. split; [done|].
      unfold validate_request in Hok.
      destruct (is_blank_field (get request "user_id")) eqn:Hu; [done|].
      destruct (is_blank_field (get request "session_id")) eqn:Hs; [done|].
      destruct (is_blank_field (get request "message")) eqn:Hm; cbn in Hok;
        destruct (get request "resume") as [| | | | | |r|] eqn:Hr; try done;
        (split; [by apply is_blank_field_iff..|]).
      * right. split; [by apply is_blank_field_true|]. rewrite Hr. exists r. split; [done|].
        destruct (get r "confirmed") as [|[]| | | | | |]; try done; [|by left].
        right. split; [done|]. by destruct (truthy (get r "selection")).
      * left. split; [by apply is_blank_field_iff|done].
    + intros [-> [Hu Hs Ha]]. unfold validate_request.
      apply is_blank_field_iff in Hu as ->. apply is_blank_field_iff in Hs as ->.
      destruct Ha as [[Hm ->]|[Hm (r & -> & Hr)]].
      * apply is_blank_field_iff in Hm as ->. done.
      * apply is_blank_field_true in Hm as ->. cbn.
        destruct Hr as [->|[-> ->]]; done.
  - intros e. unfold validate_request. repeat case_match; try done; by intros [= <-].
Qed.

(** How an accepted request reaches the agent: one call, [resume] with the
    answer when the payload has a [resume] key, otherwise [run] with the
    message, for the payload's user and session. *)
Theorem call_agent_dispatch d :
  request_valid d ->
  call_agent d =
  if has_key "resume" d then await (RunnerResume (get d "user_id") (get d "session_id") (get d "resume"))
  else await (RunnerRun (get d "user_id") (get d "session_id") (get d "message")).
Proof.
  intros [_ _ Ha]. unfold call_agent, has_key, item, get, get_or in *. cbv zeta.
  destruct (entry "resume" d); [done|]. destruct (entry "message" d); [done|].
  exfalso. destruct Ha as [[(? & [=] & _) _]|[_ (? & [=] & _)]].
Qed.

(** A payload with a message and an explicit [null] resume passes the
    validation as a message but is dispatched as a resume without an answer. *)
Theorem null_resume_is_resumed user session message :
  is_blank user = false -> is_blank session = false -> is_blank message = false ->
  let d := [("user_id", PStr user); ("session_id", PStr session); ("message", PStr message);
            ("resume", PNone)]%string in
  validate_request (PDict d) = Ok d /\
  call_agent d = await (RunnerResume (PStr user) (PStr session) PNone).
Proof.
  intros Hu Hs Hm. split; [|done]. unfold validate_request. cbn. by rewrite Hu, Hs, Hm.
Qed.

(** * Publication *)

(** The envelope of a new job. *)
Definition new_job (uuid : UUID) (payload : PyVal) : Job :=
  mkJob (PStr (uuid_str uuid)) payload (PInt 0) PNone.

(** An idempotency key the service looks at. *)
Definition usable_key (key : option string) : option string :=
  match key with
  | Some k => if (k =? "")%string then None else Some k
  | None => None
  end.

Definition claims (key : option string) (job : Job) (claimed : bool) (owner : PyVal) : list KeyEvent :=
  match usable_key key with
  | Some k => [KeyClaim k (j_id job) (Ok (owner, claimed))]
  | None => []
  end.

(** What a publication promises about its outcome. *)
Inductive Published (payload : PyVal) (key : option string) :
    Res (PyVal * bool) -> list KeyEvent -> list Outgoing -> list string -> Prop :=
  | pub_queued uuid owner keys :
      keys = claims key (new_job uuid payload) true owner ->
      Published payload key (Ok (PStr (uuid_str uuid), false)) keys
        [ToQueue (new_job uuid payload)] [STATUS_PUBLISHED]
  | pub_duplicate k uuid owner :
      usable_key key = Some k ->
      Published payload key (Ok (owner, true)) [KeyClaim k (PStr (uuid_str uuid)) (Ok (owner, false))] [] []
  | pub_not_claimed e keys :
      keys = [] \/ (exists k uuid, usable_key key = Some k /\
                    keys = [KeyClaim k (PStr (uuid_str uuid)) (Raise e)]) ->
      Published payload key (Raise e) keys [] []
  | pub_failed uuid owner e statuses keys released :
      keys = claims key (new_job uuid payload) true owner ->
      released = match usable_key key with Some k => [KeyRelease k] | None => [] end ->
      statuses ⊆ [STATUS_PUBLISHED; STATUS_FAILED] ->
      Published payload key (Raise e) (keys ++ released) [] statuses.

Lemma with_key_usable key p :
  with_key key p = match usable_key key with Some k => p k | None => mret tt end.
Proof. unfold with_key, usable_key. by destruct key as [k|]; [destruct (k =? "")%string|]. Qed.

(** The part of [publish] after the claim: everything is undone on failure. *)
Definition queue_job (payload : PyVal) (key : option string) (uuid : UUID) : JobM (PyVal * bool) :=
  let job := new_job uuid payload in
  try_ (await (SetJobStatus (j_id job) STATUS_PUBLISHED);;
        now ← await Now;
        await (MarkJobTiming (j_id job) TIMING_PUBLISHED now);;
        try_ (await (BrokerPublish job))
          (fun e => await (SetJobStatus (j_id job) STATUS_FAILED);; Throw e))
    (fun e => with_key key (fun k => await (ReleaseIdempotencyKey k));; Throw e);;
  mret (j_id job, false).

Definition released (key : option string) : list KeyEvent :=
  match usable_key key with Some k => [KeyRelease k] | None => [] end.

Lemma queue_job_spec payload key uuid :
  wp (queue_job payload key uuid) (fun r tr =>
    (r = Ok (PStr (uuid_str uuid), false) /\ key_events tr = [] /\
     outgoing tr = [ToQueue (new_job uuid payload)] /\ status_writes tr = [STATUS_PUBLISHED]) \/
    (exists e, r = Raise e /\ key_events tr = released key /\ outgoing tr = [] /\
     status_writes tr ⊆ [STATUS_PUBLISHED; STATUS_FAILED])).
Proof.
  unfold queue_job. cbv zeta.
  assert (wp (with_key key (fun k => await (ReleaseIdempotencyKey k)))
    (fun _ tr => key_events tr = released key /\ outgoing tr = [] /\ status_writes tr = [])) as Hundo.
  { rewrite with_key_usable. unfold released. destruct (usable_key key); wp_steps; done. }
  wp_step. wp_step. wp_steps;
    try (eapply wp_mono; [|apply Hundo]; cbn beta; intros r tr (Hk & Ho & Hs);
         destruct r; cbn [wp]; right; eexists; unfold key_events in *; obs;
         rewrite ?app_nil_r, ?Hk, ?Ho, ?Hs; repeat split; set_solver).
  by left.
Qed.

Lemma publish_contract_holds payload key :
  wp (publish payload key) (fun r tr =>
    Published payload key r (key_events tr) (outgoing tr) (status_writes tr)).
Proof.
  assert (forall tr0 uuid owner,
    key_events tr0 = claims key (new_job uuid payload) true owner -> outgoing tr0 = [] ->
    status_writes tr0 = [] ->
    wp (queue_job payload key uuid) (fun r tr =>
      Published payload key r (key_events (tr0 ++ tr)) (outgoing (tr0 ++ tr)) (status_writes (tr0 ++ tr))))
    as Hqueue.
  { intros tr0 uuid owner Hk Ho Hs. eapply wp_mono; [|apply queue_job_spec]. cbn beta.
    intros r tr [(-> & Hk' & Ho' & Hs')|(e & -> & Hk' & Ho' & Hs')];
      unfold key_events in *; obs; rewrite Hk, Ho, Hs, Hk', Ho'; cbn.
    - rewrite Hs', app_nil_r. by eapply pub_queued.
    - by eapply pub_failed. }
  unfold publish. wp_step. wp_step; cbn beta iota; [|by apply pub_not_claimed; left].
  fold (queue_job payload key a).
  assert (usable_key key = None ->
    wp (queue_job payload key a) (fun r tr => Published payload key r
      (key_events ([Ev Uuid4 (Ok a)] ++ tr)) (outgoing ([Ev Uuid4 (Ok a)] ++ tr))
      (status_writes ([Ev Uuid4 (Ok a)] ++ tr)))) as Hplain.
  { intros Hnone. apply (Hqueue _ _ PNone); try done. unfold claims. by rewrite Hnone. }
  destruct key as [k|]; [|by apply Hplain]. cbn [usable_key] in Hplain.
  destruct (k =? "")%string eqn:Ek; [by apply Hplain|].
  wp_step. wp_step; cbn beta iota.
  - destruct a0 as [owner [|]]; cbn [negb].
    + eapply wp_mono; [|apply (Hqueue [Ev Uuid4 (Ok a); Ev (ClaimIdempotencyKey k (PStr (uuid_str a))) (Ok (owner, true))] a owner)];
        [done|unfold claims; cbn; by rewrite Ek|done|done].
    + wp_step. apply (pub_duplicate _ _ k a owner). cbn. by rewrite Ek.
  - apply pub_not_claimed. right. exists k, a. cbn. by rewrite Ek.
Qed.

(** Publishing is idempotent and all-or-nothing: a call queues exactly one
    fresh job marked published and returns its id, or it queues nothing and
    returns the owner of its key, or it raises without having queued anything,
    and then a key it had claimed is released for the client's retry. *)
Theorem publish_contract payload key :
  wp (publish payload key) (fun r tr =>
    Published payload key r (key_events tr) (outgoing tr) (status_writes tr)).
Proof. apply publish_contract_holds. Qed.
