(* ===== verification/Pydantic.v ===== *)
(** What the chat contract uses of pydantic: validation of a model from a
    parsed JSON value.

    A [BaseModel] validates its fields in the order of their declaration and
    collects the errors of all of them; a validator in mode "after" runs on
    the instance once the fields are valid, and a [ValueError] it raises
    becomes the only error of the model.  The validators of the field types
    belong to pydantic: they are the operations of the class [Pydantic], with
    the documented behaviour the program relies on in [PydanticLaws]. *)
From Stdlib Require Import String.
From stdpp Require Import base numbers strings list.
From S2P Require Import Prelude Models PyVal.

(** An entry of [ValidationError.errors()]: its ["type"], ["loc"], ["msg"]. *)
Record ErrorDetails := mkError { err_type : string; err_loc : list string; err_msg : string }.

(** [Model.model_validate(value)]: the instance, or the errors, which are
    never empty. *)
Inductive Validated (A : Type) :=
  | Valid (a : A)
  | Invalid (first : ErrorDetails) (rest : list ErrorDetails).
Arguments Valid {A} a.
Arguments Invalid {A} first rest.

Definition vmap {A B} (f : A -> B) (v : Validated A) : Validated B :=
  match v with Valid a => Valid (f a) | Invalid e es => Invalid e es end.

(** Two fields: the errors of both, those of the first one first. *)
Definition both {A B} (va : Validated A) (vb : Validated B) : Validated (A * B) :=
  match va, vb with
  | Valid a, Valid b => Valid (a, b)
  | Valid _, Invalid e es => Invalid e es
  | Invalid e es, Valid _ => Invalid e es
  | Invalid e es, Invalid e' es' => Invalid e (es ++ e' :: es')
  end.

(** The errors of a nested value are located below the field's name. *)
Definition under (name : string) (e : ErrorDetails) : ErrorDetails :=
  mkError (err_type e) (name :: err_loc e) (err_msg e).
Definition at_loc {A} (name : string) (v : Validated A) : Validated A :=
  match v with Valid a => Valid a | Invalid e es => Invalid (under name e) (under name <$> es) end.

(** [name: T], and [name: T | None = None]. *)
Definition required {A} (name : string) (validate : PyVal -> Validated A)
    (d : list (string * PyVal)) : Validated A :=
  match entry name d with
  | Some v => at_loc name (validate v)
  | None => Invalid (mkError "missing" [name] "Field required") []
  end.
Definition optional {A} (name : string) (validate : PyVal -> Validated A)
    (d : list (string * PyVal)) : Validated (option A) :=
  match get d name with
  | PNone => Valid None
  | v => vmap Some (at_loc name (validate v))
  end.

(** [@model_validator(mode="after")]. *)
Definition after {A} (validator : A -> Res A) (v : Validated A) : Validated A :=
  match v with
  | Valid a =>
      match validator a with
      | Ok a' => Valid a'
      | Raise e => Invalid (mkError "value_error" [] ("Value error, " +:+ exn_str e)) []
      end
  | Invalid e es => Invalid e es
  end.

(** A model validates from a dict. *)
Definition model {A} (name : string) (fields : list (string * PyVal) -> Validated A) (v : PyVal) :
    Validated A :=
  match v with
  | PDict d => fields d
  | _ => Invalid (mkError "model_type" []
           ("Input should be a valid dictionary or instance of " +:+ name)) []
  end.

(** * The types of the fields *)

Class Pydantic := {
  validate_str : PyVal -> Validated string;
  validate_bool : PyVal -> Validated bool;
  (** [RebookingSelectionSchema], whose fields are UUIDs and a [Decimal]. *)
  validate_selection : PyVal -> Validated RebookingSelectionSchema;
  (** [selection.model_dump(mode="json", exclude_none=True)]. *)
  dump_selection : RebookingSelectionSchema -> list (string * PyVal);
  (** [RebookingSelection.model_validate] of [agent/state.py]: the same fields. *)
  parse_selection : PyVal -> Res RebookingSelectionSchema }.

(** A string field takes strings only, a [bool] field takes booleans (and in
    lax mode more); a selection is dumped with its required fields, and what
    was dumped validates to the same selection. *)
Class PydanticLaws (P : Pydantic) := {
  str_valid v s : validate_str v = Valid s <-> v = PStr s;
  bool_valid b : validate_bool (PBool b) = Valid b;
  dump_required s : has_key "segment_id" (dump_selection s) = true;
  dump_valid s : validate_selection (PDict (dump_selection s)) = Valid s;
  dump_parsed s : parse_selection (PDict (dump_selection s)) = Ok s }.

(** * Lemmas *)

Lemma vmap_valid {A B} (f : A -> B) v b : vmap f v = Valid b <-> exists a, v = Valid a /\ f a = b.
Proof. destruct v; cbn; naive_solver. Qed.

Lemma both_valid {A B} (va : Validated A) (vb : Validated B) a b :
  both va vb = Valid (a, b) <-> va = Valid a /\ vb = Valid b.
Proof. destruct va, vb; cbn; naive_solver. Qed.

Lemma at_loc_valid {A} name (v : Validated A) a : at_loc name v = Valid a <-> v = Valid a.
Proof. destruct v; cbn; naive_solver. Qed.

Lemma required_valid {A} name (validate : PyVal -> Validated A) d a :
  required name validate d = Valid a <-> exists v, entry name d = Some v /\ validate v = Valid a.
Proof.
  unfold required. destruct (entry name d) as [v|]; [rewrite at_loc_valid|]; naive_solver.
Qed.

Lemma optional_valid {A} name (validate : PyVal -> Validated A) d o :
  optional name validate d = Valid o <->
  (get d name = PNone /\ o = None) \/
  (get d name <> PNone /\ exists a, validate (get d name) = Valid a /\ o = Some a).
Proof.
  assert (vmap Some (at_loc name (validate (get d name))) = Valid o <->
    exists a, validate (get d name) = Valid a /\ o = Some a) as Hsome.
  { rewrite vmap_valid. setoid_rewrite at_loc_valid. naive_solver. }
  unfold optional. destruct (get d name) eqn:E; [naive_solver|rewrite Hsome; naive_solver..].
Qed.

Lemma after_valid {A} (validator : A -> Res A) v a :
  after validator v = Valid a <-> exists a0, v = Valid a0 /\ validator a0 = Ok a.
Proof.
  destruct v as [a0|e es]; cbn; [|split; [done|by intros (? & ? & _)]]. split.
  - destruct (validator a0) as [a1|] eqn:E; [|done]. intros [= <-]. eauto.
  - by intros (? & [= <-] & ->).
Qed.

Lemma model_valid {A} name fields v (a : A) :
  model name fields v = Valid a <-> exists d, v = PDict d /\ fields d = Valid a.
Proof. destruct v; cbn; naive_solver. Qed.
