(* ===== verification/ChatRouter.v ===== *)
(** The public chat endpoint: [app/jobs/router.py].

    [ChatRequest] and [ResumeRequest] are the models of the request body with
    their validators, [publish_chat] the handler.  FastAPI turns the returned
    dict into a 202 response and an [HTTPException] into its status with a
    [detail]: both are values of [Reply]. *)
From Stdlib Require Import String.
From stdpp Require Import base numbers strings list.
From S2P Require Import Prelude Models PyVal Pydantic Effects JobService.
Local Open Scope string_scope.

(** * The models *)

Record ResumeRequest := mkResume {
  rm_confirmed : bool; rm_selection : option RebookingSelectionSchema }.

Definition require_selection (self : ResumeRequest) : Res ResumeRequest :=
  if rm_confirmed self && bool_decide (rm_selection self = None) then
    raise ValueError "resume.selection is required when confirmed"
  else Ok self.

Record ChatRequest := mkChat {
  ch_user_id : string; ch_session_id : string;
  ch_message : option string; ch_resume : option ResumeRequest }.

(** [bool(self.message and self.message.strip())]. *)
Definition has_message (self : ChatRequest) : bool :=
  match ch_message self with Some m => negb (is_blank m) | None => false end.

Definition require_one_action (self : ChatRequest) : Res ChatRequest :=
  if is_blank (ch_user_id self) || is_blank (ch_session_id self) then
    raise ValueError "user_id and session_id are required"
  else if Bool.eqb (has_message self) (negb (bool_decide (ch_resume self = None))) then
    raise ValueError "exactly one of message or resume is required"
  else Ok self.

(** [text.removeprefix(prefix)]. *)
Definition removeprefix (prefix text : string) : string :=
  match strip_prefix (bytes_of prefix) (bytes_of text) with
  | Some rest => of_bytes rest
  | None => text
  end.

(** The text of the 422 response for [error.errors()[0]]. *)
Definition detail_of (first : ErrorDetails) : string :=
  if err_type first =? "missing" then String.concat "." (err_loc first) +:+ " is required"
  else removeprefix "Value error, " (err_msg first).

Inductive Reply :=
  | Accepted202 (id : PyVal) (status : string)
  | HTTPException (status_code : Z) (detail : string).

Section Router.
Context {P : Pydantic}.

Definition validate_resume : PyVal -> Validated ResumeRequest :=
  model "ResumeRequest" (fun d =>
    after require_selection
      (vmap (fun '(confirmed, selection) => mkResume confirmed selection)
         (both (required "confirmed" validate_bool d)
               (optional "selection" validate_selection d)))).

Definition validate_chat : PyVal -> Validated ChatRequest :=
  model "ChatRequest" (fun d =>
    after require_one_action
      (vmap (fun '(user_id, (session_id, (message, resume))) =>
               mkChat user_id session_id message resume)
         (both (required "user_id" validate_str d)
         (both (required "session_id" validate_str d)
         (both (optional "message" validate_str d)
               (optional "resume" validate_resume d)))))).

(** [model_dump(mode="json", exclude_none=True)]: no key for [None]. *)
Definition dump_entry (name : string) (value : option PyVal) : list (string * PyVal) :=
  match value with Some v => [(name, v)] | None => [] end.

Definition dump_resume (resume : ResumeRequest) : list (string * PyVal) :=
  (("confirmed", PBool (rm_confirmed resume))
   :: dump_entry "selection" ((fun s => PDict (dump_selection s)) <$> rm_selection resume))%list.

Definition dump_chat (chat : ChatRequest) : list (string * PyVal) :=
  (("user_id", PStr (ch_user_id chat)) :: ("session_id", PStr (ch_session_id chat))
   :: dump_entry "message" (PStr <$> ch_message chat)
   ++ dump_entry "resume" ((fun r => PDict (dump_resume r)) <$> ch_resume chat))%list.

Definition publish_chat (body : PyVal) (idempotency_key : option string) : JobM Reply :=
  match validate_chat body with
  | Invalid first _ => mret (HTTPException 422 (detail_of first))
  | Valid chat =>
      let key := py_strip (default "" idempotency_key) in
      if (200 <? py_len key)%nat then mret (HTTPException 422 "Idempotency-Key is too long")
      else
        try_else (publish (PDict (dump_chat chat)) (if key =? "" then None else Some key))
          (fun _ => mret (HTTPException 500 "publish job failed"))
          (fun '(job_id, duplicate) =>
             mret (Accepted202 job_id (if duplicate : bool then "duplicate" else "published")))
  end.
End Router.
