(* ===== verification/RedisStore.v ===== *)
(** The Redis job store: [app/platform/redis.py].

    [RedisCmd] lists the server commands the store sends; a pipeline with
    [transaction=True] and a Lua script run several of them atomically.  The
    server is a parameter: [Redis] states the documented behaviour of each
    command in terms of the live value of a key, and [redis_map] is an instance.
    [StoreSpec] is what the store promises its clients, and
    [job_store_refines] that the commands implement it. *)
From Stdlib Require Import String.
From stdpp Require Import base numbers strings list gmap pretty.
From S2P Require Import Prelude Models PyVal Effects JobService.

(** * The server *)

Inductive RVal := RStr (s : string) | RHash (h : gmap string string).

Inductive RedisCmd : Type -> Type :=
  | SET (key value : string) (nx : bool) (ttl_ms : Z) : RedisCmd bool
  | GET (key : string) : RedisCmd (option string)
  | DEL (key : string) : RedisCmd bool
  | HSETNX (key field value : string) : RedisCmd bool
  | HSET (key field value : string) : RedisCmd unit
  | EXPIRE (key : string) (ttl_ms : Z) : RedisCmd unit.

(** A value of the wrong kind for a command. *)
Definition wrong_type : Exn := mkExn InfraError "WRONGTYPE".

Definition invalid_expire : Exn := mkExn InfraError "ERR invalid expire time in 'set' command".

Definition hash_of (v : option RVal) : Res (gmap string string) :=
  match v with
  | None => Ok ∅
  | Some (RHash h) => Ok h
  | Some (RStr _) => Raise wrong_type
  end.

(** A server state with the live value of every key.  The laws are those of one
    command: expiry happens between commands, not during one. *)
Class Redis (S : Type) := {
  redis_exec : forall R, RedisCmd R -> S -> Res R * S;
  live : S -> string -> option RVal;
  redis_set : forall k v nx ttl s,
    (0 < ttl)%Z -> exists s', redis_exec _ (SET k v nx ttl) s = (Ok (negb nx || negb (bool_decide (is_Some (live s k)))), s') /\
    forall k', live s' k' =
      if (negb nx || negb (bool_decide (is_Some (live s k)))) && (k =? k')%string
      then Some (RStr v) else live s k';
  redis_set_ttl : forall k v nx ttl s,
    (ttl <= 0)%Z -> redis_exec _ (SET k v nx ttl) s = (Raise invalid_expire, s);
  redis_get : forall k s,
    redis_exec _ (GET k) s =
    (match live s k with
     | None => Ok None
     | Some (RStr v) => Ok (Some v)
     | Some (RHash _) => Raise wrong_type
     end, s);
  redis_del : forall k s,
    exists s', redis_exec _ (DEL k) s = (Ok (bool_decide (is_Some (live s k))), s') /\
    forall k', live s' k' = if (k =? k')%string then None else live s k';
  redis_hsetnx : forall k f v s h,
    hash_of (live s k) = Ok h ->
    exists s', redis_exec _ (HSETNX k f v) s = (Ok (bool_decide (h !! f = None)), s') /\
    forall k', live s' k' =
      if (k =? k')%string then Some (RHash (if bool_decide (h !! f = None) then <[f := v]> h else h))
      else live s k';
  redis_hset : forall k f v s h,
    hash_of (live s k) = Ok h ->
    exists s', redis_exec _ (HSET k f v) s = (Ok tt, s') /\
    forall k', live s' k' = if (k =? k')%string then Some (RHash (<[f := v]> h)) else live s k';
  redis_expire : forall k ttl s,
    (0 < ttl)%Z -> exists s', redis_exec _ (EXPIRE k ttl) s = (Ok tt, s') /\
    forall k', live s' k' = live s k' }.

(** * The store *)

Definition STATUS_TTL_SECONDS : Z := 24 * 60 * 60.
Definition STATUS_TTL_MS : Z := STATUS_TTL_SECONDS * 1000.

Notation RedisM := (Prog RedisCmd).

(** Decimal text of an integer, as redis-py encodes it. *)
Definition encode_int (n : Z) : string := pretty n.

Definition status_key (job_id : string) : string := "job:" +:+ job_id +:+ ":status".
Definition metadata_key (job_id : string) : string := "job:" +:+ job_id +:+ ":metadata".
Definition timing_key (job_id : string) : string := "job:" +:+ job_id +:+ ":timing".
Definition idempotency_key (key : string) : string := "airline:idempotency:" +:+ key.
Definition lock_key (conversation : string) : string := "airline:lock:" +:+ conversation.

Definition set_job_status (job_id status : string) : RedisM unit :=
  await (SET (status_key job_id) status false STATUS_TTL_MS);; mret tt.

Definition get_job_status (job_id : string) : RedisM string :=
  status ← await (GET (status_key job_id));
  mret (match status with Some s => s | None => EmptyString end).

(** [metadata] is the text [orjson.dumps(metadata, default=str)] produced. *)
Definition set_job_metadata (job_id metadata : string) : RedisM unit :=
  await (SET (metadata_key job_id) metadata false STATUS_TTL_MS);; mret tt.

Definition mark_job_timing (job_id field : string) (at_ : datetime) : RedisM unit :=
  await (HSETNX (timing_key job_id) field (encode_int (epoch_ms at_)));;
  await (EXPIRE (timing_key job_id) STATUS_TTL_MS).

(** [value] is the text redis-py encodes the number as. *)
Definition set_job_timing (job_id field value : string) : RedisM unit :=
  await (HSET (timing_key job_id) field value);;
  await (EXPIRE (timing_key job_id) STATUS_TTL_MS).

(** The owner is [None] when the key expires between the two commands. *)
Definition claim_idempotency_key (key job_id : string) : RedisM (option string * bool) :=
  claimed ← await (SET (idempotency_key key) job_id true STATUS_TTL_MS);
  if claimed : bool then mret (Some job_id, true)
  else owner ← await (GET (idempotency_key key)); mret (owner, false).

Definition release_idempotency_key (key : string) : RedisM unit :=
  await (DEL (idempotency_key key));; mret tt.

Definition acquire_conversation_lock (conversation token : string) (ttl_ms : Z) : RedisM bool :=
  await (SET (lock_key conversation) token true ttl_ms).

(** The Lua script [_RELEASE_LOCK]. *)
Definition _RELEASE_LOCK (key token : string) : RedisM bool :=
  value ← await (GET key);
  if bool_decide (value = Some token) then await (DEL key) else mret false.

Definition release_conversation_lock (conversation token : string) : RedisM unit :=
  _RELEASE_LOCK (lock_key conversation) token;; mret tt.

(** * Key names *)

Lemma string_app_inj_l a b c : a +:+ c = b +:+ c -> a = b.
Proof.
  intros H%(f_equal list_ascii_of_string). rewrite !list_ascii_app in H.
  apply app_inv_tail in H. by apply list_ascii_inj.
Qed.

Lemma string_app_assoc a b c : (a +:+ b) +:+ c = a +:+ b +:+ c.
Proof.
  induction a as [|x a IH]; [done|].
  change (String x ((a +:+ b) +:+ c) = String x (a +:+ b +:+ c)). by rewrite IH.
Qed.

Lemma status_key_inj a b : status_key a = status_key b -> a = b.
Proof. intros [= H]. by eapply string_app_inj_l. Qed.
Lemma timing_key_inj a b : timing_key a = timing_key b -> a = b.
Proof. intros [= H]. by eapply string_app_inj_l. Qed.
Lemma idempotency_key_inj a b : idempotency_key a = idempotency_key b -> a = b.
Proof. by intros [= H]. Qed.
Lemma lock_key_inj a b : lock_key a = lock_key b -> a = b.
Proof. by intros [= H]. Qed.

(** Keys of one job end in different letters. *)
Definition last_letter (s : string) := last (list_ascii_of_string s).

Lemma last_letter_app s c s' : last_letter (s +:+ String c s') = last_letter (String c s').
Proof. unfold last_letter. rewrite list_ascii_app. apply last_app_cons. Qed.

(** A job key of one kind is not a key of another kind. *)
Ltac other_kind :=
  let H := fresh in
  intros H; apply (f_equal last_letter) in H;
  unfold status_key, timing_key, metadata_key in H;
  rewrite <- !string_app_assoc, !last_letter_app in H; discriminate H.

Lemma status_timing_key a b : status_key a <> timing_key b.
Proof. other_kind. Qed.
Lemma status_metadata_key a b : status_key a <> metadata_key b.
Proof. other_kind. Qed.
Lemma timing_metadata_key a b : timing_key a <> metadata_key b.
Proof. other_kind. Qed.

Lemma key_eqb (key : string -> string) a b :
  (forall a b, key a = key b -> a = b) -> (key a =? key b)%string = (a =? b)%string.
Proof. intros Hinj. destruct (String.eqb_spec a b) as [->|Hne].
  - apply String.eqb_refl.
  - apply String.eqb_neq. auto.
Qed.

Lemma metadata_key_inj a b : metadata_key a = metadata_key b -> a = b.
Proof. intros [= H]. by eapply string_app_inj_l. Qed.

Ltac distinct_keys :=
  apply String.eqb_neq;
  first [ apply status_timing_key | apply status_metadata_key | apply timing_metadata_key
        | apply not_eq_sym; first [apply status_timing_key | apply status_metadata_key | apply timing_metadata_key]
        | unfold status_key, timing_key, metadata_key, idempotency_key, lock_key; discriminate ].

(** Decide the comparisons of keys in the goal. *)
Ltac key_step :=
  match goal with
  | |- context [(status_key ?a =? status_key ?b)%string] => rewrite (key_eqb status_key a b status_key_inj)
  | |- context [(metadata_key ?a =? metadata_key ?b)%string] => rewrite (key_eqb metadata_key a b metadata_key_inj)
  | |- context [(timing_key ?a =? timing_key ?b)%string] => rewrite (key_eqb timing_key a b timing_key_inj)
  | |- context [(idempotency_key ?a =? idempotency_key ?b)%string] =>
      rewrite (key_eqb idempotency_key a b idempotency_key_inj)
  | |- context [(lock_key ?a =? lock_key ?b)%string] => rewrite (key_eqb lock_key a b lock_key_inj)
  | |- context [(?a =? ?b)%string] => rewrite (eq_trans (y := false) (x := (a =? b)%string) ltac:(distinct_keys) eq_refl)
  end.

(** * What the store promises *)

(** The job state a client can observe. *)
Record StoreView := mkStoreView {
  v_status : string -> option string;
  v_metadata : string -> option string;
  v_timing : string -> string -> option string;
  v_owner : string -> option string;
  v_lock : string -> option string }.

(** Views with the same entries. *)
#[export] Instance StoreView_equiv : Equiv StoreView := fun v w =>
  (forall id, v_status v id = v_status w id) /\ (forall id, v_metadata v id = v_metadata w id) /\
  (forall id f, v_timing v id f = v_timing w id f) /\
  (forall k, v_owner v k = v_owner w k) /\ (forall c, v_lock v c = v_lock w c).
#[export] Instance StoreView_equivalence : Equivalence (≡@{StoreView}).
Proof.
  split.
  - by intros v.
  - intros v w (?&?&?&?&?). repeat split; intros; symmetry; auto.
  - intros u v w (?&?&?&?&?) (?&?&?&?&?). repeat split; intros; etrans; eauto.
Qed.

Definition set_at {A} (k : string) (a : A) (f : string -> A) : string -> A :=
  fun k' => if (k =? k')%string then a else f k'.

Definition with_status (id status : string) (v : StoreView) : StoreView :=
  mkStoreView (set_at id (Some status) (v_status v)) (v_metadata v) (v_timing v) (v_owner v) (v_lock v).
Definition with_metadata (id metadata : string) (v : StoreView) : StoreView :=
  mkStoreView (v_status v) (set_at id (Some metadata) (v_metadata v)) (v_timing v) (v_owner v) (v_lock v).
Definition with_timing (id field value : string) (v : StoreView) : StoreView :=
  mkStoreView (v_status v) (v_metadata v)
    (set_at id (set_at field (Some value) (v_timing v id)) (v_timing v)) (v_owner v) (v_lock v).
Definition with_owner (key : string) (owner : option string) (v : StoreView) : StoreView :=
  mkStoreView (v_status v) (v_metadata v) (v_timing v) (set_at key owner (v_owner v)) (v_lock v).
Definition with_lock (conversation : string) (holder : option string) (v : StoreView) : StoreView :=
  mkStoreView (v_status v) (v_metadata v) (v_timing v) (v_owner v)
    (set_at conversation holder (v_lock v)).

(** The methods of [JobStore]. *)
Inductive StoreOp : Type -> Type :=
  | SetStatus (job_id status : string) : StoreOp unit
  | GetStatus (job_id : string) : StoreOp string
  | SetMetadata (job_id metadata : string) : StoreOp unit
  | MarkTiming (job_id field : string) (at_ : datetime) : StoreOp unit
  | SetTiming (job_id field value : string) : StoreOp unit
  | ClaimKey (key job_id : string) : StoreOp (option string * bool)
  | ReleaseKey (key : string) : StoreOp unit
  | AcquireLock (conversation token : string) (ttl_ms : Z) : StoreOp bool
  | ReleaseLock (conversation token : string) : StoreOp unit.

Definition store_code {R} (op : StoreOp R) : RedisM R :=
  match op with
  | SetStatus id status => set_job_status id status
  | GetStatus id => get_job_status id
  | SetMetadata id metadata => set_job_metadata id metadata
  | MarkTiming id field at_ => mark_job_timing id field at_
  | SetTiming id field value => set_job_timing id field value
  | ClaimKey key id => claim_idempotency_key key id
  | ReleaseKey key => release_idempotency_key key
  | AcquireLock c token ttl => acquire_conversation_lock c token ttl
  | ReleaseLock c token => release_conversation_lock c token
  end.

(** Their contract: the last status wins, the first timestamp wins, a key and
    a lock belong to the first that asks, and only the holder frees a lock. *)
Definition store_spec {R} (op : StoreOp R) (v : StoreView) : R * StoreView :=
  match op in StoreOp R return R * StoreView with
  | SetStatus id status => (tt, with_status id status v)
  | GetStatus id => (match v_status v id with Some s => s | None => EmptyString end, v)
  | SetMetadata id metadata => (tt, with_metadata id metadata v)
  | MarkTiming id field at_ =>
      (tt, match v_timing v id field with
           | Some _ => v
           | None => with_timing id field (encode_int (epoch_ms at_)) v
           end)
  | SetTiming id field value => (tt, with_timing id field value v)
  | ClaimKey key id =>
      match v_owner v key with
      | Some owner => ((Some owner, false), v)
      | None => ((Some id, true), with_owner key (Some id) v)
      end
  | ReleaseKey key => (tt, with_owner key None v)
  | AcquireLock c token _ =>
      match v_lock v c with
      | Some _ => (false, v)
      | None => (true, with_lock c (Some token) v)
      end
  | ReleaseLock c token =>
      (tt, if bool_decide (v_lock v c = Some token) then with_lock c None v else v)
  end.

Definition str_value (v : option RVal) : option string :=
  match v with Some (RStr s) => Some s | _ => None end.
Definition hash_value (v : option RVal) (field : string) : option string :=
  match v with Some (RHash h) => h !! field | _ => None end.

Section Store.
Context {S : Type} `{!Redis S}.

Definition view (s : S) : StoreView := {|
  v_status id := str_value (live s (status_key id));
  v_metadata id := str_value (live s (metadata_key id));
  v_timing id := hash_value (live s (timing_key id));
  v_owner key := str_value (live s (idempotency_key key));
  v_lock conversation := str_value (live s (lock_key conversation)) |}.

(** Timing keys hold hashes and the other keys strings. *)
Record typed (s : S) : Prop := {
  ty_status : forall id h, live s (status_key id) <> Some (RHash h);
  ty_timing : forall id v, live s (timing_key id) <> Some (RStr v);
  ty_owner : forall key h, live s (idempotency_key key) <> Some (RHash h);
  ty_lock : forall c h, live s (lock_key c) <> Some (RHash h) }.

Definition redis_env : forall R, RedisCmd R -> S -> Res R * S := redis_exec.

(** [s'] differs from [s] in one key. *)
Definition writes (k : string) (x : option RVal) (s s' : S) : Prop :=
  forall k', live s' k' = if (k =? k')%string then x else live s k'.

Ltac write_case Hw :=
  intros; rewrite !Hw; repeat key_step; unfold set_at;
  repeat (case_match; simplify_eq/=); eauto.

Lemma write_status id status s s' :
  writes (status_key id) (Some (RStr status)) s s' -> typed s ->
  typed s' /\ view s' ≡ with_status id status (view s).
Proof.
  intros Hw [H1 H2 H3 H4]. split; [split; write_case Hw|].
  repeat split; cbn; write_case Hw.
Qed.

Lemma write_metadata id metadata s s' :
  writes (metadata_key id) (Some (RStr metadata)) s s' -> typed s ->
  typed s' /\ view s' ≡ with_metadata id metadata (view s).
Proof.
  intros Hw [H1 H2 H3 H4]. split; [split; write_case Hw|].
  repeat split; cbn; write_case Hw.
Qed.

Lemma write_owner key owner s s' :
  writes (idempotency_key key) (RStr <$> owner) s s' -> typed s ->
  typed s' /\ view s' ≡ with_owner key owner (view s).
Proof.
  intros Hw [H1 H2 H3 H4]. split; [split; write_case Hw; by destruct owner|].
  repeat split; cbn; write_case Hw; by destruct owner.
Qed.

Lemma write_lock conversation holder s s' :
  writes (lock_key conversation) (RStr <$> holder) s s' -> typed s ->
  typed s' /\ view s' ≡ with_lock conversation holder (view s).
Proof.
  intros Hw [H1 H2 H3 H4]. split; [split; write_case Hw; by destruct holder|].
  repeat split; cbn; write_case Hw; by destruct holder.
Qed.

Lemma write_timing id field value h s s' :
  writes (timing_key id) (Some (RHash (<[field := value]> h))) s s' ->
  hash_of (live s (timing_key id)) = Ok h -> typed s ->
  typed s' /\ view s' ≡ with_timing id field value (view s).
Proof.
  intros Hw Hh [H1 H2 H3 H4]. split; [split; write_case Hw|].
  assert (forall f, hash_value (live s (timing_key id)) f = h !! f) as Hv.
  { intros f. destruct (live s (timing_key id)) as [[]|]; cbn in *; by simplify_eq. }
  repeat split; cbn; try (write_case Hw; fail).
  intros id' f. rewrite Hw. repeat key_step. unfold set_at.
  destruct (id =? id')%string; [|done]. cbn. rewrite Hv.
  destruct (String.eqb_spec field f) as [->|]; [by rewrite lookup_insert_eq|by rewrite lookup_insert_ne].
Qed.

(** Writing a key with the value it has changes nothing observable. *)
Lemma same_live s s' : (forall k, live s' k = live s k) -> typed s -> typed s' /\ view s' ≡ view s.
Proof.
  intros Hs [H1 H2 H3 H4]. split; [split; intros; rewrite Hs; auto|].
  repeat split; intros; cbn; by rewrite Hs.
Qed.

Lemma timing_hash s id : typed s -> exists h, hash_of (live s (timing_key id)) = Ok h.
Proof. intros [_ H _ _]. specialize (H id). destruct (live s _) as [[]|]; cbn; naive_solver. Qed.

Lemma str_get s k :
  (forall h, live s k <> Some (RHash h)) ->
  redis_exec _ (GET k) s = (Ok (str_value (live s k)), s).
Proof. intros H. rewrite redis_get. destruct (live s k) as [[]|]; naive_solver. Qed.

Definition ttl_ok {R} (op : StoreOp R) : Prop :=
  match op with AcquireLock _ _ ttl => (0 < ttl)%Z | _ => True end.

Definition implements {R} (op : StoreOp R) : Prop := forall s,
  typed s -> exists s',
    run redis_env (store_code op) s = (Ok (store_spec op (view s)).1, s') /\
    typed s' /\ view s' ≡ (store_spec op (view s)).2.

Lemma ttl_pos : (0 < STATUS_TTL_MS)%Z.
Proof. done. Qed.

Ltac run_step := rewrite run_bind, run_await; unfold redis_env at 1.

Lemma set_status_ok id status : implements (SetStatus id status).
Proof.
  intros s Hty. cbn [store_code store_spec fst snd]. unfold set_job_status. run_step.
  destruct (redis_set (status_key id) status false _ s ttl_pos) as (s' & -> & Hw).
  exists s'. split; [done|]. by apply write_status.
Qed.

Lemma get_status_ok id : implements (GetStatus id).
Proof.
  intros s Hty. cbn [store_code store_spec fst snd]. unfold get_job_status. run_step.
  rewrite str_get by apply Hty. exists s. split; [done|]. split; [done|reflexivity].
Qed.

Lemma set_metadata_ok id metadata : implements (SetMetadata id metadata).
Proof.
  intros s Hty. cbn [store_code store_spec fst snd]. unfold set_job_metadata. run_step.
  destruct (redis_set (metadata_key id) metadata false _ s ttl_pos) as (s' & -> & Hw).
  exists s'. split; [done|]. by apply write_metadata.
Qed.

(** [EXPIRE] after a write keeps what the write did. *)
Lemma expire_after k s v :
  typed s -> view s ≡ v -> exists s', run redis_env (await (EXPIRE k STATUS_TTL_MS)) s = (Ok tt, s') /\
    typed s' /\ view s' ≡ v.
Proof.
  intros Hty Hv. rewrite run_await. unfold redis_env.
  destruct (redis_expire k _ s ttl_pos) as (s' & -> & Hl). exists s'. split; [done|].
  destruct (same_live s s' Hl Hty) as [? ?]. split; [done|]. by etrans.
Qed.

Lemma mark_timing_ok id field at_ : implements (MarkTiming id field at_).
Proof.
  intros s Hty. destruct (timing_hash s id Hty) as [h Hh].
  cbn [store_code store_spec fst snd]. unfold mark_job_timing. run_step.
  destruct (redis_hsetnx (timing_key id) field (encode_int (epoch_ms at_)) s h Hh) as (s1 & -> & Hw).
  assert (v_timing (view s) id field = h !! field) as ->.
  { cbn. destruct (live s (timing_key id)) as [[]|]; cbn in *; by simplify_eq. }
  destruct (h !! field) as [old|] eqn:Hf.
  - rewrite bool_decide_eq_false_2 in Hw by done.
    assert (live s (timing_key id) = Some (RHash h)) as Hlive.
    { destruct (live s (timing_key id)) as [[]|]; cbn in *; simplify_eq; done. }
    apply expire_after; apply (same_live s s1); try done; intros k; rewrite Hw;
      destruct (String.eqb_spec (timing_key id) k) as [<-|]; by rewrite ?Hlive.
  - rewrite bool_decide_eq_true_2 in Hw by done.
    apply expire_after; by apply (write_timing id field (encode_int (epoch_ms at_)) h s s1).
Qed.

Lemma set_timing_ok id field value : implements (SetTiming id field value).
Proof.
  intros s Hty. destruct (timing_hash s id Hty) as [h Hh].
  cbn [store_code store_spec fst snd]. unfold set_job_timing. run_step.
  destruct (redis_hset (timing_key id) field value s h Hh) as (s1 & -> & Hw).
  apply expire_after; by apply (write_timing id field value h s s1).
Qed.

(** [SET NX] writes a free key and leaves a taken one. *)
Lemma set_nx k v ttl s :
  (0 < ttl)%Z -> (forall h, live s k <> Some (RHash h)) ->
  exists s', redis_exec _ (SET k v true ttl) s =
    (Ok (bool_decide (str_value (live s k) = None)), s') /\
    match str_value (live s k) with
    | None => writes k (Some (RStr v)) s s'
    | Some _ => forall k', live s' k' = live s k'
    end.
Proof.
  intros Ht Hk. destruct (redis_set k v true ttl s Ht) as (s' & -> & Hw). exists s'.
  destruct (live s k) as [[x|h]|] eqn:E; [|by destruct (Hk h)|].
  - assert (bool_decide (is_Some (Some (RStr x))) = true) as Hb by (by apply bool_decide_eq_true_2).
    rewrite Hb in *. done.
  - assert (bool_decide (is_Some (@None RVal)) = false) as Hb
      by (apply bool_decide_eq_false_2; by intros [? [=]]).
    rewrite Hb in *. done.
Qed.

Lemma claim_ok key id : implements (ClaimKey key id).
Proof.
  intros s Hty. cbn [store_code store_spec]. unfold claim_idempotency_key. run_step.
  destruct (set_nx (idempotency_key key) id _ s ttl_pos (ty_owner _ Hty key)) as (s1 & -> & Hw).
  cbn [v_owner view]. destruct (str_value (live s (idempotency_key key))) as [owner|] eqn:Ho.
  - rewrite bool_decide_eq_false_2 by done. cbn [fst snd]. destruct (same_live s s1 Hw Hty) as [Hty1 Hv]. exists s1.
    run_step. rewrite str_get by apply Hty1. rewrite Hw, Ho. done.
  - exists s1. split; [done|]. by apply (write_owner key (Some id)).
Qed.

Lemma release_key_ok key : implements (ReleaseKey key).
Proof.
  intros s Hty. cbn [store_code store_spec fst snd]. unfold release_idempotency_key. run_step.
  destruct (redis_del (idempotency_key key) s) as (s' & -> & Hw). exists s'. split; [done|].
  by apply (write_owner key None).
Qed.

Lemma acquire_lock_ok c token ttl : (0 < ttl)%Z -> implements (AcquireLock c token ttl).
Proof.
  intros Ht s Hty. cbn [store_code store_spec]. unfold acquire_conversation_lock.
  rewrite run_await. unfold redis_env.
  destruct (set_nx (lock_key c) token ttl s Ht (ty_lock _ Hty c)) as (s1 & -> & Hw).
  cbn [v_lock view]. destruct (str_value (live s (lock_key c))) as [holder|]; cbn;
    exists s1; (split; [done|]); [by apply same_live|by apply (write_lock c (Some token))].
Qed.

Lemma release_lock_ok c token : implements (ReleaseLock c token).
Proof.
  intros s Hty. cbn [store_code store_spec fst snd].
  unfold release_conversation_lock, _RELEASE_LOCK. rewrite run_bind. run_step.
  rewrite str_get by apply Hty. cbn [v_lock view].
  case_bool_decide.
  - rewrite run_await. unfold redis_env. destruct (redis_del (lock_key c) s) as (s' & -> & Hw).
    exists s'. split; [done|]. by apply (write_lock c None).
  - exists s. split; [done|]. split; [done|reflexivity].
Qed.

Lemma store_implements {R} (op : StoreOp R) : ttl_ok op -> implements op.
Proof.
  destruct op; intros Ht; auto using set_status_ok, get_status_ok, set_metadata_ok, mark_timing_ok,
    set_timing_ok, claim_ok, release_key_ok, acquire_lock_ok, release_lock_ok.
Qed.
End Store.

(** * Programs over the store *)

#[export] Instance with_status_proper id status : Proper ((≡) ==> (≡)) (with_status id status).
Proof. intros v w (H1&?&?&?&?). repeat split; intros; cbn; unfold set_at; repeat case_match; auto. Qed.
#[export] Instance with_metadata_proper id m : Proper ((≡) ==> (≡)) (with_metadata id m).
Proof. intros v w (H1&?&?&?&?). repeat split; intros; cbn; unfold set_at; repeat case_match; auto. Qed.
#[export] Instance with_timing_proper id f x : Proper ((≡) ==> (≡)) (with_timing id f x).
Proof. intros v w (H1&?&?&?&?). repeat split; intros; cbn; unfold set_at; repeat case_match; auto. Qed.
#[export] Instance with_owner_proper k o : Proper ((≡) ==> (≡)) (with_owner k o).
Proof. intros v w (H1&?&?&?&?). repeat split; intros; cbn; unfold set_at; repeat case_match; auto. Qed.
#[export] Instance with_lock_proper c h : Proper ((≡) ==> (≡)) (with_lock c h).
Proof. intros v w (H1&?&?&?&?). repeat split; intros; cbn; unfold set_at; repeat case_match; auto. Qed.

(** The contract depends on the entries of a view only. *)
Lemma store_spec_proper {R} (op : StoreOp R) v w :
  v ≡ w -> (store_spec op v).1 = (store_spec op w).1 /\ (store_spec op v).2 ≡ (store_spec op w).2.
Proof.
  intros Hvw. pose proof Hvw as (H1 & H2 & H3 & H4 & H5).
  destruct op; cbn; rewrite <- ?H1, <- ?H3, <- ?H4, <- ?H5;
    repeat case_match; cbn; (split; [done|]); try done; by rewrite Hvw.
Qed.

Definition spec_env : forall R, StoreOp R -> StoreView -> Res R * StoreView :=
  fun R op v => (Ok (store_spec op v).1, (store_spec op v).2).

(** Every lock a program asks for has a positive lifetime. *)
Fixpoint ops_ok {A} (p : Prog StoreOp A) : Prop :=
  match p with
  | Ret _ | Throw _ => True
  | Await o k => ttl_ok o /\ forall r, ops_ok (k r)
  end.

(** The outcome of an attempt to take a conversation's lock. *)
Definition acquire_event (conversation : string) (ev : Event StoreOp) : option (Res bool) :=
  match ev with
  | Ev o r =>
      match o in StoreOp R return Res R -> option (Res bool) with
      | AcquireLock c _ _ => fun r => if (conversation =? c)%string then Some r else None
      | _ => fun _ => None
      end r
  end.

(** The holder frees the lock. *)
Definition frees (conversation holder : string) (ev : Event StoreOp) : bool :=
  match ev with
  | Ev (ReleaseLock c token) _ => (conversation =? c)%string && (holder =? token)%string
  | _ => false
  end.

(** No operation but its holder's release takes a lock away. *)
Lemma lock_kept {R} (op : StoreOp R) (r : Res R) v conversation holder :
  v_lock v conversation = Some holder -> frees conversation holder (Ev op r) = false ->
  v_lock (store_spec op v).2 conversation = Some holder.
Proof.
  intros Hl Hf. destruct op as [| |  | | | | |c token ttl|c token]; try done; cbn in *.
  - by repeat case_match.
  - by destruct (v_owner v key).
  - destruct (v_lock v c) eqn:E; cbn; [done|]. unfold set_at.
    destruct (String.eqb_spec c conversation) as [->|]; [congruence|done].
  - case_bool_decide as E; [|done]. cbn. unfold set_at.
    destruct (String.eqb_spec c conversation) as [->|]; [|done].
    rewrite Hl in E. injection E as ->. by rewrite !String.eqb_refl in Hf.
Qed.

Section Simulation.
Context {S : Type} `{!Redis S}.

Definition store_env : forall R, StoreOp R -> S -> Res R * S :=
  fun R op s => run redis_env (store_code op) s.

Lemma store_step {R} (op : StoreOp R) s v :
  typed s -> view s ≡ v -> ttl_ok op ->
  exists s', store_env R op s = (Ok (store_spec op v).1, s') /\ typed s' /\ view s' ≡ (store_spec op v).2.
Proof.
  intros Hty Hv Ht. destruct (store_implements op Ht s Hty) as (s' & Hrun & Hty' & Hv').
  destruct (store_spec_proper op _ _ Hv) as [Hr Hw]. exists s'. unfold store_env.
  rewrite Hrun, Hr. split; [done|]. split; [done|]. by etrans.
Qed.

(** C17: the Redis store refines its contract: every program over [JobStore],
    run on the Redis commands of the methods, returns what the abstract store
    returns and leaves the state the abstract store leaves; in particular its
    methods do not raise and no two jobs, keys or conversations collide. *)
Theorem job_store_refines {A} (p : Prog StoreOp A) s v :
  typed s -> view s ≡ v -> ops_ok p ->
  (run store_env p s).1 = (run spec_env p v).1 /\
  typed (run store_env p s).2 /\ view (run store_env p s).2 ≡ (run spec_env p v).2.
Proof.
  revert s v. induction p as [a|e|R o k IH]; intros s v Hty Hv Hok; cbn; [done..|].
  destruct Hok as [Ht Hk]. destruct (store_step o s v Hty Hv Ht) as (s' & -> & Hty' & Hv').
  by apply IH.
Qed.

(** Mutual exclusion: while a token holds a conversation's lock, whatever
    the clients do to the store, every attempt to acquire that lock fails until
    the holder releases it (or its lifetime ends, which is not a command). *)
Theorem lock_excludes {A} (p : Prog StoreOp A) s conversation holder :
  typed s -> ops_ok p -> v_lock (view s) conversation = Some holder ->
  forallb (fun ev => negb (frees conversation holder ev)) (trace store_env p s) = true ->
  Forall (fun outcome => outcome = Ok false)
    (omap (acquire_event conversation) (trace store_env p s)).
Proof.
  revert s. induction p as [a|e|R o k IH]; intros s Hty Hok Hl; cbn [trace ops_ok] in *;
    [constructor..|].
  destruct Hok as [Ht Hk].
  destruct (store_step o s (view s) Hty (reflexivity _) Ht) as (s' & -> & Hty' & Hv').
  cbn [forallb]. intros [Hne Hrel]%andb_true_iff.
  assert (v_lock (view s') conversation = Some holder) as Hl'.
  { destruct Hv' as (_ & _ & _ & _ & ->). eapply lock_kept; [exact Hl|by apply negb_true_iff]. }
  specialize (IH _ s' Hty' (Hk _) Hl' Hrel).
  cbn [omap list_omap].
  destruct (acquire_event conversation (Ev o (Ok (store_spec o (view s)).1))) as [outcome|] eqn:Hacq;
    [|exact IH].
  constructor; [|exact IH]. destruct o; try discriminate Hacq. cbn [acquire_event store_spec fst] in Hacq.
  destruct (String.eqb_spec conversation conversation0) as [<-|]; [|discriminate Hacq].
  rewrite Hl in Hacq. by injection Hacq as <-.
Qed.
End Simulation.

(** * A server *)

(** A map without a clock: no key expires. *)
Definition map_exec : forall R, RedisCmd R -> gmap string RVal -> Res R * gmap string RVal :=
  fun R c m =>
  match c in RedisCmd R return Res R * gmap string RVal with
  | SET k v nx ttl =>
      if (ttl <=? 0)%Z then (Raise invalid_expire, m)
      else if negb nx || negb (bool_decide (is_Some (m !! k))) then (Ok true, <[k := RStr v]> m)
      else (Ok false, m)
  | GET k =>
      (match m !! k with
       | None => Ok None
       | Some (RStr v) => Ok (Some v)
       | Some (RHash _) => Raise wrong_type
       end, m)
  | DEL k => (Ok (bool_decide (is_Some (m !! k))), delete k m)
  | HSETNX k f v =>
      match hash_of (m !! k) with
      | Ok h => (Ok (bool_decide (h !! f = None)),
                 <[k := RHash (if bool_decide (h !! f = None) then <[f := v]> h else h)]> m)
      | Raise e => (Raise e, m)
      end
  | HSET k f v =>
      match hash_of (m !! k) with
      | Ok h => (Ok tt, <[k := RHash (<[f := v]> h)]> m)
      | Raise e => (Raise e, m)
      end
  | EXPIRE k ttl => (Ok tt, m)
  end.

Lemma lookup_insert_eqb (m : gmap string RVal) k x k' :
  <[k := x]> m !! k' = if (k =? k')%string then Some x else m !! k'.
Proof.
  destruct (String.eqb_spec k k') as [->|]; [by rewrite lookup_insert_eq|by rewrite lookup_insert_ne].
Qed.

#[export] Program Instance redis_map : Redis (gmap string RVal) := {
  redis_exec := map_exec; live m k := m !! k }.
Next Obligation.
  intros k v nx ttl m Ht. cbn. rewrite (proj2 (Z.leb_gt ttl 0)) by done.
  destruct (negb nx || _); cbn; eexists; (split; [reflexivity|]); intros k'; [apply lookup_insert_eqb|done].
Qed.
Next Obligation. intros k v nx ttl m Ht. cbn. by rewrite (proj2 (Z.leb_le ttl 0)). Qed.
Next Obligation. done. Qed.
Next Obligation.
  intros k m. eexists; split; [reflexivity|]. intros k'.
  destruct (String.eqb_spec k k') as [->|]; [by rewrite lookup_delete_eq|by rewrite lookup_delete_ne].
Qed.
Next Obligation.
  intros k f v m h Hh. cbn. rewrite Hh. eexists; split; [reflexivity|]. intros k'. apply lookup_insert_eqb.
Qed.
Next Obligation.
  intros k f v m h Hh. cbn. rewrite Hh. eexists; split; [reflexivity|]. intros k'. apply lookup_insert_eqb.
Qed.
Next Obligation. intros k ttl m Ht. by exists m. Qed.

Lemma typed_empty : typed (∅ : gmap string RVal).
Proof. by split. Qed.
