(* ===== verification/RabbitMQ.v ===== *)
(** The job broker: [app/platform/rabbitmq.py].

    [BrokerOp] lists the client calls; [connect] declares the queues, [publish],
    [retry] and [dead_letter] choose the queue a job goes to.  [orjson] is a
    parameter. *)
From Stdlib Require Import String.
From stdpp Require Import base numbers strings list sets pretty.
From S2P Require Import Prelude Models Uuid PyVal Effects Config JobService.

Definition retry_queue (queue : string) (level : Z) : string :=
  queue +:+ ".retry." +:+ pretty level.
Definition dead_queue (queue : string) : string := queue +:+ ".dead".

(** The arguments of a delay queue: messages expire after [ttl_ms] and are
    routed to [routing_key] through the default exchange. *)
Record DelayArguments := mkDelayArguments {
  x_message_ttl : Z; x_dead_letter_exchange : string; x_dead_letter_routing_key : string }.

Inductive BrokerOp : Type -> Type :=
  | DeclareQueue (name : string) (durable : bool) (arguments : option DelayArguments) : BrokerOp unit
  | PublishMessage (routing_key body : string) (persistent : bool) : BrokerOp unit
  | SetQos (prefetch_count : Z) : BrokerOp unit
  | ConsumeQueue (queue : string) : BrokerOp string
  | CancelConsumer (queue consumer_tag : string) : BrokerOp unit
  | CloseConnection : BrokerOp unit.

Notation BrokerM := (Prog BrokerOp).

(** The client object: the main queue and the delay queues it declared. *)
Record RabbitMQ := mkRabbitMQ { _queue : string; _retry_queues : list string }.

(** [enumerate(delays, start=1)]. *)
Fixpoint enumerate (start : Z) (delays : list Z) : list (Z * Z) :=
  match delays with [] => [] | d :: delays' => (start, d) :: enumerate (start + 1) delays' end.

(** The delay queue of one level. *)
Definition delay_arguments (queue : string) (delay_ms : Z) : DelayArguments :=
  mkDelayArguments delay_ms "" queue.

Fixpoint declare_retries (queue : string) (levels : list (Z * Z)) : BrokerM (list string) :=
  match levels with
  | [] => mret []
  | (level, delay_ms) :: levels' =>
      let name := retry_queue queue level in
      await (DeclareQueue name true (Some (delay_arguments queue delay_ms)));;
      names ← declare_retries queue levels';
      mret (name :: names)
  end.

Definition connect (settings : Settings) : BrokerM RabbitMQ :=
  let queue := rabbitmq_queue settings in
  await (DeclareQueue queue true None);;
  await (DeclareQueue (dead_queue queue) true None);;
  names ← declare_retries queue (enumerate 1 (retry_delays_ms settings));
  mret (mkRabbitMQ queue names).

(** [min(max(level, 1), length) - 1] as a list index. *)
Definition clamp_level (level : PyVal) (length : Z) : Res Z :=
  match level with
  | PInt n => Ok (Z.min (Z.max n 1) length)
  | PBool _ => Ok (Z.min 1 length)
  | PFloat f =>
      match float_compare f 1 with
      | Some Lt => Ok (Z.min 1 length)
      | _ => match float_compare f length with
             | Some Gt => Ok length
             | _ => raise TypeError "list indices must be integers or slices, not float"
             end
      end
  | _ => Raise type_error
  end.

Section Broker.
Context (orjson_dumps : PyVal -> Res string) (mq : RabbitMQ).

(** [{key: value for key, value in asdict(job).items() if value is not None}]. *)
Definition envelope (job : Job) : PyVal :=
  PDict (List.filter (fun e => negb (is_none e.2))
    [("id", j_id job); ("payload", j_payload job); ("attempt", j_attempt job);
     ("error", j_error job)]%string).

Definition _publish (routing_key : string) (job : Job) : BrokerM unit :=
  body ← of_res (orjson_dumps (envelope job));
  await (PublishMessage routing_key body true).

Definition broker_publish (job : Job) : BrokerM unit := _publish (_queue mq) job.

Definition broker_retry (job : Job) (level : PyVal) : BrokerM unit :=
  if bool_decide (_retry_queues mq = []) then throw RuntimeError "no retry queues declared"
  else
    level ← of_res (clamp_level level (Z.of_nat (length (_retry_queues mq))));
    name ← of_res (or_raise (_retry_queues mq !! Z.to_nat (level - 1)) IndexError
                     "list index out of range");
    _publish name job.

Definition broker_dead_letter (job : Job) : BrokerM unit := _publish (dead_queue (_queue mq)) job.

Definition broker_consume (prefetch : Z) : BrokerM string :=
  await (SetQos prefetch);;
  await (ConsumeQueue (_queue mq)).

Definition broker_cancel_consumer (consumer_tag : string) : BrokerM unit :=
  await (CancelConsumer (_queue mq) consumer_tag).

Definition broker_close : BrokerM unit := await CloseConnection.
End Broker.

(** * The envelope survives the queue *)

(** C39: what is queued is what is consumed: for a job with an id, a payload and
    an attempt count, the worker decodes the published body back to the very
    same job, including its attempt count and its error. *)
Theorem envelope_roundtrip orjson_dumps orjson_loads job body :
  orjson_dumps (envelope job) = Ok body -> orjson_loads body = Ok (envelope job) ->
  truthy (j_id job) = true -> is_none (j_payload job) = false -> is_none (j_attempt job) = false ->
  decode orjson_loads body = Ok job.
Proof.
  intros _ Hl Hid Hp Ha. unfold decode. rewrite Hl. cbn [mbind Res_bind].
  destruct job as [id payload attempt error]. cbn [j_id j_payload j_attempt] in *.
  assert (is_none id = false) as Hi by (by destruct id).
  unfold construct_job, envelope. cbn -[truthy]. rewrite Hi, Hp, Ha. cbn -[truthy].
  destruct (is_none error) eqn:He; cbn -[truthy]; rewrite !bool_decide_eq_true_2 by set_solver;
    cbn -[truthy]; rewrite Hid; cbn; [|done].
  by destruct error.
Qed.

(** * Retry queues and backoff *)

Lemma enumerate_lookup start delays n :
  enumerate start delays !! n = (fun d => (start + Z.of_nat n, d)%Z) <$> delays !! n.
Proof.
  revert start n. induction delays as [|d delays IH]; intros start [|n]; cbn; try done.
  - by rewrite Z.add_0_r.
  - rewrite IH. destruct (delays !! n); cbn; [|done]. do 2 f_equal. lia.
Qed.

(** The queues [connect] declares. *)
Definition declared (tr : Trace BrokerOp) : list (string * option DelayArguments) :=
  omap (fun ev => match ev with Ev (DeclareQueue name true arguments) (Ok _) => Some (name, arguments)
                  | _ => None end) tr.

(** The messages published, with their queue. *)
Definition published (tr : Trace BrokerOp) : list (string * string) :=
  omap (fun ev => match ev with Ev (PublishMessage key body true) _ => Some (key, body)
                  | _ => None end) tr.

Definition levels_of (settings : Settings) : nat :=
  Z.to_nat (Z.max (job_max_attempts settings - 1) 1).

Definition delay_queue (queue : string) (l : Z * Z) : string * option DelayArguments :=
  (retry_queue queue l.1, Some (delay_arguments queue l.2)).

Lemma declare_retries_spec queue levels :
  wp (declare_retries queue levels) (fun r tr =>
    published tr = [] /\ forall names, r = Ok names ->
      names = (fun l => retry_queue queue l.1) <$> levels /\
      declared tr = delay_queue queue <$> levels).
Proof.
  induction levels as [|[level delay] levels IH]; cbn [declare_retries].
  - wp_step. split; [done|]. by intros names [= <-].
  - wp_step. wp_step; cbn beta iota; [|done]. wp_step. eapply wp_mono; [|exact IH].
    intros [names|e] tr [Hp Hn]; cbn; [|done].
    destruct (Hn names eq_refl) as [-> Hd]. unfold published, declared in *.
    rewrite !omap_app. cbn. rewrite Hp, Hd, !app_nil_r. split; [done|]. by intros names' [= <-].
Qed.

Lemma enumerate_levels settings :
  enumerate 1 (retry_delays_ms settings) =
  (fun n => (Z.of_nat n, job_retry_base_ms settings * 2 ^ (Z.of_nat n - 1))%Z)
    <$> seq 1 (Z.to_nat (Z.max (job_max_attempts settings - 1) 1)).
Proof.
  apply list_eq. intros n. rewrite enumerate_lookup, list_lookup_fmap.
  unfold retry_delays_ms. cbv zeta. rewrite list_lookup_fmap.
  set (levels := Z.to_nat _). destruct (decide (n < levels)) as [Hn|Hn].
  - rewrite !lookup_seq_lt by done. cbn. rewrite Z.shiftl_mul_pow2 by lia. do 2 f_equal; [lia|].
    f_equal. f_equal. lia.
  - by rewrite !lookup_seq_ge by lia.
Qed.

(** The client [connect] returns and the queues it declares. *)
Definition connected (settings : Settings) : RabbitMQ :=
  let queue := rabbitmq_queue settings in
  mkRabbitMQ queue ((fun n => retry_queue queue (Z.of_nat n)) <$> seq 1 (levels_of settings)).

Definition topology (settings : Settings) : list (string * option DelayArguments) :=
  let queue := rabbitmq_queue settings in
  (queue, None) :: (dead_queue queue, None) ::
  ((fun n => (retry_queue queue (Z.of_nat n),
      Some (delay_arguments queue (job_retry_base_ms settings * 2 ^ (Z.of_nat n - 1)))))
     <$> seq 1 (levels_of settings)).

Lemma connect_spec settings :
  wp (connect settings) (fun r tr => published tr = [] /\
    forall mq, r = Ok mq -> mq = connected settings /\ declared tr = topology settings).
Proof.
  unfold connect. cbv zeta. wp_step. wp_step; cbn beta iota; [|done].
  wp_step. wp_step; cbn beta iota; [|done]. wp_step.
  eapply wp_mono; [|apply declare_retries_spec]. intros [names|e] tr [Hp Hn]; cbn; [|done].
  destruct (Hn names eq_refl) as [-> Hd]. pose proof (enumerate_levels settings) as He.
  unfold published, declared in *. cbn. rewrite app_nil_r, Hp, Hd, He, <- !list_fmap_compose.
  split; [done|]. by intros mq [= <-].
Qed.

(** The topology of a successful [connect]: the main and the dead queue,
    and one delay queue per retry level whose messages wait
    [base * 2^(level-1)] ms and then expire back into the main queue; the client
    keeps the names of the delay queues in level order. *)
Theorem connect_topology settings :
  wp (connect settings) (fun r tr => forall mq, r = Ok mq ->
    mq = connected settings /\ declared tr = topology settings).
Proof. eapply wp_mono; [|apply connect_spec]. by intros r tr [_ H]. Qed.

Lemma broker_retry_level orjson_dumps queue levels job n :
  (0 < levels)%nat ->
  broker_retry orjson_dumps
    (mkRabbitMQ queue ((fun n => retry_queue queue (Z.of_nat n)) <$> seq 1 levels)) job (PInt n) =
  _publish orjson_dumps (retry_queue queue (Z.min (Z.max n 1) (Z.of_nat levels))) job.
Proof.
  intros Hl. unfold broker_retry. cbn [_retry_queues]. rewrite bool_decide_eq_false_2 by (destruct levels; [lia|done]).
  rewrite length_fmap, length_seq. cbn [clamp_level of_res mbind Prog_bind prog_bind].
  rewrite list_lookup_fmap, lookup_seq_lt by lia. cbn [fmap option_fmap option_map or_raise of_res prog_bind].
  unfold mbind, Prog_bind. cbn [prog_bind]. replace (Z.of_nat (1 + _)) with (Z.min (Z.max n 1) (Z.of_nat levels)) by lia. done.
Qed.

(** Levels are clamped into the declared ones. *)
Lemma backoff_declared settings n :
  let queue := rabbitmq_queue settings in
  let level := Z.min (Z.max n 1) (Z.of_nat (levels_of settings)) in
  (0 < levels_of settings)%nat ->
  (retry_queue queue level,
   Some (delay_arguments queue (job_retry_base_ms settings * 2 ^ (level - 1)))) ∈ topology settings.
Proof.
  cbv zeta. intros Hl. unfold topology. cbv zeta. do 2 apply list_elem_of_further.
  apply list_elem_of_fmap. exists (Z.to_nat (Z.min (Z.max n 1) (Z.of_nat (levels_of settings)))).
  split; [|apply elem_of_seq; lia]. by rewrite Z2Nat.id by lia.
Qed.

(** Exponential backoff: a job retried at attempt [n] is published, with
    its envelope, to a delay queue declared at connection that holds it for
    [base * 2^(n-1)] ms (the last level's delay beyond the last level) and then
    returns it to the main queue. *)
Theorem retry_backoff orjson_dumps settings job n :
  let queue := rabbitmq_queue settings in
  let level := Z.min (Z.max n 1) (Z.of_nat (levels_of settings)) in
  wp (mq ← connect settings; broker_retry orjson_dumps mq job (PInt n)) (fun r tr =>
    Forall (fun m => orjson_dumps (envelope job) = Ok m.2 /\
      (m.1, Some (delay_arguments queue (job_retry_base_ms settings * 2 ^ (level - 1)))) ∈ declared tr)
      (published tr) /\
    (r = Ok tt -> length (published tr) = 1)).
Proof.
  cbv zeta. wp_step. eapply wp_mono; [|apply connect_spec]. intros [mq|e] tr [Hp Hc]; cbn beta iota.
  2: { rewrite Hp. by split. }
  destruct (Hc mq eq_refl) as [-> Hd]. unfold connected. cbv zeta.
  assert (0 < levels_of settings)%nat as Hl by (unfold levels_of; lia).
  rewrite broker_retry_level by done. unfold _publish.
  destruct (orjson_dumps (envelope job)) as [body|e] eqn:Hb; cbn [of_res mbind Prog_bind prog_bind wp].
  - intros outcome. destruct outcome; cbn [of_res wp]; unfold published, declared in *;
      rewrite !omap_app, Hp, Hd, app_nil_r; cbn [omap list_omap app];
      (split; [|done]); apply Forall_singleton; (split; [done|]); cbn [fst];
      apply backoff_declared; done.
  - unfold published, declared in *. by rewrite !omap_app, Hp.
Qed.
