(* ===== verification/JobSystem.v ===== *)
(** The job system closed: [JobService] over the job store, a broker that
    records what it is given and an agent whose calls have scripted outcomes,
    as [app/main.py] wires them.

    [job_env] interprets the operations of the service; the store behind it is
    either the contract [spec_env] or the Redis code [store_env], and
    [system_refines] carries every run from one to the other.  [drain] follows
    a job through its deliveries. *)
From Stdlib Require Import String.
From stdpp Require Import base numbers strings list sets.
From S2P Require Import Prelude Models Uuid PyVal Effects JobService JobProperties JobRequests RedisStore.

(** How the message was settled. *)
Inductive Settled := Acked | Requeued | Rejected.

Record World (V : Type) := mkWorld {
  w_store : V; w_clock : datetime; w_calls : nat; w_out : list Outgoing; w_settled : list Settled }.
Arguments mkWorld {V} w_store w_clock w_calls w_out w_settled.
Arguments w_store {V} w.
Arguments w_clock {V} w.
Arguments w_calls {V} w.
Arguments w_out {V} w.
Arguments w_settled {V} w.

Definition with_store {V} (v : V) (w : World V) : World V :=
  mkWorld v (w_clock w) (w_calls w) (w_out w) (w_settled w).
Definition called {V} (w : World V) : World V :=
  mkWorld (w_store w) (w_clock w) (S (w_calls w)) (w_out w) (w_settled w).
Definition sent {V} (out : Outgoing) (w : World V) : World V :=
  mkWorld (w_store w) (w_clock w) (w_calls w) (w_out w ++ [out]) (w_settled w).
Definition settled {V} (s : Settled) (w : World V) : World V :=
  mkWorld (w_store w) (w_clock w) (w_calls w) (w_out w) (w_settled w ++ [s]).

Section System.
Context (str_of : PyVal -> string) (orjson_dumps : PyVal -> string).
(** The ids [uuid4] yields, and the outcome of the [n]-th call of the agent. *)
Context (fresh : nat -> UUID) (agent : nat -> Res (list (string * PyVal))).
Context {V : Type} (store_op : forall R, StoreOp R -> V -> Res R * V).

Definition on_store {R} (op : StoreOp R) (w : World V) : Res R * World V :=
  let '(r, v) := store_op R op (w_store w) in (r, with_store v w).

Definition res_map {A B} (f : A -> B) (r : Res A) : Res B :=
  match r with Ok a => Ok (f a) | Raise e => Raise e end.

Definition owner_value (o : option string * bool) : PyVal * bool :=
  (match o.1 with Some id => PStr id | None => PNone end, o.2).

Definition number_text (v : PyVal) : string :=
  match v with PInt n => encode_int n | _ => str_of v end.

Definition job_env : forall R, JobOp R -> World V -> Res R * World V := fun R op w =>
  match op in JobOp R return Res R * World V with
  | SetJobStatus id status => on_store (SetStatus (py_str str_of id) status) w
  | GetJobStatus id => on_store (GetStatus (py_str str_of id)) w
  | SetJobMetadata id metadata => on_store (SetMetadata (py_str str_of id) (orjson_dumps metadata)) w
  | MarkJobTiming id field at_ => on_store (MarkTiming (py_str str_of id) field at_) w
  | SetJobTiming id field value =>
      on_store (SetTiming (py_str str_of id) field (number_text value)) w
  | ClaimIdempotencyKey key id =>
      let '(r, w') := on_store (ClaimKey key (py_str str_of id)) w in (res_map owner_value r, w')
  | ReleaseIdempotencyKey key => on_store (ReleaseKey key) w
  | AcquireConversationLock c token ttl => on_store (AcquireLock c (py_str str_of token) ttl) w
  | ReleaseConversationLock c token => on_store (ReleaseLock c (py_str str_of token)) w
  | BrokerPublish job => (Ok tt, sent (ToQueue job) w)
  | BrokerRetry job level => (Ok tt, sent (ToRetry job level) w)
  | BrokerDeadLetter job => (Ok tt, sent (ToDead job) w)
  | BrokerConsume prefetch => (Ok "ctag1"%string, w)
  | BrokerCancelConsumer tag => (Ok tt, w)
  | RunnerRun _ _ _ => (agent (w_calls w), called w)
  | RunnerResume _ _ _ => (agent (w_calls w), called w)
  | MessageAck => (Ok tt, settled Acked w)
  | MessageNack requeue => (Ok tt, settled (if requeue then Requeued else Rejected) w)
  | Now => (Ok (w_clock w), w)
  | Uuid4 => (Ok (fresh (length (w_out w))), w)
  end.

(** Follow one job: deliver it, and again while the delivery sent it to a
    retry queue, up to [fuel] deliveries. *)
Context (orjson_loads : string -> Res PyVal) (encode : Job -> string)
        (has_runner : bool) (options : WorkerOptions).

Definition deliver (job : Job) (w : World V) : Res unit * World V :=
  run job_env (consume orjson_loads str_of has_runner options (encode job)) w.

Fixpoint drain (fuel : nat) (job : Job) (w : World V) : World V :=
  match fuel with
  | O => w
  | S fuel' =>
      let w' := (deliver job w).2 in
      match skipn (length (w_out w)) (w_out w') with
      | [ToRetry job' _] => drain fuel' job' w'
      | _ => w'
      end
  end.
End System.

(** * One delivery over the store's contract *)

(** Execute the next operation of a program. *)
Ltac run_op :=
  rewrite run_bind, run_await;
  cbn [job_env on_store spec_env store_spec fst snd].

Section Deliver.
Context (str_of : PyVal -> string) (orjson_dumps : PyVal -> string) (fresh : nat -> UUID)
        (agent : nat -> Res (list (string * PyVal))).
Context (orjson_loads : string -> Res PyVal) (encode : Job -> string) (has_runner : bool)
        (options : WorkerOptions).

Notation env := (job_env str_of orjson_dumps fresh agent spec_env).
Notation deliver := (deliver str_of orjson_dumps fresh agent spec_env orjson_loads encode has_runner options).
Implicit Types w : World StoreView.

(** What a call adds to the world. *)
Record After (out : list Outgoing) (settles : list Settled) (calls : nat) w w' : Prop := {
  af_out : w_out w' = w_out w ++ out;
  af_settled : w_settled w' = w_settled w ++ settles;
  af_calls : w_calls w' = calls + w_calls w }.

Definition status_of w (id : string) : option string := v_status (w_store w) id.
Definition lock_holder w (c : string) : option string := v_lock (w_store w) c.

Lemma dead_letter_run job id error w :
  j_id job = PStr id ->
  exists w', run env (_dead_letter job error) w = (Ok tt, w') /\
    After [ToDead (with_error (exn_str error) job)] [Acked] 0 w w' /\
    status_of w' id = Some STATUS_FAILED /\ (forall c, lock_holder w' c = lock_holder w c).
Proof.
  intros Hid. unfold _dead_letter, try_else, try_, _now_ms. cbn [j_id with_error]. rewrite Hid.
  eexists. split; [reflexivity|]. split; [by split|]. split; [|done].
  unfold status_of; cbn. unfold set_at. by rewrite String.eqb_refl.
Qed.

(** The plan of a failed attempt, carried out. *)
Lemma retry_run job id n error w sent status :
  j_id job = PStr id -> j_attempt job = PInt n ->
  retry_plan options job error = Ok (sent, [status]) ->
  exists w', run env (_retry options job error) w = (Ok tt, w') /\
    After sent [Acked] 0 w w' /\
    status_of w' id = Some status /\ (forall c, lock_holder w' c = lock_holder w c).
Proof.
  intros Hid Hn Hplan. unfold _retry, retry_plan in *. rewrite Hn in *. cbn in Hplan.
  cbn [plus_one of_res mbind Prog_bind prog_bind with_attempt j_attempt at_least].
  destruct (n + 1 >=? max_attempts options)%Z; injection Hplan as <- <-.
  - by apply (dead_letter_run (with_attempt (PInt (n + 1)) job) id error w).
  - unfold _delay, try_else, try_. cbn [j_id with_attempt]. rewrite Hid.
    eexists. split; [reflexivity|]. split; [by split|]. split; [|done].
    unfold status_of; cbn. unfold set_at. by rewrite String.eqb_refl.
Qed.

Lemma finish_run job id user_id session_id result w sent status :
  j_id job = PStr id -> finish_plan str_of job result = Ok (sent, [status]) ->
  exists w', run env (_finish str_of job user_id session_id result) w = (Ok tt, w') /\
    After sent [Acked] 0 w w' /\
    status_of w' id = Some status /\ (forall c, lock_holder w' c = lock_holder w c).
Proof.
  intros Hid. unfold _finish, finish_plan. destruct (entry "__interrupt__" result) as [i|].
  - destruct (interrupt_value i) as [value|e]; [|done]. intros [= <- <-].
    cbn [of_res mbind Prog_bind prog_bind]. unfold _now_ms. rewrite Hid.
    eexists. split; [reflexivity|]. split; [split; cbn; by rewrite ?app_nil_r|]. split; [|done].
    unfold status_of; cbn. unfold set_at. by rewrite String.eqb_refl.
  - cbv zeta. assert (sent = [] -> status = STATUS_COMPLETED ->
      exists w', run env (now ← _now_ms; await (SetJobTiming (j_id job) TIMING_FINISHED now);;
          await (SetJobStatus (j_id job) STATUS_COMPLETED);; await MessageAck) w = (Ok tt, w') /\
        After sent [Acked] 0 w w' /\ status_of w' id = Some status /\
        (forall c, lock_holder w' c = lock_holder w c)) as Hdone.
    { intros -> ->. unfold _now_ms. rewrite Hid. eexists. split; [reflexivity|].
      split; [split; cbn; by rewrite ?app_nil_r|]. split; [|done].
      unfold status_of; cbn. unfold set_at. by rewrite String.eqb_refl. }
    destruct (py_eq_str _ _); intros [= <- <-]; [|by apply Hdone].
    set (error := mkExn RuntimeError _). by apply (dead_letter_run job id error w).
Qed.

Lemma retry_plan_shape job e sent statuses :
  retry_plan options job e = Ok (sent, statuses) -> exists status, statuses = [status].
Proof.
  unfold retry_plan. destruct (plus_one _) as [a|]; [|done]. rewrite res_bind_ret. cbv zeta.
  destruct (at_least _ _) as [[]|]; [| |done]; cbn; intros [= <- <-]; eauto.
Qed.

Lemma agent_plan_shape job outcome sent statuses :
  agent_plan str_of options job outcome = Ok (sent, statuses) -> exists status, statuses = [status].
Proof.
  destruct outcome as [result|e]; cbn.
  - unfold finish_plan. destruct (entry "__interrupt__" result).
    + destruct (interrupt_value _); [|done]. intros [= <- <-]. eauto.
    + destruct (py_eq_str _ _); intros [= <- <-]; eauto.
  - destruct (isinstance e NoPendingInputError); [intros [= <- <-]; eauto|apply retry_plan_shape].
Qed.

(** The world when the agent is called. *)
Lemma before_agent job id n request w :
  j_id job = PStr id -> j_attempt job = PInt n -> callable request ->
  exists w1, run env (run_agent str_of options job request) w =
    run env (match agent (w_calls w) with
             | Ok result => _finish str_of job (get request "user_id") (get request "session_id") result
             | Raise error => if isinstance error NoPendingInputError then _dead_letter job error
                              else _retry options job error
             end) w1 /\
    After [] [] 1 w w1 /\ (forall c, lock_holder w1 c = lock_holder w c).
Proof.
  intros Hid Hn Hc. unfold run_agent. cbv zeta. rewrite Hid, Hn.
  do 3 run_op. cbn [of_res plus_one].
  rewrite run_bind. cbn [run]. run_op. unfold try_else. rewrite run_then.
  assert (forall w0, run env (call_agent request) w0 = (agent (w_calls w0), called w0)) as Hcall.
  { intros w0. unfold call_agent, callable, has_key, item in *. cbv zeta.
    destruct (entry "resume" request); [|destruct (entry "message" request); [|by destruct Hc]];
      cbn; by destruct (agent (w_calls w0)). }
  rewrite Hcall. cbn [w_calls with_store].
  eexists. split; [by destruct (agent (w_calls w))|]. split; [split; cbn; by rewrite ?app_nil_r|].
  intros c. unfold lock_holder. cbn. by destruct (v_timing _ _ _).
Qed.

(** What becomes of a job whose agent call has this outcome. *)
Definition job_plan (job : Job) (outcome : Res (list (string * PyVal))) :
    Res (list Outgoing * list string) :=
  match agent_plan str_of options job outcome with
  | Ok plan => Ok plan
  | Raise e => retry_plan options job e
  end.

Lemma job_plan_shape job outcome sent statuses :
  job_plan job outcome = Ok (sent, statuses) -> exists status, statuses = [status].
Proof.
  unfold job_plan. destruct (agent_plan _ _ _ _) as [[a b]|e] eqn:E.
  - intros [= <- <-]. by eapply agent_plan_shape.
  - apply retry_plan_shape.
Qed.

(** A finished agent run that cannot be recorded raises. *)
Lemma finish_raises job user_id session_id result w e :
  finish_plan str_of job result = Raise e ->
  run env (_finish str_of job user_id session_id result) w = (Raise e, w).
Proof.
  unfold finish_plan, _finish. destruct (entry "__interrupt__" result) as [i|].
  - destruct (interrupt_value i); [done|]. by intros [= <-].
  - by destruct (py_eq_str _ _).
Qed.

Lemma after_trans out1 out2 s1 s2 n1 n2 w1 w2 w3 :
  After out1 s1 n1 w1 w2 -> After out2 s2 n2 w2 w3 ->
  After (out1 ++ out2) (s1 ++ s2) (n1 + n2) w1 w3.
Proof. intros [H1 H2 H3] [H1' H2' H3']. split; rewrite ?app_assoc; [congruence..|lia]. Qed.

Lemma run_agent_run job id n request w :
  j_id job = PStr id -> j_attempt job = PInt n -> callable request ->
  (exists sent status w', agent_plan str_of options job (agent (w_calls w)) = Ok (sent, [status]) /\
     run env (run_agent str_of options job request) w = (Ok tt, w') /\
     After sent [Acked] 1 w w' /\ status_of w' id = Some status /\
     (forall c, lock_holder w' c = lock_holder w c)) \/
  (exists e w', agent_plan str_of options job (agent (w_calls w)) = Raise e /\
     run env (run_agent str_of options job request) w = (Raise e, w') /\
     After [] [] 1 w w' /\ (forall c, lock_holder w' c = lock_holder w c)).
Proof.
  intros Hid Hn Hc. destruct (before_agent job id n request w Hid Hn Hc) as (w1 & -> & Ha & Hl).
  destruct (agent_plan str_of options job (agent (w_calls w))) as [[sent sts]|e] eqn:Hplan.
  - destruct (agent_plan_shape _ _ _ _ Hplan) as [status ->]. left. exists sent, status.
    assert (exists w', run env (match agent (w_calls w) with
             | Ok result => _finish str_of job (get request "user_id") (get request "session_id") result
             | Raise error => if isinstance error NoPendingInputError then _dead_letter job error
                              else _retry options job error
             end) w1 = (Ok tt, w') /\ After sent [Acked] 0 w1 w' /\ status_of w' id = Some status /\
             (forall c, lock_holder w' c = lock_holder w1 c)) as (w' & Hr & Ha' & Hs & Hl').
    { destruct (agent (w_calls w)) as [result|error]; cbn in Hplan.
      - by eapply finish_run.
      - destruct (isinstance error NoPendingInputError); [|by eapply retry_run].
        injection Hplan as <- <-. by apply dead_letter_run. }
    exists w'. repeat split; try done; [| | |by intros c; rewrite Hl', Hl];
      apply (after_trans _ _ _ _ _ _ _ _ _ Ha Ha').
  - right. exists e. destruct (agent (w_calls w)) as [result|error]; cbn in Hplan.
    + exists w1. rewrite (finish_raises _ _ _ _ _ _ Hplan). done.
    + destruct (isinstance error NoPendingInputError); [done|].
      unfold retry_plan in Hplan. rewrite Hn in Hplan. done.
Qed.

Definition unfinished w (id : string) : Prop :=
  match status_of w id with Some s => s ∉ TERMINAL_STATUSES | None => True end.

Lemma deliver_run job id n request w sent status :
  j_id job = PStr id -> j_attempt job = PInt n ->
  accept_request has_runner (j_payload job) = Ok request ->
  decode orjson_loads (encode job) = Ok job ->
  unfinished w id -> lock_holder w (conversation_of str_of request) = None ->
  job_plan job (agent (w_calls w)) = Ok (sent, [status]) ->
  exists w', deliver job w = (Ok tt, w') /\ After sent [Acked] 1 w w' /\
    status_of w' id = Some status /\ lock_holder w' (conversation_of str_of request) = None.
Proof.
  intros Hid Hn Hacc Hdec Hun Hfree Hplan.
  pose proof (accept_request_Ok _ _ _ Hacc) as [[_ Hcall]%validated_callable _].
  set (c := conversation_of str_of request) in *.
  unfold JobSystem.deliver, consume. rewrite Hdec. unfold try_ at 1. rewrite run_then.
  unfold _process. run_op. rewrite Hid. cbn [py_str].
  assert (match v_status (w_store w) id with Some s => s | None => EmptyString end
          ∉ TERMINAL_STATUSES) as Hnt.
  { unfold unfinished, status_of in Hun. destruct (v_status (w_store w) id); [done|]. set_solver. }
  rewrite bool_decide_eq_false_2 by done. rewrite Hacc. cbv zeta. fold c. run_op.
  cbn [w_store with_store]. unfold lock_holder in Hfree. rewrite Hfree. cbn [fst snd negb].
  unfold finally_. rewrite run_then.
  set (w1 := with_store _ _).
  assert (w_calls w1 = w_calls w) as Hc1 by done.
  assert (After [] [] 0 w w1) as Ha1 by (split; cbn; by rewrite ?app_nil_r).
  assert (lock_holder w1 c = Some id) as Hl1 by (unfold lock_holder, w1; cbn; unfold set_at; by rewrite String.eqb_refl).
  (* releasing the lock *)
  assert (forall w2 r, lock_holder w2 c = Some id ->
    exists w3, run env (try_ (await (ReleaseConversationLock c (PStr id))) (fun _ => mret tt) ≫=
      (fun _ => of_res (A := unit) r)) w2 = (r, w3) /\ After [] [] 0 w2 w3 /\
      status_of w3 id = status_of w2 id /\ lock_holder w3 c = None) as Hrelease.
  { intros w2 r Hl2. rewrite run_bind. unfold try_. rewrite run_then, run_await.
    unfold lock_holder in Hl2. cbn. rewrite Hl2, bool_decide_eq_true_2 by done. cbn.
    eexists. split; [by destruct r|]. split; [split; cbn; by rewrite ?app_nil_r|]. split; [done|].
    unfold lock_holder; cbn. unfold set_at. by rewrite String.eqb_refl. }
  destruct (run_agent_run job id n request w1 Hid Hn Hcall)
    as [(sent' & status' & w2 & Hp & Hr & Ha2 & Hs2 & Hl2)|(e & w2 & Hp & Hr & Ha2 & Hl2)];
    rewrite Hc1 in Hp; unfold job_plan in Hplan; rewrite Hp in Hplan; rewrite Hr;
    (destruct (Hrelease w2 (run env (run_agent str_of options job request) w1).1) as (w3 & Hrel & Ha3 & Hs3 & Hl3);
      [by rewrite Hl2|rewrite Hr in Hrel; cbn [fst] in Hrel; rewrite Hrel]).
  - injection Hplan as -> ->. exists w3. split; [done|]. split; [|by rewrite Hs3].
    pose proof (after_trans _ _ _ _ _ _ _ _ _ Ha1 (after_trans _ _ _ _ _ _ _ _ _ Ha2 Ha3)) as Ha.
    by rewrite !app_nil_r in Ha.
  - destruct (retry_run job id n e w3 sent status Hid Hn Hplan) as (w4 & -> & Ha4 & Hs4 & Hl4).
    exists w4. split; [done|]. split; [|by rewrite Hl4].
    exact (after_trans _ _ _ _ _ _ _ _ _ Ha1 (after_trans _ _ _ _ _ _ _ _ _ Ha2
      (after_trans _ _ _ _ _ _ _ _ _ Ha3 Ha4))).
Qed.

(** * The life of a job *)

Notation drain := (drain str_of orjson_dumps fresh agent spec_env orjson_loads encode has_runner options).

Context (job : Job) (id : string) (request : list (string * PyVal)).

(** The job can be delivered, its lock is free and it has no final status. *)
Record deliverable w : Prop := {
  dl_id : j_id job = PStr id;
  dl_request : accept_request has_runner (j_payload job) = Ok request;
  dl_decode : forall n, (0 <= n)%Z ->
    decode orjson_loads (encode (with_attempt (PInt n) job)) = Ok (with_attempt (PInt n) job);
  dl_unfinished : unfinished w id;
  dl_free : lock_holder w (conversation_of str_of request) = None }.

(** An error the service retries. *)
Definition transient (outcome : Res (list (string * PyVal))) : Prop :=
  exists e, outcome = Raise e /\ isinstance e NoPendingInputError = false.

Lemma drain_step n w fuel sent status :
  (0 <= n)%Z -> deliverable w ->
  job_plan (with_attempt (PInt n) job) (agent (w_calls w)) = Ok (sent, [status]) ->
  exists w', After sent [Acked] 1 w w' /\ status_of w' id = Some status /\
    lock_holder w' (conversation_of str_of request) = None /\
    drain (S fuel) (with_attempt (PInt n) job) w =
      match sent with [ToRetry job' _] => drain fuel job' w' | _ => w' end.
Proof.
  intros Hn [Hid Hreq Hdec Hun Hfree] Hplan.
  destruct (deliver_run (with_attempt (PInt n) job) id n request w sent status) as (w' & Hr & Ha & Hs & Hl);
    try done; [by apply Hdec|].
  exists w'. repeat split; try done; [apply Ha..|].
  cbn [JobSystem.drain]. rewrite Hr. cbn [snd]. destruct Ha as [-> _ _]. by rewrite drop_app_length.
Qed.

Lemma transient_plan n outcome :
  (n + 1 < max_attempts options)%Z -> transient outcome ->
  job_plan (with_attempt (PInt n) job) outcome =
    Ok ([ToRetry (with_attempt (PInt (n + 1)) job) (PInt (n + 1))], [STATUS_RETRYING]).
Proof.
  intros Hn (e & -> & He). unfold job_plan, agent_plan. rewrite He. unfold retry_plan. cbn.
  rewrite Z.geb_leb, (proj2 (Z.leb_gt _ _)) by lia. done.
Qed.

Lemma exhausted_plan n e :
  (max_attempts options <= n + 1)%Z -> isinstance e NoPendingInputError = false ->
  job_plan (with_attempt (PInt n) job) (Raise e) =
    Ok ([ToDead (with_error (exn_str e) (with_attempt (PInt (n + 1)) job))], [STATUS_FAILED]).
Proof.
  intros Hn He. unfold job_plan, agent_plan. rewrite He. unfold retry_plan. cbn.
  rewrite Z.geb_leb, (proj2 (Z.leb_le _ _)) by lia. done.
Qed.

(** After [k] transient failures, short of the last attempt, the job is due
    again with [k] more attempts on its envelope and the agent was called [k]
    times. *)
Lemma drain_transient k n w fuel :
  (0 <= n)%Z -> (n + Z.of_nat k < max_attempts options)%Z -> deliverable w ->
  (forall i, (i < k)%nat -> transient (agent (i + w_calls w))) ->
  exists w', drain (k + fuel) (with_attempt (PInt n) job) w =
      drain fuel (with_attempt (PInt (n + Z.of_nat k)) job) w' /\
    deliverable w' /\ w_calls w' = (k + w_calls w)%nat /\
    w_settled w' = w_settled w ++ replicate k Acked /\
    (forall j, ToDead j ∈ w_out w' -> ToDead j ∈ w_out w).
Proof.
  revert n w. induction k as [|k IH]; intros n w Hn Hk Hdl Htr.
  { exists w. rewrite Z.add_0_r, app_nil_r. done. }
  destruct (drain_step n w (k + fuel) _ _ Hn Hdl (transient_plan n _ ltac:(lia) (Htr 0%nat ltac:(lia))))
    as (w1 & [Ho Hse Hca] & Hs & Hl & Hd).
  assert (deliverable w1) as Hdl1.
  { destruct Hdl. split; try done. unfold unfinished. rewrite Hs. set_solver. }
  destruct (IH (n + 1)%Z w1) as (w2 & Hd2 & Hdl2 & Hca2 & Hse2 & Ho2); [lia|lia|done| |].
  { intros i Hi. rewrite Hca. replace (i + (1 + w_calls w))%nat with (S i + w_calls w)%nat by lia.
    apply Htr. lia. }
  exists w2. change (S k + fuel)%nat with (S (k + fuel)). rewrite Hd.
  replace (n + Z.of_nat (S k))%Z with (n + 1 + Z.of_nat k)%Z by lia.
  split; [exact Hd2|]. split; [done|]. split; [lia|]. split.
  - rewrite Hse2, Hse, <- app_assoc. done.
  - intros j Hj. apply Ho2 in Hj. rewrite Ho in Hj. set_solver.
Qed.

(** The last attempt fails too: the job is dead-lettered with its error. *)
Lemma drain_exhausted k n w fuel :
  (0 <= n)%Z -> (n + Z.of_nat k + 1 = max_attempts options)%Z -> deliverable w ->
  (forall i, (i <= k)%nat -> transient (agent (i + w_calls w))) ->
  exists e w', agent (k + w_calls w) = Raise e /\
    drain (k + S fuel) (with_attempt (PInt n) job) w = w' /\
    status_of w' id = Some STATUS_FAILED /\ w_calls w' = S (k + w_calls w) /\
    w_settled w' = w_settled w ++ replicate (S k) Acked /\
    last (w_out w') =
      Some (ToDead (with_error (exn_str e) (with_attempt (PInt (max_attempts options)) job))).
Proof.
  intros Hn Hk Hdl Htr.
  destruct (drain_transient k n w (S fuel)) as (w1 & Hd & Hdl1 & Hca & Hse & _); [lia..|done| |].
  { intros i Hi. apply Htr. lia. }
  destruct (Htr k (le_n k)) as (e & Hag & He).
  destruct (drain_step (n + Z.of_nat k) w1 fuel _ _ ltac:(lia) Hdl1
    ltac:(rewrite Hca, Hag; apply exhausted_plan; [lia|done])) as (w2 & [Ho2 Hse2 Hca2] & Hs2 & _ & Hd2).
  exists e, w2. rewrite Hd, Hd2. split; [done|]. split; [done|]. split; [done|].
  split; [rewrite Hca2, Hca; lia|]. split.
  - rewrite Hse2, Hse, <- app_assoc, replicate_S_end. done.
  - rewrite Ho2, last_snoc, Hk. done.
Qed.

(** The agent recovers before the attempts run out. *)
Lemma drain_recovers k n w fuel result sent status :
  (0 <= n)%Z -> (n + Z.of_nat k < max_attempts options)%Z -> deliverable w ->
  (forall i, (i < k)%nat -> transient (agent (i + w_calls w))) ->
  agent (k + w_calls w) = Ok result ->
  finish_plan str_of (with_attempt (PInt (n + Z.of_nat k)) job) result = Ok (sent, [status]) ->
  exists w', drain (k + S fuel) (with_attempt (PInt n) job) w = w' /\
    status_of w' id = Some status /\ w_calls w' = S (k + w_calls w) /\
    w_settled w' = w_settled w ++ replicate (S k) Acked /\
    (forall j, ToDead j ∈ w_out w' -> ToDead j ∈ w_out w \/ ToDead j ∈ sent).
Proof.
  intros Hn Hk Hdl Htr Hag Hplan.
  destruct (drain_transient k n w (S fuel)) as (w1 & Hd & Hdl1 & Hca & Hse & Ho); [lia..|done|done|].
  assert (job_plan (with_attempt (PInt (n + Z.of_nat k)) job) (agent (w_calls w1)) = Ok (sent, [status]))
    as Hjp by (unfold job_plan; rewrite Hca, Hag; cbn [agent_plan]; by rewrite Hplan).
  destruct (drain_step (n + Z.of_nat k) w1 fuel _ _ ltac:(lia) Hdl1 Hjp)
    as (w2 & [Ho2 Hse2 Hca2] & Hs2 & _ & Hd2).
  exists w2. rewrite Hd, Hd2. split.
  { unfold finish_plan in Hplan. destruct (entry "__interrupt__" result) as [i|];
      [destruct (interrupt_value i); [|done]|destruct (py_eq_str _ _)]; by injection Hplan as <- <-. }
  split; [done|]. split; [rewrite Hca2, Hca; lia|]. split.
  - rewrite Hse2, Hse, <- app_assoc, replicate_S_end. done.
  - intros j. rewrite Ho2, elem_of_app. naive_solver.
Qed.
End Deliver.

(** * From the contract to Redis *)

Section Refinement.
Context {Server : Type} `{!Redis Server}.
Context (str_of : PyVal -> string) (orjson_dumps : PyVal -> string) (fresh : nat -> UUID)
        (agent : nat -> Res (list (string * PyVal))).
Context (orjson_loads : string -> Res PyVal) (encode : Job -> string) (has_runner : bool)
        (options : WorkerOptions) (Httl : (0 < lock_ttl_ms options)%Z).

(** The Redis world and the abstract world agree. *)
Record related (w : World Server) (v : World StoreView) : Prop := {
  rel_typed : typed (w_store w);
  rel_store : view (w_store w) ≡ w_store v;
  rel_clock : w_clock w = w_clock v;
  rel_calls : w_calls w = w_calls v;
  rel_out : w_out w = w_out v;
  rel_settled : w_settled w = w_settled v }.

Notation redis_jobs := (job_env str_of orjson_dumps fresh agent store_env).
Notation spec_jobs := (job_env str_of orjson_dumps fresh agent spec_env).

(** The lifetimes the service passes are positive. *)
Definition positive_ttl R (op : JobOp R) : Prop :=
  match op with AcquireConversationLock _ _ ttl => (0 < ttl)%Z | _ => True end.

Lemma on_store_related {R} (op : StoreOp R) w v :
  ttl_ok op -> related w v ->
  (on_store store_env op w).1 = (on_store spec_env op v).1 /\
  related (on_store store_env op w).2 (on_store spec_env op v).2.
Proof.
  intros Ht [Hty Hst Hcl Hca Ho Hse]. unfold on_store.
  destruct (store_step op _ _ Hty Hst Ht) as (s' & -> & Hty' & Hst'). cbn. split; [done|].
  by split.
Qed.

Lemma job_env_related R (op : JobOp R) w v :
  positive_ttl R op -> related w v ->
  (redis_jobs R op w).1 = (spec_jobs R op v).1 /\ related (redis_jobs R op w).2 (spec_jobs R op v).2.
Proof.
  intros Hp Hr. destruct op; cbn [job_env]; try (by apply on_store_related);
    try (destruct Hr as [? ? Hcl Hca Ho Hse]; cbn; rewrite ?Hcl, ?Hca, ?Ho; split; [done|];
         by split; cbn; rewrite ?Hcl, ?Hca, ?Ho, ?Hse).
  destruct (on_store_related (ClaimKey key (py_str str_of job_id)) w v I Hr) as [Heq Hrel].
  destruct (on_store store_env _ w), (on_store spec_env _ v). cbn in *. by subst.
Qed.

Lemma run_related {A} (p : JobM A) w v :
  asks positive_ttl p -> related w v ->
  (run redis_jobs p w).1 = (run spec_jobs p v).1 /\ related (run redis_jobs p w).2 (run spec_jobs p v).2.
Proof.
  revert w v. induction p as [a|e|R o k IH]; intros w v Hp Hr; cbn; [done..|].
  destruct Hp as [Ho Hk]. destruct (job_env_related R o w v Ho Hr) as [Heq Hrel].
  destruct (redis_jobs R o w) as [r w'], (spec_jobs R o v) as [r' v']. cbn in *. subst r'.
  by apply IH.
Qed.

Lemma consume_ttl body : asks positive_ttl (consume orjson_loads str_of has_runner options body).
Proof using Httl.
  assert (forall job level, asks positive_ttl (_delay job level)) as Hdelay
    by (intros; unfold _delay; repeat asks_step; exact I).
  assert (forall job error, asks positive_ttl (_dead_letter job error)) as Hdead
    by (intros; unfold _dead_letter, _now_ms; repeat asks_step; exact I).
  assert (forall job error, asks positive_ttl (_retry options job error)) as Hretry
    by (intros; unfold _retry; repeat asks_step; auto; exact I).
  assert (forall job u s result, asks positive_ttl (_finish str_of job u s result)) as Hfinish
    by (intros; unfold _finish, _now_ms; cbv zeta; repeat asks_step; auto; exact I).
  assert (forall request, asks positive_ttl (call_agent request)) as Hcall
    by (intros; unfold call_agent; cbv zeta; repeat asks_step; exact I).
  assert (forall job request, asks positive_ttl (run_agent str_of options job request)) as Hrun
    by (intros; unfold run_agent; cbv zeta; repeat asks_step; auto; exact I).
  unfold consume, _process. repeat (cbv zeta; asks_step); auto; exact I.
Qed.

Notation drain_on store :=
  (drain str_of orjson_dumps fresh agent store orjson_loads encode has_runner options).

Lemma drain_related fuel job w v :
  related w v -> related (drain_on store_env fuel job w) (drain_on spec_env fuel job v).
Proof using Httl.
  revert job w v. induction fuel as [|fuel IH]; intros job w v Hr; cbn [drain]; [done|].
  destruct (run_related _ w v (consume_ttl (encode job)) Hr) as [_ Hr'].
  unfold deliver. rewrite (rel_out _ _ Hr), (rel_out _ _ Hr').
  repeat case_match; try done. by apply IH.
Qed.

(** The contract's view of a Redis world. *)
Definition abstract (w : World Server) : World StoreView :=
  mkWorld (view (w_store w)) (w_clock w) (w_calls w) (w_out w) (w_settled w).

Lemma abstract_related w : typed (w_store w) -> related w (abstract w).
Proof. by split. Qed.

Context (job : Job) (id : string) (request : list (string * PyVal)).
Notation ready w := (deliverable str_of orjson_loads encode has_runner job id request (abstract w)).

(** C16: a job whose agent keeps failing is attempted exactly [max_attempts]
    times and then ends failed, in the dead queue, carrying its last error and
    its attempt count; every delivery is acked.  The deliveries run against
    the Redis commands of the store. *)
Theorem failing_job_is_dead_lettered n w fuel :
  typed (w_store w) -> ready w -> (0 <= n < max_attempts options)%Z ->
  let attempts := Z.to_nat (max_attempts options - n) in
  (forall i, (i < attempts)%nat -> transient (agent (i + w_calls w))) ->
  (attempts <= fuel)%nat ->
  let w' := drain_on store_env fuel (with_attempt (PInt n) job) w in
  v_status (view (w_store w')) id = Some STATUS_FAILED /\
  w_calls w' = (attempts + w_calls w)%nat /\
  w_settled w' = w_settled w ++ replicate attempts Acked /\
  exists e, agent (attempts - 1 + w_calls w) = Raise e /\
    last (w_out w') =
      Some (ToDead (with_error (exn_str e) (with_attempt (PInt (max_attempts options)) job))).
Proof using Httl.
  intros Hty Hdl Hn attempts Htr Hf. cbv zeta.
  pose proof (drain_related fuel (with_attempt (PInt n) job) _ _ (abstract_related w Hty)) as Hr.
  destruct (drain_exhausted str_of orjson_dumps fresh agent orjson_loads encode has_runner options job id request
    (attempts - 1) n (abstract w) (fuel - attempts)) as (e & v' & Hag & Hd & Hs & Hc & Hse & Ho);
    [lia|lia|done|intros; apply Htr; lia|].
  replace (attempts - 1 + S (fuel - attempts))%nat with fuel in Hd by lia.
  rewrite Hd in Hr. destruct Hr as [_ Hst _ Hca Hout Hset]. rewrite Hca, Hout, Hset, Hc, Hse, Ho.
  replace (S (attempts - 1)) with attempts by lia.
  split; [destruct Hst as [-> _]; exact Hs|]. split; [cbn; lia|]. split; [done|].
  exists e. done.
Qed.

(** C21: a job whose agent recovers ends with the result's status: after [k]
    failed attempts, fewer than [max_attempts], the first result decides:
    completed, waiting for confirmation or failed; the agent is called
    [k + 1] times and only a failed result reaches the dead queue. *)
Theorem recovering_job_finishes n k w fuel result sent status :
  typed (w_store w) -> ready w ->
  (0 <= n)%Z -> (n + Z.of_nat k < max_attempts options)%Z ->
  (forall i, (i < k)%nat -> transient (agent (i + w_calls w))) ->
  agent (k + w_calls w) = Ok result ->
  finish_plan str_of (with_attempt (PInt (n + Z.of_nat k)) job) result = Ok (sent, [status]) ->
  (k < fuel)%nat ->
  let w' := drain_on store_env fuel (with_attempt (PInt n) job) w in
  v_status (view (w_store w')) id = Some status /\
  w_calls w' = S (k + w_calls w) /\
  w_settled w' = w_settled w ++ replicate (S k) Acked /\
  (forall j, ToDead j ∈ w_out w' -> ToDead j ∈ w_out w \/ ToDead j ∈ sent).
Proof using Httl.
  intros Hty Hdl Hn Hk Htr Hag Hplan Hf. cbv zeta.
  pose proof (drain_related fuel (with_attempt (PInt n) job) _ _ (abstract_related w Hty)) as Hr.
  destruct (drain_recovers str_of orjson_dumps fresh agent orjson_loads encode has_runner options job id request
    k n (abstract w) (fuel - S k) result sent status) as (v' & Hd & Hs & Hc & Hse & Ho);
    [done..|].
  replace (k + S (fuel - S k))%nat with fuel in Hd by lia.
  rewrite Hd in Hr. destruct Hr as [_ Hst _ Hca Hout Hset]. rewrite Hca, Hout, Hset, Hc, Hse.
  split; [destruct Hst as [-> _]; exact Hs|]. done.
Qed.
End Refinement.
