(* ===== verification/WorkerPool.v ===== *)
(** Any number of workers and endpoints on one store: the operations of
    [jobs/service.py] interleaved.

    A [Task] is a delivery or a publication under way, in any worker of any
    replica.  [step] lets one of them perform its next operation, which the
    store serves as [store_spec] says, or whose failure leaves open whether it
    was served; time passes; a lock past its lifetime is gone; a task may
    vanish with its process; the broker delivers any message at any time, the
    same one again while it is still being processed included.  Acquiring and
    releasing a lock are one command each, so the contract of the store is
    atomic for them ([RedisStore]). *)
From Stdlib Require Import String.
From stdpp Require Import base numbers strings list relations.
From S2P Require Import Prelude Models Uuid PyVal Effects JobService RedisStore JobSystem.
Local Open Scope Z_scope.

(** A conversation lock a task was granted: until when it lives. *)
Record Hold := mkHold { h_conversation : string; h_token : string; h_until : Z }.
Definition hold_key (h : Hold) : string * string := (h_conversation h, h_token h).

(** What a task ends with. *)
Inductive Ending := Delivered | Published (job_id : PyVal) | Duplicate (job_id : PyVal).

(** A task: the idempotency key of its request, the code still to run, the lock
    it was granted and the key it has claimed. *)
Record Task := mkTask {
  t_key : option string; t_code : JobM Ending; t_hold : option Hold; t_claim : option string }.

(** The clock counts milliseconds; [deadline] is when a lock expires. *)
Record Cluster := mkCluster {
  clock : Z; store : StoreView; deadline : string -> Z; tasks : list Task }.

(** The store as it is now: locks past their lifetime are gone. *)
Definition current (s : Cluster) : StoreView :=
  mkStoreView (v_status (store s)) (v_metadata (store s)) (v_timing (store s)) (v_owner (store s))
    (fun c => if clock s <? deadline s c then v_lock (store s) c else None).

Definition idle (now : Z) (v : StoreView) (d : string -> Z) : Cluster := mkCluster now v d [].
Definition put_task (i : nat) (t : Task) (s : Cluster) : Cluster :=
  mkCluster (clock s) (store s) (deadline s) (<[i := t]> (tasks s)).
Definition add_task (key : option string) (code : JobM Ending) (s : Cluster) : Cluster :=
  mkCluster (clock s) (store s) (deadline s) (tasks s ++ [mkTask key code None None]).
Definition tick (d : Z) (s : Cluster) : Cluster :=
  mkCluster (clock s + d) (store s) (deadline s) (tasks s).

Section Pool.
Context (orjson_loads : string -> Res PyVal) (str_of orjson_dumps : PyVal -> string).
Context (has_runner : bool) (options : WorkerOptions).
Notation text := (py_str str_of).

(** What the store answers and becomes; [None] for the other operations. *)
Definition served {R} (o : JobOp R) (v : StoreView) : option (Res R * StoreView) :=
  match o in JobOp R return option (Res R * StoreView) with
  | SetJobStatus id status => Some (spec_env _ (SetStatus (text id) status) v)
  | GetJobStatus id => Some (spec_env _ (GetStatus (text id)) v)
  | SetJobMetadata id metadata => Some (spec_env _ (SetMetadata (text id) (orjson_dumps metadata)) v)
  | MarkJobTiming id field at_ => Some (spec_env _ (MarkTiming (text id) field at_) v)
  | SetJobTiming id field value => Some (spec_env _ (SetTiming (text id) field (number_text str_of value)) v)
  | ClaimIdempotencyKey key id =>
      let '(r, v') := spec_env _ (ClaimKey key (text id)) v in Some (res_map owner_value r, v')
  | ReleaseIdempotencyKey key => Some (spec_env _ (ReleaseKey key) v)
  | AcquireConversationLock c token ttl =>
      if ttl <=? 0 then Some (Raise invalid_expire, v) else Some (spec_env _ (AcquireLock c (text token) ttl) v)
  | ReleaseConversationLock c token => Some (spec_env _ (ReleaseLock c (text token)) v)
  | _ => None
  end.

(** What the worker on its own sees ([JobSystem]). *)
Lemma served_job_env fresh agent {R} (o : JobOp R) (w : World StoreView) r v' :
  match o with AcquireConversationLock _ _ ttl => 0 < ttl | _ => True end ->
  served o (w_store w) = Some (r, v') ->
  job_env str_of orjson_dumps fresh agent spec_env R o w = (r, with_store v' w).
Proof.
  destruct o; cbn [served job_env]; unfold on_store; try done;
    [..|intros Httl; rewrite (proj2 (Z.leb_gt _ _) Httl)|];
    try (destruct (spec_env _ _ (w_store w)) as [r' v'']; repeat intros [= <- <-] || intros ?; done).
Qed.

(** [answered]: as the contract says; [unheard]: served, but the reply is
    lost; [unserved]: lost on the way; [elsewhere]: not an operation of the
    store, its outcome is up to the broker, the agent or the clock. *)
Inductive answers {R} (o : JobOp R) (v : StoreView) : Res R -> StoreView -> Prop :=
  | answered r v' : served o v = Some (r, v') -> answers o v r v'
  | unheard r v' e : served o v = Some (r, v') -> answers o v (Raise e) v'
  | unserved r v' e : served o v = Some (r, v') -> answers o v (Raise e) v
  | elsewhere r : served o v = None -> answers o v r v.

(** The lifetime of a lock begins when it is granted. *)
Definition deadline_after {R} (o : JobOp R) (s : Cluster) : string -> Z :=
  match o with
  | AcquireConversationLock c _ ttl =>
      match v_lock (current s) c with
      | None => set_at c (clock s + ttl) (deadline s)
      | Some _ => deadline s
      end
  | _ => deadline s
  end.

Definition hold_after {R} (o : JobOp R) (now : Z) (h : option Hold) : Res R -> option Hold :=
  match o in JobOp R return Res R -> option Hold with
  | AcquireConversationLock c token ttl => fun r =>
      match r with Ok true => Some (mkHold c (text token) (now + ttl)) | _ => h end
  | ReleaseConversationLock _ _ => fun _ => None
  | _ => fun _ => h
  end.

Definition claim_after {R} (o : JobOp R) (claim : option string) : Res R -> option string :=
  match o in JobOp R return Res R -> option string with
  | ClaimIdempotencyKey key _ => fun r => match r with Ok (_, true) => Some key | _ => claim end
  | ReleaseIdempotencyKey _ => fun _ => None
  | _ => fun _ => claim
  end.

Definition performed {R} (i : nat) (key : option string) (o : JobOp R) (k : Res R -> JobM Ending)
    (h : option Hold) (claim : option string) (r : Res R) (v' : StoreView) (s : Cluster) : Cluster :=
  put_task i (mkTask key (k r) (hold_after o (clock s) h r) (claim_after o claim r))
    (mkCluster (clock s) v' (deadline_after o s) (tasks s)).

Definition delivery (body : string) : JobM Ending :=
  consume orjson_loads str_of has_runner options body;; mret Delivered.
Definition publication (payload : PyVal) (key : option string) : JobM Ending :=
  '(job_id, duplicate) ← publish payload key;
  mret (if duplicate : bool then Duplicate job_id else Published job_id).

Inductive step (s : Cluster) : Cluster -> Prop :=
  | step_perform {R} i key (o : JobOp R) k h claim r v' :
      tasks s !! i = Some (mkTask key (Await o k) h claim) -> answers o (current s) r v' ->
      step s (performed i key o k h claim r v' s)
  | step_vanish i t : tasks s !! i = Some t ->
      step s (put_task i (mkTask (t_key t) (throw InfraError EmptyString) None (t_claim t)) s)
  | step_deliver body : step s (add_task None (delivery body) s)
  | step_publish payload key : step s (add_task key (publication payload key) s)
  | step_tick d : 0 <= d -> step s (tick d s).

(** * Who is in the agent, and who is published *)

Definition thread_of (user_id session_id : PyVal) : string := text user_id +:+ ":" +:+ text session_id.

(** The conversation whose agent the code is waiting for. *)
Definition in_agent (code : JobM Ending) : option string :=
  match code with
  | Await (RunnerRun user_id session_id _) _ => Some (thread_of user_id session_id)
  | Await (RunnerResume user_id session_id _) _ => Some (thread_of user_id session_id)
  | _ => None
  end.

Definition working (s : Cluster) (i : nat) : option string := t ← tasks s !! i; in_agent (t_code t).

Definition overstayed (s : Cluster) (h : Hold) : Prop := h_until h <= clock s.
Definition holding (s : Cluster) (i : nat) (h : Hold) : Prop :=
  exists t, tasks s !! i = Some t /\ t_hold t = Some h.
Definition claiming (s : Cluster) (i : nat) (key : string) : Prop :=
  exists t, tasks s !! i = Some t /\ t_claim t = Some key.

(** A request with [key] that queues its job, or is answered that it did. *)
Definition queues (s : Cluster) (i : nat) (key : string) : Prop :=
  exists t, tasks s !! i = Some t /\ t_key t = Some key /\
    match t_code t with
    | Await (BrokerPublish _) _ | Ret (Published _) => True
    | _ => False
    end.

#[export] Instance overstayed_dec s h : Decision (overstayed s h).
Proof. unfold overstayed. apply _. Defined.

(** A job of the thread is under way twice, and one of its two deliveries has
    outlived its lock. *)
Definition twin_deliveries (thread : string) (s : Cluster) : Prop := exists i j h h',
  holding s i h /\ holding s j h' /\ hold_key h = hold_key h' /\ h_conversation h = thread /\
  i <> j /\ overstayed s h.

Definition hold_at (s : Cluster) (i : nat) : option Hold := t ← tasks s !! i; t_hold t.
Lemma hold_at_holding s i h : hold_at s i = Some h <-> holding s i h.
Proof. unfold hold_at, holding. rewrite bind_Some. naive_solver. Qed.

Definition twins_at (thread : string) (s : Cluster) (i j : nat) : bool :=
  match hold_at s i, hold_at s j with
  | Some h, Some h' => bool_decide (hold_key h = hold_key h' /\ h_conversation h = thread /\ i <> j /\ overstayed s h)
  | _, _ => false
  end.
Definition twins (thread : string) (s : Cluster) : bool :=
  let all := seq 0 (length (tasks s)) in existsb (fun i => existsb (twins_at thread s i) all) all.

Lemma twins_spec thread s : twins thread s = true <-> twin_deliveries thread s.
Proof.
  assert (forall i h, hold_at s i = Some h -> In i (seq 0 (length (tasks s)))) as Hin.
  { intros i h (t & Hi & _)%hold_at_holding. apply lookup_lt_Some in Hi. apply in_seq. lia. }
  unfold twins, twin_deliveries. rewrite existsb_exists. setoid_rewrite existsb_exists.
  setoid_rewrite <- hold_at_holding. unfold twins_at. split.
  - intros (i & _ & j & _ & H). destruct (hold_at s i) as [h|] eqn:Hi; [|done].
    destruct (hold_at s j) as [h'|] eqn:Hj; [|done]. apply bool_decide_eq_true in H. by exists i, j, h, h'.
  - intros (i & j & h & h' & Hi & Hj & H). exists i. split; [by eapply Hin|]. exists j. split; [by eapply Hin|].
    rewrite Hi, Hj. by apply bool_decide_eq_true.
Qed.
#[export] Instance twin_deliveries_dec thread s : Decision (twin_deliveries thread s).
Proof. refine (cast_if (decide (twins thread s = true))); by rewrite <- twins_spec. Defined.

Definition careful (thread : string) (s s' : Cluster) : Prop := ~ twin_deliveries thread s /\ step s s'.

(** A run without twins, or one that has met some. *)
Lemma careful_or_twins thread s s' : rtc step s s' ->
  rtc (careful thread) s s' \/ exists s0, rtc step s s0 /\ rtc step s0 s' /\ twin_deliveries thread s0.
Proof.
  induction 1 as [s|s s1 s' Hstep Hrest IH]; [by left|].
  destruct (decide (twin_deliveries thread s)) as [Ht|Ht].
  { right. exists s. split; [done|]. split; [by eapply rtc_l|done]. }
  destruct IH as [IH|(s0 & H0 & H0' & Ht')]; [left|right].
  - by eapply rtc_l.
  - exists s0. split; [by eapply rtc_l|done].
Qed.

(** No delivery is still under way when its lock expires. *)
Definition timely (s : Cluster) : Prop := forall i h, holding s i h -> ~ overstayed s h.

(** * Locks and keys are taken and given back in pairs *)

(** What a code holds: a lock with its token, and an idempotency key. *)
Record Grip := mkGrip { g_lock : option (string * string); g_claim : option string }.
Definition nothing : Grip := mkGrip None None.

Definition permits {R} (key : option string) (g : Grip) (o : JobOp R) : Prop :=
  match o with
  | AcquireConversationLock _ _ _ => g_lock g = None
  | ReleaseConversationLock c token => g_lock g = Some (c, text token)
  | RunnerRun u s _ | RunnerResume u s _ => exists token, g_lock g = Some (thread_of u s, token)
  | ClaimIdempotencyKey _ _ => g_claim g = None
  | ReleaseIdempotencyKey k => g_claim g = Some k
  | BrokerPublish _ => forall k, key = Some k -> k <> EmptyString -> g_claim g = Some k
  | _ => True
  end.
Definition lock_then {R} (o : JobOp R) (lock : option (string * string)) : Res R -> option (string * string) :=
  match o in JobOp R return Res R -> _ with
  | AcquireConversationLock c token _ => fun r => match r with Ok true => Some (c, text token) | _ => lock end
  | ReleaseConversationLock _ _ => fun _ => None
  | _ => fun _ => lock
  end.
Definition grip_then {R} (o : JobOp R) (g : Grip) (r : Res R) : Grip :=
  mkGrip (lock_then o (g_lock g) r) (claim_after o (g_claim g) r).

(** A code that holds [g] asks for nothing it must not, and leaves [Q]. *)
Fixpoint Guarded {A} (key : option string) (g : Grip) (m : JobM A) (Q : Grip -> Res A -> Prop) : Prop :=
  match m with
  | Ret a => Q g (Ok a)
  | Throw e => Q g (Raise e)
  | Await o k => permits key g o /\ forall r, Guarded key (grip_then o g r) (k r) Q
  end.

(** A request that is answered [Published] still holds its key. *)
Definition settled_grip (key : option string) (g : Grip) (r : Res Ending) : Prop :=
  match r with
  | Ok (Published _) => forall k, key = Some k -> k <> EmptyString -> g_claim g = Some k
  | _ => True
  end.

(** Operations that are neither about a lock or a key nor about the agent or
    the job queue. *)
Definition quiet R (o : JobOp R) : Prop :=
  match o with
  | AcquireConversationLock _ _ _ | ReleaseConversationLock _ _ | RunnerRun _ _ _ | RunnerResume _ _ _
  | ClaimIdempotencyKey _ _ | ReleaseIdempotencyKey _ | BrokerPublish _ => False
  | _ => True
  end.

Section Rules.
Context (key : option string).
Notation Guarded := (Guarded key).

Lemma guarded_mono {A} (m : JobM A) g (Q Q' : Grip -> Res A -> Prop) :
  (forall g' r, Q g' r -> Q' g' r) -> Guarded g m Q -> Guarded g m Q'.
Proof.
  intros HQ. revert g. induction m as [a|e|R o k IH]; intros g; cbn; [auto..|].
  intros [Ho Hk]. split; [done|]. intros r. by apply IH.
Qed.

Lemma guarded_then {A B} (m : JobM A) (k : Res A -> JobM B) g Q :
  Guarded g m (fun g' r => Guarded g' (k r) Q) -> Guarded g (then_ m k) Q.
Proof.
  revert g. induction m as [a|e|R o c IH]; intros g; cbn; [done..|].
  intros [Ho Hk]. split; [done|]. intros r. by apply IH.
Qed.

Lemma guarded_bind {A B} (m : JobM A) (k : A -> JobM B) g Q :
  Guarded g m (fun g' r => match r with Ok a => Guarded g' (k a) Q | Raise e => Q g' (Raise e) end) ->
  Guarded g (m ≫= k) Q.
Proof.
  unfold mbind, Prog_bind. revert g. induction m as [a|e|R o c IH]; intros g; cbn; [done..|].
  intros [Ho Hk]. split; [done|]. intros r. by apply IH.
Qed.

Lemma guarded_await {R} (o : JobOp R) g (Q : Grip -> Res R -> Prop) :
  permits key g o -> (forall r, Q (grip_then o g r) r) -> Guarded g (await o) Q.
Proof. intros Ho HQ. split; [done|]. intros r. specialize (HQ r). by destruct r. Qed.

Lemma guarded_quiet {A} (m : JobM A) g (Q : Grip -> Res A -> Prop) :
  asks quiet m -> (forall r, Q g r) -> Guarded g m Q.
Proof.
  intros Hm HQ. induction m as [a|e|R o k IH]; cbn; [done..|]. destruct Hm as [Ho Hk].
  split; [by destruct o|]. intros r. replace (grip_then o g r) with g by (by destruct g, o). by apply IH.
Qed.
End Rules.

Ltac quietly := repeat asks_step; done.

Lemma quiet_delay job level : asks quiet (_delay job level).
Proof. unfold _delay. quietly. Qed.
Lemma quiet_dead_letter job error : asks quiet (_dead_letter job error).
Proof. unfold _dead_letter, _now_ms. quietly. Qed.
Lemma quiet_retry job error : asks quiet (_retry options job error).
Proof. unfold _retry. repeat asks_step; try done; [apply quiet_dead_letter|apply quiet_delay]. Qed.
Lemma quiet_finish job u s result : asks quiet (_finish str_of job u s result).
Proof. unfold _finish, _now_ms. repeat asks_step; try done. apply quiet_dead_letter. Qed.
#[local] Hint Resolve quiet_delay quiet_dead_letter quiet_retry quiet_finish : py.

(** The next statement of a code, when it is a quiet one. *)
Ltac guarded_step :=
  apply guarded_bind, guarded_quiet; [quietly|]; intros [?|?]; [|try done].

Section Delivery.
Context (request : list (string * PyVal)) (token : string).
Notation inside := (mkGrip (Some (conversation_of str_of request, token)) None).

Lemma guarded_call_agent (Q : Grip -> Res _ -> Prop) :
  (forall r, Q inside r) -> Guarded None inside (call_agent request) Q.
Proof.
  intros HQ. unfold call_agent, conversation_of in *.
  destruct (has_key "resume" request).
  - destruct (item request "resume") as [answer|e]; [|apply HQ]. apply guarded_await; [by exists token|apply HQ].
  - destruct (item request "message") as [message|e]; [|apply HQ]. apply guarded_await; [by exists token|apply HQ].
Qed.

Lemma guarded_run_agent job (Q : Grip -> Res unit -> Prop) :
  (forall r, Q inside r) -> Guarded None inside (run_agent str_of options job request) Q.
Proof.
  intros HQ. unfold run_agent. do 5 guarded_step.
  unfold try_else. apply guarded_then, guarded_call_agent. intros [result|e].
  - apply guarded_quiet; [auto with py|apply HQ].
  - destruct (isinstance e NoPendingInputError); (apply guarded_quiet; [auto with py|apply HQ]).
Qed.
End Delivery.

Lemma guarded_process job :
  Guarded None nothing (_process str_of has_runner options job) (fun _ _ => True).
Proof.
  unfold _process. guarded_step. case_bool_decide; [apply guarded_quiet; [quietly|done]|].
  destruct (accept_request _ _) as [request|e].
  2: { destruct (isinstance e InvalidJobError); [apply guarded_quiet; [auto with py|done]|done]. }
  apply guarded_bind, guarded_await; [done|].
  intros [[]|e]; cbn [negb]; [|apply guarded_quiet; [auto with py|done]|done].
  unfold finally_. apply guarded_then, guarded_run_agent. intros r. apply guarded_bind.
  unfold try_. apply guarded_then, guarded_await; [done|]. intros [[]|e]; cbn; by destruct r.
Qed.

Lemma guarded_delivery body : Guarded None nothing (delivery body) (settled_grip None).
Proof.
  unfold delivery, consume. apply guarded_bind. eapply guarded_mono; [|instantiate (1 := fun _ _ => True)].
  { by intros g [[]|e] _. }
  destruct (decode orjson_loads body) as [job|e]; [|apply guarded_quiet; [quietly|done]].
  unfold try_. apply guarded_then. eapply guarded_mono; [|apply guarded_process].
  intros g [u|e] _; [done|]. apply guarded_quiet; [auto with py|done].
Qed.

(** Claimed first, queued while the key is claimed, given back on failure. *)
Definition queued_grip (key : option string) (g : Grip) (r : Res (PyVal * bool)) : Prop :=
  match r with
  | Ok (_, false) => forall k, key = Some k -> k <> EmptyString -> g_claim g = Some k
  | _ => True
  end.

Lemma guarded_publish payload key : Guarded key nothing (publish payload key) (queued_grip key).
Proof.
  unfold publish. guarded_step. cbv zeta.
  lazymatch goal with |- context [match key with Some _ => _ | None => ?q end] => set (queue := q) end.
  assert (forall g, (forall k, key = Some k -> k <> EmptyString -> g_claim g = Some k) ->
    Guarded key g queue (queued_grip key)) as Hqueue.
  { intros g Hg. unfold queue. clear queue. apply guarded_bind. unfold try_ at 1. apply guarded_then.
    eapply guarded_mono; [|instantiate (1 := fun g' _ => g' = g)].
    - intros g' [u|e] ->; [exact Hg|]. apply guarded_bind. unfold with_key.
      destruct key as [k|]; [|done]. destruct (String.eqb_spec k EmptyString) as [->|Hk]; [done|].
      apply guarded_await; [by apply Hg|]. by intros [?|?].
    - do 3 guarded_step. unfold try_. apply guarded_then, guarded_await; [done|].
      intros [u|e]; [by destruct g|]. cbv beta iota. apply guarded_bind, guarded_quiet; [quietly|]. destruct g. by intros [?|?]. }
  destruct key as [k|]; [|by apply Hqueue]. destruct (String.eqb_spec k EmptyString) as [->|Hk].
  { apply Hqueue. by intros k [= <-]. }
  apply guarded_bind, guarded_await; [done|]. intros [[owner []]|e]; cbn [negb]; [|done|done].
  apply Hqueue. by intros k' [= <-].
Qed.

Lemma guarded_publication payload key : Guarded key nothing (publication payload key) (settled_grip key).
Proof.
  unfold publication. apply guarded_bind. eapply guarded_mono; [|apply guarded_publish].
  by intros g [[id []]|e].
Qed.

(** * Locks and the tasks that hold them *)

Definition releases {R} (c token : string) (o : JobOp R) : Prop :=
  match o with ReleaseConversationLock c' t => c' = c /\ text t = token | _ => False end.

(** A held lock stays, with its lifetime, until its token releases it. *)
Lemma lock_stays {R} (o : JobOp R) v r v' c token :
  answers o v r v' -> v_lock v c = Some token -> ~ releases c token o -> v_lock v' c = Some token.
Proof.
  intros Ha Hl Hrel.
  assert (forall r w, served o v = Some (r, w) -> v_lock w c = Some token) as Hserved; [|by destruct Ha; eauto].
  clear r v' Ha. intros r w. destruct o; cbn in *; try done; try (intros [= _ <-]; done).
  - unfold spec_env; cbn. by destruct (v_timing v _ _); intros [= _ <-].
  - by destruct (v_owner v key); intros [= _ <-].
  - destruct (ttl_ms <=? 0); [by intros [= _ <-]|]. unfold spec_env; cbn.
    destruct (v_lock v conversation) eqn:E; intros [= _ <-]; [done|]. cbn. unfold set_at.
    destruct (String.eqb_spec conversation c) as [->|]; [congruence|done].
  - intros [= _ <-]. case_bool_decide as E; [|done]. cbn. unfold set_at.
    destruct (String.eqb_spec conversation c) as [->|]; [|done]. destruct Hrel. split; congruence.
Qed.

Lemma deadline_stays {R} (o : JobOp R) s c token :
  v_lock (current s) c = Some token -> deadline_after o s c = deadline s c.
Proof.
  intros Hl. destruct o; cbn [deadline_after]; try done.
  destruct (v_lock (current s) conversation) eqn:E; [done|]. unfold set_at.
  destruct (String.eqb_spec conversation c) as [->|]; [congruence|done].
Qed.

(** A lock is granted when it is free, for its lifetime. *)
Lemma granted_free c token ttl s v' :
  answers (AcquireConversationLock c token ttl) (current s) (Ok true) v' ->
  v_lock (current s) c = None /\ v_lock v' c = Some (text token) /\
  deadline_after (AcquireConversationLock c token ttl) s c = clock s + ttl.
Proof.
  remember (Ok true) as r eqn:Hr. intros Ha. revert Hr. destruct Ha as [r' w E|r' w e E|r' w e E|r' E];
    intros Hr; try done; cbn [served] in E; (destruct (ttl <=? 0); [by simplify_eq|]); [|done].
  unfold spec_env in E; cbn [store_spec] in E. destruct (v_lock (current s) c) eqn:Hl; cbn in E; [by simplify_eq|].
  injection E as _ <-. split; [done|]. cbn [deadline_after]. rewrite Hl. cbn. unfold set_at. by rewrite String.eqb_refl.
Qed.

Definition grip_of (h : option Hold) (claim : option string) : Grip := mkGrip (hold_key <$> h) claim.

Lemma grip_after {R} (o : JobOp R) now h claim r :
  grip_of (hold_after o now h r) (claim_after o claim r) = grip_then o (grip_of h claim) r.
Proof. unfold grip_of, grip_then. f_equal. destruct o; cbn; try done. by destruct r as [[]|]. Qed.

(** What a step leaves of the task's hold: a lock just granted, or what it was. *)
Lemma hold_after_cases {R} key claim (o : JobOp R) s h r v' h' :
  permits key (grip_of h claim) o -> answers o (current s) r v' -> hold_after o (clock s) h r = Some h' ->
  (v_lock (current s) (h_conversation h') = None /\ v_lock v' (h_conversation h') = Some (h_token h') /\
   deadline_after o s (h_conversation h') = h_until h') \/
  (h = Some h' /\ forall c token, ~ releases c token o).
Proof.
  destruct o; cbn [hold_after permits]; try (by intros _ _ ->; right; split; [|intros ?? []]); [|done].
  intros Hnone. assert (h = None) as -> by (by destruct h). clear Hnone.
  destruct r as [[]|]; try done. intros Ha [= <-]. left. by apply granted_free.
Qed.

(** A claimed key stays claimed until it is given back, and is granted only
    when it is free. *)
Definition returns {R} (k : string) (o : JobOp R) : Prop :=
  match o with ReleaseIdempotencyKey k' => k' = k | _ => False end.

Lemma owner_stays {R} (o : JobOp R) v r v' k :
  answers o v r v' -> is_Some (v_owner v k) -> ~ returns k o -> is_Some (v_owner v' k).
Proof.
  intros Ha Hl Hrel.
  assert (forall r w, served o v = Some (r, w) -> is_Some (v_owner w k)) as Hserved; [|by destruct Ha; eauto].
  clear r v' Ha. intros r w. destruct o; cbn in *; try done; try (intros [= _ <-]; done).
  - unfold spec_env; cbn. by destruct (v_timing v _ _); intros [= _ <-].
  - destruct (v_owner v key) eqn:E; intros [= _ <-]; [done|]. cbn. unfold set_at.
    by destruct (String.eqb_spec key k) as [->|].
  - intros [= _ <-]. cbn. unfold set_at. by destruct (String.eqb_spec key k) as [->|].
  - destruct (ttl_ms <=? 0); [by intros [= _ <-]|]. unfold spec_env; cbn.
    by destruct (v_lock v conversation); intros [= _ <-].
  - intros [= _ <-]. by case_bool_decide.
Qed.

Lemma claimed_free key id owner v v' :
  answers (ClaimIdempotencyKey key id) v (Ok (owner, true)) v' -> v_owner v key = None /\ is_Some (v_owner v' key).
Proof.
  remember (Ok (owner, true)) as r eqn:Hr. intros Ha. revert Hr. destruct Ha as [r' w E|r' w e E|r' w e E|r' E];
    intros Hr; try done; cbn in E.
  destruct (v_owner v key) eqn:Ho; cbn in E; [by simplify_eq/=|]. injection E as _ <-. split; [done|].
  cbn. unfold set_at. by rewrite String.eqb_refl.
Qed.

Lemma claim_after_cases {R} key h (o : JobOp R) v claim r v' k :
  permits key (grip_of h claim) o -> answers o v r v' -> claim_after o claim r = Some k ->
  (v_owner v k = None /\ is_Some (v_owner v' k)) \/ (claim = Some k /\ ~ returns k o).
Proof.
  destruct o; cbn [claim_after permits]; try (by intros _ _ ->; right; split; [|intros []]); [|done].
  intros Hnone. cbn in Hnone. subst claim. destruct r as [[owner []]|]; try done.
  intros Ha [= <-]. left. by eapply claimed_free.
Qed.

(** * What every reachable state satisfies *)

Definition Coded (s : Cluster) : Prop := forall i t, tasks s !! i = Some t ->
  Guarded (t_key t) (grip_of (t_hold t) (t_claim t)) (t_code t) (settled_grip (t_key t)).

Record Locked (thread : string) (s : Cluster) : Prop := {
  lk_lock i h : holding s i h -> h_conversation h = thread -> ~ overstayed s h ->
    v_lock (store s) thread = Some (h_token h) /\ deadline s thread = h_until h;
  lk_one i j h h' : holding s i h -> holding s j h' -> h_conversation h = thread -> h_conversation h' = thread ->
    ~ overstayed s h -> ~ overstayed s h' -> i = j }.

Record Claimed (s : Cluster) : Prop := {
  cl_owner i k : claiming s i k -> is_Some (v_owner (store s) k);
  cl_one i j k : claiming s i k -> claiming s j k -> i = j }.

Lemma put_cases s i t j t' :
  tasks (put_task i t s) !! j = Some t' -> (j = i /\ t' = t) \/ (j <> i /\ tasks s !! j = Some t').
Proof. cbn. intros E. apply list_lookup_insert_Some in E as [(<- & -> & _)|[? E]]; [by left|by right]. Qed.
Lemma add_cases s key code j t' :
  tasks (add_task key code s) !! j = Some t' -> t' = mkTask key code None None \/ tasks s !! j = Some t'.
Proof.
  cbn. intros [E|[_ E]]%lookup_app_Some; [by right|]. apply list_lookup_singleton_Some in E as [_ <-]. by left.
Qed.

Lemma coded_step s s' : Coded s -> step s s' -> Coded s'.
Proof.
  intros Hs Hstep j t Hj. destruct Hstep as [R i key o k h claim r v' Hi Ha|i t0 Hi|body|payload key|d Hd].
  - apply put_cases in Hj as [[_ ->]|[_ Hj]]; [|by apply (Hs j)]. cbn. rewrite grip_after. apply (Hs _ _ Hi).
  - by apply put_cases in Hj as [[_ ->]|[_ Hj]]; [|apply (Hs j)].
  - apply add_cases in Hj as [->|Hj]; [apply guarded_delivery|by apply (Hs j)].
  - apply add_cases in Hj as [->|Hj]; [apply guarded_publication|by apply (Hs j)].
  - by apply (Hs j).
Qed.

(** What another step than an operation leaves of the tasks' locks and keys. *)
Record Passes (s s' : Cluster) : Prop := {
  ps_clock : clock s <= clock s'; ps_store : store s' = store s; ps_deadline : deadline s' = deadline s;
  ps_hold i h : holding s' i h -> holding s i h;
  ps_claim i k : claiming s' i k -> claiming s i k }.

Lemma passes_add s key code : Passes s (add_task key code s).
Proof. split; try done; intros i x (t & [->|Hi]%add_cases & E); [done|by exists t|done|by exists t]. Qed.
Lemma passes_vanish s i t e :
  tasks s !! i = Some t -> Passes s (put_task i (mkTask (t_key t) (Throw e) None (t_claim t)) s).
Proof.
  intros Hi. split; try done; intros j x (t' & [[-> ->]|[_ Hj]]%put_cases & E);
    [done|by exists t'|by exists t|by exists t'].
Qed.
Lemma passes_tick s d : 0 <= d -> Passes s (tick d s).
Proof. intros Hd. split; try done. cbn. lia. Qed.

Lemma locked_passes thread s s' : Passes s s' -> Locked thread s -> Locked thread s'.
Proof.
  intros [Hc Hst Hd Hh _] Hs.
  assert (forall h, ~ overstayed s' h -> ~ overstayed s h) as Ho by (unfold overstayed; intros; lia).
  split.
  - intros i h Hi E Hov. rewrite Hst, Hd. apply (lk_lock _ _ Hs i); auto.
  - intros i j h h' Hi Hj E E' Hov Hov'. eapply (lk_one _ _ Hs i j h h'); auto.
Qed.
Lemma claimed_passes s s' : Passes s s' -> Claimed s -> Claimed s'.
Proof.
  intros [_ Hst _ _ Hk] [Ho H1]. split.
  - intros i k Hi. rewrite Hst. by apply (Ho i), Hk.
  - intros i j k Hi Hj. by apply (H1 i j k); apply Hk.
Qed.

Lemma lk_current thread s i h : Locked thread s -> holding s i h -> h_conversation h = thread -> ~ overstayed s h ->
  v_lock (current s) thread = Some (h_token h).
Proof.
  intros Hs Hi E Ho. destruct (lk_lock _ _ Hs _ _ Hi E Ho) as [Hl Hd]. cbn. rewrite Hd.
  unfold overstayed in Ho. by rewrite (proj2 (Z.ltb_lt _ _)) by lia.
Qed.

(** One operation of one task. *)
Section Perform.
Context {R : Type} (i : nat) (key : option string) (o : JobOp R) (k : Res R -> JobM Ending).
Context (h : option Hold) (claim : option string) (r : Res R) (v' : StoreView) (s : Cluster).
Context (thread : string).
Context (Hcode : Coded s) (Hi : tasks s !! i = Some (mkTask key (Await o k) h claim)).
Context (Hr : answers o (current s) r v').
Notation s' := (performed i key o k h claim r v' s).

Lemma performed_permits : permits key (grip_of h claim) o.
Proof. apply (Hcode _ _ Hi). Qed.

Lemma performed_holding j hd : holding s' j hd ->
  (j = i /\ hold_after o (clock s) h r = Some hd) \/ (j <> i /\ holding s j hd).
Proof. intros (t & [[-> ->]|[Hne Hj]]%put_cases & E); [by left|right; split; [done|by exists t]]. Qed.
Lemma performed_claiming j k' : claiming s' j k' ->
  (j = i /\ claim_after o claim r = Some k') \/ (j <> i /\ claiming s j k').
Proof. intros (t & [[-> ->]|[Hne Hj]]%put_cases & E); [by left|right; split; [done|by exists t]]. Qed.

(** The hold of another task, or the one this task had before. *)
Lemma old_hold_kept j hd :
  Locked thread s -> ~ twin_deliveries thread s -> holding s j hd -> h_conversation hd = thread ->
  ~ overstayed s hd -> (j = i -> forall c token, ~ releases c token o) ->
  v_lock v' thread = Some (h_token hd) /\ deadline_after o s thread = h_until hd.
Proof.
  intros Hs Htwin Hj E Hov Hown. pose proof (lk_current _ _ _ _ Hs Hj E Hov) as Hl.
  rewrite (deadline_stays _ _ _ _ Hl). split; [|by apply (lk_lock _ _ Hs j)].
  eapply lock_stays; [exact Hr|exact Hl|]. intros Hrel.
  destruct (decide (j = i)) as [->|Hne]; [by eapply Hown|].
  pose proof performed_permits as Hp. destruct o; try done. destruct Hrel as [-> Htok]. cbn in Hp.
  destruct h as [h0|]; [|done]. injection Hp as Hc0 Ht0.
  assert (holding s i h0) as Hi0 by (by eexists).
  assert (~ overstayed s h0) as Hov0.
  { intros Hov0. apply Htwin. exists i, j, h0, hd. split_and!; [done..| |done|by apply not_eq_sym|done].
    unfold hold_key. congruence. }
  by apply Hne, (lk_one _ _ Hs j i hd h0).
Qed.

Lemma locked_perform : ~ twin_deliveries thread s -> Locked thread s -> Locked thread s'.
Proof.
  intros Htwin Hs. pose proof performed_permits as Hp.
  assert (forall hd, h = Some hd -> holding s i hd) as Hmine by (intros hd E; by eexists).
  split.
  - cbn. intros j hd Hj E Hov. apply performed_holding in Hj as [[-> Hh]|[Hne Hj]]; [|by apply (old_hold_kept j)].
    destruct (hold_after_cases _ _ _ _ _ _ _ _ Hp Hr Hh) as [(_ & ? & ?)|[Eh Hrel]]; [by rewrite E in *|].
    apply (old_hold_kept i); auto.
  - assert (forall j hj hi, holding s j hj -> ~ overstayed s hj -> ~ overstayed s hi -> h_conversation hi = thread ->
      h_conversation hj = thread -> hold_after o (clock s) h r = Some hi -> i = j) as Hone.
    { intros j hj hi Hj Hovj Hovi E E' Hh.
      destruct (hold_after_cases _ _ _ _ _ _ _ _ Hp Hr Hh) as [(Hfree & _ & _)|[Eh _]].
      - rewrite E in Hfree. pose proof (lk_current _ _ _ _ Hs Hj E' Hovj). congruence.
      - eapply (lk_one _ _ Hs i j hi hj); auto. }
    intros j1 j2 h1 h2 [[-> H1]|[Hne1 H1]]%performed_holding [[-> H2]|[Hne2 H2]]%performed_holding E E' Hov1 Hov2.
    + done.
    + by apply (Hone j2 h2 h1).
    + symmetry. by apply (Hone j1 h1 h2).
    + by apply (lk_one _ _ Hs j1 j2 h1 h2).
Qed.

Lemma claimed_perform : Claimed s -> Claimed s'.
Proof.
  intros [Ho H1]. pose proof performed_permits as Hp.
  assert (forall k', claim = Some k' -> claiming s i k') as Hmine by (intros k' E; by eexists).
  assert (forall k', claim_after o claim r = Some k' ->
    (v_owner (store s) k' = None /\ is_Some (v_owner v' k')) \/ (claiming s i k' /\ ~ returns k' o)) as Hcases.
  { intros k' E. destruct (claim_after_cases _ _ _ _ _ _ _ _ Hp Hr E) as [?|[? ?]]; auto. }
  split; cbn.
  - intros j k' [[-> E]|[Hne Hj]]%performed_claiming.
    + destruct (Hcases _ E) as [[_ ?]|[Hk Hret]]; [done|]. eapply owner_stays; [exact Hr|by eapply Ho|done].
    + eapply owner_stays; [exact Hr|by eapply Ho|]. intros Hret. apply Hne. symmetry.
      eapply H1; [|exact Hj]. apply Hmine. destruct o; try done. cbn in Hret, Hp. by subst.
  - assert (forall j k', claiming s j k' -> claim_after o claim r = Some k' -> i = j) as Hone.
    { intros j k' Hj E. destruct (Hcases _ E) as [[Hfree _]|[Hk _]]; [|by eapply H1].
      destruct (Ho _ _ Hj). congruence. }
    intros j1 j2 k' [[-> E1]|[_ Hc1]]%performed_claiming [[-> E2]|[_ Hc2]]%performed_claiming; eauto.
    symmetry. eauto.
Qed.
End Perform.

Lemma locked_step thread s s' : Coded s -> Locked thread s -> careful thread s s' -> Locked thread s'.
Proof.
  intros Hc Hs [Htwin Hstep]. destruct Hstep as [R i key o k h claim r v' Hi Ha|i t Hi|body|payload key|d Hd].
  - by apply locked_perform.
  - eapply locked_passes; [by apply passes_vanish|done].
  - eapply locked_passes; [apply passes_add|done].
  - eapply locked_passes; [apply passes_add|done].
  - eapply locked_passes; [by apply passes_tick|done].
Qed.
Lemma claimed_step s s' : Coded s -> Claimed s -> step s s' -> Claimed s'.
Proof.
  intros Hc Hs Hstep. destruct Hstep as [R i key o k h claim r v' Hi Ha|i t Hi|body|payload key|d Hd].
  - by apply claimed_perform.
  - eapply claimed_passes; [by apply passes_vanish|done].
  - eapply claimed_passes; [apply passes_add|done].
  - eapply claimed_passes; [apply passes_add|done].
  - eapply claimed_passes; [by apply passes_tick|done].
Qed.

(** ** From a cluster without tasks *)

Lemma idle_coded now v d : Coded (idle now v d).
Proof. by intros i t. Qed.
Lemma idle_locked thread now v d : Locked thread (idle now v d).
Proof. split; [by intros i h (t & ? & _)|by intros i j h h' (t & ? & _)]. Qed.
Lemma idle_claimed now v d : Claimed (idle now v d).
Proof. split; [by intros i k (t & ? & _)|by intros i j k (t & ? & _)]. Qed.

Lemma locked_reached thread now v d s : rtc (careful thread) (idle now v d) s -> Coded s /\ Locked thread s.
Proof.
  intros H. apply (rtc_ind_r (fun s => Coded s /\ Locked thread s) (idle now v d)) in H; [done| |].
  - split; [apply idle_coded|apply idle_locked].
  - intros s1 s2 _ Hstep [Hc Hl]. split; [|by eapply locked_step]. by eapply coded_step, Hstep.
Qed.
Lemma claimed_reached now v d s : rtc step (idle now v d) s -> Coded s /\ Claimed s.
Proof.
  intros H. apply (rtc_ind_r (fun s => Coded s /\ Claimed s) (idle now v d)) in H; [done| |].
  - split; [apply idle_coded|apply idle_claimed].
  - intros s1 s2 _ Hstep [Hc Hl]. split; [by eapply coded_step|by eapply claimed_step].
Qed.

(** Whoever is in the agent holds the lock of its conversation. *)
Lemma working_holds s i thread :
  Coded s -> working s i = Some thread -> exists h, holding s i h /\ h_conversation h = thread.
Proof.
  unfold working. destruct (tasks s !! i) as [[key code h claim]|] eqn:Hi; [|done]. cbn. intros Hs Ha.
  pose proof (Hs _ _ Hi) as Hg. destruct code as [| |R o k]; try done. destruct Hg as [Hp _].
  destruct o; try done; cbn in Ha, Hp; injection Ha as <-; destruct Hp as [token Hp];
    (destruct h as [h|]; [|done]; injection Hp as Hc _; exists h; split; [by eexists|done]).
Qed.

(** Whoever queues a job, or has queued it, holds the key of its request. *)
Lemma queues_claims s i key : Coded s -> key <> EmptyString -> queues s i key -> claiming s i key.
Proof.
  intros Hs Hne (t & Hi & Hkey & Hcode). exists t. split; [done|]. pose proof (Hs _ _ Hi) as Hg. rewrite Hkey in Hg.
  destruct (t_code t) as [[]| |R o k]; try done; [by apply Hg|]. destruct Hg as [Hp _]. destruct o; try done. by apply Hp.
Qed.

(** Two deliveries in the agent of one thread after a run without twins. *)
Lemma both_working now v d s i j thread :
  rtc (careful thread) (idle now v d) s -> i <> j -> working s i = Some thread -> working s j = Some thread ->
  exists l h, (l = i \/ l = j) /\ holding s l h /\ h_conversation h = thread /\ overstayed s h.
Proof.
  intros [Hc Hs]%locked_reached Hne Hi Hj.
  destruct (working_holds _ _ _ Hc Hi) as (h & Hhi & Eh), (working_holds _ _ _ Hc Hj) as (h' & Hhj & Eh').
  destruct (decide (overstayed s h)) as [Ho|Ho]; [by exists i, h; auto|].
  destruct (decide (overstayed s h')) as [Ho'|Ho']; [by exists j, h'; auto|].
  destruct Hne. by eapply (lk_one _ _ Hs i j h h').
Qed.

(** C24: any number of workers, on any number of replicas, that share the store
    run the agent of one conversation one at a time.  Their operations may
    interleave in any way, fail, or lose their reply; processes may die; the
    broker may deliver any message again.  If two deliveries are in the agent
    of one thread at the same moment, one of them acquired its conversation's
    lock at least [lock_ttl_ms] ago, or, earlier in the run, one job of the
    thread was under way twice and one of its two deliveries had outlived its
    lock, which they share. *)
Theorem agents_exclude now v d s i j thread :
  rtc step (idle now v d) s -> i <> j -> working s i = Some thread -> working s j = Some thread ->
  (exists l h, (l = i \/ l = j) /\ holding s l h /\ h_conversation h = thread /\ overstayed s h) \/
  exists s0, rtc step (idle now v d) s0 /\ rtc step s0 s /\ twin_deliveries thread s0.
Proof.
  intros [H|H]%(careful_or_twins thread) Hne Hi Hj; [left|by right]. by eapply both_working.
Qed.

Lemma timely_no_twins thread s : timely s -> ~ twin_deliveries thread s.
Proof. intros Ht (i & j & h & h' & Hi & _ & _ & _ & _ & Ho). by eapply Ht. Qed.

(** So, as long as every delivery ends before its lock expires, there is one
    agent at a time for each thread. *)
Theorem timely_agents_exclude now v d s i j thread :
  rtc (fun s s' => timely s /\ step s s') (idle now v d) s -> timely s ->
  working s i = Some thread -> working s j = Some thread -> i = j.
Proof.
  intros Hs Ht Hi Hj. destruct (decide (i = j)) as [|Hne]; [done|].
  assert (rtc (careful thread) (idle now v d) s) as Hc.
  { revert Hs. apply rtc_subrel. intros s1 s2 [H1 H2]. split; [by apply timely_no_twins|done]. }
  destruct (both_working _ _ _ _ _ _ _ Hc Hne Hi Hj) as (l & h & _ & Hl & _ & Ho). destruct (Ht l h Hl Ho).
Qed.

(** C25: of any number of requests with one idempotency key, at any endpoints at
    the same time, at most one queues its job or is answered that its job is
    queued, whatever fails; another one can queue its own only after the first
    has failed and given the key back (or after the key's lifetime of a day). *)
Theorem key_queued_once now v d s i j key :
  rtc step (idle now v d) s -> key <> EmptyString -> queues s i key -> queues s j key -> i = j.
Proof.
  intros [Hc Hs]%claimed_reached Hne Hi Hj. by eapply (cl_one _ Hs); apply queues_claims.
Qed.
End Pool.
