(* ===== verification/AgentState.v ===== *)
(** The agent's state: [app/agent/state.py] and the ports of
    [app/agent/nodes/ports.py].

    Here a value is the typed record, whether the state holds it as an instance
    or as the plain dict a checkpoint restored of it: PyObject has the two
    forms, and RestoredRuns proves that the program treats them alike.  [AgentState] is a [TypedDict] whose keys may be absent; a
    node returns the keys it writes, and [merge] writes them. *)
From Stdlib Require Import String.
From stdpp Require Import base numbers strings list.
From S2P Require Import Prelude Models PyVal Effects.

Record RebookingRequest := mkRequest {
  rq_booking_reference : string; rq_segment_id : option UUID;
  rq_departure_from : option datetime; rq_departure_to : option datetime }.

Record ReservationContext := mkContext {
  cx_request : RebookingRequest; cx_reservation : ReservationDetailsSchema }.

Record SearchAlternativesResult := mkSearchResult {
  sr_request : RebookingRequest; sr_options : list RebookingOptionSchema }.

Record TravelCreditsResult := mkCreditsResult {
  cr_request : RebookingRequest; cr_credits : list TravelCreditSchema }.

(** The same fields as [RebookingSelectionSchema]. *)
Definition RebookingSelection := RebookingSelectionSchema.

Record EvaluationResult := mkEvaluation {
  ev_request : RebookingRequest; ev_options : list RebookingOptionSchema;
  ev_credits : list TravelCreditSchema; ev_ranked_option_ids : list UUID;
  ev_summary : string; ev_has_matching_option : bool }.

Record ConfirmationResult := mkConfirmation {
  cf_confirmed : bool; cf_selection : option RebookingSelection;
  cf_evaluation : EvaluationResult }.

Record ValidationResult := mkValidationResult {
  vr_valid : bool; vr_selection : option RebookingSelection; vr_reason : string;
  vr_evaluation : EvaluationResult; vr_user_declined : bool;
  vr_validation : option RebookingValidationSchema }.

Inductive FinalStatus := FS_completed | FS_ready | FS_declined | FS_failed.
Definition final_status_value (s : FinalStatus) : string :=
  match s with
  | FS_completed => "completed" | FS_ready => "ready"
  | FS_declined => "declined" | FS_failed => "failed"
  end.

Record FinalResult := mkFinal {
  fr_status : FinalStatus; fr_message : string; fr_selection : option RebookingSelection;
  fr_validation : option RebookingValidationSchema;
  fr_execution : option RebookingResultSchema;
  fr_verification : option RebookingResultSchema }.

Record AgentState := mkState {
  user_input : option string;
  request : option RebookingRequest;
  reservation_context : option ReservationContext;
  search_result : option SearchAlternativesResult;
  credits_result : option TravelCreditsResult;
  evaluation : option EvaluationResult;
  confirmation : option ConfirmationResult;
  validation : option ValidationResult;
  execution : option RebookingResultSchema;
  verification : option RebookingResultSchema;
  final : option FinalResult;
  route : option string;
  error : option string;
  retry_count : option Z;
  max_retries : option Z }.

(** No key. *)
Definition empty_state : AgentState :=
  mkState None None None None None None None None None None None None None None None.

Definition override {A} (new old : option A) : option A :=
  match new with Some a => Some a | None => old end.

(** Write the keys of an update. *)
Definition merge (s u : AgentState) : AgentState := {|
  user_input := override (user_input u) (user_input s);
  request := override (request u) (request s);
  reservation_context := override (reservation_context u) (reservation_context s);
  search_result := override (search_result u) (search_result s);
  credits_result := override (credits_result u) (credits_result s);
  evaluation := override (evaluation u) (evaluation s);
  confirmation := override (confirmation u) (confirmation s);
  validation := override (validation u) (validation s);
  execution := override (execution u) (execution s);
  verification := override (verification u) (verification s);
  final := override (final u) (final s);
  route := override (route u) (route s);
  error := override (error u) (error s);
  retry_count := override (retry_count u) (retry_count s);
  max_retries := override (max_retries u) (max_retries s) |}.

(** Updates of one key, and of the keys several nodes write together. *)
Definition put_request (r : RebookingRequest) : AgentState :=
  mkState None (Some r) None None None None None None None None None None None None None.
Definition put_context (c : ReservationContext) : AgentState :=
  mkState None None (Some c) None None None None None None None None None None None None.
Definition put_search (r : SearchAlternativesResult) : AgentState :=
  mkState None None None (Some r) None None None None None None None None None None None.
Definition put_credits (r : TravelCreditsResult) : AgentState :=
  mkState None None None None (Some r) None None None None None None None None None None.
Definition put_evaluation (e : EvaluationResult) : AgentState :=
  mkState None None None None None (Some e) None None None None None None None None None.
Definition put_confirmation (c : ConfirmationResult) : AgentState :=
  mkState None None None None None None (Some c) None None None None None None None None.
Definition put_validation (v : ValidationResult) (route : string) : AgentState :=
  mkState None None None None None None None (Some v) None None None (Some route) None None None.
Definition put_final (execution verification : option RebookingResultSchema) (final : FinalResult)
    (route : string) (error : option string) : AgentState :=
  mkState None None None None None None None None execution verification (Some final) (Some route)
    error None None.
Definition put_route (route : string) : AgentState :=
  mkState None None None None None None None None None None None (Some route) None None None.

(** [domain_validation]: a validator may answer [False] instead of a result. *)
Inductive DomainValidation := VFalse | VResult (v : RebookingValidationSchema).

(** The operations a node awaits: [AgentLLM], [AirlinePort], [ChangeValidator]
    and LangGraph's [interrupt], which yields the answer of the resume. *)
Inductive AgentOp : Type -> Type :=
  | LlmUnderstandRequest (user_input : string) : AgentOp RebookingRequest
  | LlmEvaluateOptions (request : RebookingRequest) (options : list RebookingOptionSchema)
      (credits : list TravelCreditSchema) : AgentOp EvaluationResult
  | PortGetReservation (booking_reference : string) : AgentOp ReservationDetailsSchema
  | PortSearchRebookingOptions (input : SearchRebookingOptionsInputSchema) :
      AgentOp (list RebookingOptionSchema)
  | PortGetAvailableTravelCredits (customer_id : UUID) (currency : string) :
      AgentOp (list TravelCreditSchema)
  | PortValidateChange (selection : RebookingSelection) : AgentOp DomainValidation
  | PortExecuteRebooking (selection : RebookingSelectionSchema) : AgentOp RebookingResultSchema
  | PortVerifyRebooking (selection : RebookingSelectionSchema) : AgentOp RebookingResultSchema
  | Interrupt (message : string) (evaluation : EvaluationResult) : AgentOp PyVal.

Notation AgentM := (Prog AgentOp).

(** [raise] in a node. *)
Definition fail {A} (t : ExnType) (msg : string) : AgentM A := throw t msg.

Definition require_window (request : RebookingRequest) : Res (datetime * datetime) :=
  match rq_departure_from request, rq_departure_to request with
  | Some from, Some to =>
      if (to <? from)%Z then raise ValueError "departure window is invalid" else Ok (from, to)
  | _, _ => raise ValueError "departure window is required"
  end.

Lemma merge_empty s : merge s empty_state = s.
Proof. by destruct s. Qed.

Lemma merge_assoc s u1 u2 : merge (merge s u1) u2 = merge s (merge u1 u2).
Proof. unfold merge; cbn. f_equal; by match goal with |- override ?x _ = _ => destruct x end. Qed.
