(* ===== verification/AgentNodes.v ===== *)
(** The nodes of the agent graph: [app/agent/nodes/*.py] and the small nodes of
    [app/agent/graph.py].  A node maps the state to the keys it writes. *)
From Stdlib Require Import String.
From stdpp Require Import base numbers strings list pretty.
From S2P Require Import Prelude Models PyVal Effects AgentState.
Local Open Scope string_scope.

(** * nodes/llm.py *)

Definition understand_request (state : AgentState) : AgentM AgentState :=
  let text := py_strip (default "" (user_input state)) in
  if (text =? "") then fail ValueError "user input is required"
  else
    request ← await (LlmUnderstandRequest text);
    if (rq_booking_reference request =? "") then fail ValueError "booking reference is required"
    else mret (put_request request).

(** [result.model_copy(update={...})]. *)
Definition with_context (request : RebookingRequest) (options : list RebookingOptionSchema)
    (credits : list TravelCreditSchema) (e : EvaluationResult) : EvaluationResult :=
  mkEvaluation request options credits (ev_ranked_option_ids e) (ev_summary e)
    (ev_has_matching_option e).

Definition allowed_ids (options : list RebookingOptionSchema) : list UUID :=
  ((fun o => f_id (ro_flight o)) <$> options) ++ ((fun o => ff_id (ro_flight_fare o)) <$> options).

Definition evaluate_options (state : AgentState) : AgentM AgentState :=
  match request state, search_result state, credits_result state with
  | Some request, Some search, Some credits =>
      result ← await (LlmEvaluateOptions request (sr_options search) (cr_credits credits));
      if negb (forallb (fun id => bool_decide (id ∈ allowed_ids (sr_options search)))
                 (ev_ranked_option_ids result)) then
        fail ValueError "evaluation returned an unknown option"
      else mret (put_evaluation (with_context request (sr_options search) (cr_credits credits) result))
  | _, _, _ => fail ValueError "evaluation requires request, alternatives, and credits"
  end.

(** * nodes/airline.py *)

Definition _context (state : AgentState) : Res ReservationContext :=
  or_raise (reservation_context state) ValueError "reservation context is required".

Definition get_reservation (state : AgentState) : AgentM AgentState :=
  request ← of_res (or_raise (request state) ValueError "reservation requires a request");
  reservation ← await (PortGetReservation (rq_booking_reference request));
  match rd_segments reservation with
  | [] => fail ValueError "reservation requires a segment"
  | _ => mret (put_context (mkContext request reservation))
  end.

Definition _selected_segment (state : AgentState) :
    Res (ReservationContext * ReservationSegmentDetailsSchema) :=
  context ← _context state;
  let segments := rd_segments (cx_reservation context) in
  match rq_segment_id (cx_request context) with
  | Some id =>
      segment ← or_raise (List.find (fun s => rs_id (sd_segment s) =? id)%N segments)
                  ValueError "requested reservation segment was not found";
      mret (context, segment)
  | None =>
      match segments with
      | [segment] => mret (context, segment)
      | _ => raise ValueError "a reservation segment must be selected"
      end
  end.

Definition search_alternatives (state : AgentState) : AgentM AgentState :=
  '(context, segment) ← of_res (_selected_segment state);
  '(departure_from, departure_to) ← of_res (require_window (cx_request context));
  options ← await (PortSearchRebookingOptions
    (mkSearchInput (rs_id (sd_segment segment)) departure_from departure_to
       (Z.of_nat (length (rd_passengers (cx_reservation context))))));
  mret (put_search (mkSearchResult (cx_request context) options)).

Definition get_travel_credits (state : AgentState) : AgentM AgentState :=
  context ← of_res (_context state);
  let reservation := rd_reservation (cx_reservation context) in
  credits ← await (PortGetAvailableTravelCredits (r_customer_id reservation) (r_currency reservation));
  mret (put_credits (mkCreditsResult (cx_request context) credits)).

(** * nodes/confirmation.py *)

Section Confirmation.
(** [RebookingSelection.model_validate], pydantic's parser of a payload. *)
Context (model_validate : PyVal -> Res RebookingSelection).

(** [_confirmation({"evaluation": evaluation, ...answer})]. *)
Definition parse_confirmation (answer : PyVal) (evaluation : EvaluationResult) :
    Res ConfirmationResult :=
  match answer with
  | PDict data =>
      let selection := get data "selection" in
      selection ← (if truthy selection then s ← model_validate selection; mret (Some s) else mret None);
      mret (mkConfirmation (truthy (get data "confirmed")) selection evaluation)
  | _ => raise TypeError "object is not a mapping"
  end.

Definition ask_confirmation (state : AgentState) : AgentM AgentState :=
  evaluation ← of_res (or_raise (evaluation state) ValueError "confirmation requires an evaluation");
  answer ← await (Interrupt "Select a rebooking option and confirm the change." evaluation);
  match parse_confirmation answer evaluation with
  | Ok confirmation => mret (put_confirmation confirmation)
  | Raise e =>
      if isinstance e TypeError || isinstance e ValueError then
        fail ValueError "invalid confirmation payload"
      else Throw e
  end.
End Confirmation.

(** The segment a selection must be about. *)
Definition expected_segment_id (state : AgentState) (evaluation : EvaluationResult) : option UUID :=
  let segments := match reservation_context state with
                  | Some context => rd_segments (cx_reservation context)
                  | None => []
                  end in
  match rq_segment_id (ev_request evaluation) with
  | Some id => Some id
  | None => (fun s => rs_id (sd_segment s)) <$> head segments
  end.

Definition offered (selection : RebookingSelection) (evaluation : EvaluationResult) : bool :=
  existsb (fun o => (f_id (ro_flight o) =? sel_new_flight_id selection)%N
                    && (fc_id (ro_fare_class o) =? sel_new_fare_class_id selection)%N)
    (ev_options evaluation).

(** [ValidationResult(evaluation=..., selection=..., reason=...)]. *)
Definition rejected (evaluation : EvaluationResult) (selection : RebookingSelection)
    (reason : string) : AgentState :=
  put_validation (mkValidationResult false (Some selection) reason evaluation false None) "invalid".

Definition validate_change (state : AgentState) : AgentM AgentState :=
  confirmation ← of_res (or_raise (confirmation state) ValueError "validation requires confirmation");
  let evaluation := cf_evaluation confirmation in
  if negb (cf_confirmed confirmation) then
    mret (put_validation (mkValidationResult false (cf_selection confirmation)
            "the rebooking was not confirmed" evaluation true None) "declined")
  else
    selection ← of_res (or_raise (cf_selection confirmation) ValueError
                          "confirmed selection is required");
    if negb (bool_decide (expected_segment_id state evaluation = Some (sel_segment_id selection))) then
      mret (rejected evaluation selection
              "the selected option belongs to another reservation segment")
    else if negb (offered selection evaluation) then
      mret (rejected evaluation selection "the selected option was not offered")
    else
      try_else (await (PortValidateChange selection))
        (fun exc => if isinstance exc ValueError then mret (rejected evaluation selection (exn_str exc))
                    else Throw exc)
        (fun domain_validation =>
           match domain_validation with
           | VFalse => mret (rejected evaluation selection
                               "the selected option failed domain validation")
           | VResult v => mret (put_validation (mkValidationResult true (Some selection) ""
                                  evaluation false (Some v)) "valid")
           end).

(** * nodes/explanation.py *)

Definition explain_invalid_change (state : AgentState) : AgentM AgentState :=
  validation ← of_res (or_raise (validation state) ValueError
                         "invalid explanation requires validation");
  if vr_user_declined validation then
    mret (put_final None None (mkFinal FS_declined "The rebooking was not confirmed."
            (vr_selection validation) None None None) "declined" None)
  else
    let count := (default 0 (retry_count state) + 1)%Z in
    let limit := default 2%Z (max_retries state) in
    if (limit <? count)%Z then
      mret (merge (put_final None None (mkFinal FS_failed
              ("The selected rebooking is no longer valid: " +:+ vr_reason validation)
              (vr_selection validation) None None None) "invalid" None)
             (mkState None None None None None None None None None None None None None
                (Some count) None))
    else
      mret (mkState None None None None None None None None None None None (Some "retry")
              (Some (vr_reason validation)) (Some count) None).

(** * nodes/execution.py *)

Definition execute_rebooking (state : AgentState) : AgentM AgentState :=
  match validation state with
  | Some (mkValidationResult true (Some selection) _ _ _ domain) =>
      try_else (await (PortExecuteRebooking selection))
        (fun exc => mret (put_final None None (mkFinal FS_failed
           "The rebooking could not be executed." (Some selection) domain None None)
           "failed" (Some (exn_str exc))))
        (fun result =>
           mret (mkState None None None None None None None None (Some result) None None
                   (Some "completed") None None None))
  | _ => fail ValueError "execution requires a valid selection"
  end.

Definition verify_rebooking (state : AgentState) : AgentM AgentState :=
  match validation state, execution state with
  | Some (mkValidationResult _ (Some selection) _ _ _ domain), Some execution =>
      try_else (await (PortVerifyRebooking selection))
        (fun exc => mret (put_final None None (mkFinal FS_failed
           "The rebooking could not be verified." (Some selection) domain (Some execution) None)
           "failed" (Some (exn_str exc))))
        (fun result => mret (put_final None (Some result) (mkFinal FS_completed
           "The rebooking was completed successfully." (Some selection) domain (Some execution)
           (Some result)) "completed" None))
  | _, _ => fail ValueError "verification requires execution state"
  end.

(** * graph.py *)

Definition _refresh_context (state : AgentState) : AgentM AgentState := mret (put_route "retry").

Definition _finalize_declined (state : AgentState) : AgentM AgentState :=
  mret (put_final None None (mkFinal FS_declined "The rebooking was not confirmed."
          (validation ← validation state; vr_selection validation) None None None) "declined" None).

Definition _finalize_failed (state : AgentState) : AgentM AgentState := mret (put_route "failed").
