(* ===== verification/OpenRouter.v ===== *)
(** The language model client: [app/platform/llm/openrouter.py].

    [OpenRouterLLM] implements the two operations of the agent's LLM port with
    one chat completion each.  The awaited operations are those of the HTTP
    client; the JSON codec, [raise_for_status] and pydantic's parsers and dumps
    are parameters.  The theorems say what the client sends, which responses it
    accepts and how it fails, and that the agent's evaluation node accepts
    whatever it returns. *)
From Stdlib Require Import Ascii String.
From stdpp Require Import base numbers strings list.
From S2P Require Import Prelude Models PyVal Effects Config AgentState AgentNodes.
Local Open Scope string_scope.

(** * agent/prompts.py *)

(** The prompts, after [strip]. *)
Definition newline : string := String (ascii_of_nat 10) "".
Definition lines (ls : list string) : string := String.concat newline ls.

Definition UNDERSTAND_REQUEST : string := lines [
  "You are the request-understanding component of an airline customer support system.";
  "Extract only information explicitly stated or clearly implied by the user's message.";
  "Do not invent booking references, dates, airports, flights, prices, or passenger data.";
  "Do not make business decisions, search flights, calculate prices, or recommend flights.";
  "Return a JSON object with exactly these keys:";
  "- booking_reference: the reservation code the customer mentions, copied exactly.";
  "- segment_id: always null unless the message contains a segment UUID.";
  "- departure_from: start of the window in which the customer wants the new flight";
  "  to depart.";
  "- departure_to: end of that window. When only a date is given, use the end of";
  "  that day (23:59:59).";
  "Use null for values the message does not provide. Dates must be ISO-8601";
  "timestamps in UTC, for example " +:+ String (ascii_of_nat 34) "2026-09-21T00:00:00Z"
    +:+ String (ascii_of_nat 34) ".";
  "Return only the JSON object."].

Definition EVALUATE_OPTIONS : string := lines [
  "You are the option-evaluation component of an airline rebooking system.";
  "Rank only the alternatives supplied in the input according to the customer's stated";
  "preferences. Do not invent flights, fares, prices, schedules, or identifiers. Do not";
  "validate business rules, calculate prices, or modify reservations. Preserve supplied";
  "identifiers exactly. Return a JSON object with ranked_option_ids, summary, and";
  "has_matching_option. Return only the structured evaluation."].

(** * The client *)

(** [response.status_code] and [response.content]. *)
Record Response := mkResponse { status_code : Z; content : string }.

Inductive HttpOp : Type -> Type :=
  | Post (url : string) (headers : list (string * string)) (body : string) : HttpOp Response
  | Aclose : HttpOp unit.
Notation HttpM := (Prog HttpOp).

(** [_settings] and [_owns_client]. *)
Record OpenRouterLLM := mkLLM { llm_settings : Settings; owns_client : bool }.

Definition OpenRouterLLM_init (settings : Settings) (client_given : bool) : Res OpenRouterLLM :=
  if openrouter_deployment settings =? "" then raise ValueError "OPENROUTER_DEPLOYMENT is required"
  else if openrouter_api_key settings =? "" then raise ValueError "OPENROUTER_API_KEY is required"
  else if openrouter_base_url settings =? "" then raise ValueError "OPENROUTER_BASE_URL is required"
  else Ok (mkLLM settings (negb client_given)).

Definition close (self : OpenRouterLLM) : HttpM unit :=
  if owns_client self then await Aclose else mret tt.

(** [url.rstrip("/")]. *)
Fixpoint rstrip_slash (s : string) : string :=
  match s with
  | "" => ""
  | String a s' =>
      let r := rstrip_slash s' in
      if Ascii.eqb a "/" && (r =? "") then "" else String a r
  end.

(** [value[key]] and [value[0]] of a JSON value. *)
Definition subscript (value : PyVal) (key : string) : Res PyVal :=
  match value with
  | PDict d => item d key
  | _ => raise TypeError "indices must be integers or slices, not str"
  end.
(** The first character of a string: up to the next byte that starts one. *)
Fixpoint char_tail (s : string) : string :=
  match s with
  | String a s' => if (Nat.div (nat_of_ascii a) 64 =? 2)%nat then String a (char_tail s') else ""
  | "" => ""
  end.
Definition subscript_0 (value : PyVal) : Res PyVal :=
  match value with
  | PList (x :: _) => Ok x
  | PList [] => raise IndexError "list index out of range"
  | PStr (String a s) => Ok (PStr (String a (char_tail s)))
  | PStr "" => raise IndexError "string index out of range"
  | PDict _ => raise KeyError "0"
  | _ => raise TypeError "object is not subscriptable"
  end.

(** [part.get("text", "")], and [str.join] of what the parts have there. *)
Definition part_text (part : PyVal) : Res PyVal :=
  match part with
  | PDict d => Ok (get_or d "text" (PStr ""))
  | _ => raise AttributeError "object has no attribute 'get'"
  end.
Definition text_of (item : PyVal) : Res string :=
  match item with
  | PStr s => Ok s
  | _ => raise TypeError "sequence item: expected str instance"
  end.
Definition join_parts (parts : list PyVal) : Res PyVal :=
  texts ← mapM part_text parts;
  strings ← mapM text_of texts;
  mret (PStr (String.concat "" strings)).

Section Client.
Context (orjson_loads : string -> Res PyVal) (orjson_dumps : PyVal -> string).
Context (raise_for_status : Response -> Res unit).
(** [RebookingRequest.model_validate], and the fields the model answers of an
    [EvaluationResult]: [ranked_option_ids], [summary], [has_matching_option]. *)
Context (validate_request_model : PyVal -> Res RebookingRequest)
        (validate_ranking : list (string * PyVal) -> Res (list UUID * string * bool)).
(** [model_dump(mode="json")]. *)
Context (dump_request : RebookingRequest -> PyVal) (dump_option : RebookingOptionSchema -> PyVal)
        (dump_credit : TravelCreditSchema -> PyVal).
Context (self : OpenRouterLLM).

(** [orjson.loads(value)]: only text can be parsed. *)
Definition loads_value (value : PyVal) : Res PyVal :=
  match value with
  | PStr s => orjson_loads s
  | _ => raise JSONDecodeError "Input must be bytes, bytearray, memoryview, or str"
  end.

(** The [try] block of [_complete]. *)
Definition completion_of (response : Response) : Res PyVal :=
  body ← orjson_loads (content response);
  choices ← subscript body "choices";
  choice ← subscript_0 choices;
  message ← subscript choice "message";
  content ← subscript message "content";
  content ← match content with PList parts => join_parts parts | _ => Ok content end;
  loads_value content.

Definition invalid_response : Exn :=
  mkExn ValueError "OpenRouter returned an invalid structured response".

(** [except (KeyError, IndexError, TypeError, orjson.JSONDecodeError)]. *)
Definition caught (e : Exn) : bool :=
  isinstance e KeyError || isinstance e IndexError || isinstance e TypeError
  || isinstance e JSONDecodeError.

Definition completions_url : string :=
  rstrip_slash (openrouter_base_url (llm_settings self)) +:+ "/chat/completions".
Definition request_headers : list (string * string) :=
  [("Authorization", "Bearer " +:+ openrouter_api_key (llm_settings self));
   ("Content-Type", "application/json")].
Definition request_body (system_prompt user_prompt : string) : PyVal :=
  PDict [
    ("model", PStr (openrouter_deployment (llm_settings self)));
    ("messages", PList [
       PDict [("role", PStr "system"); ("content", PStr system_prompt)];
       PDict [("role", PStr "user"); ("content", PStr user_prompt)]]);
    ("stream", PBool false);
    ("response_format", PDict [("type", PStr "json_object")])].

Definition _complete (system_prompt user_prompt : string) : HttpM PyVal :=
  response ← await (Post completions_url request_headers
                      (orjson_dumps (request_body system_prompt user_prompt)));
  of_res (raise_for_status response);;
  match completion_of response with
  | Ok value => mret value
  | Raise e => if caught e then Throw invalid_response else Throw e
  end.

Definition understand_request (user_input : string) : HttpM RebookingRequest :=
  payload ← _complete UNDERSTAND_REQUEST user_input;
  of_res (validate_request_model payload).

(** [EvaluationResult.model_validate({ **response, ...})]: the entries of the
    response, with the three of the caller put over them. *)
Definition evaluation_of (response : PyVal) (request : RebookingRequest)
    (options : list RebookingOptionSchema) (credits : list TravelCreditSchema) :
    Res EvaluationResult :=
  match response with
  | PDict d =>
      '(ranked, summary, matching) ← validate_ranking d;
      mret (mkEvaluation request options credits ranked summary matching)
  | _ => raise TypeError "object is not a mapping"
  end.

Definition evaluation_prompt (request : RebookingRequest) (options : list RebookingOptionSchema)
    (credits : list TravelCreditSchema) : PyVal :=
  PDict [("request", dump_request request); ("options", PList (dump_option <$> options));
         ("credits", PList (dump_credit <$> credits))].

Definition evaluate_options (request : RebookingRequest) (options : list RebookingOptionSchema)
    (credits : list TravelCreditSchema) : HttpM EvaluationResult :=
  response ← _complete EVALUATE_OPTIONS (orjson_dumps (evaluation_prompt request options credits));
  result ← of_res (evaluation_of response request options credits);
  let allowed := (((fun o => f_id (ro_flight o)) <$> options)
                  ++ ((fun o => ff_id (ro_flight_fare o)) <$> options))%list in
  if existsb (fun id => negb (bool_decide (id ∈ allowed))) (ev_ranked_option_ids result) then
    throw ValueError "model returned an unknown option"
  else mret result.
End Client.

(** * Which responses are accepted *)

(** A content part with a text, which may be left out. *)
Definition part_is (part : PyVal) (text : string) : Prop :=
  exists d, part = PDict d /\ get_or d "text" (PStr "") = PStr text.

(** The content of a message is a text, or parts whose texts are joined. *)
Definition content_is (content : PyVal) (text : string) : Prop :=
  content = PStr text \/
  exists parts texts, content = PList parts /\ Forall2 part_is parts texts /\ text = String.concat "" texts.

(** The body of a chat completion whose first choice has this content. *)
Definition first_content (body content : PyVal) : Prop :=
  exists b c m rest, body = PDict b /\ entry "choices" b = Some (PList (PDict c :: rest)) /\
    entry "message" c = Some (PDict m) /\ entry "content" m = Some content.

(** The body of a chat completion whose first choice says [text]. *)
Definition completion_says (body : PyVal) (text : string) : Prop :=
  exists content, first_content body content /\ content_is content text.

(** A content with a part that is no object. *)
Definition is_object (part : PyVal) : bool := match part with PDict _ => true | _ => false end.
Definition stray_part (body : PyVal) : Prop :=
  exists parts, first_content body (PList parts) /\ existsb (fun part => negb (is_object part)) parts = true.

Lemma subscript_Ok value key v : subscript value key = Ok v <-> exists d, value = PDict d /\ entry key d = Some v.
Proof. destruct value; cbn; unfold item; try rewrite or_raise_Ok; unfold raise; naive_solver. Qed.

Lemma join_parts_Ok parts v :
  join_parts parts = Ok v <->
  exists texts, Forall2 part_is parts texts /\ v = PStr (String.concat "" texts).
Proof.
  assert (forall vs strings, Forall2 (fun v s => text_of v = Ok s) vs strings <->
    vs = PStr <$> strings) as Htexts.
  { intros vs strings. split.
    - induction 1 as [|w s ws ss Hw _ IH]; [done|]. destruct w; try discriminate Hw.
      injection Hw as ->. cbn. by f_equal.
    - intros ->. induction strings; constructor; auto. }
  unfold join_parts. rewrite res_bind_Ok. setoid_rewrite res_bind_Ok. split.
  - intros (ts & Hts & ss & Hss & [= <-]). exists ss. split; [|done].
    apply mapM_Res_Ok in Hts, Hss. apply Htexts in Hss as ->. clear Htexts.
    remember (PStr <$> ss) as vs eqn:E. revert ss E.
    induction Hts as [|p t ps ts Hp _ IH]; intros [|s ss] [=]; subst; constructor; auto.
    destruct p; try discriminate Hp. injection Hp as Hp. by eexists.
  - intros (ss & Hss & ->). exists (PStr <$> ss). split.
    + apply mapM_Res_Ok. induction Hss as [|p s ps ss (d & -> & Hd) _ IH]; constructor; [|done].
      cbn. by rewrite Hd.
    + exists ss. split; [|done]. apply mapM_Res_Ok. by apply Htexts.
Qed.

(** [body["choices"][0]["message"]["content"]]. *)
Definition message_content (body : PyVal) : Res PyVal :=
  choices ← subscript body "choices";
  choice ← subscript_0 choices;
  message ← subscript choice "message";
  subscript message "content".

Lemma message_content_Ok body content : message_content body = Ok content <-> first_content body content.
Proof.
  unfold message_content, first_content. split.
  - intros H. res_invert H. apply subscript_Ok in Hv as (b & -> & Eb), Hv1 as (c & -> & Ec), H as (m & -> & Em).
    destruct v as [| | | |[]|[|x rest]| |]; try discriminate Hv0; injection Hv0 as ->; try discriminate.
    by exists b, c, m, rest.
  - intros (b & c & m & rest & -> & Eb & Ec & Em). cbn [subscript]. unfold item.
    rewrite Eb. cbn [or_raise]. rewrite res_bind_ret. cbn [subscript_0]. rewrite res_bind_ret. cbn [subscript]. unfold item.
    rewrite Ec. cbn [or_raise]. rewrite res_bind_ret. cbn [subscript]. unfold item. by rewrite Em.
Qed.

(** Parts are joined when all of them are objects with a text. *)
Lemma join_parts_Raise parts e : join_parts parts = Raise e ->
  if existsb (fun part => negb (is_object part)) parts then exn_type e = AttributeError
  else exn_type e = TypeError.
Proof.
  assert (forall ts e, mapM text_of ts = Raise e -> exn_type e = TypeError) as Htexts.
  { intros ts e' (t & _ & H)%mapM_Res_Raise. destruct t; cbn in H; unfold raise in H; try done; by injection H as <-. }
  unfold join_parts. rewrite res_bind_Raise. intros [H|(ts & Hts & H)].
  - apply mapM_Res_Raise in H as (p & Hin & H).
    rewrite (proj2 (existsb_exists _ _)) by
      (exists p; split; [by apply list_elem_of_In|by destruct p]).
    by destruct p; cbn in H; unfold raise in H; try done; injection H as <-.
  - replace (existsb _ _) with false; [apply res_bind_Raise in H as [H|(ss & _ & H)]; [by eapply Htexts|done]|].
    symmetry. apply not_true_iff_false. rewrite existsb_exists. intros (p & Hp%list_elem_of_In & Hobj).
    apply mapM_Res_Ok in Hts. apply list_elem_of_lookup in Hp as [i Hi].
    destruct (Forall2_lookup_l _ _ _ _ _ Hts Hi) as (t & _ & Ht). by destruct p.
Qed.

Section Contract.
Context (orjson_loads : string -> Res PyVal) (orjson_dumps : PyVal -> string).
Context (raise_for_status : Response -> Res unit).
Context (validate_request_model : PyVal -> Res RebookingRequest)
        (validate_ranking : list (string * PyVal) -> Res (list UUID * string * bool)).
Context (dump_request : RebookingRequest -> PyVal) (dump_option : RebookingOptionSchema -> PyVal)
        (dump_credit : TravelCreditSchema -> PyVal).
Context (self : OpenRouterLLM).

Abbreviation completion_of := (completion_of orjson_loads).
Abbreviation _complete := (_complete orjson_loads orjson_dumps raise_for_status self).
Abbreviation understand_request :=
  (understand_request orjson_loads orjson_dumps raise_for_status validate_request_model self).
Abbreviation evaluated :=
  (evaluate_options orjson_loads orjson_dumps raise_for_status validate_ranking
     dump_request dump_option dump_credit self).

(** The content as the text to parse. *)
Definition joined (content : PyVal) : Res PyVal :=
  match content with PList parts => join_parts parts | _ => Ok content end.

Lemma completion_steps response :
  completion_of response =
    (body ← orjson_loads (content response); c ← message_content body; c ← joined c; loads_value orjson_loads c).
Proof using Type.
  unfold OpenRouter.completion_of, message_content. destruct (orjson_loads (content response)); [|done]. cbn.
  by rewrite !res_bind_assoc; destruct (subscript _ "choices"); [|done]; cbn;
    rewrite !res_bind_assoc; destruct (subscript_0 _); [|done]; cbn;
    rewrite !res_bind_assoc; destruct (subscript _ "message").
Qed.

Lemma joined_text content text : joined content = Ok (PStr text) <-> content_is content text.
Proof using Type.
  unfold joined, content_is. split.
  - destruct content; try (intros [= ->]; by left) || done.
    intros (texts & Hp & [= ->])%join_parts_Ok. right. eauto.
  - intros [->|(parts & texts & -> & Hp & ->)]; [done|]. apply join_parts_Ok. eauto.
Qed.

Lemma completion_ok response v :
  completion_of response = Ok v <->
  exists body text, orjson_loads (content response) = Ok body /\ completion_says body text /\
    orjson_loads text = Ok v.
Proof using Type.
  rewrite completion_steps. unfold completion_says. split.
  - intros (body & Hb & (c & Hc & (t & Ht & Hv)%res_bind_Ok)%res_bind_Ok)%res_bind_Ok.
    destruct t; try discriminate Hv. exists body, s. split; [done|]. split; [|done]. exists c.
    by rewrite <- joined_text, <- message_content_Ok.
  - intros (body & text & Hb & (c & Hc%message_content_Ok & Ht%joined_text) & Hv).
    rewrite Hb, res_bind_ret, Hc, res_bind_ret, Ht, res_bind_ret. exact Hv.
Qed.

(** The one request a call makes. *)
Definition sent_prompt (system_prompt user_prompt : string) (outcome : Res Response) : Trace HttpOp :=
  [Ev (Post (completions_url self) (request_headers self)
         (orjson_dumps (request_body self system_prompt user_prompt))) outcome].

(** The response holds a JSON document in the text of its first choice. *)
Definition has_document (response : Response) : Prop :=
  exists body text v, orjson_loads (content response) = Ok body /\ completion_says body text /\
    orjson_loads text = Ok v.

(** Why a call of [_complete] fails: the HTTP client or the status raised; the
    response holds no document, which is reported as an invalid structured
    response; or it holds none because a content part is not an object, the
    one malformed body that is not reported as such. *)
Inductive CompleteFails (outcome : Res Response) : Exn -> Prop :=
  | fails_http e : outcome = Raise e -> CompleteFails outcome e
  | fails_status response e :
      outcome = Ok response -> raise_for_status response = Raise e -> CompleteFails outcome e
  | fails_body response :
      outcome = Ok response -> raise_for_status response = Ok tt -> ~ has_document response ->
      (forall body, orjson_loads (content response) = Ok body -> ~ stray_part body) ->
      CompleteFails outcome invalid_response
  | fails_part response body e :
      outcome = Ok response -> raise_for_status response = Ok tt -> ~ has_document response ->
      orjson_loads (content response) = Ok body -> stray_part body ->
      exn_type e = AttributeError -> CompleteFails outcome e.

(** The codec only raises [JSONDecodeError]. *)
Context (loads_raises : forall s, raises_only JSONDecodeError (orjson_loads s)).

Lemma caught_type e :
  exn_type e = KeyError \/ exn_type e = IndexError \/ exn_type e = TypeError \/ exn_type e = JSONDecodeError ->
  caught e = true.
Proof using Type. destruct e as [t m]. cbn. by intros [->|[->|[->| ->]]]. Qed.

Lemma message_content_Raise body e : message_content body = Raise e -> caught e = true.
Proof using Type.
  assert (forall v k e, subscript v k = Raise e -> caught e = true) as Hsub.
  { intros v k e0. destruct v; cbn; unfold item, raise; try (intros [= <-]; by apply caught_type; auto).
    destruct (entry k d); intros [= <-]. apply caught_type. auto. }
  assert (forall v e, subscript_0 v = Raise e -> caught e = true) as Hsub0.
  { intros v e0. destruct v as [| | | |[]|[]| |]; cbn; unfold raise; intros [= <-]; apply caught_type; auto. }
  unfold message_content. intros H. repeat (apply res_bind_Raise in H as [H|(? & ? & H)]; [by eauto|]). by eauto.
Qed.

(** A failure is caught unless a content part is no object. *)
Lemma completion_raises response e : completion_of response = Raise e ->
  (caught e = true /\ forall body, orjson_loads (content response) = Ok body -> ~ stray_part body) \/
  (caught e = false /\ exn_type e = AttributeError /\
   exists body, orjson_loads (content response) = Ok body /\ stray_part body).
Proof using loads_raises.
  assert (forall s e, orjson_loads s = Raise e -> caught e = true) as Hl.
  { intros s e' He. apply caught_type. right; right; right. by eapply loads_raises. }
  rewrite completion_steps. destruct (orjson_loads (content response)) as [body|e'] eqn:Hb.
  2: { intros [= ->]. left. split; [by eapply Hl|done]. }
  rewrite res_bind_ret. destruct (message_content body) as [c|e'] eqn:Hc.
  2: { intros [= ->]. left. split; [by eapply message_content_Raise|].
       intros b [= <-] (parts & Hp%message_content_Ok & _). congruence. }
  rewrite res_bind_ret. intros H.
  assert (forall b parts, Ok body = Ok b -> first_content b (PList parts) -> c = PList parts) as Hsame.
  { intros b parts [= <-] Hp%message_content_Ok. congruence. }
  apply res_bind_Raise in H as [H|(t & Ht & H)].
  - destruct c as [| | | | |parts| |]; try done. apply join_parts_Raise in H.
    destruct (existsb _ parts) eqn:Hs; [right|left].
    + split; [destruct e as [ty m]; cbn in *; by subst|]. split; [done|]. exists body. split; [done|].
      exists parts. by rewrite <- message_content_Ok.
    + split; [apply caught_type; auto|]. intros b Hb' (parts' & Hp & Hs'). injection (Hsame _ _ Hb' Hp) as ->. congruence.
  - left. split.
    + destruct t; cbn in H; unfold raise in H; try (by eapply Hl); injection H as <-; apply caught_type; auto.
    + intros b Hb' (parts' & Hp & Hs'). rewrite (Hsame _ _ Hb' Hp) in Ht. cbn in Ht.
      apply join_parts_Ok in Ht as (texts & Hf & _). apply existsb_exists in Hs' as (p & Hin%list_elem_of_In & Hp').
      apply list_elem_of_lookup in Hin as [i Hi]. destruct (Forall2_lookup_l _ _ _ _ _ Hf Hi) as (x & _ & d & -> & _).
      discriminate Hp'.
Qed.

Lemma completion_lacks response e : completion_of response = Raise e -> ~ has_document response.
Proof using Type.
  intros He (body & text & v & H). assert (completion_of response = Ok v) as Hv; [|congruence].
  apply completion_ok. by exists body, text.
Qed.

(** C36: a completion is one POST to the configured service with its key, model
    and both prompts, never repeated.  When its response is successful and holds
    a JSON document in the text of its first choice, the texts of several parts
    joined, it returns that document.  It fails with what the HTTP client or the
    status raised, and else only when there is no such document: with the error
    of an invalid structured response, or with an [AttributeError] exactly when
    a part of the content is no object. *)
Theorem complete_contract system_prompt user_prompt :
  wp (_complete system_prompt user_prompt) (fun r tr =>
    exists outcome, tr = sent_prompt system_prompt user_prompt outcome /\
      match r with
      | Ok v => exists response body text, outcome = Ok response /\
          raise_for_status response = Ok tt /\
          orjson_loads (content response) = Ok body /\ completion_says body text /\
          orjson_loads text = Ok v
      | Raise e => CompleteFails outcome e
      end).
Proof using loads_raises.
  unfold OpenRouter._complete. wp_step. wp_step; cbn beta iota.
  - wp_step. destruct (raise_for_status a) as [[]|e] eqn:Hs; cbn [of_res wp].
    + destruct (completion_of a) as [v|e] eqn:Hc; cbn [wp].
      * apply completion_ok in Hc as (body & text & Hb & Ht & Hv). eexists. split; [done|]. eauto 10.
      * destruct (caught e) eqn:Hcaught; cbn [wp]; eexists; (split; [done|]).
        -- destruct (completion_raises _ _ Hc) as [[_ Hb]|[Hb _]]; [|congruence].
           eapply fails_body; [done|done|by eapply completion_lacks|exact Hb].
        -- destruct (completion_raises _ _ Hc) as [[Hb _]|(_ & Ha & body & Hb & Hp)]; [congruence|].
           eapply fails_part; [done|done|by eapply completion_lacks|exact Hb|exact Hp|exact Ha].
    + eexists. split; [done|]. by eapply fails_status.
  - eexists. split; [done|]. by apply fails_http.
Qed.
(** What [_complete] guarantees, carried to the calls built on it. *)
Lemma complete_sends system_prompt user_prompt :
  wp (_complete system_prompt user_prompt) (fun r tr =>
    exists outcome, tr = sent_prompt system_prompt user_prompt outcome).
Proof using Type. unfold OpenRouter._complete. wp_steps; cbn [wp]; try (by eexists).
  all: destruct (raise_for_status a) as [[]|e]; cbn [of_res wp]; [|by eexists].
  all: destruct (completion_of a) as [v|e]; cbn [wp]; [by eexists|].
  all: destruct (caught e); cbn [wp]; by eexists.
Qed.

(** C37: an evaluation the client returns is about the request, options and
    credits it was asked about and ranks only ids of those flights and fares,
    whatever the model answered, at the cost of one request; the agent's
    evaluation node takes it as it is. *)
Theorem evaluation_grounded state rq search cs :
  request state = Some rq -> search_result state = Some search -> credits_result state = Some cs ->
  let options := sr_options search in
  let credits := cr_credits cs in
  wp (evaluated rq options credits) (fun r tr =>
    (exists outcome, tr = sent_prompt EVALUATE_OPTIONS
       (orjson_dumps (evaluation_prompt dump_request dump_option dump_credit rq options credits)) outcome) /\
    forall ev, r = Ok ev ->
      ev = with_context rq options credits ev /\
      (forall id, id ∈ ev_ranked_option_ids ev ->
         exists o, o ∈ options /\ (id = f_id (ro_flight o) \/ id = ff_id (ro_flight_fare o))) /\
      forall W (env : forall R, AgentOp R -> W -> Res R * W) w w',
        env _ (LlmEvaluateOptions rq options credits) w = (Ok ev, w') ->
        run env (AgentNodes.evaluate_options state) w = (Ok (put_evaluation ev), w')).
Proof using Type.
  intros Hrq Hs Hc options credits. unfold OpenRouter.evaluate_options. apply wp_bind.
  eapply wp_mono; [|apply complete_sends]. cbn beta. intros [v|e] tr (outcome & ->); [|by split; [eexists|]].
  apply wp_bind. destruct (evaluation_of validate_ranking v rq options credits) as [ev|e] eqn:Hev;
    cbn [of_res wp]; [|rewrite app_nil_r; by split; [eexists|]].
  cbv zeta. destruct (existsb _ _) eqn:Hids; cbn [wp throw mret Prog_ret]; rewrite !app_nil_r;
    (split; [by eexists|]); [done|]. intros ev' [= <-].
  assert (ev = with_context rq options credits ev) as Hctx.
  { destruct v; try discriminate Hev. cbn in Hev. destruct (validate_ranking d) as [[[? ?] ?]|]; [|done].
    cbn in Hev. by injection Hev as <-. }
  assert (forall id, id ∈ ev_ranked_option_ids ev -> id ∈ allowed_ids options) as Hall.
  { intros id Hid. destruct (decide (id ∈ allowed_ids options)) as [|Hn]; [done|].
    exfalso. apply not_true_iff_false in Hids. apply Hids, existsb_exists. exists id.
    split; [by apply list_elem_of_In|]. by rewrite bool_decide_eq_false_2. }
  split; [done|]. split.
  - intros id Hid. apply Hall in Hid. unfold allowed_ids in Hid. rewrite elem_of_app in Hid.
    destruct Hid as [Hid|Hid]; apply list_elem_of_fmap in Hid as (o & -> & Ho); eauto.
  - intros W env w w' Henv. unfold AgentNodes.evaluate_options. rewrite Hrq, Hs, Hc.
    fold options credits. rewrite run_bind, run_await, Henv.
    rewrite (proj2 (forallb_forall _ _)).
    + cbn. by rewrite <- Hctx.
    + intros id Hid. apply list_elem_of_In in Hid. by apply bool_decide_eq_true, Hall.
Qed.
End Contract.
