(* ===== verification/ReportTables.v ===== *)
(** The tables that [bench/report.py] prints, and the figure of
    [bench/openrouter_usage.py].

    The text of a float is a parameter; integers are printed in decimal. *)
From Stdlib Require Import Ascii String QArith.
From stdpp Require Import base numbers strings list sets gmap.
From S2P Require Import Prelude Models PyVal PyFloat Effects LoadGenerator LoadProperties LoadSummary LoadServices LoadRuns Report OpenRouter.
Local Open Scope string_scope.

(** [str(n)] of an integer. *)
Definition int_text (n : Z) : string :=
  if (n <? 0)%Z then "-" +:+ zero_padded 1 (Z.to_N (- n)) else zero_padded 1 (Z.to_N n).
Definition count_text (n : nat) : string := int_text (Z.of_nat n).

(** [level["services"].get(name, {})]. *)
Fixpoint use_of (name : string) (services : list (string * ServiceUse)) : option ServiceUse :=
  match services with
  | [] => None
  | (k, u) :: rest => if name =? k then Some u else use_of name rest
  end.

(** What the report reads of a level of the results file. *)
Definition level_in (lr : LevelResult) : Level :=
  level_of (lr_summary lr) (cpu_percent_mean <$> use_of "worker" (lr_services lr)).

Section Tables.
Context (float_text : Q -> string).

Definition number_cell (value : option Q) (suffix : string) : string := cell (float_text <$> value) suffix.
Definition peak_of (name : string) (lr : LevelResult) : option Q :=
  u ← use_of name (lr_services lr); cpu_percent_max u.

(** The table of a run: its header, its rule and the row of a level. *)
Definition level_header : string :=
  "| users | ok | failed | thr conv/s | conv p50 | conv p95 | conv p99 | server p95 | client gap p95 " +:+
  "| queue wait p95 | job exec p95 | retried | queue max | worker CPU mean/max | worker mem max " +:+
  "| CPU-ms/conv | api CPU max | postgres CPU max | generator CPU max |".
Definition rule (columns : nat) : string := "| " +:+ String.concat " | " (repeat "---" columns) +:+ " |".

Definition level_row (lr : LevelResult) : string :=
  let s := lr_summary lr in
  let worker := use_of "worker" (lr_services lr) in
  String.concat "" [
    "| "; int_text (Z.of_N (s_users s)); " | "; count_text (s_conversations_ok s); " | ";
    count_text (s_conversations_failed s); " | "; float_text (s_throughput s); " | ";
    number_cell (p50 (s_conversation_ms s)) " ms"; " | "; number_cell (p95 (s_conversation_ms s)) " ms"; " | ";
    number_cell (p99 (s_conversation_ms s)) " ms"; " | ";
    number_cell (p95 (s_server_conversation_ms s)) " ms"; " | ";
    number_cell (p95 (s_client_gap_ms s)) " ms"; " | ";
    number_cell (p95 (s_job_queue_wait_ms s)) " ms"; " | ";
    number_cell (p95 (s_job_execution_ms s)) " ms"; " | "; count_text (s_retried_jobs s); " | ";
    cell (int_text <$> s_queue_ready_max s) ""; " | ";
    number_cell (cpu_percent_mean <$> worker) "%"; " / ";
    number_cell (u ← worker; cpu_percent_max u) "%"; " | ";
    number_cell (u ← worker; mem_mib_max u) " MiB"; " | ";
    number_cell (cpu_ms_per_conversation (level_in lr)) " ms"; " | ";
    number_cell (peak_of "api" lr) "%"; " | "; number_cell (peak_of "postgres" lr) "%"; " | ";
    number_cell (Some (lr_generator_cpu_percent lr)) "%"; " |"].

(** The summary table: one row per run; a run without levels raises. *)
Definition summary_header : string :=
  "| run | capacity (concurrent conversations) | p95 SLO | peak throughput | worker CPU-ms per conversation |".

Definition summary_row (slo_factor max_error_rate : Q) (run_label : string) (levels : list Level) : Res string :=
  let '(users, slo) := capacity levels slo_factor max_error_rate in
  best ← peak levels;
  Ok (String.concat "" [
    "| "; run_label; " | "; cell ((fun n => int_text (Z.of_N n)) <$> users) ""; " | ";
    cell (if nonzero slo then (fun q => int_text (round_half_even q)) <$> slo else None) " ms"; " | ";
    float_text (lv_throughput best); " conv/s at "; int_text (Z.of_N (lv_users best)); " users | ";
    number_cell (cheapest levels) " ms"; " |"]).

(** * Every row has the columns of its header *)

Fixpoint bars (s : string) : nat :=
  match s with "" => 0 | String c s' => (if (c =? "|")%char then 1 else 0) + bars s' end.

Lemma bars_app s t : bars (s +:+ t) = (bars s + bars t)%nat.
Proof. induction s as [|c s IH]; [done|]. change (bars (String c (s +:+ t)) = bars (String c s) + bars t)%nat. cbn. rewrite IH. lia. Qed.

Lemma bars_concat l : bars (String.concat "" l) = sum_list (bars <$> l).
Proof.
  induction l as [|s [|t l] IH]; [done|cbn; lia|].
  change (bars (s +:+ ("" +:+ String.concat "" (t :: l))) = (bars s + sum_list (bars <$> t :: l))%nat).
  by rewrite !bars_app, IH.
Qed.

Lemma bars_free s : free_of "|" s = true -> bars s = 0%nat.
Proof.
  induction s as [|c s IH]; cbn; [done|]. intros H. apply andb_true_iff in H as [Hc Hs].
  apply negb_true_iff in Hc. by rewrite Hc, IH.
Qed.

Lemma bars_int n : bars (int_text n) = 0%nat.
Proof.
  unfold int_text. destruct (n <? 0)%Z; [rewrite bars_app; cbn|];
    apply bars_free, zero_padded_free; done.
Qed.

Context (Hfloat : forall q, bars (float_text q) = 0%nat).

Lemma bars_cell value suffix : bars suffix = 0%nat -> bars (number_cell value suffix) = 0%nat.
Proof using Hfloat.
  intros Hs. unfold number_cell, cell. destruct value as [q|]; [|done]. cbn.
  by rewrite bars_app, Hfloat, Hs.
Qed.

Lemma bars_cell_int (value : option Z) suffix : bars suffix = 0%nat ->
  bars (cell (int_text <$> value) suffix) = 0%nat.
Proof. intros Hs. unfold cell. destruct value as [n|]; [|done]. cbn. by rewrite bars_app, bars_int, Hs. Qed.

Theorem level_rows_fit lr :
  bars (level_row lr) = bars level_header /\ bars (rule 19) = bars level_header.
Proof using Hfloat.
  split; [|done]. unfold level_row. rewrite bars_concat. cbn [fmap list_fmap].
  rewrite !bars_cell, !bars_cell_int, Hfloat by done. unfold count_text. rewrite !bars_int. done.
Qed.

(** A run whose results hold a level has a row, which fits; one without any
    ends the report. *)
Theorem summary_rows_fit slo_factor max_error_rate run_label levels : bars run_label = 0%nat ->
  match summary_row slo_factor max_error_rate run_label levels with
  | Ok row => bars row = bars summary_header /\ levels <> []
  | Raise e => exn_type e = ValueError /\ levels = []
  end.
Proof using Hfloat.
  intros Hl. unfold summary_row. destruct (capacity levels slo_factor max_error_rate) as [users slo].
  destruct levels as [|l levels]; [done|]. destruct (peak (l :: levels)) as [best|e] eqn:Ep; [|done].
  cbn [mbind Res_bind]. split; [|done]. rewrite bars_concat. cbn [fmap list_fmap].
  rewrite Hl, bars_cell, Hfloat, bars_int by done.
  assert (bars (cell ((fun n => int_text (Z.of_N n)) <$> users) "") = 0%nat) as ->.
  { destruct users; [|done]. cbn. by rewrite bars_app, bars_int. }
  assert (bars (cell (if nonzero slo then (fun q => int_text (round_half_even q)) <$> slo else None) " ms")
          = 0%nat) as ->.
  { destruct (nonzero slo), slo; try done. cbn. by rewrite bars_app, bars_int. }
  done.
Qed.
End Tables.

(** * [openrouter_usage.py] *)

Section Usage.
Context (environ : string -> option string).

(** The URL and the [Authorization] header of the request. *)
Definition usage_request : Res (string * string) :=
  let url := rstrip_slash (default "https://openrouter.ai/api/v1" (environ "OPENROUTER_BASE_URL")) +:+ "/key" in
  key ← or_raise (environ "OPENROUTER_API_KEY") KeyError "OPENROUTER_API_KEY";
  Ok (url, "Bearer " +:+ key).

(** [json.load(response)["data"]["usage"]]. *)
Definition usage_of (response : PyVal) : Res PyVal :=
  data ← subscript response "data"; subscript data "usage".
End Usage.

Definition slashes (n : nat) : string := string_of_list_ascii (repeat "/"%char n).

Lemma rstrip_slashes n : rstrip_slash (slashes n) = "".
Proof. induction n as [|n IH]; [done|]. cbn. unfold slashes in IH. by rewrite IH. Qed.

Lemma rstrip_slash_app base n : last (list_ascii_of_string base) <> Some "/"%char ->
  rstrip_slash (base +:+ slashes n) = base.
Proof.
  induction base as [|c base IH]; intros Hl; [apply rstrip_slashes|].
  change (rstrip_slash (String c base +:+ slashes n)) with
    (if Ascii.eqb c "/" && (rstrip_slash (base +:+ slashes n) =? "") then ""
     else String c (rstrip_slash (base +:+ slashes n))).
  destruct base as [|c' base].
  - change ("" +:+ slashes n) with (slashes n). rewrite rstrip_slashes. cbn. destruct (Ascii.eqb_spec c "/"); [by subst|done].
  - rewrite IH by exact Hl. cbn. by rewrite andb_false_r.
Qed.

(** However many slashes end the base URL, the endpoint is the same. *)
Theorem usage_url environ base n key : last (list_ascii_of_string base) <> Some "/"%char ->
  environ "OPENROUTER_BASE_URL" = Some (base +:+ slashes n) ->
  environ "OPENROUTER_API_KEY" = Some key ->
  usage_request environ = Ok (base +:+ "/key", "Bearer " +:+ key).
Proof.
  intros Hl Hb Hk. unfold usage_request. rewrite Hb, Hk. cbn [default or_raise mbind Res_bind id].
  by rewrite rstrip_slash_app.
Qed.
