(* ===== verification/FakeLlm.v ===== *)
(** The deterministic language model of the integration and controlled runs:
    [tests/integration/fake-llm/server.py].

    [do_POST] maps the body of a chat completion request to the body of its
    response; the delay it adds is not modelled, and its texts are ASCII
    ([str.lower] and the classes of [re]).  [fake_http] serves the operations of
    the client of OpenRouter with it; the theorems say that the two fit: what the
    fake answers, the client accepts. *)
From Stdlib Require Import Ascii String.
From stdpp Require Import base numbers strings list.
From S2P Require Import Prelude Models Uuid PyVal Effects Config AgentState AgentNodes OpenRouter.
Local Open Scope string_scope.

(** * [booking_reference] *)

Definition is_digit (c : ascii) : bool :=
  let n := nat_of_ascii c in (48 <=? n)%nat && (n <=? 57)%nat.
(** [\w]: letters, digits and the underscore. *)
Definition is_word (c : ascii) : bool :=
  let n := nat_of_ascii c in
  is_digit c || ((65 <=? n)%nat && (n <=? 90)%nat) || ((97 <=? n)%nat && (n <=? 122)%nat) || (n =? 95)%nat.

(** [n] digits at the start of a text: the digits and the rest. *)
Fixpoint take_digits (n : nat) (s : string) : option (string * string) :=
  match n, s with
  | O, _ => Some ("", s)
  | S n', String c s' =>
      if is_digit c then '(ds, rest) ← take_digits n' s'; Some (String c ds, rest) else None
  | S _, "" => None
  end.

Definition word_starts (s : string) : bool :=
  match s with String c _ => is_word c | "" => false end.

(** [BK\d{6}\b] at the start of a text. *)
Definition match_reference (s : string) : option string :=
  match s with
  | String b (String k s') =>
      if Ascii.eqb b "B" && Ascii.eqb k "K" then
        '(ds, rest) ← take_digits 6 s';
        if word_starts rest then None else Some ("BK" +:+ ds)
      else None
  | _ => None
  end.

(** [BENCH_REFERENCE.search]: the first match at a word boundary; [in_word]
    says whether the character before the text belongs to a word. *)
Fixpoint search_reference (in_word : bool) (s : string) : option string :=
  match s with
  | "" => None
  | String c s' =>
      match (if in_word then None else match_reference s) with
      | Some m => Some m
      | None => search_reference (is_word c) s'
      end
  end.

(** [text.lower()] and [needle in text]. *)
Definition lower_char (c : ascii) : ascii :=
  let n := nat_of_ascii c in
  if (65 <=? n)%nat && (n <=? 90)%nat then ascii_of_nat (n + 32) else c.
Fixpoint lower (s : string) : string :=
  match s with "" => "" | String c s' => String (lower_char c) (lower s') end.
Fixpoint contains (needle s : string) : bool :=
  String.prefix needle s || match s with "" => false | String _ s' => contains needle s' end.

Definition booking_reference (prompt : string) : string :=
  match search_reference false prompt with
  | Some m => m
  | None =>
      let lowered := lower prompt in
      if contains "alice" lowered || contains "abc123" lowered then "ABC123"
      else if contains "carla" lowered then "GHI789"
      else "DEF456"
  end.

(** * [Handler.do_POST] *)

(** [value[-1]]. *)
Definition subscript_last (value : PyVal) : Res PyVal :=
  match value with
  | PList l => or_raise (last l) IndexError "list index out of range"
  | PDict _ => raise KeyError "-1"
  | _ => raise TypeError "object is not subscriptable"
  end.

(** [value.get(key, default)], [value.lower()] and [a or b]. *)
Definition get_attr (value : PyVal) (key : string) (default : PyVal) : Res PyVal :=
  match value with
  | PDict d => Ok (get_or d key default)
  | _ => raise AttributeError "object has no attribute 'get'"
  end.
Definition lowered (value : PyVal) : Res string :=
  match value with
  | PStr s => Ok (lower s)
  | _ => raise AttributeError "object has no attribute 'lower'"
  end.
Definition py_or (a : PyVal) (b : Res PyVal) : Res PyVal := if truthy a then Ok a else b.

Definition understanding (system : string) : bool :=
  contains "understand" system || (contains "booking" system && contains "departure" system).

Section Server.
Context (json_loads : string -> Res PyVal) (json_dumps : PyVal -> string).

Definition parse_text (value : PyVal) : Res PyVal :=
  match value with
  | PStr s => json_loads s
  | _ => raise TypeError "the JSON object must be str, bytes or bytearray"
  end.

Definition understood (prompt : PyVal) : Res PyVal :=
  match prompt with
  | PStr s => Ok (PDict [
      ("booking_reference", PStr (booking_reference s));
      ("departure_from", PStr "2026-09-21T00:00:00Z");
      ("departure_to", PStr "2026-09-23T23:59:59Z")])
  | _ => raise TypeError "expected string or bytes-like object"
  end.

Definition ranked (prompt : PyVal) : Res PyVal :=
  data ← parse_text prompt;
  small ← get_attr data "options" PNone;
  options ← py_or small (get_attr data "Options" (PList []));
  first ← (if truthy options then subscript_0 options else Ok (PDict []));
  flight ← get_attr first "flight" PNone;
  flight ← py_or flight (capital ← get_attr first "Flight" PNone; py_or capital (Ok (PDict [])));
  ids ← (if truthy options then
           id ← get_attr flight "id" PNone;
           id ← py_or id (get_attr flight "ID" PNone);
           mret [id]
         else mret []);
  mret (PDict [
    ("ranked_option_ids", PList ids);
    ("summary", PStr "deterministic integration option");
    ("has_matching_option", PBool (truthy options))]).

Definition do_POST (body : string) : Res string :=
  request ← json_loads body;
  messages ← subscript request "messages";
  head ← subscript_0 messages;
  system ← subscript head "content";
  tail ← subscript_last messages;
  prompt ← subscript tail "content";
  system ← lowered system;
  result ← (if understanding system then understood prompt else ranked prompt);
  mret (json_dumps (PDict [
    ("model", PStr "fake-integration");
    ("choices", PList [PDict [
       ("message", PDict [("content", PStr (json_dumps result))]);
       ("finish_reason", PStr "stop")]])])).

(** The server behind the client: a request it cannot answer breaks the
    connection. *)
Definition fake_http R (op : HttpOp R) (calls : nat) : Res R * nat :=
  match op in HttpOp R return Res R * nat with
  | Post _ _ body =>
      (match do_POST body with
       | Ok answer => Ok (mkResponse 200 answer)
       | Raise _ => raise InfraError "server disconnected without sending a response"
       end, S calls)
  | Aclose => (Ok tt, calls)
  end.
End Server.

(** * The fake fits the client *)

(** The two prompts are told apart. *)
Lemma understands_prompts :
  understanding (lower UNDERSTAND_REQUEST) = true /\ understanding (lower EVALUATE_OPTIONS) = false.
Proof. by vm_compute. Qed.

Section Fit.
(** Both sides speak JSON: a text one of them writes is read back by the other. *)
Context (loads : string -> Res PyVal) (dumps : PyVal -> string).
Context (loads_dumps : forall v, loads (dumps v) = Ok v).
Context (raise_for_status : Response -> Res unit).
Context (success : forall r, status_code r = 200%Z -> raise_for_status r = Ok tt).
Context (validate_request_model : PyVal -> Res RebookingRequest)
        (validate_ranking : list (string * PyVal) -> Res (list UUID * string * bool)).
Context (dump_request : RebookingRequest -> PyVal) (dump_option : RebookingOptionSchema -> PyVal)
        (dump_credit : TravelCreditSchema -> PyVal).
Context (self : OpenRouterLLM).

Lemma fake_completes system prompt result calls :
  (if understanding (lower system) then understood (PStr prompt) else ranked loads (PStr prompt)) = Ok result ->
  run (fake_http loads dumps) (_complete loads dumps raise_for_status self system prompt) calls
    = (Ok result, S calls).
Proof using loads_dumps success.
  intros Hr. unfold _complete. rewrite run_bind, run_await. unfold fake_http, do_POST.
  rewrite loads_dumps, res_bind_ret. unfold request_body. cbn -[understanding understood ranked].
  rewrite Hr. cbn [mbind Res_bind]. cbn -[completion_of].
  rewrite success by done. cbn -[completion_of].
  unfold completion_of. cbn [content]. rewrite loads_dumps. cbn. rewrite loads_dumps. done.
Qed.

(** The fake model understands a request: through the client it yields the
    booking reference found in the user's text and the fixed window, with one
    request. *)
Theorem fake_understands text calls :
  run (fake_http loads dumps)
    (understand_request loads dumps raise_for_status validate_request_model self text) calls =
  (validate_request_model (PDict [
     ("booking_reference", PStr (booking_reference text));
     ("departure_from", PStr "2026-09-21T00:00:00Z");
     ("departure_to", PStr "2026-09-23T23:59:59Z")]), S calls).
Proof using loads_dumps success.
  unfold understand_request. rewrite run_bind.
  erewrite fake_completes by (rewrite (proj1 understands_prompts); reflexivity).
  by destruct (validate_request_model _).
Qed.

(** The dump of an option names its flight's id, and pydantic reads a list of
    UUIDs written as text. *)
Context (dump_flight : forall o, exists d f, dump_option o = PDict d /\
  entry "flight" d = Some (PDict f) /\ entry "id" f = Some (PStr (uuid_str (f_id (ro_flight o))))).
Context (parse_ranking : forall ids summary matching, Forall uuid_ok ids -> validate_ranking [
    ("ranked_option_ids", PList ((fun id => PStr (uuid_str id)) <$> ids));
    ("summary", PStr summary); ("has_matching_option", PBool matching)] = Ok (ids, summary, matching)).

Lemma uuid_text u : (uuid_str u =? "") = false.
Proof. done. Qed.

Lemma fake_ranks_options rq os cs :
  ranked loads (PStr (dumps (evaluation_prompt dump_request dump_option dump_credit rq os cs))) =
  Ok (PDict [
    ("ranked_option_ids",
       PList ((fun id => PStr (uuid_str id)) <$> option_list ((fun o => f_id (ro_flight o)) <$> head os)));
    ("summary", PStr "deterministic integration option");
    ("has_matching_option", PBool (negb (bool_decide (os = []))))]).
Proof using loads_dumps dump_flight.
  unfold ranked. cbn [parse_text]. rewrite loads_dumps, res_bind_ret.
  destruct os as [|o os]; [done|].
  destruct (dump_flight o) as (d & f & Ed & Ef & Ei).
  cbn. rewrite Ed.
  assert (forall x l, truthy (PList (x :: l)) = true) as Htl by done.
  assert (truthy (PDict f) = true) as Htf by (by destruct f).
  unfold py_or. rewrite Htl, res_bind_ret, Htl. cbn [subscript_0]. rewrite res_bind_ret.
  cbn [get_attr]. rewrite res_bind_ret. 
  assert (get_or d "flight" PNone = PDict f) as -> by (unfold get_or; by rewrite Ef).
  rewrite Htf, res_bind_ret. cbv iota. cbn [get_attr].
  assert (get_or f "id" PNone = PStr (uuid_str (f_id (ro_flight o)))) as ->
    by (unfold get_or; by rewrite Ei).
  rewrite res_bind_ret. cbn [truthy]. by rewrite uuid_text.
Qed.

(** What the fake model ranks, the client accepts: for all options, it ranks
    the first one's flight, says whether there is any, and the check for unknown
    ids passes. *)
Theorem fake_ranking_accepted rq os cs calls :
  Forall (fun o => uuid_ok (f_id (ro_flight o))) os ->
  run (fake_http loads dumps)
    (evaluate_options loads dumps raise_for_status validate_ranking
       dump_request dump_option dump_credit self rq os cs) calls =
  (Ok (mkEvaluation rq os cs (option_list ((fun o => f_id (ro_flight o)) <$> head os))
         "deterministic integration option" (negb (bool_decide (os = [])))), S calls).
Proof using loads_dumps success dump_flight parse_ranking.
  intros Hos. unfold evaluate_options. rewrite run_bind.
  erewrite fake_completes by (rewrite (proj2 understands_prompts); apply fake_ranks_options).
  unfold evaluation_of. rewrite parse_ranking by (destruct Hos; cbn; by repeat constructor).
  cbn -[bool_decide].
  destruct os as [|o os]; [done|]. cbn. rewrite bool_decide_eq_true_2; [done|].
  rewrite elem_of_cons. by left.
Qed.
End Fit.
