(* ===== verification/Application.v ===== *)
(** The application's life: [lifespan] of [app/main.py], with the connection
    set-up of [platform/postgres.py] and what it calls of the other clients.

    The awaited operations open, check, use and close the clients.  [Resources]
    is the state of the local variables the [finally] block looks at. *)
From Stdlib Require Import Ascii String.
From stdpp Require Import base numbers strings list sets.
From S2P Require Import Prelude PyVal Effects Config OpenRouter.
Local Open Scope string_scope.

(** * platform/postgres.py *)

(** [text.replace(old, new, 1)]. *)
Fixpoint replace_first (old new s : string) : string :=
  if String.prefix old s then new +:+ String.substring (String.length old) (String.length s) s
  else match s with
       | "" => ""
       | String c s' => String c (replace_first old new s')
       end.

(** The arguments of [create_async_engine] and [asyncpg.create_pool]. *)
Record EngineConfig := mkEngineConfig {
  ec_url : string; ec_pool_size : Z; ec_max_overflow : Z; ec_pool_recycle : Z; ec_pre_ping : bool }.
Record PoolConfig := mkPoolConfig {
  pc_dsn : string; pc_min_size : Z; pc_max_size : Z; pc_lifetime : Z }.

Definition create_engine (settings : Settings) : EngineConfig := {|
  ec_url := replace_first "postgresql://" "postgresql+asyncpg://" (database_url settings);
  ec_pool_size := max_open_conns settings;
  ec_max_overflow := 0;
  ec_pool_recycle := conn_max_lifetime_minutes settings * 60;
  ec_pre_ping := true |}.

Definition create_pool (settings : Settings) : PoolConfig := {|
  pc_dsn := database_url settings;
  pc_min_size := Z.min (max_idle_conns settings) (max_open_conns settings);
  pc_max_size := max_open_conns settings;
  pc_lifetime := conn_max_lifetime_minutes settings * 60 |}.

(** * main.py *)

Inductive AppOp : Type -> Type :=
  | CreatePool (config : PoolConfig) : AppOp unit
  | PoolSelect1 : AppOp unit
  | CreateEngine (config : EngineConfig) : AppOp unit
  | EngineSelect1 : AppOp unit
  | NewHttpClient (max_connections timeout : Z) : AppOp unit
  (* [AsyncConnectionPool(..., open=False)], which may refuse its sizes *)
  | NewCheckpointPool (url : string) (max_size : Z) : AppOp unit
  | OpenCheckpoints : AppOp unit
  | SetupCheckpoints : AppOp unit
  (* [create_client]: the client object, then its first command *)
  | NewRedis (url : string) (max_connections : Z) : AppOp unit
  | PingRedis : AppOp unit
  (* [RabbitMQ.connect]: the connection, then its channel and queues *)
  | OpenRabbit (url : string) : AppOp unit
  | DeclareQueues : AppOp unit
  | StartJobs : AppOp unit
  | Serve : AppOp unit
  | StopJobs : AppOp unit
  | CloseRabbit : AppOp unit
  | CloseLlm : AppOp unit
  | CloseCheckpoints : AppOp unit
  | CloseRedis : AppOp unit
  | ClosePool : AppOp unit
  | DisposeEngine : AppOp unit.
Notation AppM := (Prog AppOp).

Inductive Resource := Jobs | Rabbit | Llm | Checkpoints | RedisClient | Pool | Engine.
#[export] Instance Resource_eq_dec : EqDecision Resource.
Proof. solve_decision. Defined.

(** The variables that are no longer [None]. *)
Notation Resources := (list Resource).

Section Lifespan.
Context (settings : Settings).

(** [create_client] and [RabbitMQ.connect] return, and so set the variable,
    only when all they do succeeds. *)
Definition create_client : AppM unit :=
  await (NewRedis (redis_url settings) (redis_pool_size settings));; await PingRedis.
Definition rabbit_connect : AppM unit :=
  await (OpenRabbit (rabbitmq_url settings));; await DeclareQueues.

(** [OpenRouterLLM(settings)]. *)
Definition new_llm : AppM unit :=
  of_res (OpenRouterLLM_init settings false);;
  await (NewHttpClient (llm_max_connections settings) (llm_timeout_seconds settings)).

(** The [try] block, with the variables it leaves and the exception that
    ended it. *)
Definition serve : AppM (Resources * option Exn) :=
  let continue (open : Resources) : AppM (Resources * option Exn) :=
    attempt new_llm open (fun _ =>
    let open := Llm :: open in
    attempt (await (NewCheckpointPool (database_url settings) (max_open_conns settings))) open (fun _ =>
    let open := Checkpoints :: open in
    attempt (await OpenCheckpoints) open (fun _ =>
    attempt (if run_migrations settings then await SetupCheckpoints else mret tt) open (fun _ =>
    attempt create_client open (fun _ =>
    let open := RedisClient :: open in
    attempt rabbit_connect open (fun _ =>
    let open := Rabbit :: open in
    let open := Jobs :: open in
    attempt (await StartJobs) open (fun _ =>
    attempt (await Serve) open (fun _ => mret (open, None))))))))) in
  if data_access settings =? "asyncpg" then
    attempt (await (CreatePool (create_pool settings))) [] (fun _ =>
    let open := [Pool] in
    attempt (await PoolSelect1) open (fun _ => continue open))
  else
    attempt (await (CreateEngine (create_engine settings))) [] (fun _ =>
    let open := [Engine] in
    attempt (await EngineSelect1) open (fun _ => continue open)).

(** One [if x is not None: await x.close()] of the [finally] block. *)
Definition close_op (r : Resource) : AppOp unit :=
  match r with
  | Jobs => StopJobs | Rabbit => CloseRabbit | Llm => CloseLlm | Checkpoints => CloseCheckpoints
  | RedisClient => CloseRedis | Pool => ClosePool | Engine => DisposeEngine
  end.
Definition release_order : list Resource := [Jobs; Rabbit; Llm; Checkpoints; RedisClient; Pool; Engine].
Fixpoint release (order : list Resource) (open : Resources) : AppM unit :=
  match order with
  | [] => mret tt
  | r :: order' => (if bool_decide (r ∈ open) then await (close_op r) else mret tt);; release order' open
  end.

Definition lifespan : AppM unit :=
  '(open, error) ← serve;
  release release_order open;;
  match error with Some e => Throw e | None => mret tt end.
End Lifespan.

Definition health : list (string * string) := [("status", "ok")].

(** * What is opened is closed *)

(** The clients a successful operation made: the checkpoint pool and the job
    service exist before they are opened and started. *)
Definition opened_by {R} (o : AppOp R) (r : Res R) : option Resource :=
  match o, r with
  | CreatePool _, Ok _ => Some Pool
  | CreateEngine _, Ok _ => Some Engine
  | NewHttpClient _ _, Ok _ => Some Llm
  | NewCheckpointPool _ _, Ok _ => Some Checkpoints
  | NewRedis _ _, Ok _ => Some RedisClient
  | OpenRabbit _, Ok _ => Some Rabbit
  | StartJobs, _ => Some Jobs
  | _, _ => None
  end.
Definition closed_by {R} (o : AppOp R) : option Resource :=
  match o with
  | StopJobs => Some Jobs | CloseRabbit => Some Rabbit | CloseLlm => Some Llm
  | CloseCheckpoints => Some Checkpoints | CloseRedis => Some RedisClient
  | ClosePool => Some Pool | DisposeEngine => Some Engine
  | _ => None
  end.
Definition opened (tr : Trace AppOp) : list Resource :=
  omap (fun ev => match ev with Ev o r => opened_by o r end) tr.
Definition closed (tr : Trace AppOp) : list Resource :=
  omap (fun ev => match ev with Ev o _ => closed_by o end) tr.

(** The clients whose opening was not completed: [None] is left in the
    variable though the client exists. *)
Definition orphaned_by {R} (o : AppOp R) (r : Res R) : option Resource :=
  match o, r with
  | PingRedis, Raise _ => Some RedisClient
  | DeclareQueues, Raise _ => Some Rabbit
  | _, _ => None
  end.
Definition orphaned (tr : Trace AppOp) : list Resource :=
  omap (fun ev => match ev with Ev o r => orphaned_by o r end) tr.

Definition closing (ev : Event AppOp) : bool :=
  match ev with Ev o _ => bool_decide (is_Some (closed_by o)) end.
Definition raised (ev : Event AppOp) : bool := match ev with Ev _ (Raise _) => true | _ => false end.
Definition served (tr : Trace AppOp) : bool :=
  existsb (fun ev => match ev with Ev Serve _ => true | _ => false end) tr.

Lemma opened_app tr tr' : opened (tr ++ tr')%list = (opened tr ++ opened tr')%list.
Proof. apply omap_app. Qed.
Lemma closed_app tr tr' : closed (tr ++ tr')%list = (closed tr ++ closed tr')%list.
Proof. apply omap_app. Qed.
Lemma orphaned_app tr tr' : orphaned (tr ++ tr')%list = (orphaned tr ++ orphaned tr')%list.
Proof. apply omap_app. Qed.
Lemma served_app tr tr' : served (tr ++ tr')%list = served tr || served tr'.
Proof. apply existsb_app. Qed.

(** The clients the variables should hold when [tr] has run. *)
Definition held (tr : Trace AppOp) (r : Resource) : bool :=
  bool_decide (r ∈ opened tr) && negb (bool_decide (r ∈ orphaned tr)).

(** What serves requests: everything, with the data access the settings name. *)
Definition serving (settings : Settings) : list Resource :=
  [Jobs; Rabbit; Llm; Checkpoints; RedisClient;
   if data_access settings =? "asyncpg" then Pool else Engine].

Lemma serve_opens settings :
  wp (serve settings) (fun r tr => exists open error, r = Ok (open, error) /\
    closed tr = [] /\ (forall x, bool_decide (x ∈ open) = held tr x) /\
    (served tr = true -> orphaned tr = [] /\ forall x, x ∈ opened tr <-> x ∈ serving settings)).
Proof.
  assert (forall open error tr,
    closed tr = [] -> forallb (fun x => Bool.eqb (bool_decide (x ∈ open)) (held tr x)) release_order = true ->
    (served tr = true -> orphaned tr = [] /\
       forallb (fun x => Bool.eqb (bool_decide (x ∈ opened tr)) (bool_decide (x ∈ serving settings))) release_order
       = true) ->
    exists open' error', Ok (open, error) = Ok (open', error') :> Res (Resources * option Exn) /\
      closed tr = [] /\ (forall x, bool_decide (x ∈ open') = held tr x) /\
      (served tr = true -> orphaned tr = [] /\ forall x, x ∈ opened tr <-> x ∈ serving settings)) as Hleaf.
  { intros open error tr Hc Ho Hs. rewrite forallb_forall in Ho. exists open, error.
    assert (forall x, In x release_order) as Hall by (intros []; cbn; tauto).
    split_and!; [done..|intros x; by apply eqb_prop, Ho|]. intros H. destruct (Hs H) as [Horph Hb].
    split; [done|]. rewrite forallb_forall in Hb. intros x. specialize (Hb x (Hall x)).
    apply eqb_prop in Hb.
    rewrite <- (bool_decide_eq_true (x ∈ opened tr)), <- (bool_decide_eq_true (x ∈ serving settings)).
    by rewrite Hb. }
  unfold serve, new_llm, create_client, rabbit_connect, attempt, serving in *.
  destruct (data_access settings =? "asyncpg"), (OpenRouterLLM_init settings false) as [c|e],
    (run_migrations settings); cbn [of_res];
    wp_steps; cbn [wp]; apply Hleaf; try reflexivity; try (intros [=]); split; reflexivity.
Qed.

(** Closing never opens, and stops only when a close raises. *)
Lemma release_closes order open :
  wp (release order open) (fun r tr => exists rest,
    List.filter (fun x => bool_decide (x ∈ open)) order = (closed tr ++ rest)%list /\
    opened tr = [] /\ orphaned tr = [] /\ served tr = false /\
    match r with
    | Ok _ => rest = [] /\ Forall (fun ev => raised ev = false) tr
    | Raise e => exists ev, last tr = Some ev /\ closing ev = true /\ raised ev = true
    end).
Proof.
  induction order as [|x order IH]; cbn [release List.filter].
  - cbn [wp mret Prog_ret]. by exists [].
  - destruct (bool_decide (x ∈ open)).
    + apply wp_bind, wp_await. intros [[]|e]; cbn beta iota.
      * eapply wp_mono; [|exact IH]. cbn beta. intros r tr (rest & Hf & Ho & Hor & Hs & Hr). exists rest.
        rewrite Hf. split; [by destruct x|]. split; [by destruct x|]. split; [by destruct x|].
        split; [by destruct x|]. destruct r; [|cbn [app]; by destruct tr; [destruct Hr as (? & [=] & _ & _)|]].
        destruct Hr as [-> Hr]. split; [done|]. by constructor.
      * exists (List.filter (fun y => bool_decide (y ∈ open)) order). split; [by destruct x|].
        split_and!; try (by destruct x). eexists. split_and!; [done|by destruct x|done].
    + apply wp_bind. cbn [wp mret Prog_ret]. eapply wp_mono; [|exact IH]. cbn [app]. done.
Qed.

(** What is closed, and when that stops: the clients the variables hold, in the
    order of the [finally] block. *)
Lemma lifespan_order settings :
  wp (lifespan settings) (fun r tr => exists rest,
    List.filter (held tr) release_order = (closed tr ++ rest)%list /\
    (rest = [] \/ exists ev, last tr = Some ev /\ closing ev = true /\ raised ev = true /\ r <> Ok tt) /\
    (served tr = true -> orphaned tr = [] /\ forall x, x ∈ opened tr <-> x ∈ serving settings)).
Proof.
  unfold lifespan. apply wp_bind. eapply wp_mono; [|apply serve_opens]. cbn beta.
  intros r tr (open & error & -> & Hc & Hopen & Hserve). cbn beta iota.
  apply wp_bind. eapply wp_mono; [|apply release_closes]. cbn beta.
  intros r' tr' (rest & Hf & Ho & Hor & Hs & Hr').
  assert (opened (tr ++ tr')%list = opened tr /\ orphaned (tr ++ tr')%list = orphaned tr /\
    closed (tr ++ tr')%list = closed tr' /\ served (tr ++ tr')%list = served tr) as (E1 & E2 & E3 & E4).
  { rewrite opened_app, orphaned_app, closed_app, served_app, Ho, Hor, Hc, Hs.
    by rewrite !app_nil_r, orb_false_r. }
  assert (List.filter (held (tr ++ tr')%list) release_order = (closed (tr ++ tr') ++ rest)%list) as Hfilter.
  { rewrite E3, <- Hf. apply List.filter_ext. intros x. unfold held. rewrite E1, E2. by rewrite Hopen. }
  destruct r' as [[]|e].
  - destruct Hr' as [-> _]. destruct error; cbn [wp mret Prog_ret]; rewrite app_nil_r;
      (exists []; split; [done|]; split; [by left|]; by rewrite E1, E2, E4).
  - exists rest. split; [done|]. split; [|by rewrite E1, E2, E4].
    right. destruct Hr' as (ev & Hl & Hcl & Hev). exists ev. split_and!; [|done..].
    rewrite last_app, Hl. done.
Qed.

Lemma release_order_all x : In x release_order.
Proof. destruct x; cbn; tauto. Qed.
Lemma release_order_once : NoDup release_order.
Proof. apply (bool_decide_eq_true_1 _). reflexivity. Qed.

(** C38: whatever fails while the application starts, serves or stops: it serves
    only with every client open, those of the configured data access included;
    it closes only clients it holds, none twice, the worker before any client
    that the worker uses; and it closes every client it holds, unless a close
    itself raises, which ends the application with an exception.  The one client
    it can lose is one whose first command failed, so that its variable was
    never set. *)
Theorem lifespan_releases settings :
  wp (lifespan settings) (fun r tr =>
    (served tr = true -> orphaned tr = [] /\ forall x, x ∈ opened tr <-> x ∈ serving settings) /\
    NoDup (closed tr) /\
    (forall x, x ∈ closed tr -> held tr x = true) /\
    (forall before x after, closed tr = (before ++ x :: after)%list ->
       x <> Jobs -> held tr Jobs = true -> Jobs ∈ before) /\
    ((forall x, held tr x = true -> x ∈ closed tr) \/
     exists ev, last tr = Some ev /\ closing ev = true /\ raised ev = true /\ r <> Ok tt)).
Proof.
  eapply wp_mono; [|apply lifespan_order]. cbn beta. intros r tr (rest & Hf & Hrest & Hserve).
  assert (forall x, held tr x = true <-> x ∈ (closed tr ++ rest)%list) as Hheld.
  { intros x. rewrite <- Hf, list_elem_of_In, List.filter_In. pose proof (release_order_all x). tauto. }
  split_and!.
  - exact Hserve.
  - apply (NoDup_app (closed tr) rest). rewrite <- Hf. apply NoDup_ListNoDup, List.NoDup_filter, NoDup_ListNoDup, release_order_once.
  - intros x Hx. apply Hheld, elem_of_app. by left.
  - intros before x after Hc Hx Hjobs. cbn [release_order List.filter] in Hf. rewrite Hjobs, Hc in Hf.
    destruct before as [|y before]; cbn in Hf; injection Hf as Hj _; [congruence|subst y; by left].
  - destruct Hrest as [->|Hev]; [left|by right]. intros x Hx. by rewrite app_nil_r in Hheld; apply Hheld.
Qed.

(** The configured connection bounds hold: for settings of any environment,
    both pools are capped by DB_MAX_OPEN_CONNS, the asyncpg pool's minimum
    never exceeds its maximum, and the engine never overflows its pool. *)
Theorem connection_bounds env settings : load_settings env = Ok settings ->
  (1 <= pc_max_size (create_pool settings))%Z /\
  (0 <= pc_min_size (create_pool settings) <= pc_max_size (create_pool settings))%Z /\
  ec_pool_size (create_engine settings) = pc_max_size (create_pool settings) /\
  ec_max_overflow (create_engine settings) = 0%Z /\
  (0 <= ec_pool_recycle (create_engine settings))%Z.
Proof.
  intros Hs. pose proof (load_settings_holds env) as Hok. rewrite Hs in Hok.
  destruct Hok as [_ _ _ _ (_ & _ & Hopen) _ [Hidle Hlife] _].
  unfold create_pool, create_engine. cbn. lia.
Qed.
