(* ===== verification/AgentGraph.v ===== *)
(** The airline rebooking graph: [app/agent/graph.py], and the runner of
    [app/agent/runner.py].

    [build_graph] is the graph as data: nodes, edges, joins and conditional
    edges.  [superstep] and [invoke] execute it the way LangGraph documents a
    [StateGraph]: the active nodes of a step read one state, their updates are
    merged, and the edges of the nodes that ran give the next step; an
    [ainvoke] ends when no node is active.  Here the awaited answer of an
    [interrupt] is the one a later resume brings; AgentThreads shows that this is
    what the runner does. *)
From Stdlib Require Import String.
From stdpp Require Import base numbers strings list.
From S2P Require Import Prelude Models PyVal Effects AgentState AgentNodes.
Local Open Scope string_scope.

Inductive Node :=
  | N_understand_request | N_get_reservation | N_search_alternatives | N_get_travel_credits
  | N_refresh_context | N_evaluate_options | N_ask_confirmation | N_validate_change
  | N_explain_invalid_change | N_execute_rebooking | N_verify_rebooking | N_finalize_failed
  | N_finalize_declined.
#[export] Instance Node_eq_dec : EqDecision Node.
Proof. solve_decision. Defined.

(** A target of an edge. *)
Inductive Target := To (n : Node) | END.
#[export] Instance Target_eq_dec : EqDecision Target.
Proof. solve_decision. Defined.

Record Branch := mkBranch {
  br_source : Node; br_router : AgentState -> string; br_targets : list (string * Target) }.

Record Graph := mkGraph {
  g_entry : Node; g_edges : list (Node * Target); g_joins : list (list Node * Target);
  g_branches : list Branch }.

Definition _validation_route (state : AgentState) : string := default "invalid" (route state).
Definition _explanation_route (state : AgentState) : string := default "invalid" (route state).
Definition _execution_route (state : AgentState) : string := default "completed" (route state).

Definition graph : Graph := {|
  g_entry := N_understand_request;
  g_edges := [
    (N_understand_request, To N_get_reservation);
    (N_get_reservation, To N_search_alternatives);
    (N_get_reservation, To N_get_travel_credits);
    (N_refresh_context, To N_search_alternatives);
    (N_refresh_context, To N_get_travel_credits);
    (N_evaluate_options, To N_ask_confirmation);
    (N_ask_confirmation, To N_validate_change);
    (N_finalize_declined, END);
    (N_finalize_failed, END)];
  g_joins := [([N_search_alternatives; N_get_travel_credits], To N_evaluate_options)];
  g_branches := [
    mkBranch N_validate_change _validation_route
      [("valid", To N_execute_rebooking); ("declined", To N_finalize_declined);
       ("invalid", To N_explain_invalid_change)];
    mkBranch N_explain_invalid_change _explanation_route
      [("retry", To N_refresh_context); ("declined", To N_finalize_declined); ("invalid", END)];
    mkBranch N_execute_rebooking _execution_route
      [("completed", To N_verify_rebooking); ("failed", To N_finalize_failed)];
    mkBranch N_verify_rebooking _execution_route
      [("completed", END); ("failed", To N_finalize_failed)]] |}.

(** [build_graph]: a validator is required. *)
Definition build_graph (has_validator : bool) : Res Graph :=
  if negb has_validator then raise ValueError "a change validator is required" else Ok graph.

Section Engine.
Context (model_validate : PyVal -> Res RebookingSelection).

Definition node_code (n : Node) : AgentState -> AgentM AgentState :=
  match n with
  | N_understand_request => understand_request
  | N_get_reservation => get_reservation
  | N_search_alternatives => search_alternatives
  | N_get_travel_credits => get_travel_credits
  | N_refresh_context => _refresh_context
  | N_evaluate_options => evaluate_options
  | N_ask_confirmation => ask_confirmation model_validate
  | N_validate_change => validate_change
  | N_explain_invalid_change => explain_invalid_change
  | N_execute_rebooking => execute_rebooking
  | N_verify_rebooking => verify_rebooking
  | N_finalize_failed => _finalize_failed
  | N_finalize_declined => _finalize_declined
  end.

(** The target of a conditional edge. *)
Fixpoint choose (label : string) (targets : list (string * Target)) : Res Target :=
  match targets with
  | [] => raise KeyError label
  | (l, t) :: targets' => if (label =? l) then Ok t else choose label targets'
  end.

Fixpoint branch_targets (done : list Node) (s : AgentState) (branches : list Branch) :
    Res (list Target) :=
  match branches with
  | [] => Ok []
  | b :: branches' =>
      rest ← branch_targets done s branches';
      if bool_decide (br_source b ∈ done) then
        t ← choose (br_router b s) (br_targets b); Ok (t :: rest)
      else Ok rest
  end.

Definition edge_target (done : list Node) (e : Node * Target) : option Target :=
  if bool_decide (e.1 ∈ done) then Some e.2 else None.
(** A join waits for all its sources; those of this graph always run in one
    step, so none is left waiting for a later one. *)
Definition join_target (done : list Node) (j : list Node * Target) : option Target :=
  if forallb (fun n => bool_decide (n ∈ done)) j.1 then Some j.2 else None.

Definition successors (g : Graph) (done : list Node) (s : AgentState) : Res (list Target) :=
  branches ← branch_targets done s (g_branches g);
  Ok (omap (edge_target done) (g_edges g) ++ omap (join_target done) (g_joins g) ++ branches)%list.

(** The nodes of one step, in order, on one state. *)
Fixpoint run_nodes (nodes : list Node) (s : AgentState) : AgentM AgentState :=
  match nodes with
  | [] => mret empty_state
  | n :: nodes' => u ← node_code n s; us ← run_nodes nodes' s; mret (merge u us)
  end.

Definition nodes_of (targets : list Target) : list Node :=
  omap (fun t : Target => match t with To n => Some n | END => None end) targets.

Definition superstep (g : Graph) (active : list Node) (s : AgentState) :
    AgentM (list Node * AgentState) :=
  u ← run_nodes active s;
  let s' := merge s u in
  targets ← of_res (successors g active s');
  mret (nodes_of targets, s').

(** [fuel] bounds the number of steps; LangGraph's default is 25. *)
Fixpoint invoke (g : Graph) (fuel : nat) (active : list Node) (s : AgentState) : AgentM AgentState :=
  match active, fuel with
  | [], _ => mret s
  | _, O => fail InfraError "GraphRecursionError"
  | _, S fuel' => '(active', s') ← superstep g active s; invoke g fuel' active' s'
  end.

(** [AgentRunner._max_retries]. *)
Definition default_max_retries : Z := 2.

(** The input of [AgentRunner.run], written over the session's checkpoint. *)
Definition run_input (message : string) (max_retries : Z) : AgentState :=
  mkState (Some message) None None None None None None None None None None None None None
    (Some max_retries).

(** [AgentRunner.run]: a new turn on the session's saved state. *)
Definition runner_run (fuel : nat) (max_retries : Z) (saved : AgentState) (message : string) :
    AgentM AgentState :=
  if (py_strip message =? "") then fail ValueError "message is required"
  else invoke graph fuel [g_entry graph] (merge saved (run_input message max_retries)).
End Engine.

Definition thread_id (user_id session_id : string) : string := user_id +:+ ":" +:+ session_id.

Example graph_starts s :
  successors graph [N_get_reservation] s = Ok [To N_search_alternatives; To N_get_travel_credits].
Proof. reflexivity. Qed.
Example graph_joins s :
  successors graph [N_search_alternatives; N_get_travel_credits] s = Ok [To N_evaluate_options].
Proof. reflexivity. Qed.
