(* ===== verification/Simulation.v ===== *)
(** Simulation of programs: the same code over two representations of its data.

    [Sim tr R p q] says that [p] and [q] await the same operations, [p] the
    ones [tr] makes of [q]'s, get the same outcomes, raise the same exceptions
    and return results that [R] relates.  The combinators follow the statements
    of a program; [sim_wp] and [sim_run] transfer what is known of [q]. *)
From stdpp Require Import base numbers strings list.
From S2P Require Import Prelude Effects.

Section Sim.
Context {Op1 Op2 : Type -> Type} (tr : forall X, Op2 X -> Op1 X).

Inductive Sim {A B} (R : A -> B -> Prop) : Prog Op1 A -> Prog Op2 B -> Prop :=
  | sim_ret a b : R a b -> Sim R (Ret a) (Ret b)
  | sim_throw e : Sim R (Throw e) (Throw e)
  | sim_op {X} (o : Op2 X) k1 k2 :
      (forall r, Sim R (k1 r) (k2 r)) -> Sim R (Await (tr X o) k1) (Await o k2).

(** Results that agree: related values, or the same exception. *)
Inductive Agree {A B} (R : A -> B -> Prop) : Res A -> Res B -> Prop :=
  | agree_ok a b : R a b -> Agree R (Ok a) (Ok b)
  | agree_raise e : Agree R (Raise e) (Raise e).

Lemma sim_of_res {A B} (R : A -> B -> Prop) r1 r2 : Agree R r1 r2 -> Sim R (of_res r1) (of_res r2).
Proof. intros [a b HR|e]; [by apply sim_ret|apply sim_throw]. Qed.

Lemma sim_await {X} (o : Op2 X) : Sim eq (await (tr X o)) (await o).
Proof. apply sim_op. intros [a|e]; [by apply sim_ret|apply sim_throw]. Qed.

Lemma sim_mono {A B} (R R' : A -> B -> Prop) p q :
  (forall a b, R a b -> R' a b) -> Sim R p q -> Sim R' p q.
Proof.
  intros HR. induction 1 as [a b Hab|e|X o k1 k2 _ IH];
    [apply sim_ret; auto|apply sim_throw|apply sim_op; exact IH].
Qed.

Lemma sim_then {A B A' B'} (R : A -> B -> Prop) (R' : A' -> B' -> Prop) p q f g :
  Sim R p q -> (forall r1 r2, Agree R r1 r2 -> Sim R' (f r1) (g r2)) ->
  Sim R' (then_ p f) (then_ q g).
Proof.
  intros H Hk. induction H as [a b Hab|e|X o k1 k2 _ IH]; cbn.
  - by apply Hk, agree_ok.
  - apply Hk, agree_raise.
  - apply sim_op, IH.
Qed.

Lemma sim_bind {A B A' B'} (R : A -> B -> Prop) (R' : A' -> B' -> Prop) p q f g :
  Sim R p q -> (forall a b, R a b -> Sim R' (f a) (g b)) -> Sim R' (p ≫= f) (q ≫= g).
Proof.
  intros H Hk. unfold mbind, Prog_bind.
  induction H as [a b Hab|e|X o k1 k2 _ IH]; cbn; [by apply Hk|apply sim_throw|apply sim_op, IH].
Qed.

Lemma sim_try_else {A B A' B'} (R : A -> B -> Prop) (R' : A' -> B' -> Prop) p q h1 h2 f g :
  Sim R p q -> (forall e, Sim R' (h1 e) (h2 e)) -> (forall a b, R a b -> Sim R' (f a) (g b)) ->
  Sim R' (try_else p h1 f) (try_else q h2 g).
Proof. intros H Hh Hk. apply (sim_then R); [done|]. intros ? ? [a b Hab|e]; auto. Qed.

(** A fallible expression. *)
Lemma sim_res_bind {A B A' B'} (R : A -> B -> Prop) (R' : A' -> B' -> Prop) r1 r2 f g :
  Agree R r1 r2 -> (forall a b, R a b -> Sim R' (f a) (g b)) ->
  Sim R' (of_res r1 ≫= f) (of_res r2 ≫= g).
Proof. intros H Hk. apply (sim_bind R); [by apply sim_of_res|done]. Qed.

(** Awaiting an operation both sides know. *)
Lemma sim_await_bind {X A B} (R : A -> B -> Prop) (o : Op2 X) o1 f g :
  o1 = tr X o -> (forall a, Sim R (f a) (g a)) -> Sim R (await o1 ≫= f) (await o ≫= g).
Proof. intros ->. intros H. apply (sim_bind eq); [apply sim_await|]. by intros a ? <-. Qed.

(** A computation that succeeds needs no counterpart. *)
Lemma sim_pure {A A' B} (R : A -> B -> Prop) (r : Res A') a f q :
  r = Ok a -> Sim R (f a) q -> Sim R (of_res r ≫= f) q.
Proof. by intros ->. Qed.

Lemma agree_bind {A B A' B'} (R : A -> B -> Prop) (R' : A' -> B' -> Prop) p q f g :
  Agree R p q -> (forall a b, R a b -> Agree R' (f a) (g b)) -> Agree R' (p ≫= f) (q ≫= g).
Proof. intros [a b Hab|e] Hk; cbn; [by apply Hk|apply agree_raise]. Qed.

(** * Transfer *)

Definition tr_event (ev : Event Op2) : Event Op1 := match ev with Ev o r => Ev (tr _ o) r end.

(** What all runs of [q] satisfy, all runs of [p] satisfy. *)
Lemma sim_wp {A B} (R : A -> B -> Prop) p q Q :
  Sim R p q -> wp q Q ->
  wp p (fun r t => exists r' t', Agree R r r' /\ t = tr_event <$> t' /\ Q r' t').
Proof.
  intros H. revert Q. induction H as [a b Hab|e|X o k1 k2 _ IH]; cbn; intros Q HQ.
  - exists (Ok b), []. split_and!; [by apply agree_ok|done..].
  - exists (Raise e), []. split_and!; [apply agree_raise|done..].
  - intros r. eapply wp_mono; [|apply IH, HQ]. cbn. intros res t (r' & t' & Ha & -> & HQ').
    exists r', (Ev o r :: t'). by split_and!.
Qed.

(** One run: the environment of [p] answers [q] through [tr]. *)
Lemma sim_run {W A B} (env : forall X, Op1 X -> W -> Res X * W) (R : A -> B -> Prop) p q w :
  Sim R p q ->
  Agree R (run env p w).1 (run (fun X o => env X (tr X o)) q w).1 /\
  (run env p w).2 = (run (fun X o => env X (tr X o)) q w).2 /\
  trace env p w = tr_event <$> trace (fun X o => env X (tr X o)) q w.
Proof.
  intros H. revert w. induction H as [a b Hab|e|X o k1 k2 _ IH]; cbn; intros w.
  - split_and!; [by apply agree_ok|done..].
  - split_and!; [apply agree_raise|done..].
  - destruct (env X (tr X o) w) as [r w']. destruct (IH r w') as (Ha & Hw & Ht).
    split_and!; [done|done|]. cbn. by rewrite Ht.
Qed.
End Sim.
