(* ===== verification/PyObject.v ===== *)
(** Python objects as the agent's nodes see them: model instances, and what a
    checkpoint restores of them.

    A checkpoint may give a pydantic instance back as the plain dict of its
    fields, at any depth ([View]).  [Dump] is the instance a typed record of
    Models or AgentState stands for.  [_field] and [_plain] are the helpers of
    [agent/nodes/confirmation.py] that read either. *)
From Stdlib Require Import String SpecFloat.
From stdpp Require Import base numbers strings list.
From S2P Require Import Prelude Models PyVal Effects AgentState.
Local Open Scope string_scope.

(** A value: a leaf, a container, or an instance of a model with its
    [__dict__], the fields in the order of their declaration. *)
Inductive Obj :=
  | ONone
  | OBool (b : bool)
  | OInt (n : Z)
  | OFloat (f : spec_float)
  | OStr (s : string)
  | OUuid (u : UUID)
  | ODatetime (d : datetime)
  | ODecimal (d : Decimal)
  | OEnum (value : string)
  | OList (l : list Obj)
  | ODict (d : list (string * Obj))
  | OModel (cls : string) (fields : list (string * Obj)).

(** [isinstance(v, BaseModel)], [isinstance(v, cls)], [isinstance(v, dict)]. *)
Definition is_model (v : Obj) : bool := match v with OModel _ _ => true | _ => false end.
Definition is_instance (cls : string) (v : Obj) : bool :=
  match v with OModel c _ => (c =? cls) | _ => false end.
Definition is_odict (v : Obj) : bool := match v with ODict _ => true | _ => false end.
Definition is_onone (v : Obj) : bool := match v with ONone => true | _ => false end.

(** [bool(v)]: an instance and an id are true, a [StrEnum] member is its text. *)
Definition obj_truthy (v : Obj) : bool :=
  match v with
  | ONone => false
  | OBool b => b
  | OInt n => negb (n =? 0)%Z
  | OFloat (S754_zero _) => false
  | OFloat _ => true
  | OStr s | OEnum s => negb (s =? "")
  | ODecimal d => negb (d =? 0)%Z
  | OUuid _ | ODatetime _ | OModel _ _ => true
  | OList l => negb (bool_decide (length l = 0))
  | ODict d => negb (bool_decide (length d = 0))
  end.

(** [a == b] where one of the two is a UUID or [None]. *)
Definition same_id (a b : Obj) : bool :=
  match a, b with
  | OUuid u, OUuid v => (u =? v)%N
  | ONone, ONone => true
  | _, _ => false
  end.

(** Entries of a dict: [d.get(k)], and [{**d, k: v}], which keeps the place of
    a key that was there. *)
Fixpoint lookup_key (k : string) (d : list (string * Obj)) : option Obj :=
  match d with
  | [] => None
  | (k', v) :: d' => if (k =? k') then Some v else lookup_key k d'
  end.
Definition get_key (k : string) (d : list (string * Obj)) : Obj := default ONone (lookup_key k d).
Fixpoint set_key (k : string) (v : Obj) (d : list (string * Obj)) : list (string * Obj) :=
  match d with
  | [] => [(k, v)]
  | (k', v') :: d' => if (k =? k') then (k', v) :: d' else (k', v') :: set_key k v d'
  end.
(** [d.pop(k, None)]: the rest. *)
Fixpoint pop_key (k : string) (d : list (string * Obj)) : list (string * Obj) :=
  match d with
  | [] => []
  | (k', v) :: d' => if (k =? k') then d' else (k', v) :: pop_key k d'
  end.

(** [getattr(v, name)]: only instances have the attributes the nodes ask for. *)
Definition obj_attr (v : Obj) (name : string) : Res Obj :=
  match v with
  | OModel _ fields => or_raise (lookup_key name fields) AttributeError name
  | _ => raise AttributeError name
  end.

Definition _field (value : Obj) (name : string) : Res Obj :=
  match value with
  | ODict d => Ok (get_key name d)
  | _ => obj_attr value name
  end.

(** Iteration over a list. *)
Definition as_list (v : Obj) : Res (list Obj) :=
  match v with OList l => Ok l | _ => raise TypeError "object is not iterable" end.

Fixpoint _plain (value : Obj) : Obj :=
  match value with
  | OModel _ d | ODict d => ODict ((fun e => (e.1, _plain e.2)) <$> d)
  | OList l => OList (_plain <$> l)
  | _ => value
  end.

(** A JSON value as an object. *)
Fixpoint lift (v : PyVal) : Obj :=
  match v with
  | PNone => ONone
  | PBool b => OBool b
  | PInt n => OInt n
  | PFloat f => OFloat f
  | PStr s => OStr s
  | PList l => OList (lift <$> l)
  | PDict d => ODict ((fun e => (e.1, lift e.2)) <$> d)
  | PObj cls d => OModel cls ((fun e => (e.1, lift e.2)) <$> d)
  end.

(** * Views *)

(** [View v x]: [v] is [x] with some of its instances restored as dicts. *)
Inductive View : Obj -> Obj -> Prop :=
  | view_same v : View v v
  | view_list l l' : Items l l' -> View (OList l) (OList l')
  | view_dict d d' : Entries d d' -> View (ODict d) (ODict d')
  | view_model cls d d' : Entries d d' -> View (OModel cls d) (OModel cls d')
  | view_restored cls d d' : Entries d d' -> View (ODict d) (OModel cls d')
with Items : list Obj -> list Obj -> Prop :=
  | items_nil : Items [] []
  | items_cons v v' l l' : View v v' -> Items l l' -> Items (v :: l) (v' :: l')
with Entries : list (string * Obj) -> list (string * Obj) -> Prop :=
  | entries_nil : Entries [] []
  | entries_cons k v v' d d' : View v v' -> Entries d d' -> Entries ((k, v) :: d) ((k, v') :: d').

Scheme View_mut := Minimality for View Sort Prop
  with Items_mut := Minimality for Items Sort Prop
  with Entries_mut := Minimality for Entries Sort Prop.
Combined Scheme View_mutind from View_mut, Items_mut, Entries_mut.

#[export] Instance View_refl : Reflexive View := view_same.

Lemma Items_refl l : Items l l.
Proof. induction l as [|v l IH]; constructor; [apply view_same|done]. Qed.
Lemma Entries_refl d : Entries d d.
Proof. induction d as [|[k v] d IH]; constructor; [apply view_same|done]. Qed.

(** A value without fields or items has one view. *)
Definition is_leaf (v : Obj) : bool :=
  match v with OList _ | ODict _ | OModel _ _ => false | _ => true end.

Lemma view_leaf v x : View v x -> is_leaf x = true -> v = x.
Proof. by intros []. Qed.
Lemma view_none v x : View v x -> is_onone v = is_onone x.
Proof. by intros []. Qed.

(** The entry of a key. *)
Lemma entries_lookup d d' k x : Entries d d' -> lookup_key k d' = Some x ->
  exists v, lookup_key k d = Some v /\ View v x.
Proof.
  induction 1 as [|k' v v' d d' Hv _ IH]; cbn; [done|].
  destruct (k =? k'); [intros [= ->]; eauto|auto].
Qed.

Lemma entries_pop d d' k : Entries d d' -> Entries (pop_key k d) (pop_key k d').
Proof.
  induction 1 as [|k' v v' d d' Hv Hd IH]; cbn; [constructor|].
  destruct (k =? k'); [done|by constructor].
Qed.

(** [_field] reads a dict and an instance alike. *)
Lemma view_field v cls d' k x : View v (OModel cls d') -> lookup_key k d' = Some x ->
  exists o, _field v k = Ok o /\ View o x.
Proof.
  intros Hv Hk. inversion Hv as [| | |? d ? Hd|? d ? Hd]; subst; cbn.
  - rewrite Hk. eauto using view_same.
  - destruct (entries_lookup d d' k x Hd Hk) as (o & -> & Ho). cbn. eauto.
  - destruct (entries_lookup d d' k x Hd Hk) as (o & E & Ho). unfold get_key. rewrite E. cbn. eauto.
Qed.

Lemma view_items v l' : View v (OList l') -> exists l, v = OList l /\ Items l l'.
Proof. inversion 1; subst; eauto using Items_refl. Qed.

Lemma items_length l l' : Items l l' -> length l = length l'.
Proof. induction 1; cbn; congruence. Qed.

(** [_plain] forgets which instances were restored. *)
Lemma plain_views :
  (forall v x, View v x -> _plain v = _plain x) /\
  (forall l l', Items l l' -> _plain <$> l = _plain <$> l') /\
  (forall d d', Entries d d' ->
     (fun e => (e.1, _plain e.2)) <$> d = (fun e => (e.1, _plain e.2)) <$> d').
Proof. apply View_mutind; cbn; intros; by try congruence. Qed.

Lemma plain_view v x : View v x -> _plain v = _plain x.
Proof. apply plain_views. Qed.

(** * The instances of the typed records *)

Class Dump (A : Type) := dump : A -> Obj.

Definition dump_id (o : option UUID) : Obj := match o with Some u => OUuid u | None => ONone end.
Definition dump_time (o : option datetime) : Obj :=
  match o with Some d => ODatetime d | None => ONone end.
Definition dump_list {A} `{Dump A} (l : list A) : Obj := OList (dump <$> l).
Definition dump_optional {A} `{Dump A} (o : option A) : Obj :=
  match o with Some a => dump a | None => ONone end.

#[export] Instance CustomerSchema_dump : Dump CustomerSchema := fun c =>
  OModel "CustomerSchema" [("id", OUuid (c_id c)); ("first_name", OStr (c_first_name c));
    ("last_name", OStr (c_last_name c)); ("email", OStr (c_email c));
    ("phone", match c_phone c with Some s => OStr s | None => ONone end);
    ("created_at", ODatetime (c_created_at c)); ("updated_at", ODatetime (c_updated_at c))].
#[export] Instance PassengerSchema_dump : Dump PassengerSchema := fun p =>
  OModel "PassengerSchema" [("id", OUuid (p_id p)); ("first_name", OStr (p_first_name p));
    ("last_name", OStr (p_last_name p)); ("document_number", OStr (p_document_number p));
    ("created_at", ODatetime (p_created_at p))].
#[export] Instance ReservationSchema_dump : Dump ReservationSchema := fun r =>
  OModel "ReservationSchema" [("id", OUuid (r_id r));
    ("booking_reference", OStr (r_booking_reference r)); ("customer_id", OUuid (r_customer_id r));
    ("status", OEnum (reservation_status_value (r_status r)));
    ("total_amount", ODecimal (r_total_amount r)); ("currency", OStr (r_currency r));
    ("created_at", ODatetime (r_created_at r)); ("updated_at", ODatetime (r_updated_at r))].
#[export] Instance FlightSchema_dump : Dump FlightSchema := fun f =>
  OModel "FlightSchema" [("id", OUuid (f_id f)); ("flight_number", OStr (f_flight_number f));
    ("origin_airport", OStr (f_origin_airport f));
    ("destination_airport", OStr (f_destination_airport f));
    ("departure_at", ODatetime (f_departure_at f)); ("arrival_at", ODatetime (f_arrival_at f));
    ("status", OEnum (flight_status_value (f_status f))); ("capacity", OInt (f_capacity f));
    ("created_at", ODatetime (f_created_at f)); ("updated_at", ODatetime (f_updated_at f))].
#[export] Instance FareClassSchema_dump : Dump FareClassSchema := fun f =>
  OModel "FareClassSchema" [("id", OUuid (fc_id f)); ("code", OStr (fc_code f));
    ("name", OStr (fc_name f)); ("change_allowed", OBool (fc_change_allowed f));
    ("cancellation_allowed", OBool (fc_cancellation_allowed f));
    ("change_fee", ODecimal (fc_change_fee f)); ("cancellation_fee", ODecimal (fc_cancellation_fee f));
    ("created_at", ODatetime (fc_created_at f))].
#[export] Instance FlightFareSchema_dump : Dump FlightFareSchema := fun f =>
  OModel "FlightFareSchema" [("id", OUuid (ff_id f)); ("flight_id", OUuid (ff_flight_id f));
    ("fare_class_id", OUuid (ff_fare_class_id f)); ("price", ODecimal (ff_price f));
    ("currency", OStr (ff_currency f)); ("available_seats", OInt (ff_available_seats f))].
#[export] Instance ReservationSegmentSchema_dump : Dump ReservationSegmentSchema := fun s =>
  OModel "ReservationSegmentSchema" [("id", OUuid (rs_id s));
    ("reservation_id", OUuid (rs_reservation_id s)); ("flight_id", OUuid (rs_flight_id s));
    ("fare_class_id", OUuid (rs_fare_class_id s));
    ("status", OEnum (segment_status_value (rs_status s)));
    ("price_paid", ODecimal (rs_price_paid s)); ("currency", OStr (rs_currency s));
    ("created_at", ODatetime (rs_created_at s)); ("updated_at", ODatetime (rs_updated_at s))].
#[export] Instance TravelCreditSchema_dump : Dump TravelCreditSchema := fun c =>
  OModel "TravelCreditSchema" [("id", OUuid (tc_id c)); ("customer_id", OUuid (tc_customer_id c));
    ("original_amount", ODecimal (tc_original_amount c));
    ("remaining_amount", ODecimal (tc_remaining_amount c)); ("currency", OStr (tc_currency c));
    ("status", OEnum (travel_credit_status_value (tc_status c)));
    ("expires_at", ODatetime (tc_expires_at c)); ("created_at", ODatetime (tc_created_at c))].
#[export] Instance FlightChangeSchema_dump : Dump FlightChangeSchema := fun c =>
  OModel "FlightChangeSchema" [("id", OUuid (ch_id c));
    ("reservation_segment_id", OUuid (ch_reservation_segment_id c));
    ("old_flight_id", OUuid (ch_old_flight_id c)); ("new_flight_id", OUuid (ch_new_flight_id c));
    ("old_fare_class_id", OUuid (ch_old_fare_class_id c));
    ("new_fare_class_id", OUuid (ch_new_fare_class_id c));
    ("fare_difference", ODecimal (ch_fare_difference c)); ("change_fee", ODecimal (ch_change_fee c));
    ("travel_credit_used", ODecimal (ch_travel_credit_used c)); ("currency", OStr (ch_currency c));
    ("created_at", ODatetime (ch_created_at c))].

#[export] Instance ReservationSegmentDetailsSchema_dump : Dump ReservationSegmentDetailsSchema := fun s =>
  OModel "ReservationSegmentDetailsSchema" [("segment", dump (sd_segment s));
    ("flight", dump (sd_flight s)); ("fare_class", dump (sd_fare_class s))].
#[export] Instance ReservationDetailsSchema_dump : Dump ReservationDetailsSchema := fun r =>
  OModel "ReservationDetailsSchema" [("reservation", dump (rd_reservation r));
    ("customer", dump (rd_customer r)); ("passengers", dump_list (rd_passengers r));
    ("segments", dump_list (rd_segments r))].
#[export] Instance RebookingOptionSchema_dump : Dump RebookingOptionSchema := fun o =>
  OModel "RebookingOptionSchema" [("flight", dump (ro_flight o));
    ("fare_class", dump (ro_fare_class o)); ("flight_fare", dump (ro_flight_fare o));
    ("fare_difference", ODecimal (ro_fare_difference o)); ("change_fee", ODecimal (ro_change_fee o))].

(** [RebookingSelection] of [agent/state.py] and [RebookingSelectionSchema]
    have the same fields. *)
Definition selection_fields (s : RebookingSelectionSchema) : list (string * Obj) :=
  [("segment_id", OUuid (sel_segment_id s)); ("new_flight_id", OUuid (sel_new_flight_id s));
   ("new_fare_class_id", OUuid (sel_new_fare_class_id s));
   ("travel_credit_id", dump_id (sel_travel_credit_id s));
   ("travel_credit_amount", ODecimal (sel_travel_credit_amount s))].
#[export] Instance RebookingSelection_dump : Dump RebookingSelection := fun s =>
  OModel "RebookingSelection" (selection_fields s).
Definition dump_selection_schema (s : RebookingSelectionSchema) : Obj :=
  OModel "RebookingSelectionSchema" (selection_fields s).

#[export] Instance RebookingValidationSchema_dump : Dump RebookingValidationSchema := fun v =>
  OModel "RebookingValidationSchema" [("selection", dump_selection_schema (va_selection v));
    ("reservation_id", OUuid (va_reservation_id v)); ("customer_id", OUuid (va_customer_id v));
    ("old_flight_id", OUuid (va_old_flight_id v)); ("old_fare_class_id", OUuid (va_old_fare_class_id v));
    ("new_flight_id", OUuid (va_new_flight_id v)); ("new_fare_class_id", OUuid (va_new_fare_class_id v));
    ("new_price", ODecimal (va_new_price v)); ("fare_difference", ODecimal (va_fare_difference v));
    ("change_fee", ODecimal (va_change_fee v)); ("amount_due", ODecimal (va_amount_due v));
    ("travel_credit_used", ODecimal (va_travel_credit_used v)); ("currency", OStr (va_currency v));
    ("passenger_count", OInt (va_passenger_count v))].
#[export] Instance RebookingResultSchema_dump : Dump RebookingResultSchema := fun r =>
  OModel "RebookingResultSchema" [("change", dump_optional (rr_change r));
    ("segment", dump (rr_segment r)); ("booking_reference", OStr (rr_booking_reference r))].

(** [agent/state.py]. *)
#[export] Instance RebookingRequest_dump : Dump RebookingRequest := fun r =>
  OModel "RebookingRequest" [("booking_reference", OStr (rq_booking_reference r));
    ("segment_id", dump_id (rq_segment_id r)); ("departure_from", dump_time (rq_departure_from r));
    ("departure_to", dump_time (rq_departure_to r))].
#[export] Instance ReservationContext_dump : Dump ReservationContext := fun c =>
  OModel "ReservationContext" [("request", dump (cx_request c)); ("reservation", dump (cx_reservation c))].
#[export] Instance SearchAlternativesResult_dump : Dump SearchAlternativesResult := fun r =>
  OModel "SearchAlternativesResult" [("request", dump (sr_request r)); ("options", dump_list (sr_options r))].
#[export] Instance TravelCreditsResult_dump : Dump TravelCreditsResult := fun r =>
  OModel "TravelCreditsResult" [("request", dump (cr_request r)); ("credits", dump_list (cr_credits r))].
#[export] Instance EvaluationResult_dump : Dump EvaluationResult := fun e =>
  OModel "EvaluationResult" [("request", dump (ev_request e)); ("options", dump_list (ev_options e));
    ("credits", dump_list (ev_credits e));
    ("ranked_option_ids", OList (OUuid <$> ev_ranked_option_ids e)); ("summary", OStr (ev_summary e));
    ("has_matching_option", OBool (ev_has_matching_option e))].
#[export] Instance ConfirmationResult_dump : Dump ConfirmationResult := fun c =>
  OModel "ConfirmationResult" [("confirmed", OBool (cf_confirmed c));
    ("selection", dump_optional (cf_selection c)); ("evaluation", dump (cf_evaluation c))].
#[export] Instance ValidationResult_dump : Dump ValidationResult := fun v =>
  OModel "ValidationResult" [("valid", OBool (vr_valid v)); ("selection", dump_optional (vr_selection v));
    ("reason", OStr (vr_reason v)); ("evaluation", dump (vr_evaluation v));
    ("user_declined", OBool (vr_user_declined v)); ("validation", dump_optional (vr_validation v))].
#[export] Instance FinalResult_dump : Dump FinalResult := fun f =>
  OModel "FinalResult" [("status", OStr (final_status_value (fr_status f)));
    ("message", OStr (fr_message f)); ("selection", dump_optional (fr_selection f));
    ("validation", dump_optional (fr_validation f)); ("execution", dump_optional (fr_execution f));
    ("verification", dump_optional (fr_verification f))].
