(* ===== verification/RawNodes.v ===== *)
(** The nodes of the agent graph on the objects they really handle: the values
    a checkpoint restored may be plain dicts where the annotations of
    [AgentState] promise instances.

    Here [app/agent/nodes/*.py] is translated over [Obj], with its [_field],
    [isinstance] tests and revalidations; AgentNodes has the same nodes over
    typed records, and RestoredStates proves that they do the same. *)
From Stdlib Require Import String.
From stdpp Require Import base numbers strings list gmap.
From S2P Require Import Prelude Models PyVal Effects AgentState AgentNodes AgentGraph PyObject.
Local Open Scope string_scope.

(** * Pydantic *)

(** [cls.model_validate(v)]. *)
Class Validator := model_validate : string -> Obj -> Res Obj.

(** The fields of the models the nodes construct, with their defaults. *)
Definition model_fields (cls : string) : list (string * option Obj) :=
  if (cls =? "ReservationContext") then [("request", None); ("reservation", None)]
  else if (cls =? "ReservationDetailsSchema") then
    [("reservation", None); ("customer", None); ("passengers", None); ("segments", None)]
  else if (cls =? "SearchRebookingOptionsInputSchema") then
    [("segment_id", None); ("departure_from", None); ("departure_to", None); ("passenger_count", None)]
  else if (cls =? "SearchAlternativesResult") then [("request", None); ("options", None)]
  else if (cls =? "TravelCreditsResult") then [("request", None); ("credits", None)]
  else if (cls =? "EvaluationResult") then
    [("request", None); ("options", None); ("credits", None); ("ranked_option_ids", Some (OList []));
     ("summary", Some (OStr "")); ("has_matching_option", Some (OBool false))]
  else if (cls =? "ConfirmationResult") then
    [("confirmed", None); ("selection", Some ONone); ("evaluation", None)]
  else if (cls =? "ValidationResult") then
    [("valid", Some (OBool false)); ("selection", Some ONone); ("reason", Some (OStr ""));
     ("evaluation", None); ("user_declined", Some (OBool false)); ("validation", Some ONone)]
  else if (cls =? "FinalResult") then
    [("status", None); ("message", None); ("selection", Some ONone); ("validation", Some ONone);
     ("execution", Some ONone); ("verification", Some ONone)]
  else [].

(** The keyword arguments in the order of the fields, defaults filled in. *)
Definition with_defaults (cls : string) (kwargs : list (string * Obj)) : list (string * Obj) :=
  omap (fun f : string * option Obj =>
    match lookup_key f.1 kwargs with Some v => Some (f.1, v) | None => pair f.1 <$> f.2 end)
    (model_fields cls).

(** [cls.model_construct(kwargs)] validates nothing. *)
Definition model_construct (cls : string) (kwargs : list (string * Obj)) : Obj :=
  OModel cls (with_defaults cls kwargs).

(** [v.model_dump()]. *)
Definition model_dump (v : Obj) : Res Obj :=
  if is_model v then Ok (_plain v) else raise AttributeError "model_dump".

(** [v.model_copy(update=...)]. *)
Definition model_copy (v : Obj) (update : list (string * Obj)) : Obj :=
  match v with
  | OModel cls d => OModel cls ((fun e => (e.1, default e.2 (lookup_key e.1 update))) <$> d)
  | _ => v
  end.

(** * The operations of the ports, on objects *)

Inductive RawOp : Type -> Type :=
  | RawUnderstandRequest (user_input : string) : RawOp RebookingRequest
  | RawEvaluateOptions (request options credits : Obj) : RawOp EvaluationResult
  | RawGetReservation (booking_reference : Obj) : RawOp ReservationDetailsSchema
  | RawSearchRebookingOptions (input : Obj) : RawOp (list RebookingOptionSchema)
  | RawGetAvailableTravelCredits (customer_id currency : Obj) : RawOp (list TravelCreditSchema)
  | RawValidateChange (selection : Obj) : RawOp DomainValidation
  | RawExecuteRebooking (selection : Obj) : RawOp RebookingResultSchema
  | RawVerifyRebooking (selection : Obj) : RawOp RebookingResultSchema
  | RawInterrupt (value : Obj) : RawOp PyVal.
Notation RawM := (Prog RawOp).

(** The state: a dict of the values, and the update of a node. *)
Notation RawState := (gmap string Obj).
Definition state_get (state : RawState) (k : string) : Obj := default ONone (state !! k).

(** [if v is None: raise ValueError(msg)]. *)
Definition not_none (v : Obj) (msg : string) : Res Obj :=
  if is_onone v then raise ValueError msg else Ok v.

Section Nodes.
Context `{Validator}.

(** A call of the class with keyword arguments. *)
Definition new (cls : string) (kwargs : list (string * Obj)) : Res Obj :=
  model_validate cls (ODict (with_defaults cls kwargs)).

(** [cls.model_validate(raw) if isinstance(raw, dict) else raw]. *)
Definition validate_dict (cls : string) (raw : Obj) : Res Obj :=
  if is_odict raw then model_validate cls raw else Ok raw.

(** * nodes/llm.py *)

Definition raw_understand_request (state : RawState) : RawM RawState :=
  input ← of_res (match default (OStr "") (state !! "user_input") with
                  | OStr s => Ok s | _ => raise AttributeError "strip" end);
  let text := py_strip input in
  if (text =? "") then throw ValueError "user input is required"
  else
    request ← await (RawUnderstandRequest text);
    if (rq_booking_reference request =? "") then throw ValueError "booking reference is required"
    else mret {["request" := dump request]}.

(** [{_field(_field(option, part), "id") for option in options}]. *)
Definition option_ids (part : string) (options : list Obj) : Res (list Obj) :=
  mapM (fun option => p ← _field option part; _field p "id") options.

Definition raw_evaluate_options (state : RawState) : RawM RawState :=
  request ← of_res (validate_dict "RebookingRequest" (state_get state "request"));
  search ← of_res (validate_dict "SearchAlternativesResult" (state_get state "search_result"));
  credits ← of_res (validate_dict "TravelCreditsResult" (state_get state "credits_result"));
  if is_onone request || is_onone search || is_onone credits then
    throw ValueError "evaluation requires request, alternatives, and credits"
  else
    options ← of_res (obj_attr search "options");
    offered_credits ← of_res (obj_attr credits "credits");
    result ← await (RawEvaluateOptions request options offered_credits);
    offered ← of_res (as_list options);
    flights ← of_res (option_ids "flight" offered);
    fares ← of_res (option_ids "flight_fare" offered);
    if existsb (fun id => negb (existsb (same_id (OUuid id)) (flights ++ fares)))
         (ev_ranked_option_ids result) then
      throw ValueError "evaluation returned an unknown option"
    else mret {["evaluation" := model_copy (dump result)
                  [("request", request); ("options", options); ("credits", offered_credits)]]}.

(** * nodes/airline.py *)

Definition raw_context (state : RawState) : Res Obj :=
  raw ← not_none (state_get state "reservation_context") "reservation context is required";
  raw_request ← _field raw "request";
  raw_reservation ← _field raw "reservation";
  request ← validate_dict "RebookingRequest" raw_request;
  reservation ← match raw_reservation with
                | ODict data =>
                    match model_validate "ReservationDetailsSchema" raw_reservation with
                    | Ok r => Ok r
                    | Raise e => if isinstance e ValidationError
                                 then Ok (model_construct "ReservationDetailsSchema" data)
                                 else Raise e
                    end
                | _ => Ok raw_reservation
                end;
  Ok (model_construct "ReservationContext" [("request", request); ("reservation", reservation)]).

Definition raw_get_reservation (state : RawState) : RawM RawState :=
  request ← of_res (not_none (state_get state "request") "reservation requires a request");
  booking_reference ← of_res (obj_attr request "booking_reference");
  reservation ← await (RawGetReservation booking_reference);
  match rd_segments reservation with
  | [] => throw ValueError "reservation requires a segment"
  | _ => context ← of_res (new "ReservationContext" [("request", request); ("reservation", dump reservation)]);
         mret {["reservation_context" := context]}
  end.

(** [_field(_field(segment, "segment"), "id")]. *)
Definition segment_id_of (segment : Obj) : Res Obj := s ← _field segment "segment"; _field s "id".

Fixpoint requested_segment (id : Obj) (segments : list Obj) : Res Obj :=
  match segments with
  | [] => raise ValueError "requested reservation segment was not found"
  | segment :: rest =>
      sid ← segment_id_of segment;
      if same_id sid id then Ok segment else requested_segment id rest
  end.

Definition raw_selected_segment (state : RawState) : Res (Obj * Obj) :=
  context ← raw_context state;
  request ← obj_attr context "request";
  reservation ← obj_attr context "reservation";
  id ← obj_attr request "segment_id";
  segments ← (l ← _field reservation "segments"; as_list l);
  if negb (is_onone id) then segment ← requested_segment id segments; Ok (context, segment)
  else match segments with
       | [segment] => Ok (context, segment)
       | _ => raise ValueError "a reservation segment must be selected"
       end.

Definition raw_require_window (request : Obj) : Res (Obj * Obj) :=
  from ← obj_attr request "departure_from";
  to ← obj_attr request "departure_to";
  match from, to with
  | ODatetime f, ODatetime t =>
      if (t <? f)%Z then raise ValueError "departure window is invalid" else Ok (from, to)
  | _, _ => if is_onone from || is_onone to then raise ValueError "departure window is required"
            else raise TypeError "unorderable types"
  end.

Definition raw_search_alternatives (state : RawState) : RawM RawState :=
  '(context, segment) ← of_res (raw_selected_segment state);
  request ← of_res (obj_attr context "request");
  '(departure_from, departure_to) ← of_res (raw_require_window request);
  segment_id ← of_res (segment_id_of segment);
  reservation ← of_res (obj_attr context "reservation");
  passengers ← of_res (l ← _field reservation "passengers"; as_list l);
  input ← of_res (new "SearchRebookingOptionsInputSchema"
    [("segment_id", segment_id); ("departure_from", departure_from); ("departure_to", departure_to);
     ("passenger_count", OInt (Z.of_nat (length passengers)))]);
  options ← await (RawSearchRebookingOptions input);
  result ← of_res (new "SearchAlternativesResult" [("request", request); ("options", dump_list options)]);
  mret {["search_result" := result]}.

Definition raw_get_travel_credits (state : RawState) : RawM RawState :=
  context ← of_res (raw_context state);
  details ← of_res (obj_attr context "reservation");
  reservation ← of_res (_field details "reservation");
  customer_id ← of_res (_field reservation "customer_id");
  currency ← of_res (_field reservation "currency");
  credits ← await (RawGetAvailableTravelCredits customer_id currency);
  request ← of_res (obj_attr context "request");
  result ← of_res (new "TravelCreditsResult" [("request", request); ("credits", dump_list credits)]);
  mret {["credits_result" := result]}.

(** * nodes/confirmation.py *)

(** [dict(value.__dict__) if isinstance(value, cls) else value], a dict or
    [ValueError]. *)
Definition fields_of (cls : string) (value : Obj) (msg : string) : Res (list (string * Obj)) :=
  match value with
  | OModel c d => if (c =? cls) then Ok d else raise ValueError msg
  | ODict d => Ok d
  | _ => raise ValueError msg
  end.

Definition _evaluation (value : Obj) : Res Obj :=
  data ← fields_of "EvaluationResult" value "invalid evaluation";
  request ← validate_dict "RebookingRequest" (get_key "request" data);
  Ok (model_construct "EvaluationResult" (pop_key "request" data ++ [("request", request)])).

Definition _confirmation (value : Obj) : Res Obj :=
  data ← fields_of "ConfirmationResult" value "invalid confirmation";
  let selection := get_key "selection" data in
  selection ← (if obj_truthy selection then model_validate "RebookingSelection" selection else Ok ONone);
  raw_evaluation ← or_raise (lookup_key "evaluation" data) KeyError "evaluation";
  evaluation ← _evaluation raw_evaluation;
  Ok (model_construct "ConfirmationResult"
        [("confirmed", OBool (obj_truthy (default (OBool false) (lookup_key "confirmed" data))));
         ("selection", selection); ("evaluation", evaluation)]).

(** [{**answer, "evaluation": evaluation}]. *)
Definition with_evaluation (answer evaluation : Obj) : Res Obj :=
  match answer with
  | ODict d => Ok (ODict (set_key "evaluation" evaluation d))
  | _ => raise TypeError "object is not a mapping"
  end.

Definition raw_ask_confirmation (state : RawState) : RawM RawState :=
  raw_evaluation ← of_res (not_none (state_get state "evaluation") "confirmation requires an evaluation");
  evaluation ← of_res (_evaluation raw_evaluation);
  answer ← await (RawInterrupt (ODict
    [("message", OStr "Select a rebooking option and confirm the change.");
     ("evaluation", _plain evaluation)]));
  match (value ← with_evaluation (lift answer) evaluation; _confirmation value) with
  | Ok confirmation => mret {["confirmation" := confirmation]}
  | Raise e =>
      if isinstance e TypeError || isinstance e ValueError then
        throw ValueError "invalid confirmation payload"
      else Throw e
  end.

Definition raw_expected_segment_id (state : RawState) (evaluation : Obj) : Res Obj :=
  let context := state_get state "reservation_context" in
  reservation ← (if is_onone context then Ok ONone else _field context "reservation");
  segments ← (if is_onone reservation then Ok (OList []) else _field reservation "segments");
  request ← obj_attr evaluation "request";
  id ← obj_attr request "segment_id";
  if obj_truthy segments then
    if obj_truthy id then Ok id
    else
      l ← as_list segments;
      first ← or_raise (head l) IndexError "list index out of range";
      segment_id_of first
  else Ok id.

Fixpoint raw_offered (flight_id fare_class_id : Obj) (options : list Obj) : Res bool :=
  match options with
  | [] => Ok false
  | option :: rest =>
      flight ← _field option "flight"; fid ← _field flight "id";
      if same_id fid flight_id then
        fare ← _field option "fare_class"; cid ← _field fare "id";
        if same_id cid fare_class_id then Ok true else raw_offered flight_id fare_class_id rest
      else raw_offered flight_id fare_class_id rest
  end.

Definition raw_validated (kwargs : list (string * Obj)) (route : string) : RawM RawState :=
  result ← of_res (new "ValidationResult" kwargs);
  mret (<["validation" := result]> {["route" := OStr route]}).

Definition raw_rejected (evaluation selection : Obj) (reason : string) : RawM RawState :=
  raw_validated [("evaluation", evaluation); ("selection", selection); ("reason", OStr reason)] "invalid".

Definition raw_validate_change (state : RawState) : RawM RawState :=
  raw_confirmation ← of_res (not_none (state_get state "confirmation") "validation requires confirmation");
  confirmation ← of_res (_confirmation raw_confirmation);
  confirmed ← of_res (obj_attr confirmation "confirmed");
  evaluation ← of_res (obj_attr confirmation "evaluation");
  selection ← of_res (obj_attr confirmation "selection");
  if negb (obj_truthy confirmed) then
    raw_validated [("evaluation", evaluation); ("selection", selection);
      ("reason", OStr "the rebooking was not confirmed"); ("user_declined", OBool true)] "declined"
  else
    selection ← of_res (not_none selection "confirmed selection is required");
    expected ← of_res (raw_expected_segment_id state evaluation);
    segment_id ← of_res (obj_attr selection "segment_id");
    if negb (same_id expected segment_id) then
      raw_rejected evaluation selection "the selected option belongs to another reservation segment"
    else
      options ← of_res (l ← obj_attr evaluation "options"; as_list l);
      flight_id ← of_res (obj_attr selection "new_flight_id");
      fare_class_id ← of_res (obj_attr selection "new_fare_class_id");
      offered ← of_res (raw_offered flight_id fare_class_id options);
      if negb offered then raw_rejected evaluation selection "the selected option was not offered"
      else
        try_else (await (RawValidateChange selection))
          (fun exc => if isinstance exc ValueError
                      then raw_rejected evaluation selection (exn_str exc) else Throw exc)
          (fun domain_validation =>
             match domain_validation with
             | VFalse => raw_rejected evaluation selection "the selected option failed domain validation"
             | VResult v => raw_validated [("valid", OBool true); ("evaluation", evaluation);
                              ("selection", selection); ("validation", dump v)] "valid"
             end).

(** * nodes/explanation.py *)

(** A number of the state, and the text of a [str] field. *)
Definition as_int (v : Obj) : Res Z :=
  match v with OInt n => Ok n | _ => raise TypeError "unsupported operand type(s)" end.
Definition as_str (v : Obj) : Res string :=
  match v with OStr s => Ok s | _ => raise TypeError "not a string" end.

Definition raw_explain_invalid_change (state : RawState) : RawM RawState :=
  validation ← of_res (not_none (state_get state "validation") "invalid explanation requires validation");
  user_declined ← of_res (obj_attr validation "user_declined");
  if obj_truthy user_declined then
    selection ← of_res (obj_attr validation "selection");
    final ← of_res (new "FinalResult" [("status", OStr "declined");
      ("message", OStr "The rebooking was not confirmed."); ("selection", selection)]);
    mret (<["final" := final]> {["route" := OStr "declined"]})
  else
    count ← of_res (as_int (default (OInt 0) (state !! "retry_count")));
    limit ← of_res (as_int (default (OInt 2) (state !! "max_retries")));
    reason ← of_res (r ← obj_attr validation "reason"; as_str r);
    if (limit <? count + 1)%Z then
      selection ← of_res (obj_attr validation "selection");
      final ← of_res (new "FinalResult" [("status", OStr "failed");
        ("message", OStr ("The selected rebooking is no longer valid: " +:+ reason));
        ("selection", selection)]);
      mret (<["final" := final]> (<["retry_count" := OInt (count + 1)]> {["route" := OStr "invalid"]}))
    else mret (<["error" := OStr reason]> (<["retry_count" := OInt (count + 1)]>
                {["route" := OStr "retry"]})).

(** * nodes/execution.py *)

(** [RebookingSelectionSchema.model_validate(selection.model_dump())]. *)
Definition schema_of (selection : Obj) : Res Obj :=
  data ← model_dump selection; model_validate "RebookingSelectionSchema" data.

(** The [except] branch of both nodes. *)
Definition raw_failed (message : string) (validation selection execution : Obj) (exc : Exn) :
    RawM RawState :=
  domain ← of_res (obj_attr validation "validation");
  final ← of_res (new "FinalResult" [("status", OStr "failed"); ("message", OStr message);
    ("selection", selection); ("validation", domain); ("execution", execution)]);
  mret (<["final" := final]> (<["error" := OStr (exn_str exc)]> {["route" := OStr "failed"]})).

Definition raw_execute_rebooking (state : RawState) : RawM RawState :=
  validation ← of_res (not_none (state_get state "validation") "execution requires a valid selection");
  valid ← of_res (obj_attr validation "valid");
  if negb (obj_truthy valid) then throw ValueError "execution requires a valid selection"
  else
    selection ← of_res (obj_attr validation "selection");
    selection ← of_res (not_none selection "execution requires a valid selection");
    try_else (schema ← of_res (schema_of selection); await (RawExecuteRebooking schema))
      (raw_failed "The rebooking could not be executed." validation selection ONone)
      (fun result => mret (<["execution" := dump result]> {["route" := OStr "completed"]})).

Definition raw_verify_rebooking (state : RawState) : RawM RawState :=
  let execution := state_get state "execution" in
  validation ← of_res (not_none (state_get state "validation") "verification requires execution state");
  selection ← of_res (obj_attr validation "selection");
  selection ← of_res (not_none selection "verification requires execution state");
  execution ← of_res (not_none execution "verification requires execution state");
  schema ← of_res (schema_of selection);
  try_else (await (RawVerifyRebooking schema))
    (raw_failed "The rebooking could not be verified." validation selection execution)
    (fun result =>
       domain ← of_res (obj_attr validation "validation");
       final ← of_res (new "FinalResult" [("status", OStr "completed");
         ("message", OStr "The rebooking was completed successfully."); ("selection", selection);
         ("validation", domain); ("execution", execution); ("verification", dump result)]);
       mret (<["verification" := dump result]> (<["final" := final]> {["route" := OStr "completed"]}))).

(** * graph.py *)

Definition raw_refresh_context (state : RawState) : RawM RawState := mret {["route" := OStr "retry"]}.

Definition raw_finalize_declined (state : RawState) : RawM RawState :=
  let validation := state_get state "validation" in
  selection ← of_res (if obj_truthy validation then obj_attr validation "selection" else Ok ONone);
  final ← of_res (new "FinalResult" [("status", OStr "declined");
    ("message", OStr "The rebooking was not confirmed."); ("selection", selection)]);
  mret (<["final" := final]> {["route" := OStr "declined"]}).

Definition raw_finalize_failed (state : RawState) : RawM RawState := mret {["route" := OStr "failed"]}.
End Nodes.

(** * The engine on objects *)

Section Engine.
Context `{Validator}.

Definition raw_node_code (n : Node) : RawState -> RawM RawState :=
  match n with
  | N_understand_request => raw_understand_request
  | N_get_reservation => raw_get_reservation
  | N_search_alternatives => raw_search_alternatives
  | N_get_travel_credits => raw_get_travel_credits
  | N_refresh_context => raw_refresh_context
  | N_evaluate_options => raw_evaluate_options
  | N_ask_confirmation => raw_ask_confirmation
  | N_validate_change => raw_validate_change
  | N_explain_invalid_change => raw_explain_invalid_change
  | N_execute_rebooking => raw_execute_rebooking
  | N_verify_rebooking => raw_verify_rebooking
  | N_finalize_failed => raw_finalize_failed
  | N_finalize_declined => raw_finalize_declined
  end.

(** [_validation_route], [_explanation_route] and [_execution_route]. *)
Definition raw_route (source : Node) (state : RawState) : Res string :=
  let default_route := match source with
    | N_validate_change | N_explain_invalid_change => "invalid" | _ => "completed" end in
  match default (OStr default_route) (state !! "route") with
  | OStr r => Ok r
  | _ => raise KeyError "route"
  end.

Fixpoint raw_branch_targets (done : list Node) (s : RawState) (branches : list Branch) :
    Res (list Target) :=
  match branches with
  | [] => Ok []
  | b :: branches' =>
      rest ← raw_branch_targets done s branches';
      if bool_decide (br_source b ∈ done) then
        r ← raw_route (br_source b) s; t ← choose r (br_targets b); Ok (t :: rest)
      else Ok rest
  end.

Definition raw_successors (g : Graph) (done : list Node) (s : RawState) : Res (list Target) :=
  branches ← raw_branch_targets done s (g_branches g);
  Ok (omap (edge_target done) (g_edges g) ++ omap (join_target done) (g_joins g) ++ branches)%list.

(** The updates are written in order: a later one wins. *)
Fixpoint raw_run_nodes (nodes : list Node) (s : RawState) : RawM RawState :=
  match nodes with
  | [] => mret ∅
  | n :: nodes' => u ← raw_node_code n s; us ← raw_run_nodes nodes' s; mret (us ∪ u)
  end.

Definition raw_superstep (g : Graph) (active : list Node) (s : RawState) : RawM (list Node * RawState) :=
  u ← raw_run_nodes active s;
  let s' := u ∪ s in
  targets ← of_res (raw_successors g active s');
  mret (nodes_of targets, s').

(** The step that asks pauses the thread and is executed again on what the
    checkpointer restored of the state, [restore] of it. *)
Context (restore : nat -> RawState -> RawState).

Fixpoint raw_invoke (g : Graph) (fuel : nat) (active : list Node) (s : RawState) : RawM RawState :=
  match active, fuel with
  | [], _ => mret s
  | _, O => throw InfraError "GraphRecursionError"
  | _, S fuel' =>
      let s := if bool_decide (N_ask_confirmation ∈ active) then restore fuel' s else s in
      '(active', s') ← raw_superstep g active s;
      raw_invoke g fuel' active' s'
  end.

(** [AgentRunner.run] over the restored values of the thread. *)
Definition raw_runner_run (fuel : nat) (max_retries : Z) (saved : RawState) (message : string) :
    RawM RawState :=
  if (py_strip message =? "") then throw ValueError "message is required"
  else raw_invoke graph fuel [g_entry graph]
         (<["user_input" := OStr message]> (<["max_retries" := OInt max_retries]> saved)).
End Engine.

(** * Selections at the service, states at the boundary *)

Section Boundary.
Context `{Validator}.
(** [v.model_dump(mode="json")], pydantic's JSON form of an instance. *)
Context (model_dump_json : Obj -> Obj).

(** [airline/service.py]: what the methods of [Service] take for a selection. *)
Definition _selection_schema (selection : Obj) : Res Obj :=
  if is_instance "RebookingSelectionSchema" selection then Ok selection
  else model_validate "RebookingSelectionSchema"
         (if is_model selection then model_dump_json selection else selection).

(** [agent/state.py]. *)
Definition state_to_dict (state : RawState) : RawState :=
  (fun value => if is_model value then model_dump_json value else value) <$> state.
End Boundary.
