(* ===== verification/RestoredStates.v ===== *)
(** Restored values are as good as the instances: the nodes on objects
    (RawNodes) do what the nodes on records (AgentNodes) do, on any state whose
    values are views of the records.

    Four keys are read by attribute only, so that a dict there would raise:
    [request], [search_result], [credits_result] and [validation].  The graph
    writes each before it reads it, in one invocation ([needs], [writes]). *)
From Stdlib Require Import String.
From stdpp Require Import base numbers strings list gmap.
From S2P Require Import Prelude Models PyVal Effects AgentState AgentNodes AgentGraph Simulation PyObject RawNodes.
Local Open Scope string_scope.

#[export] Instance SearchInput_dump : Dump SearchRebookingOptionsInputSchema := fun i =>
  OModel "SearchRebookingOptionsInputSchema" [("segment_id", OUuid (si_segment_id i));
    ("departure_from", ODatetime (si_departure_from i)); ("departure_to", ODatetime (si_departure_to i));
    ("passenger_count", OInt (si_passenger_count i))].

(** * What the nodes rely on in pydantic *)

(** The valid instances of the models that nodes validate or construct. *)
Inductive Instance : Obj -> Prop :=
  | instance_request (x : RebookingRequest) : Instance (dump x)
  | instance_context (x : ReservationContext) : Instance (dump x)
  | instance_input (x : SearchRebookingOptionsInputSchema) : Instance (dump x)
  | instance_search (x : SearchAlternativesResult) : Instance (dump x)
  | instance_credits (x : TravelCreditsResult) : Instance (dump x)
  | instance_selection (x : RebookingSelection) : Instance (dump x)
  | instance_schema (x : RebookingSelectionSchema) : Instance (dump_selection_schema x)
  | instance_validation (x : ValidationResult) : Instance (dump x)
  | instance_final (x : FinalResult) : Instance (dump x).

(** A field that validation leaves as it is: it has a valid value already, or
    an instance that is not validated again ([revalidate_instances="never"]),
    or the field is declared [Any]. *)
Definition any_field (k : string) : bool :=
  (k =? "validation") || (k =? "execution") || (k =? "verification").
Definition kept (k : string) (v x : Obj) : Prop :=
  v = x \/ (View v x /\ (is_model v || any_field k) = true).

Inductive Kept : list (string * Obj) -> list (string * Obj) -> Prop :=
  | kept_nil : Kept [] []
  | kept_cons k v x d d' : kept k v x -> Kept d d' -> Kept ((k, v) :: d) ((k, x) :: d').

(** [parse] is [RebookingSelection.model_validate] on JSON values.  The details
    of a reservation may fail to validate again. *)
Class ValidatorLaws (V : Validator) (parse : PyVal -> Res RebookingSelection) := {
  validates_kept cls d d' : Instance (OModel cls d') -> Kept d d' ->
    model_validate cls (ODict d) = Ok (OModel cls d);
  validates_instance cls d : Instance (OModel cls d) -> model_validate cls (OModel cls d) = Ok (OModel cls d);
  validates_reservation d (x : ReservationDetailsSchema) : View (ODict d) (dump x) ->
    (exists o, model_validate "ReservationDetailsSchema" (ODict d) = Ok o /\ View o (dump x)) \/
    (exists msg, model_validate "ReservationDetailsSchema" (ODict d) = raise ValidationError msg);
  validates_answer v : model_validate "RebookingSelection" (lift v) =
    match parse v with Ok s => Ok (dump s) | Raise e => Raise e end }.

(** * The objects of a state and of an operation *)

Definition entry_of (s : AgentState) (k : string) : option Obj :=
  if (k =? "user_input") then OStr <$> user_input s
  else if (k =? "request") then dump <$> request s
  else if (k =? "reservation_context") then dump <$> reservation_context s
  else if (k =? "search_result") then dump <$> search_result s
  else if (k =? "credits_result") then dump <$> credits_result s
  else if (k =? "evaluation") then dump <$> evaluation s
  else if (k =? "confirmation") then dump <$> confirmation s
  else if (k =? "validation") then dump <$> validation s
  else if (k =? "execution") then dump <$> execution s
  else if (k =? "verification") then dump <$> verification s
  else if (k =? "final") then dump <$> final s
  else if (k =? "route") then OStr <$> route s
  else if (k =? "error") then OStr <$> error s
  else if (k =? "retry_count") then OInt <$> retry_count s
  else if (k =? "max_retries") then OInt <$> max_retries s
  else None.

Definition raw_op {X} (o : AgentOp X) : RawOp X :=
  match o with
  | LlmUnderstandRequest text => RawUnderstandRequest text
  | LlmEvaluateOptions rq os cs => RawEvaluateOptions (dump rq) (dump_list os) (dump_list cs)
  | PortGetReservation ref => RawGetReservation (OStr ref)
  | PortSearchRebookingOptions input => RawSearchRebookingOptions (dump input)
  | PortGetAvailableTravelCredits customer currency =>
      RawGetAvailableTravelCredits (OUuid customer) (OStr currency)
  | PortValidateChange sel => RawValidateChange (dump sel)
  | PortExecuteRebooking sel => RawExecuteRebooking (dump_selection_schema sel)
  | PortVerifyRebooking sel => RawVerifyRebooking (dump_selection_schema sel)
  | Interrupt message e =>
      RawInterrupt (ODict [("message", OStr message); ("evaluation", _plain (dump e))])
  end.
Notation Sim := (Sim (@raw_op)).

(** * States and their views *)

(** A value that was written in the same invocation: the instance itself; of a
    validation, an instance whose evaluation may still be restored inside. *)
Definition Fresh (k : string) (v x : Obj) : Prop :=
  if (k =? "validation") then forall f, f <> "evaluation" -> obj_attr v f = obj_attr x f else v = x.
Definition fresh_keys : list string := ["request"; "search_result"; "credits_result"; "validation"].

Definition ViewAt (F : list string) (k : string) (v x : Obj) : Prop :=
  View v x /\ (k ∈ F -> Fresh k v x).

(** [StateView F raw s]: the keys of [s], views of its values, those of [F]
    fresh. *)
Definition StateView (F : list string) (raw : RawState) (s : AgentState) : Prop :=
  forall k, option_Forall2 (ViewAt F k) (raw !! k) (entry_of s k).

(** An update that has the keys [W]. *)
Definition UpdateView (W : list string) (u : RawState) (u' : AgentState) : Prop :=
  StateView fresh_keys u u' /\ forall k, k ∈ W -> is_Some (u !! k).

Lemma entry_merge s u k :
  entry_of (merge s u) k = match entry_of u k with Some o => Some o | None => entry_of s k end.
Proof.
  unfold entry_of, merge; cbn.
  repeat (match goal with |- context [if ?b then _ else _] => destruct b end;
    [match goal with |- context [override ?x _] => by destruct x end|]). done.
Qed.

Lemma state_view_mono F F' raw s : F' ⊆ F -> StateView F raw s -> StateView F' raw s.
Proof.
  intros HF Hs k. destruct (Hs k) as [v x [Hv Hf]|]; constructor. split; [done|]. auto.
Qed.

Lemma merge_view F W raw s u u' : F ⊆ fresh_keys -> StateView F raw s -> UpdateView W u u' ->
  W ⊆ fresh_keys -> StateView (F ++ W) (u ∪ raw) (merge s u').
Proof.
  intros HF Hs [Hu HW] HWf k. rewrite entry_merge. specialize (Hu k). specialize (Hs k).
  destruct (u !! k) as [v|] eqn:Euk; inversion Hu as [? x Hv|]; subst.
  - rewrite (lookup_union_Some_l _ _ _ v) by done. constructor. split; [apply Hv|].
    intros Hk. apply Hv. apply elem_of_app in Hk as [Hk|Hk]; auto.
  - rewrite lookup_union_r by done. destruct Hs as [v x [Hv Hf]|]; constructor.
    split; [done|]. intros Hk. apply elem_of_app in Hk as [Hk|Hk]; [auto|].
    apply HW in Hk as [? Hk]. congruence.
Qed.

(** Updates, key by key. *)
Definition Covers (K : list string) (u : RawState) (u' : AgentState) : Prop :=
  forall k, k ∉ K -> option_Forall2 (ViewAt fresh_keys k) (u !! k) (entry_of u' k).

Lemma covers_insert K k v x u u' : entry_of u' k = Some x -> ViewAt fresh_keys k v x ->
  Covers (k :: K) u u' -> Covers K (<[k := v]> u) u'.
Proof.
  intros Hk Hv Hu k' Hk'. destruct (decide (k' = k)) as [->|Hne].
  - rewrite lookup_insert_eq, Hk. by constructor.
  - rewrite lookup_insert_ne by done. apply Hu. set_solver.
Qed.
Lemma covers_empty K u' : (forall k, k ∉ K -> entry_of u' k = None) -> Covers K ∅ u'.
Proof. intros HK k Hk. rewrite HK by done. rewrite lookup_empty. constructor. Qed.
Lemma covers_update W u u' : Covers [] u u' -> (forall k, k ∈ W -> is_Some (u !! k)) -> UpdateView W u u'.
Proof. intros Hu HW. split; [|done]. intros k. apply Hu, not_elem_of_nil. Qed.

Lemma view_at_same F k v : k <> "validation" -> ViewAt F k v v.
Proof.
  intros Hk. split; [done|]. intros _. unfold Fresh. by rewrite (proj2 (String.eqb_neq _ _) Hk).
Qed.
Lemma view_at_other k v x : bool_decide (k ∈ fresh_keys) = false -> View v x -> ViewAt fresh_keys k v x.
Proof. intros Hk Hv. split; [done|]. intros Hin. by apply bool_decide_eq_false_1 in Hk. Qed.

(** [update_view]: an update writes its keys, with the instances themselves
    where they are, and no other key. *)
Ltac other_keys :=
  let k := fresh "k" in let Hk := fresh "Hk" in
  intros k Hk; unfold entry_of;
  repeat match goal with
  | |- context [(k =? ?c)] => destruct (String.eqb_spec k c) as [->|]; [try reflexivity; exfalso; apply Hk; repeat first [by left|right]|]
  end; reflexivity.
Ltac update_view :=
  apply covers_update;
  [repeat (eapply covers_insert; [reflexivity|try (by apply view_at_same)|]);
   try (apply covers_empty; other_keys)
  |intros ? Hw; repeat (apply elem_of_cons in Hw as [->|Hw]; [by vm_compute; eexists|]);
   by apply not_elem_of_nil in Hw].

(** * Reading a view *)

Lemma get_some F raw s k x : StateView F raw s -> entry_of s k = Some x ->
  exists v, raw !! k = Some v /\ state_get raw k = v /\ ViewAt F k v x.
Proof.
  intros Hs Hk. specialize (Hs k). rewrite Hk in Hs. inversion Hs as [v ? Hv E|]; subst.
  exists v. unfold state_get. by rewrite <- E.
Qed.

Lemma get_none F raw s k : StateView F raw s -> entry_of s k = None ->
  raw !! k = None /\ state_get raw k = ONone.
Proof.
  intros Hs Hk. specialize (Hs k). rewrite Hk in Hs. inversion Hs as [|E]; subst.
  unfold state_get. by rewrite <- E.
Qed.

Lemma not_none_view v x msg : View v x -> is_onone x = false -> not_none v msg = Ok v.
Proof. intros Hv Hx. unfold not_none. by rewrite (view_none v x Hv), Hx. Qed.

Lemma entries_leaves d d' : Entries d d' -> Forall (fun e => is_leaf e.2 = true) d' -> d = d'.
Proof.
  induction 1 as [|k v v' d d' Hv _ IH]; [done|]. intros Hl. inversion Hl as [|? ? Hx Hd]; subst.
  by rewrite (view_leaf v v' Hv Hx), IH.
Qed.

(** The views of an instance whose fields are leaves. *)
Lemma view_flat v cls d' : View v (OModel cls d') -> Forall (fun e => is_leaf e.2 = true) d' ->
  v = OModel cls d' \/ v = ODict d'.
Proof.
  intros Hv Hl. inversion Hv as [| | |? ? ? Hd|? ? ? Hd]; subst; [by left|..];
    rewrite (entries_leaves _ _ Hd Hl); auto.
Qed.

Lemma request_leaves (rq : RebookingRequest) : forall d, dump rq = OModel "RebookingRequest" d ->
  Forall (fun e => is_leaf e.2 = true) d.
Proof.
  intros d [= <-]. unfold dump_id, dump_time. repeat constructor; cbn; by case_match.
Qed.
Lemma selection_leaves s : Forall (fun e => is_leaf e.2 = true) (selection_fields s).
Proof. unfold selection_fields, dump_id. repeat constructor; cbn; by case_match. Qed.

Lemma kept_refl d : Kept d d.
Proof. induction d as [|[k v] d IH]; constructor; [by left|done]. Qed.

Section Nodes.
Context `{HV : Validator} (parse : PyVal -> Res RebookingSelection) `{HL : !ValidatorLaws HV parse}.

(** A request is validated back to the instance. *)
Lemma request_view v (rq : RebookingRequest) : View v (dump rq) ->
  validate_dict "RebookingRequest" v = Ok (dump rq).
Proof.
  intros Hv. destruct (view_flat v _ _ Hv) as [->| ->]; [by apply request_leaves with rq|done|].
  cbn. apply validates_kept with (d' := match dump rq with OModel _ d => d | _ => [] end);
    [apply (instance_request rq)|apply kept_refl].
Qed.

(** The context of a node: the request, and any view of the reservation. *)
Definition ContextView (o : Obj) (c : ReservationContext) : Prop :=
  exists res, o = OModel "ReservationContext" [("request", dump (cx_request c)); ("reservation", res)]
    /\ View res (dump (cx_reservation c)).

Lemma constructed_reservation d (x : ReservationDetailsSchema) : View (ODict d) (dump x) ->
  View (model_construct "ReservationDetailsSchema" d) (dump x).
Proof.
  inversion 1 as [| | | |? ? ? Hd]; subst.
  repeat match goal with Hd : Entries _ _ |- _ => inversion Hd; clear Hd; subst end.
  apply view_model. cbn. by repeat constructor.
Qed.

Lemma context_view F raw s : StateView F raw s -> Agree ContextView (raw_context raw) (_context s).
Proof using HL.
  intros Hs. unfold raw_context, _context.
  destruct (reservation_context s) as [c|] eqn:E.
  2:{ destruct (get_none F raw s "reservation_context" Hs) as [_ ->]; [cbn; by rewrite E|].
      apply agree_raise. }
  destruct (get_some F raw s "reservation_context" (dump c) Hs) as (v & _ & -> & Hv & _);
    [cbn; by rewrite E|].
  rewrite (not_none_view v _ _ Hv) by done. cbn [mbind Res_bind or_raise].
  destruct (view_field v _ _ "request" _ Hv eq_refl) as (rq & -> & Hrq).
  destruct (view_field v _ _ "reservation" _ Hv eq_refl) as (res & -> & Hres).
  cbn [mbind Res_bind]. rewrite (request_view _ _ Hrq). cbn [mbind Res_bind].
  assert (exists o, View o (dump (cx_reservation c)) /\
    match res with
    | ODict data =>
        match model_validate "ReservationDetailsSchema" res with
        | Ok r => Ok r
        | Raise e => if isinstance e ValidationError
                     then Ok (model_construct "ReservationDetailsSchema" data) else Raise e
        end
    | _ => Ok res
    end = Ok o) as (o & Ho & ->); [|by apply agree_ok; exists o].
  destruct res; try by eexists.
  destruct (validates_reservation d _ Hres) as [(o & -> & Ho)|(msg & ->)]; [by exists o|].
  eexists. split; [by apply constructed_reservation|done].
Qed.

(** Lists of instances. *)
Lemma list_view {A} `{Dump A} v (l : list A) : View v (dump_list l) ->
  exists os, v = OList os /\ Items os (dump <$> l).
Proof. apply view_items. Qed.

(** The fields of a list's elements, whichever way they are stored. *)
Lemma segment_view o (g : ReservationSegmentDetailsSchema) : View o (dump g) ->
  segment_id_of o = Ok (OUuid (rs_id (sd_segment g))).
Proof.
  intros Ho. unfold segment_id_of.
  destruct (view_field o _ _ "segment" _ Ho eq_refl) as (s & -> & Hs). cbn.
  destruct (view_field s _ _ "id" _ Hs eq_refl) as (i & -> & Hi).
  by rewrite (view_leaf _ _ Hi eq_refl).
Qed.

Lemma requested_segment_view id os (l : list ReservationSegmentDetailsSchema) : Items os (dump <$> l) ->
  Agree (fun o g => View o (dump g)) (requested_segment (OUuid id) os)
    (or_raise (List.find (fun s => rs_id (sd_segment s) =? id)%N l) ValueError
       "requested reservation segment was not found").
Proof.
  revert os. induction l as [|g l IH]; cbn; intros os Hl.
  - inversion Hl; subst. apply agree_raise.
  - inversion Hl as [|o ? os' ? Ho Hos]; subst. cbn. rewrite (segment_view o g Ho). cbn.
    destruct (rs_id (sd_segment g) =? id)%N; [by apply agree_ok|auto].
Qed.

Lemma selected_view F raw s : StateView F raw s ->
  Agree (fun p q => ContextView p.1 q.1 /\ View p.2 (dump q.2))
    (raw_selected_segment raw) (_selected_segment s).
Proof using HL.
  intros Hs. unfold raw_selected_segment, _selected_segment.
  eapply agree_bind; [by eapply context_view|]. intros o c (res & -> & Hres). cbn.
  destruct (view_field res _ _ "segments" _ Hres eq_refl) as (g & -> & Hg). cbn.
  destruct (list_view g _ Hg) as (os & -> & Hos). cbn.
  destruct (rq_segment_id (cx_request c)) as [id|]; cbn.
  - eapply agree_bind; [by apply requested_segment_view|]. intros seg g Hseg. apply agree_ok.
    split; [by exists res|done].
  - inversion Hos as [E1 E2|v g' l l' Hv Hl E1 E2]; destruct (rd_segments _) as [|g1 [|g2 gs]];
      try discriminate; [apply agree_raise|..].
    + injection E2 as -> ->. inversion Hl; subst. apply agree_ok. split; [by exists res|done].
    + injection E2 as -> ->. inversion Hl; subst. apply agree_raise.
Qed.

(** * nodes/llm.py and nodes/airline.py *)

Lemma understand_sim s raw F : StateView F raw s ->
  Sim (UpdateView ["request"]) (raw_understand_request raw) (understand_request s).
Proof.
  intros Hs. unfold raw_understand_request, understand_request.
  assert (default (OStr "") (raw !! "user_input") = OStr (default "" (user_input s))) as ->.
  { specialize (Hs "user_input"). cbn in Hs. destruct (user_input s); inversion Hs as [v ? [Hv _] E|E]; subst.
    - cbn. by rewrite (view_leaf _ _ Hv eq_refl).
    - done. }
  cbn [of_res mbind Prog_bind prog_bind].
  destruct (py_strip _ =? ""); [apply sim_throw|].
  apply sim_await_bind; [done|]. intros rq.
  destruct (rq_booking_reference rq =? ""); [apply sim_throw|].
  apply sim_ret. update_view.
Qed.

Lemma get_reservation_sim s raw F : StateView F raw s -> "request" ∈ F ->
  Sim (UpdateView []) (raw_get_reservation raw) (get_reservation s).
Proof using HL.
  intros Hs HF. unfold raw_get_reservation, get_reservation.
  destruct (request s) as [rq|] eqn:E; cbn [or_raise].
  2:{ destruct (get_none F raw s "request" Hs) as [_ ->]; [cbn; by rewrite E|]. apply sim_throw. }
  destruct (get_some F raw s "request" (dump rq) Hs) as (v & _ & -> & Hv & Hf);
    [cbn; by rewrite E|]. specialize (Hf HF). cbn in Hf. subst v.
  cbn [of_res not_none is_onone dump RebookingRequest_dump mbind Prog_bind prog_bind].
  apply sim_await_bind; [done|]. intros res.
  destruct (rd_segments res); [apply sim_throw|].
  eapply sim_pure.
  { unfold new. apply (validates_kept _ _ _ (instance_context (mkContext rq res))), kept_refl. }
  apply sim_ret. update_view.
Qed.

Lemma request_attrs (rq : RebookingRequest) :
  obj_attr (dump rq) "departure_from" = Ok (dump_time (rq_departure_from rq)) /\
  obj_attr (dump rq) "departure_to" = Ok (dump_time (rq_departure_to rq)).
Proof. done. Qed.

Lemma window_view rq :
  Agree (fun p q => p = (ODatetime q.1, ODatetime q.2)) (raw_require_window (dump rq)) (require_window rq).
Proof.
  unfold raw_require_window, require_window. destruct (request_attrs rq) as [-> ->].
  destruct (rq_departure_from rq) as [f|], (rq_departure_to rq) as [t|]; cbn;
    try (by apply agree_raise). destruct (t <? f)%Z; [apply agree_raise|by apply agree_ok].
Qed.

Lemma search_sim s raw F : StateView F raw s ->
  Sim (UpdateView ["search_result"]) (raw_search_alternatives raw) (search_alternatives s).
Proof using HL.
  intros Hs. unfold raw_search_alternatives, search_alternatives.
  eapply sim_res_bind; [by eapply selected_view|].
  intros [o seg] [c g]. cbn [fst snd]. intros [(res & -> & Hres) Hseg].
  eapply sim_pure; [reflexivity|].
  eapply sim_res_bind; [apply window_view|]. intros p [from to] ->. cbn [fst snd].
  rewrite (segment_view seg g Hseg). eapply sim_pure; [reflexivity|].
  eapply sim_pure; [reflexivity|]. cbn [fst].
  destruct (view_field res _ _ "passengers" _ Hres eq_refl) as (l & El & Hl).
  destruct (list_view l _ Hl) as (ps & -> & Hps).
  eapply sim_pure; [rewrite El; reflexivity|].
  pose (input := mkSearchInput (rs_id (sd_segment g)) from to
                   (Z.of_nat (length (rd_passengers (cx_reservation c))))).
  apply items_length in Hps. rewrite length_fmap in Hps. rewrite Hps.
  eapply sim_pure.
  { apply (validates_kept _ _ _ (instance_input input)), kept_refl. }
  apply sim_await_bind; [done|]. intros options.
  eapply sim_pure.
  { apply (validates_kept _ _ _ (instance_search (mkSearchResult (cx_request c) options))), kept_refl. }
  apply sim_ret. update_view.
Qed.

Lemma credits_sim s raw F : StateView F raw s ->
  Sim (UpdateView ["credits_result"]) (raw_get_travel_credits raw) (get_travel_credits s).
Proof using HL.
  intros Hs. unfold raw_get_travel_credits, get_travel_credits.
  eapply sim_res_bind; [by eapply context_view|]. intros o c (res & -> & Hres).
  eapply sim_pure; [reflexivity|].
  destruct (view_field res _ _ "reservation" _ Hres eq_refl) as (r & Er & Hr).
  eapply sim_pure; [exact Er|].
  destruct (view_field r _ _ "customer_id" _ Hr eq_refl) as (i & Ei & Hi).
  eapply sim_pure; [exact Ei|]. apply view_leaf in Hi as ->; [|done].
  destruct (view_field r _ _ "currency" _ Hr eq_refl) as (u & Eu & Hu).
  eapply sim_pure; [exact Eu|]. apply view_leaf in Hu as ->; [|done].
  apply sim_await_bind; [done|]. intros credits.
  eapply sim_pure; [reflexivity|].
  eapply sim_pure.
  { apply (validates_kept _ _ _ (instance_credits (mkCreditsResult (cx_request c) credits))), kept_refl. }
  apply sim_ret. update_view.
Qed.

(** The ids of the options: every option has them. *)
Lemma option_ids_view part (id : RebookingOptionSchema -> UUID) (options : list RebookingOptionSchema) :
  (forall o, (p ← _field (dump o) part; _field p "id") = Ok (OUuid (id o))) ->
  option_ids part (dump <$> options) = Ok (OUuid <$> (id <$> options)).
Proof.
  intros Hid. unfold option_ids. apply mapM_Res_Ok.
  induction options as [|o options IH]; constructor; [apply Hid|exact IH].
Qed.

Lemma same_id_exists id ids :
  existsb (same_id (OUuid id)) (OUuid <$> ids) = bool_decide (id ∈ ids).
Proof.
  apply eq_true_iff_eq. rewrite existsb_exists, bool_decide_eq_true. setoid_rewrite <- list_elem_of_In.
  split.
  - intros (o & Ho & E). apply list_elem_of_fmap in Ho as (i & -> & Hi). cbn in E. to_prop. by subst.
  - intros Hi. exists (OUuid id). split; [by apply list_elem_of_fmap_2|]. cbn. apply N.eqb_refl.
Qed.

Lemma evaluate_sim s raw F : StateView F raw s -> "search_result" ∈ F -> "credits_result" ∈ F ->
  Sim (UpdateView []) (raw_evaluate_options raw) (evaluate_options s).
Proof using HL.
  intros Hs HFs HFc. unfold raw_evaluate_options, evaluate_options.
  assert (validate_dict "RebookingRequest" (state_get raw "request")
          = Ok (dump_optional (request s))) as ->.
  { destruct (request s) as [rq|] eqn:E.
    - destruct (get_some F raw s "request" (dump rq) Hs) as (v & _ & -> & Hv & _); [cbn; by rewrite E|].
      by apply request_view.
    - destruct (get_none F raw s "request" Hs) as [_ ->]; [cbn; by rewrite E|]. done. }
  assert (state_get raw "search_result" = dump_optional (search_result s)) as ->.
  { destruct (search_result s) as [x|] eqn:E.
    - destruct (get_some F raw s "search_result" (dump x) Hs) as (v & _ & -> & Hv & Hf);
        [cbn; by rewrite E|]. exact (Hf HFs).
    - by destruct (get_none F raw s "search_result" Hs) as [_ ->]; [cbn; by rewrite E|]. }
  assert (state_get raw "credits_result" = dump_optional (credits_result s)) as ->.
  { destruct (credits_result s) as [x|] eqn:E.
    - destruct (get_some F raw s "credits_result" (dump x) Hs) as (v & _ & -> & Hv & Hf);
        [cbn; by rewrite E|]. exact (Hf HFc).
    - by destruct (get_none F raw s "credits_result" Hs) as [_ ->]; [cbn; by rewrite E|]. }
  eapply sim_pure; [reflexivity|].
  destruct (request s) as [rq|], (search_result s) as [search|], (credits_result s) as [credits|];
    try (apply sim_throw).
  do 4 (eapply sim_pure; [reflexivity|]).
  apply sim_await_bind; [done|]. intros e.
  eapply sim_pure; [reflexivity|].
  eapply sim_pure; [by apply (option_ids_view _ (fun o => f_id (ro_flight o)))|].
  eapply sim_pure; [by apply (option_ids_view _ (fun o => ff_id (ro_flight_fare o)))|].
  rewrite <- fmap_app.
  assert (forall l ids, existsb (fun id => negb (existsb (same_id (OUuid id)) (OUuid <$> ids))) l
          = negb (forallb (fun id => bool_decide (id ∈ ids)) l)) as ->.
  { intros l ids. induction l as [|i l IH]; cbn; [done|]. rewrite IH, same_id_exists.
    by destruct (bool_decide _). }
  unfold allowed_ids. destruct (negb _); [apply sim_throw|].
  apply sim_ret. update_view.
Qed.

(** * nodes/confirmation.py *)

(** An evaluation as [_evaluation] leaves it: an instance with an instance of
    its request; the rest may be restored. *)
Definition EvaluationView (o : Obj) (e : EvaluationResult) : Prop :=
  View o (dump e) /\ is_model o = true /\ obj_attr o "request" = Ok (dump (ev_request e)).

Ltac entries_invert :=
  repeat match goal with Hd : Entries _ (_ :: _) |- _ => inversion Hd; clear Hd; subst
                       | Hd : Entries _ [] |- _ => inversion Hd; clear Hd; subst end.

Lemma fields_of_view v cls d' msg : View v (OModel cls d') ->
  exists d, fields_of cls v msg = Ok d /\ Entries d d'.
Proof.
  inversion 1; subst; cbn; rewrite ?String.eqb_refl; eauto using Entries_refl.
Qed.

Lemma evaluation_view v (e : EvaluationResult) : View v (dump e) ->
  exists o, _evaluation v = Ok o /\ EvaluationView o e.
Proof using HL.
  intros Hv. unfold _evaluation.
  destruct (fields_of_view v _ _ "invalid evaluation" Hv) as (d & -> & Hd). cbn [mbind Res_bind].
  entries_invert. cbn [get_key lookup_key default pop_key String.eqb Ascii.eqb Bool.eqb].
  unfold get_key; cbn -[validate_dict dump]. rewrite (request_view v0 (ev_request e)) by done. cbn -[dump].
  eexists. split; [reflexivity|]. split_and!; [|done..].
  apply view_model. cbn -[dump]. repeat (constructor; [done|]). constructor.
Qed.

(** A confirmation as [_confirmation] leaves it. *)
Definition ConfirmationView (o : Obj) (c : ConfirmationResult) : Prop :=
  exists ev, o = OModel "ConfirmationResult" [("confirmed", OBool (cf_confirmed c));
      ("selection", dump_optional (cf_selection c)); ("evaluation", ev)]
    /\ EvaluationView ev (cf_evaluation c).

Lemma selection_view v (sel : RebookingSelection) : View v (dump sel) ->
  obj_truthy v = true /\ model_validate "RebookingSelection" v = Ok (dump sel).
Proof using HL.
  intros Hv. destruct (view_flat v _ _ Hv (selection_leaves sel)) as [->| ->]; (split; [done|]).
  - apply validates_instance, (instance_selection sel).
  - apply (validates_kept _ _ _ (instance_selection sel)), kept_refl.
Qed.

Lemma confirmation_view v (c : ConfirmationResult) : View v (dump c) ->
  exists o, _confirmation v = Ok o /\ ConfirmationView o c.
Proof using HL.
  intros Hv. unfold _confirmation.
  destruct (fields_of_view v _ _ "invalid confirmation" Hv) as (d & -> & Hd). cbn [mbind Res_bind].
  entries_invert. unfold get_key. cbn -[_evaluation dump].
  match goal with Hc : View ?x (OBool _) |- _ => rewrite (view_leaf _ _ Hc eq_refl) end.
  match goal with He : View ?x (dump _) |- _ =>
    destruct (evaluation_view x _ He) as (ev & Eev & Hev) end.
  match goal with Hs : View ?x (dump_optional _) |- _ =>
    assert ((if obj_truthy x then model_validate "RebookingSelection" x else Ok ONone)
            = Ok (dump_optional (cf_selection c))) as -> end.
  { destruct (cf_selection c) as [sel|].
    - match goal with Hs : View ?x _ |- context [model_validate _ ?x] =>
        by destruct (selection_view x sel Hs) as [-> ->] end.
    - match goal with Hs : View ?x (dump_optional None) |- _ =>
        by rewrite (view_leaf x ONone Hs eq_refl) end. }
  cbn -[_evaluation dump]. rewrite Eev. cbn -[dump].
  eexists. split; [reflexivity|]. by exists ev.
Qed.

(** The keys of a JSON object. *)
Lemma lookup_lift k (d : list (string * PyVal)) :
  lookup_key k ((fun e => (e.1, lift e.2)) <$> d) = lift <$> entry k d.
Proof. induction d as [|[k' v] d IH]; cbn; [done|]. by destruct (k =? k'). Qed.
Lemma lookup_set k k' v d : lookup_key k (set_key k' v d) = if (k =? k') then Some v else lookup_key k d.
Proof.
  induction d as [|[k0 v0] d IH]; cbn; [done|].
  destruct (String.eqb_spec k' k0) as [->|Hne]; cbn.
  - by destruct (k =? k0).
  - rewrite IH. destruct (String.eqb_spec k k0) as [->|]; [|done].
    by rewrite (proj2 (String.eqb_neq _ _) (not_eq_sym Hne)).
Qed.
Lemma truthy_lift v : obj_truthy (lift v) = truthy v.
Proof. destruct v; cbn; rewrite ?length_fmap; done. Qed.

Lemma answer_view answer ev (e : EvaluationResult) : EvaluationView ev e ->
  Agree ConfirmationView (value ← with_evaluation (lift answer) ev; _confirmation value)
    (parse_confirmation parse answer e).
Proof using HL.
  intros Hev. destruct answer as [| | | | | |d|]; try by apply agree_raise.
  cbn [lift with_evaluation mbind Res_bind parse_confirmation].
  unfold _confirmation, fields_of. cbn [mbind Res_bind].
  unfold get_key. rewrite !lookup_set, !lookup_lift.
  cbn [String.eqb Ascii.eqb Bool.eqb or_raise].
  unfold get, get_or. apply (agree_bind (fun o sel => o = dump_optional sel)).
  - destruct (entry "selection" d) as [v|]; cbn -[model_validate]; [|by apply agree_ok].
    rewrite truthy_lift, validates_answer. destruct (truthy v); [|by apply agree_ok].
    destruct (parse v); [by apply agree_ok|apply agree_raise].
  - intros o sel ->. cbn [mbind Res_bind].
    destruct (evaluation_view ev e (proj1 Hev)) as (ev' & -> & Hev').
    apply agree_ok. exists ev'. split; [|done].
    destruct (entry "confirmed" d); cbn; by rewrite ?truthy_lift.
Qed.

Lemma confirmation_object_view o c : ConfirmationView o c -> View o (dump c).
Proof. intros (ev & -> & Hev & _). apply view_model. repeat (constructor; [done|]). constructor. Qed.

Lemma ask_sim s raw F : StateView F raw s ->
  Sim (UpdateView []) (raw_ask_confirmation raw) (ask_confirmation parse s).
Proof using HL.
  intros Hs. unfold raw_ask_confirmation, ask_confirmation.
  destruct (evaluation s) as [e|] eqn:E; cbn [or_raise].
  2:{ destruct (get_none F raw s "evaluation" Hs) as [_ ->]; [cbn; by rewrite E|]. apply sim_throw. }
  destruct (get_some F raw s "evaluation" (dump e) Hs) as (v & _ & -> & Hv & _); [cbn; by rewrite E|].
  rewrite (not_none_view v _ _ Hv eq_refl). eapply sim_pure; [reflexivity|].
  destruct (evaluation_view v e Hv) as (o & Eo & Ho). eapply sim_pure; [exact Eo|].
  cbn [of_res mbind Prog_bind prog_bind].
  apply sim_await_bind; [by rewrite (plain_view o (dump e)) by apply Ho|]. intros answer.
  destruct (answer_view answer o e Ho) as [a c Hc|err].
  - apply sim_ret. update_view. apply view_at_other; [done|].
    by apply confirmation_object_view.
  - destruct (_ || _); apply sim_throw.
Qed.

Lemma model_attr v k x cls d' : View v (OModel cls d') -> is_model v = true -> lookup_key k d' = Some x ->
  exists o, obj_attr v k = Ok o /\ View o x.
Proof.
  intros Hv Hm Hk. destruct (view_field v cls d' k x Hv Hk) as (o & Ho & Hx).
  exists o. split; [|done]. by destruct v.
Qed.

Lemma expected_view F raw s ev e : StateView F raw s -> EvaluationView ev e ->
  raw_expected_segment_id raw ev = Ok (dump_id (expected_segment_id s e)).
Proof.
  intros Hs (_ & _ & Hrq). unfold raw_expected_segment_id, expected_segment_id.
  assert (exists segs os,
    segs = match reservation_context s with
           | Some c => rd_segments (cx_reservation c) | None => [] end /\ Items os (dump <$> segs) /\
    (reservation ← (if is_onone (state_get raw "reservation_context") then Ok ONone
                    else _field (state_get raw "reservation_context") "reservation");
     (if is_onone reservation then Ok (OList []) else _field reservation "segments"))
    = Ok (OList os)) as (segs & os & <- & Hos & Hsegs).
  { destruct (reservation_context s) as [c|] eqn:E.
    - destruct (get_some F raw s "reservation_context" (dump c) Hs) as (v & _ & -> & Hv & _);
        [cbn; by rewrite E|].
      rewrite (view_none v _ Hv : _ = false).
      destruct (view_field v _ _ "reservation" _ Hv eq_refl) as (r & -> & Hr).
      cbn [mbind Res_bind]. rewrite (view_none r _ Hr : _ = false).
      destruct (view_field r _ _ "segments" _ Hr eq_refl) as (l & -> & Hl).
      destruct (list_view l _ Hl) as (os & -> & Hos). by eexists _, os.
    - destruct (get_none F raw s "reservation_context" Hs) as [_ ->]; [cbn; by rewrite E|].
      exists [], []. split_and!; [done|constructor|done]. }
  rewrite <- res_bind_assoc, Hsegs. cbn [mbind Res_bind]. rewrite Hrq. cbn [mbind Res_bind].
  change (obj_attr (dump (ev_request e)) "segment_id") with (Ok (dump_id (rq_segment_id (ev_request e)))).
  cbn [mbind Res_bind].
  inversion Hos as [E1 E2|o x l l' Ho Hl E1 E2]; destruct segs as [|g segs]; try discriminate.
  - cbn. by destruct (rq_segment_id _).
  - injection E2 as -> ->. cbn. destruct (rq_segment_id _) as [id|]; cbn; [done|].
    by apply segment_view.
Qed.

Lemma same_id_option x u : same_id (dump_id x) (OUuid u) = bool_decide (x = Some u).
Proof.
  destruct x as [i|]; cbn; [|done]. apply eq_true_iff_eq. rewrite N.eqb_eq, bool_decide_eq_true.
  split; congruence.
Qed.

Lemma offered_view (sel : RebookingSelection) os (l : list RebookingOptionSchema) :
  Items os (dump <$> l) ->
  raw_offered (OUuid (sel_new_flight_id sel)) (OUuid (sel_new_fare_class_id sel)) os =
  Ok (existsb (fun o => (f_id (ro_flight o) =? sel_new_flight_id sel)%N
                        && (fc_id (ro_fare_class o) =? sel_new_fare_class_id sel)%N) l).
Proof.
  revert os. induction l as [|x l IH]; cbn [fmap list_fmap]; intros os Hl.
  - by inversion Hl.
  - inversion Hl as [|o ? os' ? Ho Hos]; subst. cbn [raw_offered existsb].
    destruct (view_field o _ _ "flight" _ Ho eq_refl) as (f & -> & Hf). cbn [mbind Res_bind].
    destruct (view_field f _ _ "id" _ Hf eq_refl) as (i & -> & Hi). cbn [mbind Res_bind].
    rewrite (view_leaf _ _ Hi eq_refl). cbn [same_id].
    destruct (_ =? _)%N; [|by apply IH].
    destruct (view_field o _ _ "fare_class" _ Ho eq_refl) as (g & -> & Hg). cbn [mbind Res_bind].
    destruct (view_field g _ _ "id" _ Hg eq_refl) as (j & -> & Hj). cbn [mbind Res_bind].
    rewrite (view_leaf _ _ Hj eq_refl). cbn [same_id andb orb].
    destruct (_ =? _)%N; [done|by apply IH].
Qed.

(** A validation whose evaluation is a view. *)
Definition validation_fields (v : ValidationResult) (ev : Obj) : list (string * Obj) :=
  [("valid", OBool (vr_valid v)); ("selection", dump_optional (vr_selection v));
   ("reason", OStr (vr_reason v)); ("evaluation", ev);
   ("user_declined", OBool (vr_user_declined v)); ("validation", dump_optional (vr_validation v))].

Lemma validated_sim kwargs route (v : ValidationResult) ev : EvaluationView ev (vr_evaluation v) ->
  with_defaults "ValidationResult" kwargs = validation_fields v ev ->
  Sim (UpdateView ["validation"]) (raw_validated kwargs route) (mret (put_validation v route)).
Proof using HL.
  intros (Hev & Hm & _) Hk. unfold raw_validated, new. rewrite Hk.
  eapply sim_pure.
  { apply (validates_kept _ _ _ (instance_validation v)).
    repeat (constructor; [by left|]). constructor; [right; by rewrite Hm|].
    repeat (constructor; [by left|]). constructor. }
  apply sim_ret. update_view. split.
  - apply view_model. repeat (constructor; [done|]). constructor.
  - intros _ f Hf. cbn -[dump String.eqb]. repeat (case_match; [done|]).
    all: cbn -[String.eqb]; repeat case_match; try done; to_prop; congruence.
Qed.

Lemma rejected_sim ev (e : EvaluationResult) (sel : RebookingSelection) reason : EvaluationView ev e ->
  Sim (UpdateView ["validation"]) (raw_rejected ev (dump sel) reason) (mret (rejected e sel reason)).
Proof using HL. intros Hev. by apply (validated_sim _ _ _ ev). Qed.

Lemma validate_sim s raw F : StateView F raw s ->
  Sim (UpdateView ["validation"]) (raw_validate_change raw) (validate_change s).
Proof using HL.
  intros Hs. unfold raw_validate_change, validate_change.
  destruct (confirmation s) as [c|] eqn:E; cbn [or_raise].
  2:{ destruct (get_none F raw s "confirmation" Hs) as [_ ->]; [cbn; by rewrite E|]. apply sim_throw. }
  destruct (get_some F raw s "confirmation" (dump c) Hs) as (v & _ & -> & Hv & _); [cbn; by rewrite E|].
  rewrite (not_none_view v _ _ Hv eq_refl). eapply sim_pure; [reflexivity|].
  destruct (confirmation_view v c Hv) as (o & Eo & ev & -> & Hev). eapply sim_pure; [exact Eo|].
  do 3 (eapply sim_pure; [reflexivity|]). cbn [of_res mbind Prog_bind prog_bind obj_truthy].
  destruct (cf_confirmed c); cbn [negb]; [|by apply (validated_sim _ _ _ ev)].
  destruct (cf_selection c) as [sel|]; [|apply sim_throw].
  cbn [dump_optional or_raise of_res mbind Prog_bind prog_bind]. eapply sim_pure; [reflexivity|].
  eapply sim_pure; [by eapply expected_view|]. eapply sim_pure; [reflexivity|].
  rewrite same_id_option. destruct (bool_decide _); cbn [negb]; [|by apply rejected_sim].
  destruct (model_attr ev "options" _ _ _ (proj1 Hev) (proj1 (proj2 Hev)) eq_refl) as (l & El & Hl).
  destruct (list_view l _ Hl) as (os & -> & Hos).
  eapply sim_pure; [by rewrite El|]. do 2 (eapply sim_pure; [reflexivity|]).
  eapply sim_pure; [by apply offered_view|].
  unfold offered. destruct (existsb _ _); cbn [negb]; [|by apply rejected_sim].
  eapply sim_try_else; [apply (sim_await (@raw_op) (PortValidateChange sel))|..].
  - intros exc. destruct (isinstance exc ValueError); [by apply rejected_sim|apply sim_throw].
  - intros a ? <-. destruct a as [|dv]; [by apply rejected_sim|by apply (validated_sim _ _ (mkValidationResult _ _ _ _ _ (Some dv)) ev)].
Qed.

(** * nodes/explanation.py, nodes/execution.py and graph.py *)

Lemma raw_leaf F raw s k : StateView F raw s ->
  (forall x, entry_of s k = Some x -> is_leaf x = true) -> raw !! k = entry_of s k.
Proof.
  intros Hs Hl. specialize (Hs k). destruct Hs as [v x [Hv _]|]; [|done].
  by rewrite (view_leaf v x Hv (Hl x eq_refl)).
Qed.

Lemma raw_counts F raw s : StateView F raw s ->
  as_int (default (OInt 0) (raw !! "retry_count")) = Ok (default 0%Z (retry_count s)) /\
  as_int (default (OInt 2) (raw !! "max_retries")) = Ok (default 2%Z (max_retries s)).
Proof.
  intros Hs.
  rewrite (raw_leaf F raw s "retry_count" Hs), (raw_leaf F raw s "max_retries" Hs);
    [|intros x; cbn; by destruct (max_retries s); intros [= <-]
     |intros x; cbn; by destruct (retry_count s); intros [= <-]].
  cbn. by destruct (retry_count s), (max_retries s).
Qed.

(** A fresh validation. *)
Lemma validation_view F raw s : StateView F raw s -> "validation" ∈ F ->
  match validation s with
  | None => state_get raw "validation" = ONone
  | Some v => exists o, state_get raw "validation" = o /\ is_model o = true /\
      forall f, f <> "evaluation" -> obj_attr o f = obj_attr (dump v) f
  end.
Proof.
  intros Hs HF. destruct (validation s) as [v|] eqn:E.
  - destruct (get_some F raw s "validation" (dump v) Hs) as (o & _ & -> & Hv & Hf); [cbn; by rewrite E|].
    specialize (Hf HF). cbn in Hf. exists o. split_and!; [done| |done].
    assert (obj_attr o "reason" = Ok (OStr (vr_reason v))) as Ho by by rewrite Hf.
    by destruct o.
  - by destruct (get_none F raw s "validation" Hs) as [_ ->]; [cbn; by rewrite E|].
Qed.

Lemma model_not_none o msg : is_model o = true -> not_none o msg = Ok o.
Proof. by destruct o. Qed.

(** A final result of known fields. *)
Lemma new_final kwargs fields (f : FinalResult) : with_defaults "FinalResult" kwargs = fields ->
  Kept fields (match dump f with OModel _ d => d | _ => [] end) ->
  new "FinalResult" kwargs = Ok (OModel "FinalResult" fields).
Proof using HL. intros <- Hk. by apply (validates_kept _ _ _ (instance_final f)). Qed.

Lemma new_final_same kwargs (f : FinalResult) :
  OModel "FinalResult" (with_defaults "FinalResult" kwargs) = dump f ->
  new "FinalResult" kwargs = Ok (dump f).
Proof using HL.
  intros Hk. rewrite <- Hk. apply (new_final _ _ f); [done|]. rewrite <- Hk. apply kept_refl.
Qed.

Lemma explain_sim s raw F : StateView F raw s -> "validation" ∈ F ->
  Sim (UpdateView []) (raw_explain_invalid_change raw) (explain_invalid_change s).
Proof using HL.
  intros Hs HF. unfold raw_explain_invalid_change, explain_invalid_change.
  pose proof (validation_view F raw s Hs HF) as Hv. destruct (validation s) as [v|]; cbn [or_raise].
  2:{ rewrite Hv. apply sim_throw. }
  destruct Hv as (o & -> & Hm & Ho). rewrite (model_not_none o) by done.
  destruct (raw_counts F raw s Hs) as [-> ->].
  eapply sim_pure; [reflexivity|]. eapply sim_pure; [by rewrite Ho|].
  cbn [of_res mbind Prog_bind prog_bind obj_truthy].
  destruct (vr_user_declined v).
  - eapply sim_pure; [by rewrite Ho|].
    eapply sim_pure; [by apply (new_final_same _ (mkFinal FS_declined "The rebooking was not confirmed."
      (vr_selection v) None None None))|].
    apply sim_ret. update_view.
  - eapply sim_pure; [by rewrite Ho|].
    destruct (_ <? _)%Z.
    + eapply sim_pure; [by rewrite Ho|].
      eapply sim_pure; [by apply (new_final_same _ (mkFinal FS_failed
        ("The selected rebooking is no longer valid: " +:+ vr_reason v)
        (vr_selection v) None None None))|].
      apply sim_ret. update_view.
    + apply sim_ret. update_view.
Qed.

Lemma schema_view (sel : RebookingSelection) : schema_of (dump sel) = Ok (dump_selection_schema sel).
Proof using HL.
  unfold schema_of.
  assert (model_dump (dump sel) = Ok (ODict (selection_fields sel))) as ->
    by (destruct sel as [? ? ? [?|] ?]; reflexivity).
  apply (validates_kept _ _ _ (instance_schema sel)), kept_refl.
Qed.

(** The [except] branch, with any view of what was executed. *)
Lemma failed_sim message o (v : ValidationResult) (sel : RebookingSelection) ev execution exc :
  (forall f, f <> "evaluation" -> obj_attr o f = obj_attr (dump v) f) ->
  View ev (dump_optional execution) ->
  Sim (UpdateView []) (raw_failed message o (dump sel) ev exc)
    (mret (put_final None None (mkFinal FS_failed message (Some sel) (vr_validation v) execution None)
       "failed" (Some (exn_str exc)))).
Proof using HL.
  intros Ho Hev. unfold raw_failed. eapply sim_pure; [by rewrite Ho|].
  eapply sim_pure; [eapply (new_final _ _ (mkFinal FS_failed message (Some sel) (vr_validation v)
    execution None)); [reflexivity|]|].
  { repeat (constructor; [by left|]). constructor; [right; by rewrite orb_true_r|].
    constructor; [by left|constructor]. }
  apply sim_ret. update_view. apply view_at_other; [done|].
  apply view_model. repeat (constructor; [done|]). constructor.
Qed.

Lemma execute_sim s raw F : StateView F raw s -> "validation" ∈ F ->
  Sim (UpdateView []) (raw_execute_rebooking raw) (execute_rebooking s).
Proof using HL.
  intros Hs HF. unfold raw_execute_rebooking, execute_rebooking.
  pose proof (validation_view F raw s Hs HF) as Hv. destruct (validation s) as [v|].
  2:{ rewrite Hv. apply sim_throw. }
  destruct Hv as (o & -> & Hm & Ho). rewrite (model_not_none o) by done.
  eapply sim_pure; [reflexivity|]. eapply sim_pure; [by rewrite Ho|]. cbn [obj_truthy].
  destruct v as [valid sel reason e declined domain]. cbn [vr_valid].
  destruct valid; cbn [negb]; [|apply sim_throw]. eapply sim_pure; [by rewrite Ho|].
  destruct sel as [sel|]; [|apply sim_throw]. eapply sim_pure; [reflexivity|].
  eapply sim_try_else.
  - eapply sim_pure; [apply (schema_view sel)|]. apply (sim_await (@raw_op) (PortExecuteRebooking sel)).
  - intros exc. by apply (failed_sim _ o (mkValidationResult true (Some sel) reason e declined domain)
      sel ONone None).
  - intros r ? <-. apply sim_ret. update_view.
Qed.

Lemma verify_sim s raw F : StateView F raw s -> "validation" ∈ F ->
  Sim (UpdateView []) (raw_verify_rebooking raw) (verify_rebooking s).
Proof using HL.
  intros Hs HF. unfold raw_verify_rebooking, verify_rebooking.
  pose proof (validation_view F raw s Hs HF) as Hv. destruct (validation s) as [v|].
  2:{ rewrite Hv. apply sim_throw. }
  destruct Hv as (o & -> & Hm & Ho). rewrite (model_not_none o) by done.
  eapply sim_pure; [reflexivity|]. eapply sim_pure; [by rewrite Ho|].
  destruct v as [valid sel reason e declined domain].
  destruct sel as [sel|]; [|apply sim_throw]. eapply sim_pure; [reflexivity|].
  destruct (execution s) as [x|] eqn:E.
  2:{ destruct (get_none F raw s "execution" Hs) as [_ ->]; [cbn; by rewrite E|]. apply sim_throw. }
  destruct (get_some F raw s "execution" (dump x) Hs) as (ex & _ & -> & Hex & _); [cbn; by rewrite E|].
  rewrite (not_none_view ex _ _ Hex eq_refl). eapply sim_pure; [reflexivity|].
  eapply sim_pure; [apply (schema_view sel)|].
  eapply sim_try_else; [apply (sim_await (@raw_op) (PortVerifyRebooking sel))|..].
  - intros exc. by apply (failed_sim _ o (mkValidationResult valid (Some sel) reason e declined domain)
      sel ex (Some x)).
  - intros r ? <-. eapply sim_pure; [by rewrite Ho|].
    eapply sim_pure; [eapply (new_final _ _ (mkFinal FS_completed
      "The rebooking was completed successfully." (Some sel) domain (Some x) (Some r))); [reflexivity|]|].
    { repeat (constructor; [by left|]). constructor; [right; by rewrite orb_true_r|].
      constructor; [by left|constructor]. }
    apply sim_ret. update_view. apply view_at_other; [done|].
    apply view_model. repeat (constructor; [done|]). constructor.
Qed.

Lemma finalize_declined_sim s raw F : StateView F raw s -> "validation" ∈ F ->
  Sim (UpdateView []) (raw_finalize_declined raw) (_finalize_declined s).
Proof using HL.
  intros Hs HF. unfold raw_finalize_declined, _finalize_declined.
  pose proof (validation_view F raw s Hs HF) as Hv.
  eapply sim_pure with (a := dump_optional (v ← validation s; vr_selection v)).
  { destruct (validation s) as [v|]; [|by rewrite Hv].
    destruct Hv as (o & -> & Hm & Ho). destruct o; try done. cbn [obj_truthy]. by rewrite Ho. }
  eapply sim_pure; [by apply (new_final_same _ (mkFinal FS_declined "The rebooking was not confirmed."
    (v ← validation s; vr_selection v) None None None))|].
  apply sim_ret. update_view.
Qed.

Lemma refresh_sim s raw : Sim (UpdateView []) (raw_refresh_context raw) (_refresh_context s).
Proof. apply sim_ret. update_view. Qed.
Lemma finalize_failed_sim s raw : Sim (UpdateView []) (raw_finalize_failed raw) (_finalize_failed s).
Proof. apply sim_ret. update_view. Qed.

(** What a node needs fresh, and what it writes of that. *)
Definition needs (n : Node) : list string :=
  match n with
  | N_get_reservation => ["request"]
  | N_evaluate_options => ["search_result"; "credits_result"]
  | N_explain_invalid_change | N_execute_rebooking | N_verify_rebooking | N_finalize_declined =>
      ["validation"]
  | _ => []
  end.
Definition writes (n : Node) : list string :=
  match n with
  | N_understand_request => ["request"]
  | N_search_alternatives => ["search_result"]
  | N_get_travel_credits => ["credits_result"]
  | N_validate_change => ["validation"]
  | _ => []
  end.

(** Every node does on the objects what it does on the records. *)
Lemma node_sim n s raw F : StateView F raw s -> needs n ⊆ F ->
  Sim (UpdateView (writes n)) (raw_node_code n raw) (node_code parse n s).
Proof using HL.
  intros Hs HF.
  destruct n; cbn [raw_node_code node_code writes]; cbn [needs] in HF;
    [eapply understand_sim|eapply get_reservation_sim|eapply search_sim|eapply credits_sim
    |apply refresh_sim|eapply evaluate_sim|eapply ask_sim|eapply validate_sim|eapply explain_sim
    |eapply execute_sim|eapply verify_sim|apply finalize_failed_sim|eapply finalize_declined_sim];
    first [exact Hs|apply HF; set_solver].
Qed.
End Nodes.
