(* ===== verification/ChatProperties.v ===== *)
(** What holds of the chat endpoint: which bodies it accepts, what it promises
    about its reply, and that whatever it queues passes the worker's own
    validation and reaches the agent as what the client sent. *)
From Stdlib Require Import String Ascii.
From stdpp Require Import base numbers strings list.
From S2P Require Import Prelude Models Uuid PyVal Pydantic Effects JobService JobProperties JobRequests.
From S2P Require Import ChatRouter AgentState AgentNodes AgentGraph.
Local Open Scope string_scope.

(** * Well-formed requests *)

(** An answer to a confirmation: when confirmed, with a selection. *)
Definition resume_ok (r : ResumeRequest) : Prop :=
  rm_confirmed r = true -> is_Some (rm_selection r).

(** A user, a session, and a message or an answer but not both. *)
Record chat_ok (c : ChatRequest) : Prop := {
  ck_user : is_blank (ch_user_id c) = false;
  ck_session : is_blank (ch_session_id c) = false;
  ck_action :
    (has_message c = true /\ ch_resume c = None) \/
    (has_message c = false /\ exists r, ch_resume c = Some r);
  ck_resume : forall r, ch_resume c = Some r -> resume_ok r }.

Lemma require_selection_ok r r' : require_selection r = Ok r' <-> r' = r /\ resume_ok r.
Proof.
  unfold require_selection, resume_ok. destruct r as [[] [s|]]; cbn; unfold raise; split;
    try (intros [= <-]; split; [done|]; by eauto); try (by intros [-> _]).
  - done.
  - intros [_ H]. by destruct (H eq_refl).
Qed.

Lemma require_one_action_ok c c' :
  require_one_action c = Ok c' <->
  c' = c /\ is_blank (ch_user_id c) = false /\ is_blank (ch_session_id c) = false /\
  ((has_message c = true /\ ch_resume c = None) \/
   (has_message c = false /\ exists r, ch_resume c = Some r)).
Proof.
  unfold require_one_action. rewrite guard_Ok, guard_Ok, orb_false_iff.
  destruct (has_message c), (ch_resume c) as [r|]; cbn; naive_solver.
Qed.

Section Validation.
Context {P : Pydantic}.

(** The entries of a body that an instance was read from. *)
Record resume_of (v : PyVal) (r : ResumeRequest) : Prop := {
  ro_confirmed : exists d b, v = PDict d /\ entry "confirmed" d = Some b /\
    validate_bool b = Valid (rm_confirmed r) /\
    match rm_selection r with
    | Some s => get d "selection" <> PNone /\ validate_selection (get d "selection") = Valid s
    | None => get d "selection" = PNone
    end }.

Record chat_of (d : list (string * PyVal)) (c : ChatRequest) : Prop := {
  co_user : get d "user_id" = PStr (ch_user_id c);
  co_session : get d "session_id" = PStr (ch_session_id c);
  co_message : get d "message" = match ch_message c with Some m => PStr m | None => PNone end;
  co_resume : match ch_resume c with
              | Some r => resume_of (get d "resume") r
              | None => get d "resume" = PNone
              end }.

Lemma validate_resume_ok v r :
  validate_resume v = Valid r <-> resume_of v r /\ resume_ok r.
Proof.
  unfold validate_resume. rewrite model_valid. setoid_rewrite after_valid.
  setoid_rewrite vmap_valid. setoid_rewrite require_selection_ok. split.
  - intros (d & -> & r0 & ([b s] & [Hb Hs]%both_valid & <-) & -> & Hok). split; [|done].
    split. apply required_valid in Hb as (bv & Hb & Hbv). exists d, bv. cbn.
    repeat split; [done|done|]. apply optional_valid in Hs as [[Hs ->]|(Hs & s' & Hv & ->)]; done.
  - intros [[(d & b & -> & Hb & Hbv & Hs)] Hok]. exists d. split; [done|]. exists r. split; [|done].
    exists (rm_confirmed r, rm_selection r). split; [|by destruct r]. apply both_valid. split.
    + apply required_valid. eauto.
    + apply optional_valid. destruct (rm_selection r); naive_solver.
Qed.

Context {PL : PydanticLaws P}.

Lemma required_str name d s : required name validate_str d = Valid s <-> get d name = PStr s.
Proof.
  rewrite required_valid. setoid_rewrite str_valid. unfold get, get_or.
  destruct (entry name d); naive_solver.
Qed.

Lemma optional_str name d o :
  optional name validate_str d = Valid o <->
  get d name = match o with Some s => PStr s | None => PNone end.
Proof.
  rewrite optional_valid. setoid_rewrite str_valid. destruct o as [s|]; split.
  - intros [[_ [=]]|(_ & s' & Hs & [= ->])]; done.
  - intros ->. right. split; [done|]. eauto.
  - intros [[Hs _]|(_ & s' & _ & [=])]; done.
  - intros Hs. by left.
Qed.

(** A body is accepted exactly when it is an object whose fields have their
    types and that asks for one thing; the instance holds those fields. *)
Lemma validate_chat_ok body c :
  validate_chat body = Valid c <-> exists d, body = PDict d /\ chat_of d c /\ chat_ok c.
Proof.
  unfold validate_chat. rewrite model_valid. setoid_rewrite after_valid.
  setoid_rewrite vmap_valid. setoid_rewrite require_one_action_ok. split.
  - intros (d & -> & c0 & ((u & s & m & r) & Hf & <-) & -> & Hu & Hs & Ha).
    exists d. split; [done|].
    apply both_valid in Hf as [Hfu Hf]. apply both_valid in Hf as [Hfs Hf].
    apply both_valid in Hf as [Hfm Hfr].
    apply required_str in Hfu, Hfs. apply optional_str in Hfm. apply optional_valid in Hfr.
    destruct Hfr as [[Hn ->]|(_ & r0 & [Hr Hok]%validate_resume_ok & ->)].
    + split; [by split|]. by split.
    + split; [by split|]. split; try done. cbn. by intros ? [= <-].
  - intros (d & -> & [Hu Hs Hm Hr] & [Hbu Hbs Ha Hok]). exists d. split; [done|].
    exists c. split; [|done].
    exists (ch_user_id c, (ch_session_id c, (ch_message c, ch_resume c))).
    split; [|by destruct c].
    apply both_valid. split; [by apply required_str|].
    apply both_valid. split; [by apply required_str|].
    apply both_valid. split; [by apply optional_str|].
    apply optional_valid. destruct (ch_resume c) as [r|]; [|by left]. right. split.
    2: { exists r. split; [|done]. apply validate_resume_ok. by eauto. }
    intros E. destruct Hr as [(? & ? & E' & _)]. congruence.
Qed.

(** C35: the endpoint accepts a body exactly when it is an object whose user,
    session, message and resume have their declared types and that has a
    visible user and session and either a visible message or an answer, which
    carries a selection when confirmed; the instance holds what was sent. *)
Theorem validate_chat_spec body c :
  validate_chat body = Valid c <-> exists d, body = PDict d /\ chat_of d c /\ chat_ok c.
Proof. apply validate_chat_ok. Qed.

(** * What is queued *)

Lemma get_dump_chat c :
  get (dump_chat c) "user_id" = PStr (ch_user_id c) /\
  get (dump_chat c) "session_id" = PStr (ch_session_id c) /\
  entry "message" (dump_chat c) = PStr <$> ch_message c /\
  entry "resume" (dump_chat c) = (fun r => PDict (dump_resume r)) <$> ch_resume c.
Proof. by destruct c as [u s [m|] [r|]]. Qed.

Lemma get_dump_resume r :
  get (dump_resume r) "confirmed" = PBool (rm_confirmed r) /\
  get (dump_resume r) "selection" =
    match rm_selection r with Some s => PDict (dump_selection s) | None => PNone end.
Proof. by destruct r as [b [s|]]. Qed.

Lemma dump_truthy s : truthy (PDict (dump_selection s)) = true.
Proof. pose proof (dump_required s) as H. by destruct (dump_selection s). Qed.

Lemma dump_not_none s : PDict (dump_selection s) <> PNone.
Proof. done. Qed.

Lemma parse_dumped_resume r evaluation :
  parse_confirmation parse_selection (PDict (dump_resume r)) evaluation =
  Ok (mkConfirmation (rm_confirmed r) (rm_selection r) evaluation).
Proof.
  unfold parse_confirmation. destruct (get_dump_resume r) as [-> ->].
  destruct (rm_selection r) as [s|]; [rewrite dump_truthy, dump_parsed|]; done.
Qed.

(** C26: the job of an accepted request passes the worker's validation
    unchanged, and the worker makes the one call of the agent the client asked
    for: the answer is resumed, the message is run; a body with a null
    [resume] is a message, since the key is dropped.  The confirmation node
    reads from the answer exactly the decision and the selection sent. *)
Theorem routed_job_accepted body c :
  validate_chat body = Valid c ->
  validate_request (PDict (dump_chat c)) = Ok (dump_chat c) /\
  call_agent (dump_chat c) =
    match ch_resume c, ch_message c with
    | Some r, _ =>
        await (RunnerResume (PStr (ch_user_id c)) (PStr (ch_session_id c)) (PDict (dump_resume r)))
    | None, Some m => await (RunnerRun (PStr (ch_user_id c)) (PStr (ch_session_id c)) (PStr m))
    | None, None => throw KeyError "message"
    end /\
  forall r evaluation, ch_resume c = Some r ->
    parse_confirmation parse_selection (PDict (dump_resume r)) evaluation =
    Ok (mkConfirmation (rm_confirmed r) (rm_selection r) evaluation).
Proof.
  intros (d & _ & _ & [Hu Hs Ha Hr])%validate_chat_ok.
  destruct (get_dump_chat c) as (Eu & Es & Em & Er). split; [|split].
  - unfold validate_request, get, get_or in *. rewrite Eu, Es, Em, Er. cbn [is_blank_field].
    rewrite Hu, Hs. destruct Ha as [[Hm ->]|[Hm (r & Ec)]].
    + unfold has_message in Hm. destruct (ch_message c) as [m|]; [|done]. cbn. by rewrite Hm.
    + rewrite Ec. cbn [fmap option_fmap option_map].
      assert (is_blank_field match PStr <$> ch_message c with Some v => v | None => PNone end = true)
        as Hblank.
      { unfold has_message in Hm. destruct (ch_message c) as [m|]; [|done]. cbn.
        by apply negb_false_iff in Hm. }
      cbn [fmap option_fmap option_map] in Hblank. rewrite Hblank. cbn [negb is_none Bool.eqb].
      destruct (get_dump_resume r) as [Ec1 Ec2]. unfold get, get_or in Ec1, Ec2.
      rewrite Ec1, Ec2. cbn [is_bool truthy negb].
      specialize (Hr _ Ec). unfold resume_ok in Hr. destruct (rm_confirmed r); [|done].
      destruct (Hr eq_refl) as [s ->]. by rewrite dump_truthy.
  - unfold call_agent, has_key, item. rewrite Eu, Es, Em, Er.
    destruct (ch_resume c); [done|]. by destruct (ch_message c).
  - intros r evaluation Hc. apply parse_dumped_resume.
Qed.

(** What the endpoint queues is itself an acceptable body for the same
    request: dumping an accepted request and validating it again gives the
    request back. *)
Theorem chat_roundtrip c : chat_ok c -> validate_chat (PDict (dump_chat c)) = Valid c.
Proof.
  intros Hok. apply validate_chat_ok. exists (dump_chat c). split; [done|]. split; [|done].
  destruct (get_dump_chat c) as (Eu & Es & Em & Er).
  split; [done|done|unfold get, get_or; rewrite Em; by destruct (ch_message c)|].
  unfold get, get_or; rewrite Er. destruct (ch_resume c) as [r|]; [|done]. cbn.
  split. destruct (get_dump_resume r) as [Ec Es'].
  exists (dump_resume r), (PBool (rm_confirmed r)). split; [done|]. split; [done|].
  split; [apply bool_valid|]. rewrite Es'.
  destruct (rm_selection r) as [s|]; [|done]. split; [done|apply dump_valid].
Qed.

(** * Conversations *)

(** The lock of a job's conversation is named after the agent's thread. *)
Lemma conversation_is_thread str_of c :
  conversation_of str_of (dump_chat c) = thread_id (ch_user_id c) (ch_session_id c).
Proof. unfold conversation_of. by destruct (get_dump_chat c) as (-> & -> & _). Qed.

(** No colon in a user id. *)
Definition colon_free : string -> bool := free_of ":".

Lemma thread_id_inj u s u' s' :
  colon_free u = true -> colon_free u' = true -> thread_id u s = thread_id u' s' -> u = u' /\ s = s'.
Proof. apply free_of_split. Qed.

(** Conversations belong to one user: two requests share the lock of the
    worker and the thread of the agent only when they come from the same user
    and session, as long as user ids have no colon. *)
Theorem threads_scoped_by_user str_of c c' :
  colon_free (ch_user_id c) = true -> colon_free (ch_user_id c') = true ->
  conversation_of str_of (dump_chat c) = conversation_of str_of (dump_chat c') <->
  ch_user_id c = ch_user_id c' /\ ch_session_id c = ch_session_id c'.
Proof.
  intros Hu Hu'. rewrite !conversation_is_thread. split; [by apply thread_id_inj|].
  by intros [-> ->].
Qed.

(** A message body. *)
Definition message_body (user session message : string) : PyVal :=
  PDict [("user_id", PStr user); ("session_id", PStr session); ("message", PStr message)].

Lemma message_body_valid user session message :
  is_blank user = false -> is_blank session = false -> is_blank message = false ->
  validate_chat (message_body user session message) = Valid (mkChat user session (Some message) None).
Proof.
  intros Hu Hs Hm. apply validate_chat_ok. eexists. split; [done|]. split; [by split|].
  split; try done. left. split; [|done]. unfold has_message. cbn. by rewrite Hm.
Qed.

(** A colon breaks that scope: two accepted requests of different users
    run on one thread of the agent, so one of them reads and resumes the
    other's conversation. *)
Theorem thread_shared_across_users :
  exists c c', validate_chat (message_body "a" "b:c" "hi") = Valid c /\
    validate_chat (message_body "a:b" "c" "hi") = Valid c' /\
    ch_user_id c <> ch_user_id c' /\
    thread_id (ch_user_id c) (ch_session_id c) = thread_id (ch_user_id c') (ch_session_id c').
Proof.
  eexists _, _. split; [by apply message_body_valid|]. split; [by apply message_body_valid|]. done.
Qed.

(** * The reply *)

Definition reply_of (r : Res (PyVal * bool)) : Reply :=
  match r with
  | Ok (job_id, duplicate) => Accepted202 job_id (if duplicate then "duplicate" else "published")
  | Raise _ => HTTPException 500 "publish job failed"
  end.

(** The key a request publishes with. *)
Definition key_of (header : option string) : option string :=
  let key := py_strip (default "" header) in if key =? "" then None else Some key.

Inductive Replied (body : PyVal) (header : option string) : Reply -> Trace JobOp -> Prop :=
  | rp_invalid first rest :
      validate_chat body = Invalid first rest ->
      Replied body header (HTTPException 422 (detail_of first)) []
  | rp_long_key c :
      validate_chat body = Valid c -> (200 < py_len (py_strip (default "" header)))%nat ->
      Replied body header (HTTPException 422 "Idempotency-Key is too long") []
  | rp_published c r tr :
      validate_chat body = Valid c -> (py_len (py_strip (default "" header)) <= 200)%nat ->
      Published (PDict (dump_chat c)) (key_of header) r (key_events tr) (outgoing tr) (status_writes tr) ->
      Replied body header (reply_of r) tr.

(** C27: the endpoint always replies: 422 with the first error's text for an
    invalid body and for a key of more than 200 characters, having done
    nothing; otherwise it publishes once, and says 202 "published" exactly when
    a fresh job is queued, 202 "duplicate" with the owner of the key when
    nothing is, and 500 when the publication was undone. *)
Theorem publish_chat_contract body header :
  wp (publish_chat body header) (fun r tr =>
    exists reply, r = Ok reply /\ Replied body header reply tr).
Proof.
  unfold publish_chat. destruct (validate_chat body) as [c|first rest] eqn:Hv.
  - cbv zeta. destruct (200 <? py_len _)%nat eqn:Hlen.
    + apply Nat.ltb_lt in Hlen. wp_step. eexists. split; [done|]. by eapply rp_long_key.
    + apply Nat.ltb_ge in Hlen. apply wp_try_else. fold (key_of header).
      eapply wp_mono; [|apply publish_contract_holds]. cbn beta. intros r tr Hp.
      assert (Replied body header (reply_of r) (tr ++ [])) by (rewrite app_nil_r; by eapply rp_published).
      destruct r as [[job_id duplicate]|e]; cbn; eauto.
  - wp_step. eexists. split; [done|]. by eapply rp_invalid.
Qed.
End Validation.
