(* ===== verification/BenchChat.v ===== *)
(** The benchmark against the system it drives: the bodies the load generator
    posts are accepted by the chat endpoint and become one conversation of the
    agent, and the fake model finds in its message the booking that was seeded
    for it. *)
From Stdlib Require Import Ascii String QArith.
From stdpp Require Import base numbers strings list.
From S2P Require Import Prelude Models Uuid PyVal Pydantic Effects LoadGenerator LoadProperties JobService.
From S2P Require Import ChatRouter AgentNodes AgentGraph OpenRouter FakeLlm ChatProperties.
Local Open Scope string_scope.

(** * The seeded booking is understood *)

Lemma count_digits_le fuel n w : (n < 10 ^ N.of_nat (S w))%N -> (count_digits fuel n <= S w)%nat.
Proof.
  revert n w; induction fuel as [|fuel IH]; intros n w Hn; cbn [count_digits]; [lia|].
  destruct (N.ltb_spec n 10); [lia|]. destruct w as [|w]; [cbn in Hn; lia|].
  apply le_n_S, IH. apply N.Div0.div_lt_upper_bound. by rewrite <- N.pow_succ_r', <- Nat2N.inj_succ.
Qed.

Lemma zero_padded_exact w n : (n < 10 ^ N.of_nat (S w))%N ->
  zero_padded (S w) n = string_of_list_ascii (dec (S w) n).
Proof. intros Hn. unfold zero_padded. f_equal. f_equal. pose proof (count_digits_le (N.size_nat n) n w Hn). unfold width. lia. Qed.

Lemma decimal_digit n : is_digit (hex_digit (n mod 10)) = true.
Proof.
  assert (n mod 10 < 10)%N as Hd by (apply N.mod_lt; lia). revert Hd. generalize (n mod 10)%N. intros d Hd.
  assert (Forall (fun x => is_digit (hex_digit (N.of_nat x)) = true) (seq 0 10)) as HF
    by (vm_compute; repeat constructor).
  rewrite Forall_forall in HF. rewrite <- (N2Nat.id d). apply HF, elem_of_seq. lia.
Qed.

(** Digits in front of a text that does not go on with one. *)
Lemma take_digits_all l rest : Forall (fun c => is_digit c = true) l ->
  take_digits (length l) (string_of_list_ascii l +:+ rest) = Some (string_of_list_ascii l, rest).
Proof.
  induction 1 as [|c l Hc _ IH]; cbn -[is_digit]; [done|].
  change (String c (string_of_list_ascii l) +:+ rest) with (String c (string_of_list_ascii l +:+ rest)).
  cbv beta iota. by rewrite Hc, IH.
Qed.

Lemma dec_digits w n : Forall (fun c => is_digit c = true) (dec w n) /\ length (dec w n) = w.
Proof.
  revert n; induction w as [|w IH]; intros n; cbn; [by split|]. destruct (IH (n / 10)%N) as [Hd Hl].
  split; [|rewrite length_app; cbn; lia]. apply Forall_app. split; [done|].
  constructor; [apply decimal_digit|constructor].
Qed.

Lemma search_skips b prefix s : forallb (fun c => negb (Ascii.eqb c "B")) (list_ascii_of_string prefix) = true ->
  search_reference b (prefix +:+ " " +:+ s) = search_reference false s.
Proof.
  revert b. induction prefix as [|c prefix IH]; intros b Hp.
  - change ("" +:+ " " +:+ s) with (String " " s). cbn -[match_reference].
    assert (match_reference (String " " s) = None) as -> by (by destruct s). by destruct b.
  - cbn in Hp. apply andb_true_iff in Hp as [Hc Hp]. apply negb_true_iff in Hc.
    change (String c prefix +:+ " " +:+ s) with (String c (prefix +:+ " " +:+ s)).
    cbn -[match_reference is_word]. rewrite IH by done.
    assert (match_reference (String c (prefix +:+ " " +:+ s)) = None) as ->.
    { destruct prefix as [|k prefix]; cbn; by rewrite Hc. }
    by destruct b.
Qed.

(** The fake model reads from the load generator's message exactly the
    booking reference seeded for the conversation, for every index of at most
    six digits. *)
Theorem bench_booking_recognized index groups seeded :
  ids index groups = Ok seeded -> (index < 1000000)%N ->
  booking_reference (bench_message seeded) = id_booking_reference seeded.
Proof.
  unfold ids. destruct (groups =? 0)%N; [done|]. intros [= <-] Hi.
  unfold booking_reference, bench_message. cbn [id_booking_reference].
  rewrite (zero_padded_exact 5) by done. destruct (dec_digits 6 index) as [Hd Hl].
  revert Hd Hl. generalize (dec 6 index) as l. intros l Hd Hl.
  change ("I need to rebook reservation " +:+ ?s) with ("I need to rebook reservation" +:+ " " +:+ s).
  rewrite search_skips by done.
  assert (match_reference (("BK" +:+ string_of_list_ascii l) +:+ " between 2026-09-21 and 2026-09-23")
          = Some ("BK" +:+ string_of_list_ascii l)) as Hm.
  { change (("BK" +:+ string_of_list_ascii l) +:+ ?r)
      with (String "B" (String "K" (string_of_list_ascii l +:+ r))).
    cbn [match_reference]. pose proof (take_digits_all l " between 2026-09-21 and 2026-09-23" Hd) as Ht.
    rewrite Hl in Ht. rewrite Ht. done. }
  change (("BK" +:+ string_of_list_ascii l) +:+ ?r)
    with (String "B" (String "K" (string_of_list_ascii l +:+ r))) in Hm |- *.
  cbn [search_reference]. by rewrite Hm.
Qed.

(** A longer index is read as another customer's booking. *)
Example bench_reference_too_long :
  booking_reference (bench_message (mkIds "" "" "" ("BK" +:+ zero_padded 6 1000000))) = "DEF456".
Proof. vm_compute. reflexivity. Qed.

(** * The bodies are accepted *)

Section Accepted.
Context {P : Pydantic} {PL : PydanticLaws P}.

Lemma ids_user index groups seeded : ids index groups = Ok seeded ->
  is_blank (id_user_id seeded) = false.
Proof.
  unfold ids. destruct (groups =? 0)%N; [done|]. intros [= <-]. cbn [id_user_id].
  apply (visible_nonblank _ 98); [by left|reflexivity].
Qed.

Lemma session_visible run_id index : is_blank (session_of run_id index) = false.
Proof. apply (visible_nonblank _ 98); [by left|reflexivity]. Qed.

(** The endpoint accepts both requests of a conversation, as a message and
    as a confirmation of the seeded selection, for one and the same thread of
    the agent, which no other conversation of the run shares. *)
Theorem bench_bodies_accepted run_id index groups seeded selection :
  ids index groups = Ok seeded -> validate_selection (bench_selection seeded) = Valid selection ->
  exists start resume,
    validate_chat (start_body run_id index seeded) = Valid start /\
    validate_chat (resume_body run_id index seeded) = Valid resume /\
    ch_message start = Some (bench_message seeded) /\ ch_resume start = None /\
    ch_resume resume = Some (mkResume true (Some selection)) /\ ch_message resume = None /\
    thread_id (ch_user_id start) (ch_session_id start) = thread_id (ch_user_id resume) (ch_session_id resume) /\
    forall index' seeded', ids index' groups = Ok seeded' ->
      thread_id (ch_user_id start) (ch_session_id start) =
      thread_id (id_user_id seeded') (session_of run_id index') -> index = index'.
Proof.
  intros Hids Hsel.
  exists (mkChat (id_user_id seeded) (session_of run_id index) (Some (bench_message seeded)) None),
    (mkChat (id_user_id seeded) (session_of run_id index) None (Some (mkResume true (Some selection)))).
  pose proof (ids_user _ _ _ Hids) as Hu. pose proof (session_visible run_id index) as Hs.
  split_and!; try done.
  - apply validate_chat_ok. eexists. split; [done|]. split; [by split|]. split; try done.
    left. split; [|done]. unfold has_message. cbn [ch_message].
    rewrite (visible_nonblank _ 73); [done|by left|reflexivity].
  - apply validate_chat_ok. eexists. split; [done|]. split.
    + split; try done. cbn. split. eexists _, (PBool true). split; [done|]. split; [done|].
      split; [apply bool_valid|]. cbn. by split.
    + split; try done; [|by intros r [= <-]; eexists]. right. split; [done|]. by eexists.
  - intros index' seeded' Hids'. cbn [ch_user_id ch_session_id]. intros H.
    assert (forall i s, ids i groups = Ok s -> colon_free (id_user_id s) = true) as Hcolon.
    { intros i s. unfold ids. destruct (groups =? 0)%N; [done|]. intros [= <-]. cbn.
      apply zero_padded_free. done. }
    apply thread_id_inj in H as [H _]; [|by eapply Hcolon..].
    by apply (ids_distinct_users _ _ _ _ _ Hids Hids').
Qed.
End Accepted.
