(* ===== verification/ChatFixtures.v ===== *)
(** Concrete chat bodies: a lax boolean parser in pydantic's sense, a codec for
    selections, the texts of the endpoint's rejections, and the witnesses of
    the endpoint's theorems. *)
From Stdlib Require Import String.
From stdpp Require Import base numbers strings list.
From S2P Require Import Prelude Models Uuid PyVal Pydantic Effects JobService JobProperties JobRequests.
From S2P Require Import ChatRouter AgentState AgentNodes AgentGraph ChatProperties.
Local Open Scope string_scope.

(** The fields in lax mode: strings as they are; booleans, 0 and 1, and a few
    words. *)
Definition lax_str (v : PyVal) : Validated string :=
  match v with
  | PStr s => Valid s
  | _ => Invalid (mkError "string_type" [] "Input should be a valid string") []
  end.
Definition lax_bool (v : PyVal) : Validated bool :=
  match v with
  | PBool b => Valid b
  | PInt 0 => Valid false
  | PInt 1 => Valid true
  | PStr s =>
      if bool_decide (s ∈ ["true"; "yes"; "on"; "1"]) then Valid true
      else if bool_decide (s ∈ ["false"; "no"; "off"; "0"]) then Valid false
      else Invalid (mkError "bool_parsing" []
             "Input should be a valid boolean, unable to interpret input") []
  | _ => Invalid (mkError "bool_type" [] "Input should be a valid boolean") []
  end.

(** Selections with their ids and amount as numbers. *)
Definition dump_sel (s : RebookingSelectionSchema) : list (string * PyVal) :=
  ([("segment_id", PInt (Z.of_N (sel_segment_id s)));
    ("new_flight_id", PInt (Z.of_N (sel_new_flight_id s)));
    ("new_fare_class_id", PInt (Z.of_N (sel_new_fare_class_id s)))]
   ++ match sel_travel_credit_id s with
      | Some id => [("travel_credit_id", PInt (Z.of_N id))]
      | None => []
      end
   ++ [("travel_credit_amount", PInt (sel_travel_credit_amount s))])%list.
Definition id_field (name : string) (d : list (string * PyVal)) : option UUID :=
  match entry name d with Some (PInt n) => Some (Z.to_N n) | _ => None end.
Definition parse_sel (v : PyVal) : option RebookingSelectionSchema :=
  match v with
  | PDict d =>
      segment ← id_field "segment_id" d;
      flight ← id_field "new_flight_id" d;
      fare ← id_field "new_fare_class_id" d;
      match get_or d "travel_credit_amount" (PInt 0) with
      | PInt amount => Some (mkSelection segment flight fare (id_field "travel_credit_id" d) amount)
      | _ => None
      end
  | _ => None
  end.

#[export] Instance lax : Pydantic := {|
  validate_str := lax_str;
  validate_bool := lax_bool;
  validate_selection v :=
    match parse_sel v with
    | Some s => Valid s
    | None => Invalid (mkError "missing" ["segment_id"] "Field required") []
    end;
  dump_selection := dump_sel;
  parse_selection v := or_raise (parse_sel v) ValidationError "1 validation error" |}.

Lemma parse_dump_sel s : parse_sel (PDict (dump_sel s)) = Some s.
Proof. destruct s as [a b c [d|] e]; cbn; unfold id_field; cbn; by rewrite !N2Z.id. Qed.

#[export] Instance lax_laws : PydanticLaws lax.
Proof.
  split.
  - intros v s. split; [|by intros ->]. destruct v; cbn; naive_solver.
  - done.
  - done.
  - intros s. cbn [validate_selection dump_selection lax]. by rewrite parse_dump_sel.
  - intros s. cbn [parse_selection dump_selection lax]. by rewrite parse_dump_sel.
Qed.

(** What the endpoint answers to a rejected body. *)
Definition rejection (body : PyVal) : option string :=
  match validate_chat body with Valid _ => None | Invalid first _ => Some (detail_of first) end.

Definition ident : list (string * PyVal) := [("user_id", PStr "u1"); ("session_id", PStr "s1")].
Definition with_resume (resume : PyVal) : PyVal := PDict (ident ++ [("resume", resume)])%list.

Example rejections :
  rejection (PList []) = Some "Input should be a valid dictionary or instance of ChatRequest" /\
  rejection (PDict []) = Some "user_id is required" /\
  rejection (PDict [("user_id", PStr "u1")]) = Some "session_id is required" /\
  rejection (message_body " " "s1" "hi") = Some "user_id and session_id are required" /\
  rejection (message_body "u1" "s1" "  ") = Some "exactly one of message or resume is required" /\
  rejection (with_resume (PDict [])) = Some "resume.confirmed is required" /\
  rejection (with_resume (PDict [("confirmed", PBool true)]))
    = Some "resume.selection is required when confirmed" /\
  rejection (with_resume (PDict [("confirmed", PStr "maybe")]))
    = Some "Input should be a valid boolean, unable to interpret input" /\
  rejection (with_resume (PDict [("confirmed", PStr "no")])) = None /\
  rejection (PDict (ident ++ [("message", PStr "hi"); ("resume", PNone)])%list) = None.
Proof. by vm_compute. Qed.

(** * Witnesses *)

Definition selection1 : RebookingSelectionSchema := mkSelection 1 2 3 None 0.
Definition resume1 : ResumeRequest := mkResume true (Some selection1).
Definition chat1 : ChatRequest := mkChat "u1" "s1" None (Some resume1).
Definition body1 : PyVal :=
  with_resume (PDict [("confirmed", PStr "yes"); ("selection", PDict (dump_sel selection1))]).

Lemma chat1_ok : chat_ok chat1.
Proof. split; try done; [|by intros r [= <-]; eexists]. right. split; [done|]. by eexists. Qed.

Lemma routed_job_accepted_witness :
  validate_request (PDict (dump_chat chat1)) = Ok (dump_chat chat1) /\
  call_agent (dump_chat chat1) =
    await (RunnerResume (PStr "u1") (PStr "s1") (PDict (dump_resume resume1))) /\
  forall r evaluation, ch_resume chat1 = Some r ->
    parse_confirmation parse_selection (PDict (dump_resume r)) evaluation =
    Ok (mkConfirmation (rm_confirmed r) (rm_selection r) evaluation).
Proof. apply (routed_job_accepted body1 chat1). vm_compute. reflexivity. Defined.

Lemma chat_roundtrip_witness : validate_chat (PDict (dump_chat chat1)) = Valid chat1.
Proof. apply chat_roundtrip, chat1_ok. Defined.

Lemma threads_scoped_witness (str_of := fun _ : PyVal => "") :
  conversation_of str_of (dump_chat chat1) = conversation_of str_of (dump_chat chat1) <->
  ch_user_id chat1 = ch_user_id chat1 /\ ch_session_id chat1 = ch_session_id chat1.
Proof. apply (threads_scoped_by_user str_of chat1 chat1); reflexivity. Defined.

Lemma validate_chat_spec_witness :
  validate_chat body1 = Valid chat1 <->
  exists d, body1 = PDict d /\ chat_of d chat1 /\ chat_ok chat1.
Proof. apply validate_chat_spec. Defined.

Lemma publish_chat_witness :
  wp (publish_chat body1 (Some "key-1")) (fun r tr =>
    exists reply, r = Ok reply /\ Replied body1 (Some "key-1") reply tr).
Proof. apply publish_chat_contract. Defined.
