(* ===== verification/AgentProperties.v ===== *)
(** What the agent graph does in one turn.

    [Turn] is the conversation the graph implements, as a grammar of the steps
    an observer of its ports sees: a request is understood, the reservation is
    read, and then rounds of search, evaluation and confirmation follow until
    the user declines, the retries are used up, or a selection that passed
    every check is executed and verified.  [turn_refines] shows that every run
    of the graph, for all answers of the ports, is such a conversation; the
    other theorems read their safety and bounds off it. *)
From Stdlib Require Import String.
From stdpp Require Import base numbers strings list sets.
From S2P Require Import Prelude Models PyVal Effects AgentState AgentNodes AgentGraph.
Local Open Scope string_scope.

(** * Observed steps *)

Inductive AgentStep :=
  | Understood (text : string) (r : Res RebookingRequest)
  | Fetched (reference : string) (r : Res ReservationDetailsSchema)
  | Searched (i : SearchRebookingOptionsInputSchema) (r : Res (list RebookingOptionSchema))
  | CreditsRead (customer : UUID) (currency : string) (r : Res (list TravelCreditSchema))
  | Evaluated (rq : RebookingRequest) (os : list RebookingOptionSchema)
      (cs : list TravelCreditSchema) (r : Res EvaluationResult)
  | Asked (offer : EvaluationResult) (r : Res PyVal)
  | Validated (sel : RebookingSelection) (r : Res DomainValidation)
  | Executed (sel : RebookingSelection) (r : Res RebookingResultSchema)
  | Verified (sel : RebookingSelection) (r : Res RebookingResultSchema).

Definition step_of (e : Event AgentOp) : AgentStep :=
  match e with
  | Ev o r =>
      match o in AgentOp R return Res R -> AgentStep with
      | LlmUnderstandRequest t => Understood t
      | LlmEvaluateOptions rq os cs => Evaluated rq os cs
      | PortGetReservation ref => Fetched ref
      | PortSearchRebookingOptions i => Searched i
      | PortGetAvailableTravelCredits c cur => CreditsRead c cur
      | PortValidateChange sel => Validated sel
      | PortExecuteRebooking sel => Executed sel
      | PortVerifyRebooking sel => Verified sel
      | Interrupt _ offer => Asked offer
      end r
  end.
Definition steps_of (tr : Trace AgentOp) : list AgentStep := step_of <$> tr.

Lemma steps_of_app tr tr' : steps_of (tr ++ tr')%list = (steps_of tr ++ steps_of tr')%list.
Proof. apply fmap_app. Qed.

Definition outcome_error {A} (r : Res A) : option Exn :=
  match r with Ok _ => None | Raise e => Some e end.
Definition step_error (st : AgentStep) : option Exn :=
  match st with
  | Understood _ r => outcome_error r | Fetched _ r => outcome_error r
  | Searched _ r => outcome_error r | CreditsRead _ _ r => outcome_error r
  | Evaluated _ _ _ r => outcome_error r | Asked _ r => outcome_error r
  | Validated _ r => outcome_error r | Executed _ r => outcome_error r
  | Verified _ r => outcome_error r
  end.
Definition is_execution (st : AgentStep) : bool :=
  match st with Executed _ _ | Verified _ _ => true | _ => false end.
Definition is_question (st : AgentStep) : bool :=
  match st with Asked _ _ => true | _ => false end.

(** An exception of a turn is a [ValueError] of a node, or a port raised it. *)
Definition sourced (e : Exn) (steps : list AgentStep) : Prop :=
  isinstance e ValueError = true \/ Exists (fun st => step_error st = Some e) steps.

(** Nothing is executed, and at most one question asked. *)
Definition quiet (steps : list AgentStep) : Prop :=
  Forall (fun st => is_execution st = false) steps
  /\ (length (List.filter is_question steps) <= 1)%nat.

Definition final_of (r : Res AgentState) : Res (option FinalResult) :=
  match r with Ok s => Ok (final s) | Raise e => Raise e end.

(** * The conversation *)

Section Spec.
Context (model_validate : PyVal -> Res RebookingSelection).

(** One search, evaluation and answered question. *)
Record Round := mkRound {
  in_ : SearchRebookingOptionsInputSchema; options : list RebookingOptionSchema;
  credits : list TravelCreditSchema; ranking : EvaluationResult; answer : PyVal }.

Definition offer (cx : ReservationContext) (r : Round) : EvaluationResult :=
  with_context (cx_request cx) (options r) (credits r) (ranking r).

Definition round_steps (cx : ReservationContext) (r : Round) : list AgentStep :=
  let owner := rd_reservation (cx_reservation cx) in
  [Searched (in_ r) (Ok (options r));
   CreditsRead (r_customer_id owner) (r_currency owner) (Ok (credits r));
   Evaluated (cx_request cx) (options r) (credits r) (Ok (ranking r));
   Asked (offer cx r) (Ok (answer r))].

(** The search is for a segment of the reservation (the requested one, if the
    request names one), for all its passengers, in the requested window. *)
Record search_ok (cx : ReservationContext) (i : SearchRebookingOptionsInputSchema) : Prop := {
  ok_segment : exists seg, seg ∈ rd_segments (cx_reservation cx)
    /\ si_segment_id i = rs_id (sd_segment seg);
  ok_expected :
    match rq_segment_id (cx_request cx) with
    | Some id => si_segment_id i = id
    | None => exists seg, rd_segments (cx_reservation cx) = [seg]
    end;
  ok_window : rq_departure_from (cx_request cx) = Some (si_departure_from i)
    /\ rq_departure_to (cx_request cx) = Some (si_departure_to i)
    /\ (si_departure_from i <= si_departure_to i)%Z;
  ok_passengers :
    si_passenger_count i = Z.of_nat (length (rd_passengers (cx_reservation cx))) }.

(** The ranking only names flights and fares that the search found. *)
Definition round_ok (cx : ReservationContext) (r : Round) : Prop :=
  search_ok cx (in_ r)
  /\ Forall (fun id => exists o, o ∈ options r
        /\ (id = f_id (ro_flight o) \/ id = ff_id (ro_flight_fare o)))
       (ev_ranked_option_ids (ranking r)).

(** The answer says whether the change is confirmed, and of which selection. *)
Definition decided (r : Round) (confirmed : bool) (sel : option RebookingSelection) : Prop :=
  exists d, answer r = PDict d /\ truthy (get d "confirmed") = confirmed
    /\ match sel with
       | Some sel => truthy (get d "selection") = true /\ model_validate (get d "selection") = Ok sel
       | None => truthy (get d "selection") = false
       end.

(** The selection is one the round offered. *)
Definition on_offer (r : Round) (sel : RebookingSelection) : Prop :=
  exists o, o ∈ options r /\ f_id (ro_flight o) = sel_new_flight_id sel
    /\ fc_id (ro_fare_class o) = sel_new_fare_class_id sel.
Definition fits (r : Round) (sel : RebookingSelection) : Prop :=
  sel_segment_id sel = si_segment_id (in_ r) /\ on_offer r sel.

(** A confirmed selection is refused, with the reason given. *)
Inductive Refused (r : Round) (sel : RebookingSelection) :
    list AgentStep -> string -> Prop :=
  | refused_segment : sel_segment_id sel <> si_segment_id (in_ r) ->
      Refused r sel [] "the selected option belongs to another reservation segment"
  | refused_offer : sel_segment_id sel = si_segment_id (in_ r) -> ~ on_offer r sel ->
      Refused r sel [] "the selected option was not offered"
  | refused_rule e : fits r sel -> isinstance e ValueError = true ->
      Refused r sel [Validated sel (Raise e)] (exn_str e)
  | refused_domain : fits r sel ->
      Refused r sel [Validated sel (Ok VFalse)] "the selected option failed domain validation".

(** The execution and verification of an accepted selection. *)
Inductive Ended (sel : RebookingSelection) (v : RebookingValidationSchema) :
    list AgentStep -> FinalResult -> Prop :=
  | not_executed e : Ended sel v [Executed sel (Raise e)]
      (mkFinal FS_failed "The rebooking could not be executed." (Some sel) (Some v) None None)
  | not_verified x e : Ended sel v [Executed sel (Ok x); Verified sel (Raise e)]
      (mkFinal FS_failed "The rebooking could not be verified." (Some sel) (Some v) (Some x) None)
  | completed x y : Ended sel v [Executed sel (Ok x); Verified sel (Ok y)]
      (mkFinal FS_completed "The rebooking was completed successfully." (Some sel) (Some v) (Some x)
         (Some y)).

(** The rounds of a turn, from [count] retries already used. *)
Inductive Rounds (cx : ReservationContext) (limit : Z) :
    Z -> list AgentStep -> Res (option FinalResult) -> Prop :=
  | rounds_error count steps e :
      quiet steps -> sourced e steps -> Rounds cx limit count steps (Raise e)
  | rounds_declined count r sel :
      round_ok cx r -> decided r false sel ->
      Rounds cx limit count (round_steps cx r)
        (Ok (Some (mkFinal FS_declined "The rebooking was not confirmed." sel None None None)))
  | rounds_retry count r sel steps reason rest out :
      round_ok cx r -> decided r true (Some sel) -> Refused r sel steps reason ->
      (count + 1 <= limit)%Z -> Rounds cx limit (count + 1) rest out ->
      Rounds cx limit count (round_steps cx r ++ steps ++ rest)%list out
  | rounds_exhausted count r sel steps reason :
      round_ok cx r -> decided r true (Some sel) -> Refused r sel steps reason ->
      (limit < count + 1)%Z ->
      Rounds cx limit count (round_steps cx r ++ steps)%list
        (Ok (Some (mkFinal FS_failed ("The selected rebooking is no longer valid: " +:+ reason)
               (Some sel) None None None)))
  | rounds_ended count r sel v steps out :
      round_ok cx r -> decided r true (Some sel) -> fits r sel -> Ended sel v steps out ->
      Rounds cx limit count (round_steps cx r ++ Validated sel (Ok (VResult v)) :: steps)%list
        (Ok (Some out)).

(** A whole turn. *)
Inductive Turn (message : string) (limit count : Z) :
    list AgentStep -> Res (option FinalResult) -> Prop :=
  | turn_error steps e :
      Forall (fun st => is_execution st || is_question st = false) steps -> sourced e steps ->
      Turn message limit count steps (Raise e)
  | turn_rounds request reservation steps out :
      py_strip message <> "" -> rq_booking_reference request <> "" ->
      rd_segments reservation <> [] ->
      Rounds (mkContext request reservation) limit count steps out ->
      Turn message limit count
        (Understood (py_strip message) (Ok request)
         :: Fetched (rq_booking_reference request) (Ok reservation) :: steps) out.

(** * One step of the engine *)

#[local] Arguments AgentGraph.invoke : simpl never.
Abbreviation invoke := (AgentGraph.invoke model_validate graph).
Abbreviation node_code := (AgentGraph.node_code model_validate).

Lemma wp_invoke f a s (Q : Res AgentState -> Trace AgentOp -> Prop) :
  a <> [] ->
  wp (run_nodes model_validate a s) (fun r tr =>
    match r with
    | Ok u => match successors graph a (merge s u) with
              | Ok ts => wp (invoke f (nodes_of ts) (merge s u)) (fun r' tr' => Q r' (tr ++ tr')%list)
              | Raise e => Q (Raise e) tr
              end
    | Raise e => Q (Raise e) tr
    end) -> wp (invoke (S f) a s) Q.
Proof.
  destruct a as [|n a]; [done|]. intros _ Hw. cbn [AgentGraph.invoke]. unfold superstep.
  apply wp_bind, wp_bind. eapply wp_mono; [|exact Hw]. intros [u|e] tr Hu; [|done].
  apply wp_bind. destruct (successors graph (n :: a) (merge s u)) as [ts|e]; cbn.
  - eapply wp_mono; [|exact Hu]. intros r' tr'. by rewrite app_nil_r.
  - by rewrite !app_nil_r.
Qed.

(** The successor of a node that runs alone. *)
Definition next (n : Node) (route : option string) : Res (list Node) :=
  match n with
  | N_understand_request => Ok [N_get_reservation]
  | N_get_reservation | N_refresh_context => Ok [N_search_alternatives; N_get_travel_credits]
  | N_search_alternatives | N_get_travel_credits | N_finalize_failed | N_finalize_declined => Ok []
  | N_evaluate_options => Ok [N_ask_confirmation]
  | N_ask_confirmation => Ok [N_validate_change]
  | N_validate_change =>
      t ← choose (default "invalid" route)
            [("valid", To N_execute_rebooking); ("declined", To N_finalize_declined);
             ("invalid", To N_explain_invalid_change)]; Ok (nodes_of [t])
  | N_explain_invalid_change =>
      t ← choose (default "invalid" route)
            [("retry", To N_refresh_context); ("declined", To N_finalize_declined);
             ("invalid", END)]; Ok (nodes_of [t])
  | N_execute_rebooking =>
      t ← choose (default "completed" route)
            [("completed", To N_verify_rebooking); ("failed", To N_finalize_failed)];
      Ok (nodes_of [t])
  | N_verify_rebooking =>
      t ← choose (default "completed" route) [("completed", END); ("failed", To N_finalize_failed)];
      Ok (nodes_of [t])
  end.

Lemma successors_next n s :
  (ts ← successors graph [n] s; Ok (nodes_of ts)) = next n (route s).
Proof.
  destruct n; try reflexivity; unfold successors; cbn [branch_targets graph g_branches br_source];
    unfold next, _validation_route, _explanation_route, _execution_route; cbn [br_router br_targets];
    repeat match goal with |- context [bool_decide ?P] =>
             let b := eval vm_compute in (bool_decide P) in change (bool_decide P) with b end;
    cbn iota; rewrite !res_bind_ret;
    lazymatch goal with |- context [choose ?l ?ts] => destruct (choose l ts) end; reflexivity.
Qed.

Lemma wp_invoke_node f n s (Q : Res AgentState -> Trace AgentOp -> Prop) :
  wp (node_code n s) (fun r tr =>
    match r with
    | Ok u => match next n (route (merge s u)) with
              | Ok a => wp (invoke f a (merge s u)) (fun r' tr' => Q r' (tr ++ tr')%list)
              | Raise e => Q (Raise e) tr
              end
    | Raise e => Q (Raise e) tr
    end) -> wp (invoke (S f) [n] s) Q.
Proof.
  intros Hw. apply wp_invoke; [done|]. cbn [run_nodes]. apply wp_bind.
  eapply wp_mono; [|exact Hw]. intros [u|e] tr Hu; [|done]. cbn [wp].
  apply wp_ret. rewrite merge_empty, !app_nil_r. rewrite <- successors_next in Hu.
  by destruct (successors graph [n] (merge s u)).
Qed.

Lemma wp_invoke_end f s (Q : Res AgentState -> Trace AgentOp -> Prop) :
  Q (Ok s) [] -> wp (invoke f [] s) Q.
Proof. by destruct f. Qed.

(** * The ends of a turn *)

Lemma finalize_failed f s Q : Q (Ok (merge s (put_route "failed"))) [] ->
  wp (invoke (S f) [N_finalize_failed] s) Q.
Proof. intros HQ. by apply wp_invoke_node, wp_invoke_end. Qed.

Lemma ended f s sel v ev :
  validation s = Some (mkValidationResult true (Some sel) "" ev false (Some v)) ->
  wp (invoke (S (S (S f))) [N_execute_rebooking] s) (fun r tr =>
    exists out, Ended sel v (steps_of tr) out /\ final_of r = Ok (Some out)).
Proof.
  intros Hv. apply wp_invoke_node. cbn [AgentGraph.node_code]. unfold execute_rebooking.
  rewrite Hv. wp_steps; cbn.
  - apply wp_invoke_node. cbn [AgentGraph.node_code]. unfold verify_rebooking.
    cbn [validation execution merge override]. rewrite Hv.
    wp_steps; cbn.
    + apply wp_invoke_end. eexists; split; [apply completed|done].
    + apply finalize_failed. eexists; split; [apply not_verified|done].
  - apply finalize_failed. eexists; split; [apply not_executed|done].
Qed.

(** * A round *)

(** What the state holds between two rounds. *)
Record ready (cx : ReservationContext) (count limit : Z) (s : AgentState) : Prop := {
  ready_request : request s = Some (cx_request cx);
  ready_context : reservation_context s = Some cx;
  ready_count : default 0%Z (retry_count s) = count;
  ready_limit : default 2%Z (max_retries s) = limit }.

Definition failing (e : Exn) (steps : list AgentStep) : Prop := quiet steps /\ sourced e steps.

Ltac solve_failing :=
  split; [split; [by repeat constructor|cbn; lia]
         |first [left; reflexivity
                |right; repeat first [by apply Exists_cons_hd|apply Exists_cons_tl]]].

Lemma selected_segment_ok s cx c seg :
  reservation_context s = Some cx -> _selected_segment s = Ok (c, seg) ->
  c = cx /\ seg ∈ rd_segments (cx_reservation cx)
  /\ match rq_segment_id (cx_request cx) with
     | Some id => rs_id (sd_segment seg) = id
     | None => rd_segments (cx_reservation cx) = [seg]
     end.
Proof.
  intros Hcx. unfold _selected_segment, _context. rewrite Hcx. cbn.
  destruct (rq_segment_id (cx_request cx)) as [id|].
  - intros Hs. apply res_bind_Ok in Hs as [s' [Hf [= <- <-]]]. apply or_raise_Ok in Hf.
    apply List.find_some in Hf as [Hin Heq]. to_prop. by rewrite list_elem_of_In.
  - destruct (rd_segments (cx_reservation cx)) as [|seg' [|]] eqn:E; try discriminate.
    intros [= <- <-]. set_solver.
Qed.

Lemma window_ok rq from to : require_window rq = Ok (from, to) ->
  rq_departure_from rq = Some from /\ rq_departure_to rq = Some to /\ (from <= to)%Z.
Proof.
  unfold require_window. destruct (rq_departure_from rq), (rq_departure_to rq); try discriminate.
  destruct (_ <? _)%Z eqn:E; [discriminate|]. intros [= <- <-]. by to_prop.
Qed.

Lemma window_raises rq : raises_only ValueError (require_window rq).
Proof.
  unfold require_window. destruct (rq_departure_from rq), (rq_departure_to rq); auto with py.
Qed.

Lemma selected_segment_raises s : raises_only ValueError (_selected_segment s).
Proof.
  unfold _selected_segment, _context. destruct (reservation_context s) as [cx|];
    cbn [or_raise mbind Res_bind]; [|intros e [= <-]; done].
  destruct (rq_segment_id (cx_request cx)) as [id|].
  - destruct (List.find _ _); cbn [or_raise mbind Res_bind]; [auto with py|by intros e [= <-]].
  - destruct (rd_segments (cx_reservation cx)) as [|? [|]]; auto with py.
Qed.

Lemma raised_failing e steps : exn_type e = ValueError -> quiet steps -> failing e steps.
Proof. intros He Hq. split; [done|]. left. unfold isinstance. by rewrite He. Qed.

Lemma loaded cx count limit s : ready cx count limit s ->
  wp (run_nodes model_validate [N_search_alternatives; N_get_travel_credits] s) (fun r tr =>
    match r with
    | Ok u => exists i os cs, search_ok cx i
        /\ steps_of tr = [Searched i (Ok os);
             CreditsRead (r_customer_id (rd_reservation (cx_reservation cx)))
               (r_currency (rd_reservation (cx_reservation cx))) (Ok cs)]
        /\ u = merge (put_search (mkSearchResult (cx_request cx) os))
                     (put_credits (mkCreditsResult (cx_request cx) cs))
    | Raise e => failing e (steps_of tr)
    end).
Proof.
  intros [Hrq Hcx _ _]. cbn [run_nodes]. apply wp_bind.
  cbn [AgentGraph.node_code]. unfold search_alternatives.
  destruct (_selected_segment s) as [[c seg]|e] eqn:Hs.
  - destruct (selected_segment_ok _ cx _ _ Hcx Hs) as (-> & Hin & Hexp).
    apply wp_bind; cbn [of_res wp].
    destruct (require_window (cx_request cx)) as [[from to]|e] eqn:Hw.
    + apply window_ok in Hw as (Hfrom & Hto & Hle).
      unfold get_travel_credits, _context. rewrite Hcx.
      cbn. intros [os|e]; cbn; [intros [cs|e]; cbn|]; [|solve_failing..].
      eexists _, os, cs. split; [|split; [reflexivity|by rewrite merge_empty]].
      split; cbn; [by exists seg| |done|done].
      destruct (rq_segment_id (cx_request cx)); [done|by exists seg].
    + apply raised_failing; [by apply (window_raises (cx_request cx))|by repeat constructor].
  - apply raised_failing; [by apply (selected_segment_raises s)|by repeat constructor].
Qed.

(** pydantic raises [ValidationError], a [ValueError]. *)
Context (validate_raises : forall v e, model_validate v = Raise e -> isinstance e ValueError = true).

Lemma parse_raises v ev e : parse_confirmation model_validate v ev = Raise e ->
  isinstance e TypeError || isinstance e ValueError = true.
Proof.
  destruct v; cbn; try (by intros [= <-]).
  destruct (truthy (get d "selection")); [|discriminate].
  destruct (model_validate _) eqn:E; [discriminate|]. intros [= <-].
  apply orb_true_iff. right. eauto.
Qed.

Lemma known_ids (ids : list UUID) os :
  forallb (fun id => bool_decide (id ∈ allowed_ids os)) ids = true ->
  Forall (fun id => exists o, o ∈ os /\ (id = f_id (ro_flight o) \/ id = ff_id (ro_flight_fare o))) ids.
Proof.
  rewrite List.forallb_forall, Forall_forall. intros Hi id Hin.
  apply list_elem_of_In, Hi in Hin. to_prop. unfold allowed_ids in Hin.
  apply elem_of_app in Hin as [Hin|Hin]; apply list_elem_of_fmap in Hin as (o & -> & Ho); eauto.
Qed.

Lemma parse_decided r c ev : parse_confirmation model_validate (answer r) ev = Ok c ->
  cf_evaluation c = ev /\ decided r (cf_confirmed c) (cf_selection c).
Proof.
  unfold decided. destruct (answer r) as [| | | | | |d|]; try discriminate.
  unfold parse_confirmation. destruct (truthy (get d "selection")) eqn:Ht.
  - destruct (model_validate (get d "selection")) as [s|e] eqn:Hs; [|discriminate].
    intros [= <-]. cbn. split; [done|]. by exists d.
  - intros [= <-]. cbn. split; [done|]. by exists d.
Qed.

Lemma offered_iff cx r sel : offered sel (offer cx r) = true <-> on_offer r sel.
Proof.
  unfold offered, on_offer. rewrite existsb_exists. cbn. setoid_rewrite <- list_elem_of_In.
  setoid_rewrite andb_true_iff. setoid_rewrite N.eqb_eq. done.
Qed.

Lemma ready_merge cx count limit s u : ready cx count limit s ->
  request u = None -> reservation_context u = None -> retry_count u = None -> max_retries u = None ->
  ready cx count limit (merge s u).
Proof. intros [] Hr Hc Hn Hm. split; cbn; by rewrite ?Hr, ?Hc, ?Hn, ?Hm. Qed.

Lemma round_begin cx count limit f s (Q : Res AgentState -> Trace AgentOp -> Prop) :
  ready cx count limit s ->
  (forall e tr, failing e (steps_of tr) -> Q (Raise e) tr) ->
  (forall r c tr s', round_ok cx r -> steps_of tr = round_steps cx r ->
     parse_confirmation model_validate (answer r) (offer cx r) = Ok c ->
     ready cx count limit s' -> confirmation s' = Some c ->
     wp (invoke f [N_validate_change] s') (fun r' tr' => Q r' (tr ++ tr')%list)) ->
  wp (invoke (S (S (S f))) [N_search_alternatives; N_get_travel_credits] s) Q.
Proof.
  intros Hs Herr Hgo. apply wp_invoke; [done|]. eapply wp_mono; [|by eapply loaded].
  intros [u|e] tr; [|apply Herr]. intros (i & os & cs & Hi & Htr & ->).
  cbn [successors]. apply wp_invoke_node. cbn [AgentGraph.node_code].
  unfold evaluate_options. cbn [merge put_search put_credits request search_result credits_result override].
  rewrite (ready_request _ _ _ _ Hs). wp_steps; cbn.
  1, 3: apply Herr; rewrite steps_of_app, Htr; solve_failing.
  to_prop. apply wp_invoke_node. cbn [AgentGraph.node_code]. unfold ask_confirmation.
  cbn [merge put_evaluation evaluation override or_raise]. apply wp_bind; cbn [of_res wp].
  wp_steps; cbn -[parse_confirmation isinstance offer merge next].
  2, 4: apply Herr; rewrite !steps_of_app, Htr; solve_failing.
  2: { match goal with E : parse_confirmation _ _ _ = _ |- _ => apply parse_raises in E end.
       congruence. }
  cbn [next]. eapply wp_mono; [|eapply (Hgo (mkRound i os cs a _) _ (tr ++ [_; _])%list); try eassumption].
  - cbn beta. intros r' tr' HQ. rewrite <- app_assoc in HQ. exact HQ.
  - split; [exact Hi|]. by apply known_ids.
  - rewrite steps_of_app, Htr. reflexivity.
  - by repeat apply ready_merge.
  - reflexivity.
Qed.

Lemma expected_segment cx count limit s r : ready cx count limit s -> round_ok cx r ->
  expected_segment_id s (offer cx r) = Some (si_segment_id (in_ r)).
Proof.
  intros [_ Hcx _ _] [Hi _]. unfold expected_segment_id, offer. rewrite Hcx. cbn.
  destruct (ok_segment _ _ Hi) as (seg & Hin & Hid). pose proof (ok_expected _ _ Hi) as Hexp.
  destruct (rq_segment_id (cx_request cx)) as [id|]; [by rewrite Hexp|].
  destruct Hexp as [seg' Heq]. rewrite Heq in Hin |- *.
  apply list_elem_of_singleton in Hin as ->. cbn. by rewrite Hid.
Qed.

(** The verdict on an answer. *)
Lemma judged cx count limit s r confirmed sel :
  ready cx count limit s -> round_ok cx r ->
  confirmation s = Some (mkConfirmation confirmed sel (offer cx r)) ->
  wp (validate_change s) (fun out tr =>
    match out with
    | Ok u =>
        (confirmed = false /\ tr = []
         /\ u = put_validation (mkValidationResult false sel "the rebooking was not confirmed"
                                  (offer cx r) true None) "declined")
        \/ (exists sel' reason, confirmed = true /\ sel = Some sel'
            /\ Refused r sel' (steps_of tr) reason /\ u = rejected (offer cx r) sel' reason)
        \/ (exists sel' v, confirmed = true /\ sel = Some sel' /\ fits r sel'
            /\ steps_of tr = [Validated sel' (Ok (VResult v))]
            /\ u = put_validation (mkValidationResult true (Some sel') "" (offer cx r) false (Some v))
                     "valid")
    | Raise e => failing e (round_steps cx r ++ steps_of tr)%list
    end).
Proof.
  intros Hs Hr Hc. unfold validate_change. rewrite Hc. apply wp_bind.
  cbn [or_raise of_res wp cf_evaluation cf_confirmed cf_selection negb].
  rewrite (expected_segment _ _ _ _ _ Hs Hr).
  destruct confirmed; cbn [negb]; [|by left]. destruct sel as [sel|]; [|solve_failing].
  apply wp_bind; cbn [or_raise of_res wp]. wp_step; to_prop.
  { right; left. exists sel. eexists. split_and!; try reflexivity. apply refused_segment. congruence. }
  match goal with E : Some _ = Some _ |- _ => injection E as Hseg end.
  destruct (offered sel (offer cx r)) eqn:Hoff; cbn [negb].
  2: { right; left. exists sel. eexists. split_and!; try reflexivity. apply refused_offer; [done|].
       rewrite <- (offered_iff cx), Hoff. done. }
  assert (fits r sel) as Hfits by (split; [done|by apply (offered_iff cx)]).
  wp_steps; cbn.
  - right; left. exists sel. eexists. split_and!; try reflexivity. by apply refused_domain.
  - right; right. by exists sel, v.
  - right; left. exists sel. eexists. split_and!; try reflexivity. by apply refused_rule.
  - solve_failing.
Qed.

Lemma explained cx count limit f s sel reason ev Q :
  ready cx count limit s ->
  validation s = Some (mkValidationResult false (Some sel) reason ev false None) ->
  ((limit < count + 1)%Z -> forall s',
     final s' = Some (mkFinal FS_failed ("The selected rebooking is no longer valid: " +:+ reason)
                        (Some sel) None None None) -> Q (Ok s') []) ->
  ((count + 1 <= limit)%Z -> forall s', ready cx (count + 1) limit s' ->
     wp (invoke f [N_search_alternatives; N_get_travel_credits] s') Q) ->
  wp (invoke (S (S f)) [N_explain_invalid_change] s) Q.
Proof.
  intros [Hrq Hcx Hn Hl] Hv Hend Hretry. apply wp_invoke_node. cbn [AgentGraph.node_code].
  unfold explain_invalid_change. rewrite Hv. apply wp_bind.
  cbn [or_raise of_res wp vr_user_declined vr_reason vr_selection]. rewrite Hn, Hl.
  destruct (limit <? count + 1)%Z eqn:E; to_prop; cbn.
  - by apply wp_invoke_end, Hend.
  - apply wp_invoke_node. cbn. apply Hretry; [done|]. by split.
Qed.

Lemma run_rounds cx limit k count f s :
  ready cx count limit s -> (Z.to_nat (limit - count) <= k)%nat -> (6 * k + 7 <= f)%nat ->
  wp (invoke f [N_search_alternatives; N_get_travel_credits] s) (fun out tr =>
    Rounds cx limit count (steps_of tr) (final_of out)).
Proof.
  revert count f s. induction k as [k IH] using lt_wf_ind. intros count f s Hs Hk Hf.
  do 3 (destruct f as [|f]; [lia|]). eapply round_begin; [exact Hs| |].
  { intros e tr [Hq He]. by apply rounds_error. }
  intros r [confirmed sel ev] tr s' Hr Htr Hp Hs' Hc.
  destruct (parse_decided _ _ _ Hp) as [Hev Hd]; cbn in Hev, Hd; subst ev.
  destruct f as [|f]; [lia|]. apply wp_invoke_node. cbn [AgentGraph.node_code].
  eapply wp_mono; [|eapply judged; eassumption].
  intros [u|e] tr1; cbn beta iota; [|intros [Hq He]; rewrite steps_of_app, Htr; by apply rounds_error].
  intros [(-> & -> & ->)|[(sel' & reason & -> & -> & Href & ->)|(sel' & v & -> & -> & Hfit & Htr1 & ->)]].
  - cbn. destruct f as [|f]; [lia|]. apply wp_invoke_node, wp_invoke_end.
    rewrite !app_nil_r, Htr. by eapply rounds_declined.
  - cbn. do 2 (destruct f as [|f]; [lia|]). eapply explained; [by apply ready_merge|reflexivity|..].
    + intros Hlim s2 Hfin. cbn [final_of]. rewrite Hfin, app_nil_r, steps_of_app, Htr.
      by eapply rounds_exhausted.
    + intros Hlim s2 Hs2. eapply wp_mono; [|eapply (IH (k - 1)%nat)]; [|lia|exact Hs2|lia|lia].
      intros out tr2 Hrest. cbn beta in Hrest. rewrite !steps_of_app, Htr.
      by eapply rounds_retry.
  - cbn. do 3 (destruct f as [|f]; [lia|]). eapply wp_mono; [|by eapply ended].
    intros out tr2 (fin & Hfin & Hout). rewrite !steps_of_app, Htr, Htr1, Hout. cbn [app].
    by eapply rounds_ended.
Qed.

(** * A turn *)

Definition retries_left (max_retries : Z) (saved : AgentState) : nat :=
  Z.to_nat (max_retries - default 0%Z (retry_count saved)).
(** The steps of the longest turn: two to read the request and the
    reservation, six per retry and seven for the last round. *)
Definition enough_fuel (max_retries : Z) (saved : AgentState) : nat :=
  (9 + 6 * retries_left max_retries saved)%nat.

Lemma run_turn fuel max_retries saved message :
  (enough_fuel max_retries saved <= fuel)%nat ->
  wp (runner_run model_validate fuel max_retries saved message) (fun out tr =>
    Turn message max_retries (default 0%Z (retry_count saved)) (steps_of tr) (final_of out)).
Proof.
  unfold enough_fuel. intros Hf. do 2 (destruct fuel as [|fuel]; [lia|]).
  unfold runner_run. destruct (py_strip message =? "") eqn:Hm.
  { apply turn_error; [constructor|by left]. }
  change (g_entry graph) with N_understand_request. apply wp_invoke_node.
  cbn [AgentGraph.node_code]. unfold understand_request.
  cbv zeta. change (default "" (user_input _)) with message. rewrite Hm.
  wp_steps; to_prop; cbn -[py_strip merge next].
  1, 3: apply turn_error; [by repeat constructor|].
  1: by left.
  1: right; by constructor.
  cbn [next]. apply wp_invoke_node. cbn [AgentGraph.node_code]. unfold get_reservation.
  cbn [merge put_request request override or_raise]. apply wp_bind; cbn [of_res wp].
  wp_steps; cbn -[py_strip merge next].
  1, 3: apply turn_error; [by repeat constructor|].
  1: by left.
  1: right; by repeat first [by apply Exists_cons_hd|apply Exists_cons_tl].
  cbn [next]. eapply wp_mono; [|apply (run_rounds (mkContext a a0) max_retries (retries_left max_retries saved)
    (default 0%Z (retry_count saved))); [|reflexivity|lia]].
  - intros out tr Hrounds. apply turn_rounds; [done|done|by rewrite Heql|exact Hrounds].
  - by split.
Qed.
End Spec.
