(* ===== verification/RestoredRuns.v ===== *)
(** Whole invocations on restored states: the engine on objects (RawNodes)
    simulates the engine on records (AgentGraph), wherever the checkpointer
    gives dicts back for instances. *)
From Stdlib Require Import String.
From stdpp Require Import base numbers strings list gmap.
From S2P Require Import Prelude Models PyVal Effects AgentState AgentNodes AgentGraph AgentProperties Simulation PyObject RawNodes RestoredStates.
Local Open Scope string_scope.

(** * Restoring *)

Lemma view_trans_mut :
  (forall y z, View y z -> forall x, View x y -> View x z) /\
  (forall l2 l3, Items l2 l3 -> forall l1, Items l1 l2 -> Items l1 l3) /\
  (forall d2 d3, Entries d2 d3 -> forall d1, Entries d1 d2 -> Entries d1 d3).
Proof.
  apply View_mutind; try done; intros.
  all: match goal with
    | Hx : View _ _ |- View _ _ => inversion Hx; subst; eauto using View, Items_refl, Entries_refl
    | Hx : Items _ [] |- _ => inversion Hx; subst; constructor
    | Hx : Items _ _ |- _ => inversion Hx; subst; constructor; auto
    | Hx : Entries _ [] |- _ => inversion Hx; subst; constructor
    | Hx : Entries _ _ |- _ => inversion Hx; subst; constructor; auto
    end.
Qed.

#[export] Instance View_trans : Transitive View.
Proof. intros x y z Hxy Hyz. by apply (proj1 view_trans_mut y z). Qed.

(** What the checkpointer gives back of a state. *)
Definition Restored (r raw : RawState) : Prop := forall k, option_Forall2 View (r !! k) (raw !! k).

Lemma restored_view F r raw s : Restored r raw -> StateView F raw s -> StateView [] r s.
Proof.
  intros Hr Hs k. specialize (Hr k). specialize (Hs k).
  destruct Hs as [v x [Hv _]|]; inversion Hr as [o ? Ho|]; subst; constructor.
  split; [by transitivity v|]. intros Hk. by apply not_elem_of_nil in Hk.
Qed.

(** * The engine *)

Section Runs.
Context `{HV : Validator} (parse : PyVal -> Res RebookingSelection) `{HL : !ValidatorLaws HV parse}.

Lemma writes_fresh n : writes n ⊆ fresh_keys.
Proof. destruct n; vm_compute; set_solver. Qed.

Lemma update_merge W W' u u' v v' : W' ⊆ fresh_keys -> UpdateView W u u' -> UpdateView W' v v' ->
  UpdateView (W ++ W') (v ∪ u) (merge u' v').
Proof.
  intros HW Hu Hv. split.
  - eapply state_view_mono; [|eapply merge_view; [reflexivity|apply Hu|exact Hv|done]]. set_solver.
  - intros k Hk. rewrite lookup_union_is_Some. apply elem_of_app in Hk as [Hk|Hk].
    + right. by apply Hu. + left. by apply Hv.
Qed.

Lemma run_nodes_sim nodes s raw F : StateView F raw s -> (forall n, n ∈ nodes -> needs n ⊆ F) ->
  Sim (UpdateView (nodes ≫= writes)) (raw_run_nodes nodes raw) (run_nodes parse nodes s).
Proof using HL.
  intros Hs. induction nodes as [|n nodes IH]; intros Hn; cbn [raw_run_nodes run_nodes].
  - apply sim_ret. split; [|intros k Hk; by apply not_elem_of_nil in Hk].
    intros k. rewrite lookup_empty. replace (entry_of empty_state k) with (@None Obj); [constructor|].
    unfold entry_of. by repeat case_match.
  - eapply sim_bind; [apply (node_sim parse n s raw F Hs), Hn; by left|]. intros u u' Hu.
    eapply sim_bind; [apply IH; intros m Hm; apply Hn; by right|]. intros us us' Hus.
    apply sim_ret. apply update_merge; [|done..].
    intros k Hk. apply list_elem_of_bind in Hk as (m & Hk & _). by apply (writes_fresh m).
Qed.

(** The conditional edges read one string. *)
Lemma raw_route_view F raw s b : StateView F raw s -> b ∈ g_branches graph ->
  raw_route (br_source b) raw = Ok (br_router b s).
Proof.
  intros Hs Hb. unfold raw_route. rewrite (raw_leaf F raw s "route" Hs).
  2:{ intros x; cbn; by destruct (route s); intros [= <-]. }
  repeat (apply elem_of_cons in Hb as [->|Hb];
    [cbn; unfold _validation_route, _explanation_route, _execution_route; by destruct (route s)|]).
  by apply not_elem_of_nil in Hb.
Qed.

Lemma raw_successors_view F raw s done : StateView F raw s ->
  raw_successors graph done raw = successors graph done s.
Proof.
  intros Hs. unfold raw_successors, successors.
  assert (forall bs, bs ⊆ g_branches graph ->
    raw_branch_targets done raw bs = branch_targets done s bs) as ->; [|done|done].
  induction bs as [|b bs IH]; intros Hbs; cbn [raw_branch_targets branch_targets]; [done|].
  rewrite IH by set_solver. rewrite (raw_route_view F raw s b Hs) by set_solver. done.
Qed.

(** The steps of the graph: which nodes are active together. *)
Definition layers : list (list Node) :=
  [[N_understand_request]; [N_get_reservation]; [N_search_alternatives; N_get_travel_credits];
   [N_refresh_context]; [N_evaluate_options]; [N_ask_confirmation]; [N_validate_change];
   [N_explain_invalid_change]; [N_execute_rebooking]; [N_verify_rebooking]; [N_finalize_failed];
   [N_finalize_declined]; []].

(** The next step is one of them, and needs only what was fresh or is now. *)
Definition follows (layer next : list Node) : bool :=
  bool_decide (next ∈ layers) &&
  forallb (fun n => forallb (fun k => bool_decide (k ∈ ((layer ≫= needs) ++ (layer ≫= writes))%list))
                      (needs n)) next.

Lemma choose_cases label targets t : choose label targets = Ok t -> t ∈ targets.*2.
Proof.
  induction targets as [|[l t'] targets IH]; cbn; [done|].
  destruct (label =? l); [intros [= ->]; by left|]. right. auto.
Qed.

Lemma node_follows n s a : [n] ∈ layers -> next n (route s) = Ok a -> follows [n] a = true.
Proof.
  intros Hl H.
  destruct n; try (exfalso; revert Hl; clear; vm_compute; set_solver); cbn -[choose] in H;
    try (injection H as <-; reflexivity);
    apply res_bind_Ok in H as (t & Ht & H); injection H as <-; apply choose_cases in Ht; cbn in Ht;
    repeat (apply elem_of_cons in Ht as [->|Ht]; [reflexivity|]); by apply not_elem_of_nil in Ht.
Qed.

Lemma layers_follow layer s ts : layer ∈ layers -> successors graph layer s = Ok ts ->
  follows layer (nodes_of ts) = true.
Proof.
  intros Hl H.
  destruct layer as [|n [|m layer]].
  - by injection H as <-.
  - apply (node_follows n s); [done|]. rewrite <- (successors_next n s), H. done.
  - assert (n :: m :: layer = [N_search_alternatives; N_get_travel_credits]) as E0.
    { repeat (apply elem_of_cons in Hl as [E|Hl]; [by injection E as -> -> ->||discriminate E|]).
      by apply not_elem_of_nil in Hl. }
    rewrite E0, graph_joins in H. rewrite E0. by injection H as <-.
Qed.

(** The state of the simulation. *)
Definition Ready (active : list Node) (raw : RawState) (s : AgentState) : Prop :=
  active ∈ layers /\
  exists F, F ⊆ fresh_keys /\ StateView F raw s /\ forall n, n ∈ active -> needs n ⊆ F.

Lemma ready_start n raw s : [n] ∈ layers -> needs n = [] -> StateView [] raw s -> Ready [n] raw s.
Proof using Type.
  intros Hl Hn Hs. split; [done|]. exists [].
  split_and!; [intros ? Hk; by apply not_elem_of_nil in Hk|done|].
  intros m Hm. apply list_elem_of_singleton in Hm as ->. by rewrite Hn.
Qed.

Lemma superstep_sim active raw s : Ready active raw s ->
  Sim (fun p q => p.1 = q.1 /\ Ready p.1 p.2 q.2)
    (raw_superstep graph active raw) (superstep parse graph active s).
Proof using HL.
  intros (Hl & F & HF & Hs & Hn). unfold raw_superstep, superstep.
  eapply sim_bind; [by eapply run_nodes_sim|]. intros u u' Hu.
  assert (StateView (F ++ (active ≫= writes)) (u ∪ raw) (merge s u')) as Hs'.
  { apply merge_view; [done..|]. intros k Hk. apply list_elem_of_bind in Hk as (m & Hk & _).
    by apply (writes_fresh m). }
  rewrite (raw_successors_view _ _ _ _ Hs').
  destruct (successors graph active (merge s u')) as [ts|e] eqn:Et; [|apply sim_throw].
  apply sim_ret. split; [done|]. cbn.
  pose proof (layers_follow _ _ _ Hl Et) as Hf. unfold follows in Hf. to_prop.
  split; [done|]. exists (F ++ (active ≫= writes))%list. split_and!.
  - intros k Hk. apply elem_of_app in Hk as [Hk|Hk]; [by apply HF|].
    apply list_elem_of_bind in Hk as (m & Hk & _). by apply (writes_fresh m).
  - done.
  - intros n Hin k Hk.
    match goal with Hf : forallb _ _ = true |- _ =>
      rewrite forallb_forall in Hf; specialize (Hf n (proj1 (list_elem_of_In _ _) Hin)); cbn beta in Hf;
      rewrite forallb_forall in Hf; specialize (Hf k (proj1 (list_elem_of_In _ _) Hk));
      apply bool_decide_eq_true, elem_of_app in Hf as [Hf|Hf] end;
      apply elem_of_app; [left|by right].
    match goal with Hb : k ∈ active ≫= needs |- _ =>
      apply list_elem_of_bind in Hb as (m & Hk' & Hm) end. by apply (Hn m).
Qed.

Section Restore.
Context (restore : nat -> RawState -> RawState) (Hrestore : forall i raw, Restored (restore i raw) raw).

Lemma ready_restored i active raw s : Ready active raw s ->
  Ready active (if bool_decide (N_ask_confirmation ∈ active) then restore i raw else raw) s.
Proof using HL Hrestore.
  intros (Hl & F & HF & Hs & Hn). case_bool_decide as Hask; [|split; eauto].
  assert (active = [N_ask_confirmation]) as ->.
  { revert Hask. repeat (apply elem_of_cons in Hl as [->|Hl]; [set_solver|]).
    by apply not_elem_of_nil in Hl. }
  apply ready_start; [done..|]. by eapply restored_view.
Qed.

(** The invocation, from any step on. *)
Lemma invoke_sim fuel active raw s : Ready active raw s ->
  Sim (StateView []) (raw_invoke restore graph fuel active raw) (invoke parse graph fuel active s).
Proof using HL Hrestore.
  revert active raw s. induction fuel as [|fuel IH]; intros active raw s Hr.
  - destruct active; [|apply sim_throw]. apply sim_ret. destruct Hr as (_ & F & _ & Hs & _).
    eapply state_view_mono; [|exact Hs]. set_solver.
  - destruct active as [|n active].
    + apply sim_ret. destruct Hr as (_ & F & _ & Hs & _). eapply state_view_mono; [|exact Hs]. set_solver.
    + cbn [raw_invoke invoke]. eapply sim_bind; [by apply superstep_sim, ready_restored|].
      intros [a raw'] [a' s']. cbn. intros [-> Hr']. by apply IH.
Qed.

(** The input of a message over any view of the saved values. *)
Lemma input_view max_retries raw saved message : StateView [] raw saved ->
  StateView [] (<["user_input" := OStr message]> (<["max_retries" := OInt max_retries]> raw))
    (merge saved (run_input message max_retries)).
Proof.
  intros Hs k. rewrite entry_merge.
  destruct (decide (k = "user_input")) as [->|Hu].
  - rewrite lookup_insert_eq. constructor. split; [done|]. intros Hk. by apply not_elem_of_nil in Hk.
  - rewrite lookup_insert_ne by done. destruct (decide (k = "max_retries")) as [->|Hm].
    + rewrite lookup_insert_eq. constructor. split; [done|]. intros Hk. by apply not_elem_of_nil in Hk.
    + rewrite lookup_insert_ne by done.
      replace (entry_of (run_input message max_retries) k) with (@None Obj); [apply Hs|].
      unfold entry_of. cbn. rewrite (proj2 (String.eqb_neq _ _) Hu), (proj2 (String.eqb_neq _ _) Hm).
      by repeat case_match.
Qed.

Lemma message_sim fuel max_retries raw saved message : StateView [] raw saved ->
  Sim (StateView []) (raw_runner_run restore fuel max_retries raw message)
    (runner_run parse fuel max_retries saved message).
Proof using HL Hrestore.
  intros Hs. unfold raw_runner_run, runner_run. destruct (_ =? ""); [apply sim_throw|].
  apply invoke_sim, ready_start; [by vm_compute; set_solver|done|by apply input_view].
Qed.
End Restore.
End Runs.

(** * What a user of the agent sees *)

(** Two programs that are the same to every environment of the ports. *)
Definition Same (p : RawM RawState) (q : AgentM AgentState) : Prop :=
  forall W (env : forall X, RawOp X -> W -> Res X * W) w,
    let typed := fun X (o : AgentOp X) => env X (raw_op o) in
    Agree (StateView []) (run env p w).1 (run typed q w).1 /\
    (run env p w).2 = (run typed q w).2 /\
    trace env p w = tr_event (@raw_op) <$> trace typed q w.

Lemma sim_same p q : Sim (StateView []) p q -> Same p q.
Proof. intros H W env w. by apply sim_run. Qed.

(** C8: An answer to a question, or a new message, has the same operations, effects and outcome on whatever mixture of instances and plain dicts the checkpointer restored, at the start and at every later question. *)
Theorem restored_runs (V : Validator) parse `{!ValidatorLaws V parse} restore fuel max_retries message
    (raw : RawState) (s : AgentState) :
  (forall i r, Restored (restore i r) r) -> StateView [] raw s ->
  Same (raw_invoke restore graph fuel [N_ask_confirmation] raw)
       (invoke parse graph fuel [N_ask_confirmation] s) /\
  Same (raw_runner_run restore fuel max_retries raw message)
       (runner_run parse fuel max_retries s message).
Proof.
  intros Hr Hs. split; apply sim_same.
  - apply (invoke_sim parse restore Hr), ready_start; [by refine (bool_decide_eq_true_1 _ _)|done|done].
  - by apply (message_sim parse restore Hr).
Qed.

(** The same for all outcomes the ports may have. *)
Lemma restored_wp (V : Validator) parse `{!ValidatorLaws V parse} restore fuel (raw : RawState) s Q :
  (forall i r, Restored (restore i r) r) -> StateView [] raw s ->
  wp (invoke parse graph fuel [N_ask_confirmation] s) Q ->
  wp (raw_invoke restore graph fuel [N_ask_confirmation] raw)
    (fun r t => exists r' t', Agree (StateView []) r r' /\ t = tr_event (@raw_op) <$> t' /\ Q r' t').
Proof.
  intros Hr Hs. apply sim_wp, (invoke_sim parse restore Hr).
  apply ready_start; [by refine (bool_decide_eq_true_1 _ _)|done|done].
Qed.

(** * The dict of a state *)

Definition state_keys : list string :=
  ["user_input"; "request"; "reservation_context"; "search_result"; "credits_result"; "evaluation";
   "confirmation"; "validation"; "execution"; "verification"; "final"; "route"; "error";
   "retry_count"; "max_retries"].
Definition dict_of (s : AgentState) : RawState :=
  list_to_map (omap (fun k => pair k <$> entry_of s k) state_keys).

Lemma dict_of_lookup s k : dict_of s !! k = entry_of s k.
Proof.
  unfold dict_of.
  assert (entry_of s k <> None -> k ∈ state_keys) as Hin.
  { unfold entry_of. repeat (case_match; [to_prop; subst; intros _; by refine (bool_decide_eq_true_1 _ _)|]). done. }
  assert (forall ks, NoDup ks -> (list_to_map (omap (fun k => pair k <$> entry_of s k) ks) : RawState) !! k
          = if bool_decide (k ∈ ks) then entry_of s k else None) as H.
  { induction ks as [|k' ks IH]; intros Hnd; cbn; [done|]. inversion Hnd as [|? ? Hk' Hnd']; subst.
    specialize (IH Hnd').
    destruct (entry_of s k') as [v|] eqn:E; cbn; destruct (decide (k = k')) as [->|Hne].
    - rewrite lookup_insert_eq. by rewrite bool_decide_eq_true_2 by by left.
    - rewrite lookup_insert_ne by done. rewrite IH.
      by rewrite (bool_decide_ext (k ∈ k' :: ks) (k ∈ ks)) by set_solver.
    - rewrite IH, E. by repeat case_match.
    - rewrite IH. by rewrite (bool_decide_ext (k ∈ k' :: ks) (k ∈ ks)) by set_solver. }
  rewrite H by by refine (bool_decide_eq_true_1 _ _).
  case_bool_decide as Hk; [done|]. destruct (entry_of s k); [|done]. exfalso. by apply Hk, Hin.
Qed.

Lemma dict_of_view s : StateView [] (dict_of s) s.
Proof.
  intros k. rewrite dict_of_lookup. destruct (entry_of s k); constructor.
  split; [done|]. intros Hk. by apply not_elem_of_nil in Hk.
Qed.

(** The serializer that loses every class. *)
Fixpoint plain_restores (v : Obj) : View (_plain v) v.
Proof.
  destruct v; try apply view_same; cbn.
  - apply view_list. revert l. fix IH 1. intros [|v l]; cbn; constructor; [apply plain_restores|apply IH].
  - apply view_dict. revert d. fix IH 1. intros [|[k v] d]; cbn; constructor; [apply plain_restores|apply IH].
  - apply view_restored. revert fields. fix IH 1.
    intros [|[k v] d]; cbn; constructor; [apply plain_restores|apply IH].
Qed.

Lemma plain_restored (raw : RawState) : Restored (_plain <$> raw) raw.
Proof.
  intros k. rewrite lookup_fmap. destruct (raw !! k); constructor. apply plain_restores.
Qed.

(** ** Where a dict would be noticed *)

(** [request] and [validation] are read by attribute. *)
Lemma plain_request_raises `{Validator} (raw : RawState) d : raw !! "request" = Some (ODict d) ->
  raw_get_reservation raw = Throw (mkExn AttributeError "booking_reference").
Proof. intros E. unfold raw_get_reservation, state_get. by rewrite E. Qed.

Lemma plain_validation_raises `{Validator} (raw : RawState) d : raw !! "validation" = Some (ODict d) ->
  raw_explain_invalid_change raw = Throw (mkExn AttributeError "user_declined") /\
  raw_execute_rebooking raw = Throw (mkExn AttributeError "valid") /\
  raw_verify_rebooking raw = Throw (mkExn AttributeError "selection").
Proof.
  intros E. unfold raw_explain_invalid_change, raw_execute_rebooking, raw_verify_rebooking, state_get.
  by rewrite E.
Qed.

(** * Selections at the service *)

(** Every form of a selection that reaches the service is the same schema:
    the instance, its JSON dump included, or a dict restored of either. *)
Lemma selection_schema_view (V : Validator) parse `{!ValidatorLaws V parse} model_dump_json
    (sel : RebookingSelection) o :
  model_validate "RebookingSelectionSchema" (model_dump_json (dump sel)) = Ok (dump_selection_schema sel) ->
  View o (dump sel) \/ View o (dump_selection_schema sel) ->
  _selection_schema model_dump_json o = Ok (dump_selection_schema sel).
Proof.
  intros Hj [Ho|Ho]; destruct (view_flat o _ _ Ho (selection_leaves sel)) as [->| ->]; try done.
  all: apply (validates_kept _ _ _ (instance_schema sel)), kept_refl.
Qed.

(** What an [interrupt] shows holds no instance. *)
Fixpoint plain_data (v : Obj) : bool :=
  match v with
  | OList l => forallb plain_data l
  | ODict d => forallb (fun e => plain_data e.2) d
  | OModel _ _ => false
  | _ => true
  end.
Fixpoint plain_is_data (v : Obj) : plain_data (_plain v) = true.
Proof.
  destruct v; cbn; try reflexivity.
  - revert l. fix IH 1. intros [|v l]; cbn; [done|]. by rewrite plain_is_data, IH.
  - revert d. fix IH 1. intros [|[k v] d]; cbn; [done|]. by rewrite plain_is_data, IH.
  - revert fields. fix IH 1. intros [|[k v] d]; cbn; [done|]. by rewrite plain_is_data, IH.
Qed.
