(* ===== verification/AgentSafety.v ===== *)
(** Properties of every turn of the agent: what it executes, what it reports,
    how often it asks.  All of them are read off the conversations of
    AgentProperties. *)
From Stdlib Require Import String.
From stdpp Require Import base numbers strings list sets.
From S2P Require Import Prelude Models PyVal Effects AgentState AgentNodes AgentGraph AgentProperties.
Local Open Scope string_scope.

Section Safety.
Context (model_validate : PyVal -> Res RebookingSelection).
Abbreviation Rounds := (AgentProperties.Rounds model_validate).
Abbreviation decided := (AgentProperties.decided model_validate).
Abbreviation Turn := (AgentProperties.Turn model_validate).
Definition unexecuted (steps : list AgentStep) : Prop := Forall (fun st => is_execution st = false) steps.

(** * How a turn ends *)

Lemma round_steps_quiet cx r : unexecuted (round_steps cx r).
Proof. by repeat constructor. Qed.

Lemma refused_quiet r sel steps reason : Refused r sel steps reason -> unexecuted steps.
Proof. by destruct 1; repeat constructor. Qed.

(** A selection is executed after the round that offered it, an answer that
    confirmed it and a validation that accepted it. *)
Inductive Concluded (cx : ReservationContext) (sel : RebookingSelection) (tail : list AgentStep)
    (f : FinalResult) : list AgentStep -> Prop :=
  | concluded before r v :
      unexecuted before -> round_ok cx r -> decided r true (Some sel) -> fits r sel ->
      Ended sel v tail f ->
      Concluded cx sel tail f (before ++ round_steps cx r ++ Validated sel (Ok (VResult v)) :: tail)%list.

Lemma concluded_after cx sel tail f quiet steps : unexecuted quiet ->
  Concluded cx sel tail f steps -> Concluded cx sel tail f (quiet ++ steps)%list.
Proof.
  intros Hq [before r v Hb Hr Hd Hf He]. rewrite app_assoc. eapply concluded; try done.
  by apply Forall_app.
Qed.

Definition unfinished (out : Res (option FinalResult)) : Prop :=
  match out with
  | Ok o => exists f, o = Some f /\ fr_execution f = None /\ fr_verification f = None
      /\ (fr_status f = FS_declined \/ fr_status f = FS_failed)
  | Raise _ => True
  end.

Lemma rounds_end cx limit count steps out : Rounds cx limit count steps out ->
  (unexecuted steps /\ unfinished out)
  \/ exists sel tail f, Concluded cx sel tail f steps /\ out = Ok (Some f).
Proof.
  induction 1 as [count steps e [Hq _] _|count r sel Hr Hd
                 |count r sel steps reason rest out Hr Hd Href Hle _ IH
                 |count r sel steps reason Hr Hd Href Hlt
                 |count r sel v steps out Hr Hd Hf Hend].
  - by left.
  - left. split; [apply round_steps_quiet|]. eexists; split_and!; auto.
  - pose proof (round_steps_quiet cx r). pose proof (refused_quiet _ _ _ _ Href).
    destruct IH as [[Hq Hu]|(sel' & tail & f & Hc & ->)].
    + left. split; [|done]. apply Forall_app; split; [done|]. by apply Forall_app.
    + right. exists sel', tail, f. split; [|done]. by apply concluded_after, concluded_after.
  - left. split; [apply Forall_app; split; [apply round_steps_quiet|by eapply refused_quiet]|].
    eexists; split_and!; auto.
  - right. exists sel, steps, out. split; [|done]. apply (concluded cx sel steps out [] r v); [constructor|done..].
Qed.

Lemma turn_end message limit count steps out : Turn message limit count steps out ->
  (unexecuted steps /\ unfinished out)
  \/ exists cx sel tail f, Concluded cx sel tail f steps /\ out = Ok (Some f).
Proof.
  destruct 1 as [steps e Hq _|rq res steps out _ _ _ Hr].
  - left. split; [|done]. eapply Forall_impl; [exact Hq|].
    intros st Hst. by apply orb_false_iff in Hst as [? _].
  - destruct (rounds_end _ _ _ _ _ Hr) as [[Hq Hu]|(sel & tail & f & Hc & ->)].
    + left. split; [by repeat constructor|done].
    + right. eexists _, sel, tail, f. split; [|done].
      apply (concluded_after _ _ _ _ [_; _]); [by repeat constructor|exact Hc].
Qed.

(** * What is executed *)

Definition justified (cx : ReservationContext) (sel : RebookingSelection)
    (pre post : list AgentStep) : Prop :=
  exists before r v,
    pre = (before ++ round_steps cx r ++ [Validated sel (Ok (VResult v))])%list
    /\ unexecuted before /\ round_ok cx r /\ decided r true (Some sel) /\ fits r sel
    /\ (post = [] \/ exists y, post = [Verified sel y]).

Lemma ended_first sel v steps out pre sel' x post : Ended sel v steps out ->
  steps = (pre ++ Executed sel' x :: post)%list ->
  pre = [] /\ sel' = sel /\ (post = [] \/ exists y, post = [Verified sel y]).
Proof.
  destruct 1; destruct pre as [|? [|? pre]]; cbn; intros [=]; subst; eauto;
    by destruct pre.
Qed.

Lemma turn_execution message limit count steps out :
  Turn message limit count steps out -> forall pre sel x post,
  steps = (pre ++ Executed sel x :: post)%list -> exists cx, justified cx sel pre post.
Proof.
  intros Ht pre sel x post Heq.
  apply turn_end in Ht as [[Hq _]|(cx & sel' & tail & f & Hc & _)].
  { rewrite Heq in Hq. apply Forall_app in Hq as [_ Hq]. by apply Forall_cons in Hq as [[=] _]. }
  destruct Hc as [before r v Hb Hr Hd Hf He].
  apply (cut_after is_execution) in Heq as (pre1 & -> & Heq); [|done|done].
  apply (cut_after is_execution) in Heq as (pre2 & -> & Heq); [|apply round_steps_quiet|done].
  destruct pre2 as [|st pre2]; [discriminate Heq|]. injection Heq as <- Heq.
  destruct (ended_first _ _ _ _ _ _ _ _ He Heq) as (-> & -> & Hpost).
  by exists cx, before, r, v.
Qed.

(** * What is reported *)

Definition executed_result (st : AgentStep) : option RebookingResultSchema :=
  match st with Executed _ (Ok x) => Some x | _ => None end.
Definition verified_result (st : AgentStep) : option RebookingResultSchema :=
  match st with Verified _ (Ok y) => Some y | _ => None end.

(** The result of a turn tells what the ports did. *)
Definition truthful (steps : list AgentStep) (f : FinalResult) : Prop :=
  omap executed_result steps = option_list (fr_execution f)
  /\ omap verified_result steps = option_list (fr_verification f)
  /\ (fr_status f = FS_completed <-> is_Some (fr_verification f))
  /\ fr_status f <> FS_ready.

Lemma quiet_results steps : unexecuted steps ->
  omap executed_result steps = [] /\ omap verified_result steps = [].
Proof.
  induction 1 as [|st steps Hst _ [IHe IHv]]; [done|]. cbn. rewrite IHe, IHv. by destruct st.
Qed.

Lemma concluded_truthful cx sel tail f steps : Concluded cx sel tail f steps -> truthful steps f.
Proof.
  intros [before r v Hb _ _ _ He].
  destruct (quiet_results _ Hb) as [Hbe Hbv], (quiet_results _ (round_steps_quiet cx r)) as [Hre Hrv].
  unfold truthful. rewrite !omap_app, Hbe, Hbv, Hre, Hrv.
  destruct He; split_and!; try done; cbn; split; first [done|by intros []|intros _; eauto].
Qed.

Lemma unfinished_truthful steps f : unexecuted steps -> unfinished (Ok (Some f)) -> truthful steps f.
Proof.
  intros Hq (f' & [= <-] & He & Hv & Hs). destruct (quiet_results _ Hq) as [Hqe Hqv].
  unfold truthful. rewrite Hqe, Hqv, He, Hv. split_and!; try done.
  - split; [by destruct Hs as [-> | ->]|by intros []].
  - by destruct Hs as [-> | ->].
Qed.

Lemma sourced_after e quiet steps : sourced e steps -> sourced e (quiet ++ steps)%list.
Proof. intros [He|He]; [by left|right]. apply Exists_app. by right. Qed.

Lemma rounds_sourced cx limit count steps e : Rounds cx limit count steps (Raise e) ->
  sourced e steps.
Proof.
  intros Hr. remember (Raise e) as out eqn:Ho. revert Ho.
  induction Hr as [count steps e' _ He| | count r sel steps reason rest out _ _ _ _ _ IH| |];
    intros Ho; try discriminate Ho.
  - by injection Ho as ->.
  - apply sourced_after, sourced_after. auto.
Qed.

Lemma turn_truthful message limit count steps out : Turn message limit count steps out ->
  match out with
  | Ok o => exists f, o = Some f /\ truthful steps f
  | Raise e => unexecuted steps /\ sourced e steps
  end.
Proof.
  intros Ht. pose proof (turn_end _ _ _ _ _ Ht) as [[Hq Hu]|(cx & sel & tail & f & Hc & ->)].
  - destruct out as [o|e].
    + destruct Hu as (f & -> & Hu). exists f. split; [done|]. apply unfinished_truthful; [done|].
      by exists f.
    + split; [done|]. remember (Raise e) as out eqn:Ho. revert Ho.
      destruct Ht as [steps e' _ He|rq res steps out _ _ _ Hr]; intros Ho; [by injection Ho as ->|].
      subst out.
      apply (sourced_after e [_; _]). by eapply rounds_sourced.
  - exists f. split; [done|]. by eapply concluded_truthful.
Qed.

(** * How often the user is asked *)

Definition questions (steps : list AgentStep) : nat := length (List.filter is_question steps).

Lemma questions_app l1 l2 : questions (l1 ++ l2)%list = (questions l1 + questions l2)%nat.
Proof. unfold questions. by rewrite List.filter_app, length_app. Qed.

Lemma refused_unasked r sel steps reason : Refused r sel steps reason -> questions steps = 0%nat.
Proof. by destruct 1. Qed.

Lemma rounds_questions cx limit count steps out :
  Rounds cx limit count steps out -> (questions steps <= Z.to_nat (limit - count) + 1)%nat.
Proof.
  induction 1 as [count steps e [_ Hq] _|count r sel Hr Hd
                 |count r sel steps reason rest out Hr Hd Href Hle _ IH
                 |count r sel steps reason Hr Hd Href Hlt
                 |count r sel v steps out Hr Hd Hf Hend].
  - unfold questions. lia.
  - cbn. lia.
  - rewrite !questions_app, (refused_unasked _ _ _ _ Href). cbn. lia.
  - rewrite !questions_app, (refused_unasked _ _ _ _ Href). cbn. lia.
  - rewrite questions_app. destruct Hend; cbn; lia.
Qed.

Lemma turn_questions message limit count steps out : Turn message limit count steps out ->
  (questions steps <= Z.to_nat (limit - count) + 1)%nat.
Proof.
  destruct 1 as [steps e Hq _|rq res steps out _ _ _ Hr]; [|by apply rounds_questions in Hr].
  enough (questions steps = 0%nat) by lia. unfold questions.
  induction Hq as [|st steps Hst _ IH]; [done|]. cbn. apply orb_false_iff in Hst as [_ ->]. done.
Qed.

(** * The runs *)

Context (validate_raises : forall v e, model_validate v = Raise e -> isinstance e ValueError = true).

Lemma wp_turn fuel max_retries saved message Q :
  (enough_fuel max_retries saved <= fuel)%nat ->
  (forall out tr, Turn message max_retries (default 0%Z (retry_count saved)) (steps_of tr)
     (final_of out) -> Q out tr) ->
  wp (runner_run model_validate fuel max_retries saved message) Q.
Proof. intros Hf HQ. eapply wp_mono; [exact HQ|]. by apply run_turn. Qed.

(** C3: every run of the agent is a turn of the conversation [Turn]: the
    request is understood and the reservation read; then at most one round per
    allowed retry searches, ranks options and asks; a refused selection is
    counted and asked again, an accepted one executed and verified; and the
    turn returns the final result of that course of events, or raises a
    [ValueError] or what a port raised.  In particular the graph ends: it never
    needs more than [enough_fuel] steps. *)
Theorem turn_refines fuel max_retries saved message :
  (enough_fuel max_retries saved <= fuel)%nat ->
  wp (runner_run model_validate fuel max_retries saved message) (fun out tr =>
    Turn message max_retries (default 0%Z (retry_count saved)) (steps_of tr) (final_of out)).
Proof. intros Hf. by apply wp_turn. Qed.

(** C18: nothing is executed that the user did not confirm: an execution is
    immediately preceded by the round that offered exactly this flight and fare
    for the searched segment, by the answer that confirmed it and by the
    validation that accepted it; nothing was executed before, and only its
    verification follows. *)
Theorem executions_confirmed fuel max_retries saved message :
  (enough_fuel max_retries saved <= fuel)%nat ->
  wp (runner_run model_validate fuel max_retries saved message) (fun out tr =>
    forall pre sel x post, steps_of tr = (pre ++ Executed sel x :: post)%list ->
      exists cx, justified cx sel pre post).
Proof. intros Hf. apply wp_turn; [done|]. intros out tr. apply turn_execution. Qed.

(** C28: the final result tells what happened: its execution and verification
    are exactly the ones the airline returned in this turn, it says completed
    exactly when the verification succeeded, and it is never left out or left
    over from an earlier turn; a turn that raises has executed nothing, and
    raises a [ValueError] or what a port raised. *)
Theorem reports_truthful fuel max_retries saved message :
  (enough_fuel max_retries saved <= fuel)%nat ->
  wp (runner_run model_validate fuel max_retries saved message) (fun out tr =>
    match out with
    | Ok s => exists f, final s = Some f /\ truthful (steps_of tr) f
    | Raise e => unexecuted (steps_of tr) /\ sourced e (steps_of tr)
    end).
Proof.
  intros Hf. apply wp_turn; [done|]. intros out tr Ht. apply turn_truthful in Ht.
  by destruct out.
Qed.

(** The user is asked at most once more than there are retries left. *)
Theorem questions_bounded fuel max_retries saved message :
  (enough_fuel max_retries saved <= fuel)%nat ->
  wp (runner_run model_validate fuel max_retries saved message) (fun out tr =>
    (questions (steps_of tr) <= retries_left max_retries saved + 1)%nat).
Proof. intros Hf. apply wp_turn; [done|]. intros out tr. apply turn_questions. Qed.
End Safety.
