(* ===== verification/AgentSystem.v ===== *)
(** The agent on the airline: the wiring of [app/main.py], where the airline
    service is both the graph's airline port and its change validator.

    [port_env] answers the ports from one database, through the repositories of
    either data access variant; the language model and the user are arbitrary
    functions [outside].  [turn_rebooks] says what a turn does to the database
    when nobody else writes to it meanwhile. *)
From Stdlib Require Import String.
From stdpp Require Import base numbers strings list sets.
From S2P Require Import Prelude Models Database Rules OrmRebooking RebookingInvariants RebookingOutcome.
From S2P Require Import AirlineService PyVal Effects AgentState AgentNodes AgentGraph AgentProperties AgentSafety.

Record Sys := mkSys { sys_db : DB; sys_calls : nat }.

Section System.
(** The clock of the database, the clock and identifiers of an execution, and
    the language model and the user, at each call. *)
Context (clock : nat -> datetime) (ambient : nat -> Ambient)
        (outside : forall R, AgentOp R -> nat -> Res R).
Context (reads : ReadRepositories) (rebooking : RebookingRepository).

Definition port_env R (op : AgentOp R) (w : Sys) : Res R * Sys :=
  let n := sys_calls w in
  let db := sys_db w in
  match op in AgentOp R return Res R * Sys with
  | PortGetReservation reference => (service_get_reservation reads db reference, mkSys db (S n))
  | PortSearchRebookingOptions input => (search_rebooking_options reads db input, mkSys db (S n))
  | PortGetAvailableTravelCredits customer currency =>
      (get_available_travel_credits reads db (clock n) customer currency, mkSys db (S n))
  | PortValidateChange selection =>
      ((v ← service_validate_change (Some rebooking) db (clock n) selection; mret (VResult v)), mkSys db (S n))
  | PortExecuteRebooking selection =>
      let '(r, db') := service_execute (Some rebooking) (ambient n) selection db in (r, mkSys db' (S n))
  | PortVerifyRebooking selection => (service_verify (Some rebooking) db selection, mkSys db (S n))
  | op => (outside _ op n, mkSys db (S n))
  end.

(** The effect of a sequence of steps on the database. *)
Inductive Replay : DB -> list AgentStep -> DB -> Prop :=
  | replay_nil db : Replay db [] db
  | replay_other db st steps db' :
      is_execution st = false -> Replay db steps db' -> Replay db (st :: steps) db'
  | replay_verify db sel steps db' :
      Replay db steps db' -> Replay db (Verified sel (service_verify (Some rebooking) db sel) :: steps) db'
  | replay_execute db am sel r db1 steps db' :
      service_execute (Some rebooking) am sel db = (r, db1) -> Replay db1 steps db' ->
      Replay db (Executed sel r :: steps) db'.

Lemma run_replay {A} (m : AgentM A) w :
  Replay (sys_db w) (steps_of (trace port_env m w)) (sys_db (run port_env m w).2).
Proof.
  revert w. induction m as [a|e|R o c IH]; intros w; [constructor..|].
  destruct o; cbn -[service_execute]; try (apply replay_other; [done|apply (IH _ (mkSys (sys_db w) _))]).
  - destruct (service_execute (Some rebooking) (ambient (sys_calls w)) selection (sys_db w)) as [r db1] eqn:E.
    cbn. eapply replay_execute; [exact E|]. apply (IH r (mkSys db1 _)).
  - apply replay_verify, (IH _ (mkSys (sys_db w) _)).
Qed.

Lemma replay_quiet db quiet steps db' : unexecuted quiet ->
  Replay db (quiet ++ steps) db' -> Replay db steps db'.
Proof.
  induction 1 as [|st quiet Hst _ IH]; [done|]. intros Hr. inversion Hr; subst; try done. auto.
Qed.

Lemma replay_unexecuted db steps db' : unexecuted steps -> Replay db steps db' -> db' = db.
Proof.
  intros Hq Hr. rewrite <- (app_nil_r steps) in Hr. apply replay_quiet in Hr; [|done].
  by inversion Hr.
Qed.

Context (laws : RebookingLaws rebooking).

(** What an execution did, when it ended a turn. *)
Lemma replay_ended db sel v tail f db' : db_inv db -> Ended sel v tail f -> Replay db tail db' ->
  (db' = db /\ fr_status f = FS_failed)
  \/ exists am x x' y,
       execute am (validate_rebooking_selection (am_now_validate am)) sel db = (Ok x', db')
       /\ rr_change x = rr_change x'
       /\ tail = [Executed sel (Ok x); Verified sel (Ok y)] /\ fr_status f = FS_completed
       /\ fr_selection f = Some sel /\ fr_execution f = Some x.
Proof.
  intros Hdb He Hr.
  destruct He; inversion Hr as [| | |? am ? ? db1 ? ? Hex Hrest]; subst; try done.
  all: unfold service_execute in Hex.
  - apply (law_fails _ laws) in Hex as ->; [|done]. inversion Hrest; subst. by left.
  - inversion Hrest as [| |? ? ? ? Hnil|]; subst; [done|].
    destruct (law_verifies _ laws _ _ _ _ _ Hdb Hex) as [y Hy].
    unfold service_verify in *. cbn [or_raise] in *. rewrite res_bind_ret in *. congruence.
  - inversion Hrest as [| |? ? ? ? Hnil|]; subst; [done|]. inversion Hnil; subst.
    destruct (law_executes _ laws _ _ _ _ _ Hdb Hex) as (am' & x' & _ & Hex' & Hch).
    right. exists am', x, x', y. split_and!; [done|done| |done..]. congruence.
Qed.

Context (model_validate : PyVal -> Res RebookingSelection).
Context (validate_raises : forall v e, model_validate v = Raise e -> isinstance e ValueError = true).

(** What a turn does to the database. *)
Definition Rebooks (db db' : DB) (out : Res (option FinalResult)) (steps : list AgentStep) : Prop :=
  (db' = db /\ forall f, out = Ok (Some f) -> fr_status f <> FS_completed)
  \/ exists am sel x x' y cx pre f,
       execute am (validate_rebooking_selection (am_now_validate am)) sel db = (Ok x', db')
       /\ rr_change x = rr_change x'
       /\ steps = (pre ++ [Executed sel (Ok x); Verified sel (Ok y)])%list
       /\ justified model_validate cx sel pre [Verified sel (Ok y)]
       /\ out = Ok (Some f) /\ fr_status f = FS_completed
       /\ fr_selection f = Some sel /\ fr_execution f = Some x.

Lemma turn_rebooks_db message limit count steps out db db' : db_inv db ->
  Turn model_validate message limit count steps out -> Replay db steps db' ->
  Rebooks db db' out steps.
Proof.
  intros Hdb Ht Hr. apply turn_end in Ht as [[Hq Hu]|(cx & sel & tail & f & Hc & ->)].
  - left. split; [by eapply replay_unexecuted|]. intros f ->.
    destruct Hu as (f' & [= <-] & _ & _ & [-> | ->]); done.
  - destruct Hc as [before r v Hb Hrd Hd Hf He].
    apply replay_quiet in Hr; [|done]. apply replay_quiet in Hr; [|apply round_steps_quiet].
    apply (replay_quiet _ [_]) in Hr; [|by repeat constructor].
    destruct (replay_ended _ _ _ _ _ _ Hdb He Hr) as [[-> Hs]|(am & x & x' & y & Hex & Hch & -> & Hs & Hsel & Hx)].
    + left. split; [done|]. intros f' [= <-]. by rewrite Hs.
    + right. exists am, sel, x, x', y, cx,
        (before ++ round_steps cx r ++ [Validated sel (Ok (VResult v))])%list, f.
      split_and!; try done; [by rewrite <- !app_assoc|]. exists before, r, v. split_and!; eauto.
Qed.

(** C2: a turn rebooks what the user confirmed, or nothing: on the airline's
    database, with no other writer, a turn ends either with the database
    unchanged and a result that does not say completed (a rejected or failed
    execution rolls back), or with the database after exactly one successful
    execution (of either variant, with the effect of the SQLAlchemy one) of a selection that was offered, confirmed and validated in this
    turn, and with a completed result that names it.  The verification of a
    committed execution never fails. *)
Theorem turn_rebooks fuel max_retries saved message w :
  (enough_fuel max_retries saved <= fuel)%nat -> db_inv (sys_db w) ->
  let turn := runner_run model_validate fuel max_retries saved message in
  Rebooks (sys_db w) (sys_db (run port_env turn w).2) (final_of (run port_env turn w).1)
    (steps_of (trace port_env turn w)).
Proof.
  intros Hf Hdb turn. eapply turn_rebooks_db; [done| |apply run_replay].
  apply (wp_run port_env turn (fun out tr => Turn model_validate message max_retries
    (default 0%Z (retry_count saved)) (steps_of tr) (final_of out))). by apply run_turn.
Qed.

Lemma execute_keeps am sel x db db' : db_inv db ->
  execute am (validate_rebooking_selection (am_now_validate am)) sel db = (Ok x, db') -> db_inv db'.
Proof.
  intros Hdb Hex.
  destruct (rebook_all_ind (fun _ _ => True)) with (requests := [(am, sel)]) (db := db) as [Hinv _];
    try done.
  cbn in Hinv. unfold rebook in Hinv. by rewrite Hex in Hinv.
Qed.

(** The invariants of the airline's data survive every turn of the agent. *)
Theorem turn_keeps_invariant fuel max_retries saved message w :
  (enough_fuel max_retries saved <= fuel)%nat -> db_inv (sys_db w) ->
  db_inv (sys_db (run port_env (runner_run model_validate fuel max_retries saved message) w).2).
Proof.
  intros Hf Hdb. set (turn := runner_run _ _ _ _ _).
  assert (Turn model_validate message max_retries (default 0%Z (retry_count saved))
    (steps_of (trace port_env turn w)) (final_of (run port_env turn w).1)) as Ht.
  { apply (wp_run port_env turn (fun out tr => Turn model_validate message max_retries
      (default 0%Z (retry_count saved)) (steps_of tr) (final_of out))). by apply run_turn. }
  destruct (turn_rebooks_db _ _ _ _ _ _ _ Hdb Ht (run_replay turn w))
    as [[-> _]|(am & sel & x & x' & y & cx & pre & f & Hex & _)]; [done|].
  by eapply execute_keeps.
Qed.
End System.
