(* ===== verification/AgentThreads.v ===== *)
(** The agent runner on persistent threads: [app/agent/runner.py].

    A thread is a conversation whose state a checkpointer keeps between the
    calls of the runner.  [tasks] executes the nodes of a step the way LangGraph
    documents [interrupt]: without an answer the call pauses the step, with one
    ([Command(resume=...)]) the step is executed again from its beginning and
    the call returns the answer.  [steps] saves a checkpoint after every step;
    [agent_run] and [agent_resume] are the two methods of [AgentRunner].

    The theorems of this file say that pausing is invisible: what a thread does
    from a message over all its answers is one run of the graph of AgentGraph,
    in which the awaited answer of an [interrupt] is the one a resume brings. *)
From Stdlib Require Import String.
From stdpp Require Import base numbers strings list sets.
From S2P Require Import Prelude Models PyVal Effects AgentState AgentNodes AgentGraph AgentProperties AgentSafety.
Local Open Scope string_scope.

(** The value of an interrupt: what [ask_confirmation] shows the user. *)
Record Pause := mkPause { pa_message : string; pa_evaluation : EvaluationResult }.

(** A checkpoint: the values of the state, the nodes that are next, and the
    interrupts that wait for an answer ([StateSnapshot]). *)
Record Checkpoint := mkCheckpoint {
  ck_values : AgentState; ck_next : list Node; ck_interrupts : list Pause }.
(** A thread that has none yet. *)
Definition new_thread : Checkpoint := mkCheckpoint empty_state [] [].

(** The ports of the nodes, and the checkpointer. *)
Inductive ThreadOp : Type -> Type :=
  | Port {R} (o : AgentOp R) : ThreadOp R
  | LoadCheckpoint (thread : string) : ThreadOp (option Checkpoint)
  | SaveCheckpoint (thread : string) (c : Checkpoint) : ThreadOp unit.
Notation ThreadM := (Prog ThreadOp).

(** The value an interrupt shows, and its answer as the outcome of the call. *)
Definition interrupt_of {R} (o : AgentOp R) : option (Pause * (PyVal -> R)) :=
  match o in AgentOp R return option (Pause * (PyVal -> R)) with
  | Interrupt message evaluation => Some (mkPause message evaluation, fun answer => answer)
  | _ => None
  end.

(** Execute a step; an interrupt takes the answer, or pauses without one. *)
Fixpoint tasks {A} (answer : option PyVal) (m : AgentM A) : ThreadM (A + Pause) :=
  match m with
  | Ret a => Ret (inl a)
  | Throw e => Throw e
  | Await o k =>
      match interrupt_of o with
      | Some (pause, outcome) =>
          match answer with
          | Some value => tasks None (k (Ok (outcome value)))
          | None => Ret (inr pause)
          end
      | None => Await (Port o) (fun r => tasks answer (k r))
      end
  end.

Section Runner.
Context (model_validate : PyVal -> Res RebookingSelection).

(** The steps of one [ainvoke], at most [limit] (LangGraph's recursion limit),
    with the values and the pending interrupts it returns. *)
Fixpoint steps (limit : nat) (thread : string) (active : list Node) (s : AgentState)
    (answer : option PyVal) : ThreadM (AgentState * list Pause) :=
  match active, limit with
  | [], _ => mret (s, [])
  | _, O => throw InfraError "GraphRecursionError"
  | _, S limit' =>
      outcome ← tasks answer (run_nodes model_validate active s);
      match outcome with
      | inr pause =>
          await (SaveCheckpoint thread (mkCheckpoint s active [pause]));;
          mret (s, [pause])
      | inl u =>
          let s' := merge s u in
          targets ← of_res (successors graph active s');
          let active' := nodes_of targets in
          await (SaveCheckpoint thread (mkCheckpoint s' active' []));;
          steps limit' thread active' s' None
      end
  end.

(** [AgentRunner.run]: the input is written over the values of the thread and
    the graph starts; what was pending is given up. *)
Definition agent_run (limit : nat) (max_retries : Z) (user_id session_id message : string) :
    ThreadM (AgentState * list Pause) :=
  if (py_strip message =? "") then throw ValueError "message is required"
  else
    let thread := thread_id user_id session_id in
    saved ← await (LoadCheckpoint thread);
    let s := merge (ck_values (default new_thread saved)) (run_input message max_retries) in
    await (SaveCheckpoint thread (mkCheckpoint s [g_entry graph] []));;
    steps limit thread [g_entry graph] s None.

(** [AgentRunner.resume]: the thread goes on from its checkpoint. *)
Definition agent_resume (limit : nat) (user_id session_id : string) (answer : PyVal) :
    ThreadM (AgentState * list Pause) :=
  let thread := thread_id user_id session_id in
  snapshot ← await (LoadCheckpoint thread);
  match ck_interrupts (default new_thread snapshot) with
  | [] => throw NoPendingInputError "session has no pending input"
  | _ =>
      saved ← await (LoadCheckpoint thread);
      let c := default new_thread saved in
      steps limit thread (ck_next c) (ck_values c) (Some answer)
  end.
End Runner.

(** * What the ports and the checkpointer see *)

Definition port_event (ev : Event ThreadOp) : option (Event AgentOp) :=
  match ev with
  | Ev o r =>
      match o in ThreadOp R return Res R -> option (Event AgentOp) with
      | Port o => fun r => Some (Ev o r)
      | _ => fun _ => None
      end r
  end.
Definition ports (tr : Trace ThreadOp) : Trace AgentOp := omap port_event tr.

Definition save_event (thread : string) (ev : Event ThreadOp) : option (Checkpoint * Res unit) :=
  match ev with
  | Ev o r =>
      match o in ThreadOp R return Res R -> option (Checkpoint * Res unit) with
      | SaveCheckpoint t c => fun r => if (t =? thread)%string then Some (c, r) else None
      | _ => fun _ => None
      end r
  end.
Definition saves (thread : string) (tr : Trace ThreadOp) : list (Checkpoint * Res unit) :=
  omap (save_event thread) tr.

Lemma ports_app tr tr' : ports (tr ++ tr')%list = (ports tr ++ ports tr')%list.
Proof. apply omap_app. Qed.
Lemma saves_app thread tr tr' :
  saves thread (tr ++ tr')%list = (saves thread tr ++ saves thread tr')%list.
Proof. apply omap_app. Qed.

Definition is_interrupt {R} (o : AgentOp R) : bool :=
  match o with Interrupt _ _ => true | _ => false end.
Definition silent R (o : AgentOp R) : Prop := is_interrupt o = false.

(** A step that asks nothing is executed as it is. *)
Lemma tasks_silent {A} (m : AgentM A) answer thread :
  asks silent m ->
  wp (tasks answer m) (fun r tr => saves thread tr = [] /\
    match r with
    | Ok (inl a) => Exec m (ports tr) (Ret a)
    | Ok (inr _) => False
    | Raise e => Exec m (ports tr) (Throw e)
    end).
Proof.
  induction m as [a|e|R o k IH]; cbn [tasks]; intros Hm; [split; [done|apply exec_here]..|].
  destruct Hm as [Ho Hk]. assert (interrupt_of o = None) as -> by (by destruct o).
  cbn [wp]. intros r. eapply wp_mono; [|by apply IH]. intros out tr [Hs He]. split; [done|].
  destruct out as [[a|p]|e]; [|done|]; by apply (exec_await o).
Qed.

(** The steps the graph can be at, and how many at most follow before the next
    question or the end. *)
Definition distance_of (n : Node) : nat :=
  match n with
  | N_validate_change => 6
  | N_understand_request | N_explain_invalid_change => 5
  | N_get_reservation | N_refresh_context => 4
  | N_search_alternatives | N_get_travel_credits | N_execute_rebooking => 3
  | N_evaluate_options | N_verify_rebooking => 2
  | N_ask_confirmation | N_finalize_failed | N_finalize_declined => 1
  end.
Definition distance (active : list Node) : nat :=
  match active with [] => 0 | n :: _ => distance_of n end.
Definition reach (active : list Node) : bool :=
  match active with
  | [] | [N_search_alternatives; N_get_travel_credits] => true
  | [N_search_alternatives] | [N_get_travel_credits] => false
  | [_] => true
  | _ => false
  end.

Lemma next_reach n route active :
  n <> N_ask_confirmation -> reach [n] = true -> next n route = Ok active ->
  reach active = true /\ (distance active < distance [n])%nat.
Proof.
  intros Hn Hr. destruct n; try done; cbn; try (intros [= <-]; cbn; split; [done|lia]);
    cbn [choose mbind Res_bind]; repeat (destruct (_ =? _)%string; cbn [mbind Res_bind]);
    intros H; try discriminate H; injection H as <-; cbn; split; [done|lia|..]; done || lia.
Qed.

Section Simulation.
Context (model_validate : PyVal -> Res RebookingSelection).
Abbreviation run_nodes := (AgentGraph.run_nodes model_validate).
Abbreviation invoke := (AgentGraph.invoke model_validate graph).
Abbreviation invocation := (steps model_validate).

Lemma node_silent n s : n <> N_ask_confirmation -> asks silent (node_code model_validate n s).
Proof.
  intros Hn. destruct n; try done; cbn [node_code];
    unfold understand_request, get_reservation, search_alternatives, get_travel_credits,
      evaluate_options, validate_change, explain_invalid_change, execute_rebooking, verify_rebooking,
      fail, throw; cbv zeta; repeat asks_step; exact I || reflexivity.
Qed.

Lemma nodes_silent active s : N_ask_confirmation ∉ active -> asks silent (run_nodes active s).
Proof.
  induction active as [|n active IH]; cbn; intros Hn; [done|].
  apply asks_bind; [apply node_silent; set_solver|]. intros u.
  apply asks_bind; [apply IH; set_solver|done].
Qed.

(** ** One invocation against the graph *)

Definition question : string := "Select a rebooking option and confirm the change.".
(** The pause of a thread whose state is [s]. *)
Definition shows (s : AgentState) (p : Pause) : Prop :=
  evaluation s = Some (pa_evaluation p) /\ pa_message p = question.
(** The save keeps no question, or failed. *)
Definition quiet_save (save : Checkpoint * Res unit) : Prop :=
  ck_interrupts save.1 = [] \/ exists e, save.2 = Raise e.

(** The last save succeeded and keeps no question. *)
Definition settled (saved : list (Checkpoint * Res unit)) : Prop :=
  exists c, last saved = Some (c, Ok tt) /\ ck_interrupts c = [].

(** What an invocation of at most [limit] steps leaves of the graph run that
    had [F]: its end, or the question at which it was saved. *)
Definition leaves (limit F : nat) (r : Res (AgentState * list Pause))
    (saved : list (Checkpoint * Res unit)) (rest : AgentM AgentState) : Prop :=
  match r with
  | Ok (s, []) => rest = Ret s /\ (saved = [] \/ settled saved)
  | Ok (s, [p]) =>
      shows s p /\ last saved = Some (mkCheckpoint s [N_ask_confirmation] [p], Ok tt)
      /\ exists F', (F - limit <= F')%nat /\ rest = invoke (S F') [N_ask_confirmation] s
  | Ok _ => False
  | Raise e => Forall quiet_save saved /\ (rest = Throw e \/ exists c, (c, Raise e) ∈ saved)
  end.

Definition Simulates (thread : string) (limit : nat) (active : list Node) (s : AgentState)
    (before : Trace AgentOp) (r : Res (AgentState * list Pause)) (tr : Trace ThreadOp) : Prop :=
  forall F, (limit <= F)%nat -> exists rest,
    Exec (invoke F active s) (before ++ ports tr)%list rest /\ leaves limit F r (saves thread tr) rest.

Lemma leaves_later limit F c r saved rest :
  ck_interrupts c = [] -> leaves limit F r saved rest ->
  leaves (S limit) (S F) r ((c, Ok tt) :: saved) rest.
Proof.
  intros Hc. assert (quiet_save (c, Ok tt)) by by left.
  destruct r as [[s [|p [|]]]|e]; cbn; [| |done|].
  - intros [-> [->|(c' & Hl & Hc')]]; (split; [done|]); right; [by exists c|].
    exists c'. by rewrite last_cons, Hl.
  - intros (Hs & Hl & HF). split; [done|]. split; [|exact HF]. by destruct saved.
  - intros [Hs He]. split; [by constructor|]. destruct He as [->|[c' Hc']]; [by left|right].
    exists c'. by right.
Qed.

(** What follows the nodes of a step. *)
Definition finish (F : nat) (active : list Node) (s : AgentState) (m : AgentM AgentState) :
    AgentM AgentState :=
  '(active', s') ← (u ← m; targets ← of_res (successors graph active (merge s u));
                    mret (nodes_of targets, merge s u));
  invoke F active' s'.

Lemma exec_step F active s tr m : active <> [] ->
  Exec (run_nodes active s) tr m -> Exec (invoke (S F) active s) tr (finish F active s m).
Proof. destruct active; [done|]. intros _ He. by apply exec_bind, exec_bind. Qed.

Lemma finish_ret F active s u : finish F active s (Ret u) =
  match successors graph active (merge s u) with
  | Ok ts => invoke F (nodes_of ts) (merge s u)
  | Raise e => Throw e
  end.
Proof.
  unfold finish, mbind, Prog_bind. cbn [prog_bind].
  by destruct (successors graph active (merge s u)).
Qed.

(** A step that does not pause, and what follows. *)
Lemma step_simulates thread limit active s answer before :
  active <> [] ->
  wp (tasks answer (run_nodes active s)) (fun r tr => saves thread tr = [] /\
    match r with
    | Ok (inl u) => Exec (run_nodes active s) (before ++ ports tr)%list (Ret u)
    | Ok (inr _) => False
    | Raise e => Exec (run_nodes active s) (before ++ ports tr)%list (Throw e)
    end) ->
  (forall u ts, successors graph active (merge s u) = Ok ts ->
     wp (invocation limit thread (nodes_of ts) (merge s u) None)
        (Simulates thread limit (nodes_of ts) (merge s u) [])) ->
  wp (invocation (S limit) thread active s answer) (Simulates thread (S limit) active s before).
Proof.
  intros Hne Hstep Hnext. destruct active as [|n active]; [done|]. cbn [AgentThreads.steps].
  apply wp_bind. eapply wp_mono; [|exact Hstep].
  intros [[u|p]|e] tr [Hsaves He]; [|done|]; cycle 1.
  { intros [|F] HF; [lia|]. apply (exec_step F) in He; [|done]. exists (Throw e). rewrite Hsaves.
    split; [exact He|split; [constructor|by left]]. }
  cbv zeta. specialize (Hnext u).
  destruct (successors graph (n :: active) (merge s u)) as [ts|e] eqn:Hts; cycle 1.
  { intros [|F] HF; [lia|]. apply (exec_step F) in He; [|done]. rewrite finish_ret, Hts in He.
    exists (Throw e). rewrite app_nil_r, Hsaves. split; [exact He|split; [constructor|by left]]. }
  apply wp_bind, wp_bind. intros [[]|e]; cbn [of_res wp].
  - eapply wp_mono; [|by apply Hnext]. intros r tr' Hsim [|F] HF; [lia|].
    apply (exec_step F) in He; [|done]. rewrite finish_ret, Hts in He.
    destruct (Hsim F ltac:(lia)) as (rest & Hrest & Hl).
    exists rest. rewrite !ports_app, !saves_app, Hsaves. cbn. rewrite String.eqb_refl. cbn.
    split; [|by apply leaves_later]. rewrite app_assoc. by eapply exec_trans.
  - intros [|F] HF; [lia|]. apply (exec_step F) in He; [|done]. eexists.
    rewrite !ports_app, !saves_app, Hsaves. cbn. rewrite String.eqb_refl. cbn. rewrite !app_nil_r.
    split; [exact He|]. split; [by repeat constructor; right; eauto|]. right. eexists. by left.
Qed.

Lemma successors_reach active s ts :
  reach active = true -> active <> [N_ask_confirmation] -> successors graph active s = Ok ts ->
  reach (nodes_of ts) = true /\ (active = [] \/ distance (nodes_of ts) < distance active)%nat.
Proof.
  intros Hr Ha Hts. destruct active as [|n [|n' active]].
  - injection Hts as <-. by split; [|left].
  - pose proof (successors_next n s) as Hn. rewrite Hts in Hn. cbn in Hn.
    destruct (next_reach n (route s) (nodes_of ts)) as [? ?]; [congruence|done..|]. by split; [|right].
  - destruct n; try done; destruct n', active; try done.
    rewrite graph_joins in Hts. injection Hts as <-. split; [done|right; cbn; lia].
Qed.

Lemma reach_silent active s : reach active = true -> active <> [N_ask_confirmation] ->
  asks silent (run_nodes active s).
Proof.
  intros Hr Ha. apply nodes_silent. destruct active as [|n [|n' active]]; [set_solver| |].
  - intros Hin. apply list_elem_of_singleton in Hin as <-. done.
  - destruct n; try done; destruct n', active; try done. set_solver.
Qed.

(** An invocation that goes on from any reachable step follows the graph to
    the next question or to the end. *)
Lemma steps_simulate thread limit active s :
  reach active = true -> (distance active <= limit)%nat ->
  wp (invocation limit thread active s None) (Simulates thread limit active s []).
Proof.
  revert active s. induction limit as [|limit IH]; intros active s Hr Hk.
  - destruct active as [|n active]; [|destruct n; cbn in Hk; lia].
    intros F _. exists (Ret s). split; [destruct F; apply exec_here|by split; [|left]].
  - destruct (decide (active = [N_ask_confirmation])) as [->|Ha].
    + cbn [AgentThreads.steps AgentGraph.run_nodes node_code]. unfold ask_confirmation.
      destruct (evaluation s) as [ev|] eqn:He; cbn -[invoke successors].
      * intros [[]|e]; intros F HF; unfold saves; cbn -[invoke]; rewrite String.eqb_refl; cbn -[invoke].
        -- exists (invoke F [N_ask_confirmation] s). split; [apply exec_here|].
           split; [by split|]. split; [done|]. destruct F as [|F]; [lia|]. exists F. split; [lia|done].
        -- eexists. split; [apply exec_here|]. split; [constructor; [right; by exists e|constructor]|].
           right. eexists. by left.
      * intros [|F] HF; [lia|]. exists (Throw (mkExn ValueError "confirmation requires an evaluation")).
        split; [|by split; [constructor|left]].
        pose proof (exec_step F [N_ask_confirmation] s [] _ ltac:(done) (exec_here _)) as Hx.
        cbn [AgentGraph.run_nodes node_code] in Hx. unfold ask_confirmation in Hx. by rewrite He in Hx.
    + destruct active as [|n active].
      { intros F _. exists (Ret s). split; [destruct F; apply exec_here|by split; [|left]]. }
      apply step_simulates; [done| |].
      * by apply tasks_silent, reach_silent.
      * intros u ts Hts. destruct (successors_reach _ _ _ Hr Ha Hts) as [Hr' [|Hlt]]; [done|]. apply IH; [done|lia].
Qed.

(** Answering the question of a paused step. *)
Lemma resume_simulates thread limit s p answer :
  shows s p -> (7 <= limit)%nat ->
  wp (invocation limit thread [N_ask_confirmation] s (Some answer))
    (Simulates thread limit [N_ask_confirmation] s
       [Ev (Interrupt (pa_message p) (pa_evaluation p)) (Ok answer)]).
Proof.
  intros [He Hm] Hl. destruct limit as [|limit]; [lia|]. apply step_simulates; [done| |].
  - cbn [AgentGraph.run_nodes node_code]. unfold ask_confirmation. rewrite He, Hm.
    cbn -[isinstance parse_confirmation]. destruct (parse_confirmation _ _ _) as [c|e] eqn:Hp;
      [|destruct (isinstance e TypeError || isinstance e ValueError) eqn:Hv];
      cbn -[isinstance parse_confirmation]; split; try done; apply exec_await;
      cbn -[isinstance parse_confirmation]; rewrite Hp, ?Hv; apply exec_here.
  - intros u ts Hts. pose proof (successors_next N_ask_confirmation (merge s u)) as Hn.
    rewrite Hts in Hn. injection Hn as Hn. rewrite Hn. apply steps_simulate; [done|cbn; lia].
Qed.

(** An invocation that ends has saved a checkpoint. *)
Lemma steps_save thread limit n active s answer :
  wp (invocation (S limit) thread (n :: active) s answer)
    (fun r tr => forall s', r = Ok (s', []) -> saves thread tr <> []).
Proof.
  cbn [AgentThreads.steps]. apply wp_bind. eapply wp_mono; [|apply wp_true].
  intros [[u|p]|e] tr _; [| |done]; cbv zeta.
  - apply wp_bind. destruct (successors graph (n :: active) (merge s u)) as [ts|e]; [|done].
    cbn [of_res wp]. apply wp_bind. intros [[]|e]; [|done]. cbn [of_res wp].
    eapply wp_mono; [|apply wp_true]. intros r tr' _ s' _.
    rewrite !saves_app. cbn. rewrite String.eqb_refl. by destruct (saves thread tr).
  - apply wp_bind. intros [[]|e]; [|done]. cbn [of_res wp]. by intros s' [=].
Qed.

(** An invocation only touches its own thread, and asks no port for an answer. *)
Definition own (thread : string) R (op : ThreadOp R) : Prop :=
  match op with
  | Port o => is_interrupt o = false
  | LoadCheckpoint t | SaveCheckpoint t _ => t = thread
  end.

Lemma tasks_own {A} thread (m : AgentM A) answer : asks (own thread) (tasks answer m).
Proof.
  revert answer. induction m as [a|e|R o k IH]; intros answer; cbn [tasks]; [done..|].
  destruct (interrupt_of o) as [[p out]|] eqn:Ho; [destruct answer; [apply IH|done]|].
  split; [by destruct o|]. intros r. apply IH.
Qed.

Lemma steps_own thread limit active s answer : asks (own thread) (invocation limit thread active s answer).
Proof.
  revert active s answer. induction limit as [|limit IH]; intros [|n active] s answer; try done.
  cbn [AgentThreads.steps]. apply asks_bind; [apply tasks_own|]. intros [u|p]; cbv zeta.
  - apply asks_bind; [apply asks_of_res|]. intros ts.
    apply asks_bind; [by apply asks_await|]. intros _. apply IH.
  - by apply asks_bind; [apply asks_await|].
Qed.

(** C7: pausing is invisible: resuming a paused thread with an answer does
    what the uninterrupted graph run does from that [interrupt] on when it
    returns the answer: the ports see the same operations with the same
    outcomes, up to the next question, whose state and place are the ones saved,
    or to the same result or exception (or to a failed save), within seven
    steps.  So a thread's history over all its calls is one run of the graph. *)
Theorem resuming_continues thread limit s p answer :
  shows s p -> (7 <= limit)%nat ->
  wp (invocation limit thread [N_ask_confirmation] s (Some answer))
    (Simulates thread limit [N_ask_confirmation] s
       [Ev (Interrupt (pa_message p) (pa_evaluation p)) (Ok answer)]).
Proof. apply resume_simulates. Qed.
End Simulation.
