(* ===== verification/AgentSession.v ===== *)
(** What the runner does in one call on a thread: [app/agent/runner.py].

    [Pending c h] says that checkpoint [c] waits for the answer of a question,
    and that [h] is what its thread did since the message that led to it.
    [run_outcome] and [resume_outcome] are the contracts of the two methods of
    the runner, whatever its ports and the checkpointer answer: a message ends
    with a question or an exception and executes nothing; an answer executes at
    most the selection it confirms, of the offer it answers. *)
From Stdlib Require Import String.
From stdpp Require Import base numbers strings list sets.
From S2P Require Import Prelude Models PyVal Effects AgentState AgentNodes AgentGraph AgentProperties AgentSafety AgentThreads.
Local Open Scope string_scope.

Definition unasked (steps : list AgentStep) : Prop := Forall (fun st => is_question st = false) steps.

Lemma own_unasked thread tr : Forall (meets (own thread)) tr -> unasked (steps_of (ports tr)).
Proof.
  induction 1 as [|[R op r] tr Hop _ IH]; [constructor|]. destruct op as [R o| |]; cbn; [|done..].
  constructor; [by destruct o|exact IH].
Qed.

(** Two readings of a trace agree on its last question. *)
Lemma last_question pre pre' st st' post post' :
  is_question st = true -> is_question st' = true -> unasked post -> unasked post' ->
  (pre ++ st :: post = pre' ++ st' :: post')%list -> pre = pre' /\ st = st' /\ post = post'.
Proof.
  intros Hst Hst' Hp Hp' Heq. revert pre' Heq. induction pre as [|x pre IH]; intros [|x' pre'] Heq;
    cbn in Heq; injection Heq as <- Heq.
  - done.
  - subst post. apply Forall_app in Hp as [_ Hp]. apply Forall_cons in Hp as [Hq _]. congruence.
  - subst post'. apply Forall_app in Hp' as [_ Hp']. apply Forall_cons in Hp' as [Hq _]. congruence.
  - destruct (IH _ Heq) as (-> & -> & ->). done.
Qed.

Section Session.
Context (model_validate : PyVal -> Res RebookingSelection).
Context (validate_raises : forall v e, model_validate v = Raise e -> isinstance e ValueError = true).
Context (limit : nat) (limit_ok : (7 <= limit)%nat) (max_retries : Z).
Abbreviation Turn := (AgentProperties.Turn model_validate).
Abbreviation invoke := (AgentGraph.invoke model_validate graph).

(** The answer confirms this selection. *)
Definition confirms (answer : PyVal) (sel : RebookingSelection) : Prop :=
  exists d, answer = PDict d /\ truthy (get d "confirmed") = true
    /\ truthy (get d "selection") = true /\ model_validate (get d "selection") = Ok sel.

(** The answer confirms nothing. *)
Definition declines (answer : PyVal) : Prop :=
  exists d, answer = PDict d /\ truthy (get d "confirmed") = false.

Lemma declines_confirms answer sel : declines answer -> ~ confirms answer sel.
Proof using Type. intros (d & -> & H) (d' & [= <-] & H' & _). congruence. Qed.

Record Pending (c : Checkpoint) (h : list AgentStep) (p : Pause) : Prop := {
  pd_interrupts : ck_interrupts c = [p];
  pd_next : ck_next c = [N_ask_confirmation];
  pd_shows : shows (ck_values c) p;
  pd_history : exists saved message tr, h = steps_of tr /\
    forall G, exists F F', (enough_fuel max_retries saved <= F)%nat /\ (G <= F')%nat
      /\ Exec (runner_run model_validate F max_retries saved message) tr
              (invoke (S F') [N_ask_confirmation] (ck_values c)) }.

(** ** The questions of a turn and their answers *)

Abbreviation Rounds := (AgentProperties.Rounds model_validate).

Lemma round_question cx r post : exists loads, unasked loads /\
  (round_steps cx r ++ post = loads ++ Asked (offer cx r) (Ok (AgentProperties.answer r)) :: post)%list.
Proof using Type. eexists [_; _; _]. split; cycle 1; [reflexivity|by repeat constructor]. Qed.

Lemma decided_confirms r sel : decided model_validate r true (Some sel) ->
  confirms (AgentProperties.answer r) sel.
Proof using Type. intros (d & Ha & Hc & Hs). by exists d. Qed.

Lemma decided_declines r sel : decided model_validate r false sel -> declines (AgentProperties.answer r).
Proof using Type. intros (d & Ha & Hc & _). by exists d. Qed.

Lemma ended_unasked sel v tail f : Ended sel v tail f -> unasked tail.
Proof using Type. by destruct 1; repeat constructor. Qed.

Lemma refused_no_question r sel steps reason : Refused r sel steps reason -> unasked steps.
Proof using Type. by destruct 1; repeat constructor. Qed.

(** The question of a round, or a later one. *)
Lemma round_cut cx r post h o a b :
  (round_steps cx r ++ post = h ++ Asked o a :: b)%list ->
  (a = Ok (AgentProperties.answer r) /\ b = post) \/ exists h', post = (h' ++ Asked o a :: b)%list.
Proof using Type.
  destruct (round_question cx r post) as (loads & Hq & ->). intros Heq.
  apply (cut_after is_question) in Heq as ([|st h'] & -> & Heq); [| |done|done].
  - left. injection Heq as _ Ha Hb. by subst.
  - right. injection Heq as _ Hb. exists h'. exact Hb.
Qed.

(** A turn that ends was ended by the answer to its last question. *)
Definition ends_with (f : FinalResult) (answer : PyVal) : Prop :=
  (fr_status f = FS_declined /\ declines answer) \/
  (fr_status f <> FS_declined /\ exists sel, confirms answer sel).

Lemma rounds_answered cx count steps f : Rounds cx max_retries count steps (Ok (Some f)) ->
  exists pre o answer post, steps = (pre ++ Asked o (Ok answer) :: post)%list /\ unasked post /\ ends_with f answer.
Proof using Type.
  intros Hr. remember (Ok (Some f)) as out eqn:Ho. revert Ho.
  assert (forall cx r post, unasked post -> ends_with f (AgentProperties.answer r) ->
    exists pre o answer post', (round_steps cx r ++ post = pre ++ Asked o (Ok answer) :: post')%list
      /\ unasked post' /\ ends_with f answer) as Hlast.
  { intros cx' r post Hp He. destruct (round_question cx' r post) as (loads & _ & ->). by do 4 eexists. }
  induction Hr as [| count r sel _ Hd|count r sel steps reason rest out _ _ _ _ _ IH
                 |count r sel steps reason _ Hd Href _|count r sel v steps out _ Hd _ He]; intros Ho; try discriminate Ho.
  - injection Ho as <-. rewrite <- (app_nil_r (round_steps cx r)). apply Hlast; [constructor|].
    left. split; [done|by eapply decided_declines].
  - destruct (IH Ho) as (pre & o & a & post & -> & Hp & He).
    exists (round_steps cx r ++ steps ++ pre)%list, o, a, post. by rewrite <- !app_assoc.
  - injection Ho as <-. apply Hlast; [by eapply refused_no_question|]. right.
    split; [done|]. exists sel. by apply decided_confirms.
  - injection Ho as <-. apply Hlast; [constructor; [done|by eapply ended_unasked]|]. right.
    split; [by destruct He|]. exists sel. by apply decided_confirms.
Qed.

Lemma turn_answered message count steps f : Turn message max_retries count steps (Ok (Some f)) ->
  exists pre o answer post, steps = (pre ++ Asked o (Ok answer) :: post)%list /\ unasked post /\ ends_with f answer.
Proof using Type.
  intros Ht. inversion Ht as [|rq res steps' out _ _ _ Hr]; subst.
  destruct (rounds_answered _ _ _ _ Hr) as (pre & o & a & post & -> & Hp & He).
  by exists (Understood (py_strip message) (Ok rq) :: Fetched (rq_booking_reference rq) (Ok res) :: pre)%list, o, a, post.
Qed.

(** An answer that a further question follows confirmed a selection that was
    refused. *)
Lemma rounds_reasked cx count steps out : Rounds cx max_retries count steps out -> forall h o answer b,
  steps = (h ++ Asked o (Ok answer) :: b)%list -> ~ unasked b -> exists sel, confirms answer sel.
Proof using Type.
  assert (forall l h o a b, unasked l -> l <> (h ++ Asked o a :: b)%list) as Hno.
  { intros l h o a b Hl ->. apply Forall_app in Hl as [_ Hl]. by apply Forall_cons in Hl as [? _]. }
  induction 1 as [count steps e [_ Hq] _|count r sel _ Hd|count r sel steps reason rest out _ Hd Href _ _ IH
                 |count r sel steps reason _ Hd Href _|count r sel v steps out _ Hd _ He]; intros h o a b Heq Hb.
  - exfalso. apply Hb. subst. rewrite List.filter_app, length_app in Hq. cbn in Hq.
    apply Forall_forall. intros st Hin. apply not_true_iff_false. intros Hst.
    assert (In st (List.filter is_question b)) as Hf by (apply List.filter_In; by rewrite <- list_elem_of_In).
    destruct (List.filter is_question b); [done|cbn in Hq; clear -Hq; lia].
  - rewrite <- (app_nil_r (round_steps cx r)) in Heq. apply round_cut in Heq as [[_ ->]|[h' Heq]].
    + destruct Hb. constructor.
    + apply Hno in Heq; [done|constructor].
  - apply round_cut in Heq as [[[= ->] _]|[h' Heq]]; [exists sel; by apply decided_confirms|].
    apply (cut_after is_question) in Heq as (h'' & _ & ->); [|by eapply refused_no_question|done].
    by eapply IH.
  - apply round_cut in Heq as [[[= ->] _]|[h' Heq]]; [exists sel; by apply decided_confirms|].
    apply Hno in Heq; [done|by eapply refused_no_question].
  - apply round_cut in Heq as [[[= ->] _]|[h' Heq]]; [exists sel; by apply decided_confirms|].
    apply Hno in Heq; [done|]. constructor; [done|by eapply ended_unasked].
Qed.

Lemma turn_reasked message count h o answer b out :
  Turn message max_retries count (h ++ Asked o (Ok answer) :: b)%list out -> ~ unasked b ->
  exists sel, confirms answer sel.
Proof using Type.
  intros Ht Hb. inversion Ht as [steps e Hq _|rq res steps out' _ _ _ Hr Heq]; subst.
  - apply Forall_app in Hq as [_ Hq]. by apply Forall_cons in Hq as [? _].
  - apply (cut_after is_question [_; _]) in Heq as (h' & -> & ->); [|by repeat constructor|done].
    by eapply rounds_reasked.
Qed.

(** ** Partial runs of the graph *)

Lemma turn_asks message count steps o :
  Turn message max_retries count steps (Ok o) -> ~ unasked steps.
Proof.
  intros Ht Hq. inversion Ht as [|rq res steps' out _ _ _ Hr]; subst.
  apply Forall_cons in Hq as [_ Hq]. apply Forall_cons in Hq as [_ Hq].
  assert (forall cx r more, ~ unasked (round_steps cx r ++ more)%list) as Hround.
  { intros cx r more Hm. do 4 apply Forall_cons in Hm as [? Hm]. discriminate. }
  inversion Hr; subst; eapply Hround; first [exact Hq|rewrite app_nil_r; exact Hq].
Qed.

(** What a partial run has done so far is the beginning of a turn. *)
Lemma exec_turn F saved message tr rest : (enough_fuel max_retries saved <= F)%nat ->
  Exec (runner_run model_validate F max_retries saved message) tr rest ->
  wp rest (fun out tr' => Turn message max_retries (default 0%Z (retry_count saved))
                            (steps_of tr ++ steps_of tr')%list (final_of out)).
Proof using validate_raises.
  intros HF He. eapply wp_mono; [|eapply wp_exec; [exact He|by apply run_turn]].
  intros out tr'. cbn. by rewrite steps_of_app.
Qed.

(** The first execution of a turn is justified by what precedes it. *)
Lemma turn_first message count out pre st post :
  Turn message max_retries count (pre ++ st :: post)%list out -> is_execution st = true ->
  unexecuted pre -> exists cx sel x, st = Executed sel x /\ justified model_validate cx sel pre post.
Proof.
  intros Ht Hst Hpre. apply turn_end in Ht as [[Hq _]|(cx & sel & tail & f & Hc & _)].
  { apply Forall_app in Hq as [_ Hq]. apply Forall_cons in Hq as [Hq _]. congruence. }
  remember (pre ++ st :: post)%list as steps eqn:Heq. destruct Hc as [before r v Hb Hr Hd Hf He].
  apply (cut_after is_execution) in Heq as (pre1 & -> & Heq); [|done|done].
  apply (cut_after is_execution) in Heq as (pre2 & -> & Heq); [|apply round_steps_quiet|done].
  destruct pre2 as [|st' pre2]; [injection Heq as <- _; discriminate|]. injection Heq as <- Heq.
  exists cx, sel. destruct He; destruct pre2 as [|? pre2]; cbn in Heq; injection Heq as <- Heq;
    try (apply Forall_app in Hpre as [_ Hpre]; apply Forall_app in Hpre as [_ Hpre];
         apply Forall_cons in Hpre as [_ Hpre]; apply Forall_cons in Hpre as [? _]; discriminate).
  all: eexists; split; [reflexivity|]; exists before, r, v; split_and!; eauto.
Qed.

Lemma first_execution steps : unexecuted steps \/
  exists pre st post, steps = (pre ++ st :: post)%list /\ is_execution st = true /\ unexecuted pre.
Proof.
  induction steps as [|st steps IH]; [by left; constructor|].
  destruct (is_execution st) eqn:Hst; [right; exists [], st, steps; split_and!; [done..|constructor]|].
  destruct IH as [IH|(pre & st' & post & -> & Hst' & Hpre)]; [left; by constructor|].
  right. exists (st :: pre), st', post. split_and!; [done..|by constructor].
Qed.

(** A partial run that waits for an answer asks next. *)
Lemma exec_asks F F' saved message tr s p : (enough_fuel max_retries saved <= F)%nat ->
  Exec (runner_run model_validate F max_retries saved message) tr
    (invoke (S F') [N_ask_confirmation] s) -> shows s p ->
  exists e, Turn message max_retries (default 0%Z (retry_count saved))
    (steps_of tr ++ [Asked (pa_evaluation p) (Raise e)])%list (Raise e).
Proof using validate_raises.
  intros HF He [Hev _]. pose proof (exec_turn _ _ _ _ _ HF He) as Ht.
  cbn [AgentGraph.invoke] in Ht. unfold superstep in Ht. cbn [run_nodes node_code] in Ht.
  unfold ask_confirmation in Ht. rewrite Hev in Ht. cbn -[parse_confirmation isinstance] in Ht.
  eexists. exact (Ht (raise InfraError "")).
Qed.

(** So it has executed nothing. *)
Lemma exec_paused F F' saved message tr s p : (enough_fuel max_retries saved <= F)%nat ->
  Exec (runner_run model_validate F max_retries saved message) tr
    (invoke (S F') [N_ask_confirmation] s) -> shows s p -> unexecuted (steps_of tr).
Proof using validate_raises.
  intros HF He Hs. destruct (exec_asks _ _ _ _ _ _ _ HF He Hs) as [e Ht].
  apply turn_end in Ht as [[Hq _]|(? & ? & ? & ? & _ & [=])]. by apply Forall_app in Hq as [? _].
Qed.

Lemma exec_began F saved message tr rest :
  (enough_fuel max_retries saved <= F)%nat ->
  Exec (runner_run model_validate F max_retries saved message) tr rest ->
  unexecuted (steps_of tr) \/
  exists cx pre sel x post more, steps_of tr = (pre ++ Executed sel x :: post)%list /\ unexecuted pre
    /\ justified model_validate cx sel pre (post ++ more)%list.
Proof using validate_raises.
  intros HF He. destruct (first_execution (steps_of tr)) as [|(pre & st & post & Heq & Hst & Hpre)];
    [by left|right].
  destruct (wp_exists _ _ (exec_turn _ _ _ _ _ HF He)) as (out & tr' & Ht).
  rewrite Heq, <- app_assoc in Ht. cbn [app] in Ht.
  destruct (turn_first _ _ _ _ _ _ Ht Hst Hpre) as (cx & sel & x & -> & Hj).
  by exists cx, pre, sel, x, post, (steps_of tr').
Qed.

Lemma justified_asks cx sel pre post : justified model_validate cx sel pre post -> ~ unasked pre.
Proof.
  intros (before & r & v & -> & _) Hq. apply Forall_app in Hq as [_ Hq].
  do 4 apply Forall_cons in Hq as [? Hq]. discriminate.
Qed.

(** * A message *)

Lemma run_outcome user_id session_id message :
  wp (agent_run model_validate limit max_retries user_id session_id message) (fun r tr =>
    let h := steps_of (ports tr) in
    let saved := saves (thread_id user_id session_id) tr in
    unexecuted h /\
    match r with
    | Ok (_, [p]) => exists c, last saved = Some (c, Ok tt) /\ Pending c h p
    | Ok _ => False
    | Raise _ => Forall quiet_save saved
    end).
Proof using validate_raises limit_ok.
  unfold agent_run. set (thread := thread_id _ _). cbv zeta.
  destruct (py_strip message =? "") eqn:Hm; [by repeat split; constructor|].
  apply wp_bind. intros [saved|e]; cbn [of_res wp]; [|by repeat split; constructor].
  apply wp_bind. intros [[]|e]; cbn [of_res wp]; cycle 1.
  { unfold saves. cbn. rewrite String.eqb_refl. split; [constructor|].
    constructor; [by left|constructor]. }
  set (values := ck_values (default new_thread saved)). set (s0 := merge values _).
  eapply wp_mono; [|apply (wp_asks (own thread));
    [apply steps_own|apply (steps_simulate model_validate thread limit [g_entry graph] s0); [done|cbn; lia]]].
  intros r tr [Hsim Hown]. apply own_unasked in Hown. unfold Simulates in Hsim. cbn [app] in Hsim.
  assert (forall F, runner_run model_validate F max_retries values message = invoke F [g_entry graph] s0)
    as Hrun by (intros F; unfold runner_run; by rewrite Hm).
  set (F0 := Nat.max limit (enough_fuel max_retries values)).
  assert (enough_fuel max_retries values <= F0)%nat as HF0 by lia.
  destruct (Hsim F0 ltac:(lia)) as (rest & He & Hl). rewrite <- Hrun in He.
  assert (saves thread (Ev (LoadCheckpoint thread) (Ok saved)
    :: Ev (SaveCheckpoint thread (mkCheckpoint s0 [g_entry graph] [])) (Ok tt) :: tr)
    = (mkCheckpoint s0 [g_entry graph] [], Ok tt) :: saves thread tr) as Hsaves
    by (unfold saves; cbn; by rewrite String.eqb_refl).
  cbn [app]. rewrite Hsaves. change (ports (_ :: _ :: tr)) with (ports tr).
  split.
  { destruct (exec_began F0 _ _ _ _ HF0 He) as [|(cx & pre & sel & x & post & more & Heq & _ & Hj)]; [done|].
    apply justified_asks in Hj as []. rewrite Heq in Hown. by apply Forall_app in Hown as [? _]. }
  destruct r as [[s [|p [|]]]|e]; cbn in Hl; [| |done|].
  - destruct Hl as [-> _]. pose proof (exec_turn F0 _ _ _ _ HF0 He) as Ht. cbn in Ht.
    rewrite app_nil_r in Ht. by apply turn_asks in Ht.
  - destruct Hl as (Hshow & Hlast & _). eexists. split; [by rewrite last_cons, Hlast|].
    split; [done..|]. exists values, message, (ports tr). split; [done|]. intros G.
    destruct (Hsim (F0 + G + limit)%nat ltac:(lia)) as (rest' & He' & _ & _ & F' & HF' & ->).
    exists (F0 + G + limit)%nat, F'. split; [lia|]. split; [lia|]. by rewrite Hrun.
  - destruct Hl as [Hq _]. constructor; [by left|done].
Qed.

(** * An answer *)

(** What an answer to [p] may do: nothing to the airline's data, or the one
    validation, execution and verification of the selection it confirms, which
    [p] offered. *)
Inductive Carries (p : Pause) (answer : PyVal) : list AgentStep -> Prop :=
  | carries_nothing n : unexecuted n -> Carries p answer n
  | carries_out sel v x post :
      confirms answer sel -> offered sel (pa_evaluation p) = true ->
      post = [] \/ (exists y, post = [Verified sel y]) ->
      Carries p answer (Validated sel (Ok (VResult v)) :: Executed sel x :: post).

(** How the turn ends that this answer ends. *)
Inductive Closes (p : Pause) (answer : PyVal) : list AgentStep -> FinalResult -> Prop :=
  | closes_declined n f :
      unexecuted n -> fr_status f = FS_declined -> declines answer -> Closes p answer n f
  | closes_refused n f sel :
      unexecuted n -> fr_status f = FS_failed -> confirms answer sel -> Closes p answer n f
  | closes_after sel v tail f :
      confirms answer sel -> offered sel (pa_evaluation p) = true -> Ended sel v tail f ->
      Closes p answer (Validated sel (Ok (VResult v)) :: tail) f.

Lemma closed message count h p answer n out : unasked n ->
  Turn message max_retries count (h ++ Asked (pa_evaluation p) (Ok answer) :: n)%list (Ok out) ->
  exists f, out = Some f /\ Closes p answer n f.
Proof.
  intros Hq Ht. pose proof (turn_end _ _ _ _ _ _ Ht) as [[Hu (f & -> & _ & _ & Hf)]|(cx & sel & tail & f & Hc & [= ->])];
    exists f; (split; [done|]).
  - apply Forall_app in Hu as [_ Hu]. apply Forall_cons in Hu as [_ Hu].
    apply turn_answered in Ht as (pre & o & a & post & Heq & Hp & He).
    apply last_question in Heq as (_ & [= _ <-] & _); [|done..].
    destruct He as [[Hs Hd]|[Hs [sel Hs']]]; [by apply closes_declined|].
    apply (closes_refused _ _ _ _ sel); [done| |done]. by destruct Hf.
  - remember (h ++ _)%list as whole eqn:Heq. destruct Hc as [before r v _ Hr Hd [_ Hon] He].
    destruct (round_question cx r (Validated sel (Ok (VResult v)) :: tail)) as (loads & _ & Hround).
    rewrite Hround, app_assoc in Heq.
    apply last_question in Heq as (_ & [= Hoff <-] & <-);
      [|done|done|constructor; [done|by eapply ended_unasked]|done].
    apply closes_after; [by apply decided_confirms| |done]. rewrite <- Hoff. by apply (offered_iff cx).
Qed.

(** Pending questions have executed nothing yet. *)
Lemma pending_unexecuted c h p : Pending c h p -> unexecuted h.
Proof using validate_raises.
  intros [_ _ Hs (saved & message & tr & -> & Hex)]. destruct (Hex 0%nat) as (F & F' & HF & _ & He).
  by eapply exec_paused.
Qed.

Lemma carried F saved message tr0 tr p answer rest cx n :
  n = steps_of (ports tr) -> unasked n -> unexecuted (steps_of tr0) ->
  (enough_fuel max_retries saved <= F)%nat ->
  Exec (runner_run model_validate F max_retries saved message)
    (tr0 ++ Ev (Interrupt cx (pa_evaluation p)) (Ok answer) :: ports tr)%list rest ->
  Carries p answer n.
Proof using validate_raises.
  intros -> Hq Hh HF He.
  assert (steps_of (tr0 ++ Ev (Interrupt cx (pa_evaluation p)) (Ok answer) :: ports tr)
    = (steps_of tr0 ++ Asked (pa_evaluation p) (Ok answer) :: steps_of (ports tr))%list) as Hsteps
    by apply steps_of_app.
  destruct (exec_began _ _ _ _ _ HF He) as [Hu|(cx' & pre & sel & x & post & more & Heq & _ & Hj)];
    rewrite Hsteps in *.
  - apply carries_nothing. apply Forall_app in Hu as [_ Hu]. by apply Forall_cons in Hu as [_ Hu].
  - apply (cut_after is_execution) in Heq as (pre1 & -> & Heq); [|done|done].
    destruct pre1 as [|st pre1]; [discriminate Heq|]. injection Heq as <- Heq.
    destruct Hj as (before & r & v & Hpre & _ & Hr & Hd & Hf & Hpost).
    change (steps_of (ports tr) = (pre1 ++ Executed sel x :: post)%list) in Heq.
    rewrite Heq in Hq |- *. assert (unasked pre1) as Hq1 by (by apply Forall_app in Hq as [? _]).
    destruct (round_question cx' r [Validated sel (Ok (VResult v))]) as (loads & _ & Hround).
    rewrite Hround, app_assoc in Hpre.
    apply last_question in Hpre as (_ & [= Hoff Hans] & ->); [|done|done|done|by repeat constructor].
    cbn [app]. apply carries_out.
    + rewrite Hans. by apply decided_confirms.
    + rewrite Hoff. apply (offered_iff cx'), Hf.
    + destruct post as [|st post]; [by left|right].
      destruct Hpost as [[=]|[y Hy]]. injection Hy as -> Hy. apply app_eq_nil in Hy as [-> _]. eauto.
Qed.

Lemma resume_outcome thread c h p answer :
  Pending c h p ->
  wp (steps model_validate limit thread (ck_next c) (ck_values c) (Some answer)) (fun r tr =>
    let n := steps_of (ports tr) in
    let h' := (h ++ Asked (pa_evaluation p) (Ok answer) :: n)%list in
    let saved := saves thread tr in
    Carries p answer n /\
    match r with
    | Ok (s, []) => (exists f, final s = Some f /\ Closes p answer n f) /\ settled saved
    | Ok (_, [p']) => unexecuted n /\ (exists sel, confirms answer sel) /\ exists c', last saved = Some (c', Ok tt) /\ Pending c' h' p'
    | Ok _ => False
    | Raise e => Forall quiet_save saved /\ (unexecuted n \/ exists c, (c, Raise e) ∈ saved)
    end).
Proof using validate_raises limit_ok.
  intros Hp. pose proof (pending_unexecuted _ _ _ Hp) as Hh.
  destruct Hp as [_ Hnext Hs (values & message & tr0 & -> & Hex)]. rewrite Hnext. cbv zeta.
  assert (exists limit', limit = S limit') as [limit' Hlimit] by (destruct limit; [lia|eauto]).
  eapply wp_mono; [|apply (wp_asks (own thread)); [apply steps_own|]; apply wp_and;
    [by apply (resume_simulates _ _ _ _ p)|rewrite Hlimit; apply steps_save]].
  intros r tr [[Hsim Hsave] Hown]. apply own_unasked in Hown. unfold Simulates in Hsim. cbn [app] in Hsim.
  set (asked := Ev (Interrupt (pa_message p) (pa_evaluation p)) (Ok answer)) in *.
  assert (forall G, exists F F' rest, (enough_fuel max_retries values <= F /\ G + limit <= S F')%nat /\
    Exec (runner_run model_validate F max_retries values message) (tr0 ++ asked :: ports tr)%list rest
    /\ leaves model_validate limit (S F') r (saves thread tr) rest) as Hwhole.
  { intros G. destruct (Hex (G + limit)%nat) as (F & F' & HF & HG & He).
    destruct (Hsim (S F') ltac:(lia)) as (rest & He' & Hl). exists F, F', rest.
    split; [lia|]. split; [|done]. by eapply exec_trans. }
  destruct (Hwhole 0%nat) as (F & F' & rest & [HF _] & He & Hl).
  split; [by eapply carried|].
  pose proof (exec_turn _ _ _ _ _ HF He) as Ht.
  assert (steps_of (tr0 ++ asked :: ports tr)
    = (steps_of tr0 ++ Asked (pa_evaluation p) (Ok answer) :: steps_of (ports tr))%list) as Hsteps
    by apply steps_of_app.
  destruct r as [[s [|p' [|]]]|e]; cbn in Hl; [| |done|].
  - destruct Hl as [-> [Hq|Hq]]; [by destruct (Hsave s eq_refl)|]. cbn in Ht. rewrite app_nil_r, Hsteps in Ht.
    destruct (closed _ _ _ _ _ _ _ Hown Ht) as (f & [= Hf] & Hc). by split; [exists f|].
  - destruct Hl as (Hshow & Hlast & F1 & _ & ->). split; [|split].
    { pose proof (exec_paused _ _ _ _ _ _ _ HF He Hshow) as Hu. rewrite Hsteps in Hu.
      apply Forall_app in Hu as [_ Hu]. by apply Forall_cons in Hu as [_ Hu]. }
    { destruct (exec_asks _ _ _ _ _ _ _ HF He Hshow) as [e Hasks]. rewrite Hsteps, <- app_assoc in Hasks.
      apply turn_reasked in Hasks; [done|]. intros Hu. apply Forall_app in Hu as [_ Hu].
      by apply Forall_cons in Hu as [? _]. }
    eexists. split; [exact Hlast|]. split; [done..|].
    exists values, message, (tr0 ++ asked :: ports tr)%list. split; [done|]. intros G.
    destruct (Hwhole G) as (F2 & F2' & rest2 & [HF2 HG] & He2 & _ & _ & F3 & HF3 & ->).
    exists F2, F3. split_and!; [done|lia|done].
  - destruct Hl as [Hq [->|Hc]]; (split; [done|]); [left|by right].
    cbn in Ht. rewrite app_nil_r, Hsteps in Ht. apply turn_truthful in Ht as [Hu _].
    apply Forall_app in Hu as [_ Hu]. by apply Forall_cons in Hu as [_ Hu].
Qed.
End Session.
