(* ===== verification/AgentHost.v ===== *)
(** The runner on the airline and a checkpointer: [app/main.py] gives
    [AgentRunner] a graph over the airline service and a checkpointer in
    PostgreSQL.

    A [Host] is the database of the airline and the checkpoint of every thread;
    each access to the checkpointer may fail.  [perform] executes one call of
    the runner.  [calls_rebook] says what any sequence of messages and answers,
    on any threads, does to the database; [resume_not_retried] what is left of
    a question after an answer that failed half way. *)
From Stdlib Require Import String.
From stdpp Require Import base numbers strings list sets gmap.
From S2P Require Import Prelude Models Database Rules OrmRebooking RebookingInvariants RebookingOutcome AirlineService PyVal Effects.
From S2P Require Import AgentState AgentNodes AgentGraph AgentProperties AgentSafety AgentSystem AgentThreads AgentSession.
Local Open Scope string_scope.

Record Host := mkHost {
  h_sys : Sys; h_threads : gmap string Checkpoint; h_accesses : nat }.
Definition h_db (w : Host) : DB := sys_db (h_sys w).

(** A call of the runner. *)
Inductive Call :=
  | CallRun (user_id session_id message : string)
  | CallResume (user_id session_id : string) (answer : PyVal).
Definition thread_of (call : Call) : string :=
  match call with CallRun u s _ | CallResume u s _ => thread_id u s end.

(** The question a thread waits with. *)
Definition waiting (w : Host) (thread : string) : option Pause :=
  c ← h_threads w !! thread; head (ck_interrupts c).

Section Host.
Context (clock : nat -> datetime) (ambient : nat -> Ambient)
        (outside : forall R, AgentOp R -> nat -> Res R).
Context (reads : ReadRepositories) (rebooking : RebookingRepository).
(** The outcome of the [n]-th access to the checkpointer. *)
Context (checkpointer : nat -> Res unit).
Context (model_validate : PyVal -> Res RebookingSelection).
Context (limit : nat) (max_retries : Z).

Definition thread_env R (op : ThreadOp R) (w : Host) : Res R * Host :=
  let n := h_accesses w in
  match op in ThreadOp R return Res R * Host with
  | Port o =>
      let '(r, sys) := port_env clock ambient outside reads rebooking _ o (h_sys w) in
      (r, mkHost sys (h_threads w) n)
  | LoadCheckpoint t =>
      ((_ ← checkpointer n; Ok (h_threads w !! t)), mkHost (h_sys w) (h_threads w) (S n))
  | SaveCheckpoint t c =>
      match checkpointer n with
      | Ok _ => (Ok tt, mkHost (h_sys w) (<[t := c]> (h_threads w)) (S n))
      | Raise e => (Raise e, mkHost (h_sys w) (h_threads w) (S n))
      end
  end.

Definition call_code (call : Call) : ThreadM (AgentState * list Pause) :=
  match call with
  | CallRun u s message => agent_run model_validate limit max_retries u s message
  | CallResume u s answer => agent_resume model_validate limit u s answer
  end.
Definition perform (call : Call) (w : Host) : Res (AgentState * list Pause) * Host :=
  run thread_env (call_code call) w.
Definition performs (calls : list Call) (w : Host) : Host :=
  foldl (fun w call => (perform call w).2) w calls.

(** ** What a program does to the host *)

Lemma replay_cons db db1 db' st l :
  Replay rebooking db [st] db1 -> Replay rebooking db1 l db' -> Replay rebooking db (st :: l) db'.
Proof.
  intros H1 H2. inversion H1 as [|? ? ? ? Hst Hn|? ? ? ? Hn|? ? ? ? ? ? ? Hex Hn]; subst; inversion Hn; subst.
  - by apply replay_other.
  - by apply replay_verify.
  - by eapply replay_execute.
Qed.

Lemma run_replay_ports {A} (m : ThreadM A) w :
  Replay rebooking (h_db w) (steps_of (ports (trace thread_env m w))) (h_db (run thread_env m w).2).
Proof.
  revert w. induction m as [a|e|R o c IH]; intros w; [constructor..|]. destruct o as [R o|t|t ck].
  - cbn [run trace thread_env].
    pose proof (run_replay clock ambient outside reads rebooking (await o) (h_sys w)) as Hstep.
    cbn [trace run await] in Hstep. destruct (port_env _ _ _ _ _ _ o (h_sys w)) as [r sys] eqn:E.
    specialize (IH r (mkHost sys (h_threads w) (h_accesses w))).
    change (ports (Ev (Port o) r :: ?tr)) with (Ev o r :: ports tr).
    eapply (replay_cons _ _ _ (step_of (Ev o r))); [|exact IH]. by destruct r.
  - cbn [run trace thread_env]. apply (IH _ (mkHost (h_sys w) (h_threads w) (S (h_accesses w)))).
  - cbn [run trace thread_env]. destruct (checkpointer (h_accesses w)) as [[]|e];
      [apply (IH _ (mkHost (h_sys w) (<[t:=ck]> (h_threads w)) (S (h_accesses w))))
      |apply (IH _ (mkHost (h_sys w) (h_threads w) (S (h_accesses w))))].
Qed.

(** The checkpoint a thread ends with. *)
Definition kept (saved : list (Checkpoint * Res unit)) (c0 : option Checkpoint) : option Checkpoint :=
  foldl (fun c save => match save.2 with Ok _ => Some save.1 | Raise _ => c end) c0 saved.

Lemma run_threads {A} (m : ThreadM A) w t :
  h_threads (run thread_env m w).2 !! t = kept (saves t (trace thread_env m w)) (h_threads w !! t).
Proof.
  revert w. induction m as [a|e|R o c IH]; intros w; [done..|]. destruct o as [R o|t'|t' ck]; cbn [run trace thread_env].
  - destruct (port_env _ _ _ _ _ _ o (h_sys w)) as [r sys]. by rewrite IH.
  - by rewrite IH.
  - destruct (checkpointer (h_accesses w)) as [[]|e]; rewrite IH; unfold saves; cbn;
      destruct (String.eqb_spec t' t) as [->|Hne]; cbn; [by rewrite lookup_insert_eq|by rewrite lookup_insert_ne|done..].
Qed.

Lemma kept_last saved c0 c : last saved = Some (c, Ok tt) -> kept saved c0 = Some c.
Proof.
  intros Hl. apply last_Some in Hl as [saved' ->]. unfold kept. by rewrite foldl_app.
Qed.

Lemma kept_quiet saved c0 : Forall quiet_save saved ->
  kept saved c0 = c0 \/ exists c, kept saved c0 = Some c /\ ck_interrupts c = [].
Proof.
  revert c0. induction saved as [|[c r] saved IH]; intros c0 Hq; [by left|].
  apply Forall_cons in Hq as [Hc Hq].
  change (kept ((c, r) :: saved) c0) with (kept saved (if r is Ok _ then Some c else c0)).
  destruct r as [[]|e]; [|by apply IH].
  destruct Hc as [Hc|[e [=]]]. destruct (IH (Some c) Hq) as [->|Hk]; [right; eauto|by right].
Qed.

Lemma own_saves thread t tr : t <> thread -> Forall (meets (own thread)) tr -> saves t tr = [].
Proof.
  intros Hne. induction 1 as [|[R op r] tr Hop _ IH]; [done|]. unfold saves in *. cbn.
  destruct op as [R o|t'|t' c]; cbn; try done. cbn in Hop. subst t'.
  by rewrite (proj2 (String.eqb_neq thread t)).
Qed.

(** An exception of a save is the checkpointer's. *)
Definition checkpointer_failed (e : Exn) : Prop := exists n, checkpointer n = Raise e.

Lemma failed_save {A} (m : ThreadM A) w t c e :
  (c, Raise e) ∈ saves t (trace thread_env m w) -> checkpointer_failed e.
Proof.
  revert w. induction m as [a|e'|R o k IH]; intros w; [by intros ?%not_elem_of_nil..|].
  unfold saves in *. destruct o as [R o|t'|t' ck]; cbn [trace thread_env].
  - destruct (port_env _ _ _ _ _ _ o (h_sys w)). apply IH.
  - apply IH.
  - destruct (checkpointer (h_accesses w)) as [[]|e''] eqn:E; cbn; destruct (t' =? t)%string; cbn;
      try apply IH; intros [[=]|Hin]%elem_of_cons; subst; try (by eapply IH). by eexists.
Qed.

(** ** What one call does *)

Context (laws : RebookingLaws rebooking).
Context (validate_raises : forall v e, model_validate v = Raise e -> isinstance e ValueError = true).
Context (limit_ok : (7 <= limit)%nat).

(** The database of the airline after the one rebooking that [answer] confirms
    and [p] offered. *)
Definition Commits (db db' : DB) (p : Pause) (answer : PyVal) (sel : RebookingSelection)
    (x : RebookingResultSchema) : Prop :=
  confirms model_validate answer sel /\ offered sel (pa_evaluation p) = true /\
  exists am x', execute am (validate_rebooking_selection (am_now_validate am)) sel db = (Ok x', db')
    /\ rr_change x = rr_change x'.

Lemma carries_replay p answer n db db' : db_inv db ->
  Carries model_validate p answer n -> Replay rebooking db n db' ->
  db' = db \/ exists sel x, Commits db db' p answer sel x.
Proof using laws.
  intros Hdb Hc Hr. destruct Hc as [n Hu|sel v x post Hconf Hoff Hpost].
  - left. by eapply replay_unexecuted.
  - apply (replay_quiet _ _ [_]) in Hr; [|by repeat constructor].
    inversion Hr as [| | |? am ? ? db1 ? ? Hex Hrest]; subst; [done|].
    assert (db' = db1) as -> by (destruct Hpost as [->|[y ->]]; inversion Hrest; subst; try done;
      by match goal with H : Replay _ _ [] _ |- _ => inversion H end).
    unfold service_execute in Hex. destruct x as [x|e].
    + destruct (law_executes _ laws _ _ _ _ _ Hdb Hex) as (am' & x' & _ & Hex' & Hch).
      right. exists sel, x. split_and!; [done..|]. by exists am', x'.
    + left. by apply (law_fails _ laws) in Hex.
Qed.

(** A turn that changed nothing: the answer declined, or a selection that it
    confirmed was refused or could not be executed. *)
Definition ended_without (f : FinalResult) (answer : PyVal) : Prop :=
  (fr_status f = FS_declined /\ declines answer) \/
  (fr_status f = FS_failed /\ exists sel, confirms model_validate answer sel).

Lemma closes_replay p answer n f db db' : db_inv db ->
  Closes model_validate p answer n f -> Replay rebooking db n db' ->
  (db' = db /\ ended_without f answer) \/
  exists sel x, Commits db db' p answer sel x /\ fr_status f = FS_completed
    /\ fr_selection f = Some sel /\ fr_execution f = Some x.
Proof using laws.
  intros Hdb Hc Hr. destruct Hc as [n f Hu Hf Hd|n f sel Hu Hf Hconf|sel v tail f Hconf Hoff He].
  - left. split; [by eapply replay_unexecuted|by left].
  - left. split; [by eapply replay_unexecuted|right; eauto].
  - apply (replay_quiet _ _ [_]) in Hr; [|by repeat constructor].
    destruct (replay_ended _ laws _ _ _ _ _ _ Hdb He Hr)
      as [[-> Hf]|(am & x & x' & y & Hex & Hch & _ & Hs & Hsel & Hx)].
    + left. split; [done|right; eauto].
    + right. exists sel, x. split_and!; try done. split_and!; [done..|]. by exists am, x'.
Qed.

(** The database is in order, and every question that waits was asked by a run
    of the graph. *)
Record host_ok (w : Host) : Prop := {
  ho_db : db_inv (h_db w);
  ho_threads : forall t c, h_threads w !! t = Some c ->
    ck_interrupts c = [] \/ exists h p, Pending model_validate max_retries c h p }.

Definition same_thread (w w' : Host) (t : string) : Prop := h_threads w' !! t = h_threads w !! t.

(** A message asks, or fails; either way it changes nothing else. *)
Definition Asks (w w' : Host) (thread : string) (r : Res (AgentState * list Pause)) : Prop :=
  h_db w' = h_db w /\
  match r with
  | Ok (_, [p]) => waiting w' thread = Some p
  | Ok _ => False
  | Raise _ => waiting w' thread = None \/ same_thread w w' thread
  end.

(** An answer without a question is refused; one to a question ends the turn,
    with a result that tells what it did, or is asked again, or fails. *)
Definition Answers (w w' : Host) (thread : string) (answer : PyVal)
    (r : Res (AgentState * list Pause)) : Prop :=
  match waiting w thread with
  | None => h_db w' = h_db w /\ same_thread w w' thread /\
      exists e, r = Raise e /\ (isinstance e NoPendingInputError = true \/ checkpointer_failed e)
  | Some p =>
      match r with
      | Ok (s, []) => waiting w' thread = None /\ exists f, final s = Some f /\
          ((h_db w' = h_db w /\ ended_without f answer) \/
           exists sel x, Commits (h_db w) (h_db w') p answer sel x /\ fr_status f = FS_completed
             /\ fr_selection f = Some sel /\ fr_execution f = Some x)
      | Ok (_, [p']) => h_db w' = h_db w /\ waiting w' thread = Some p'
          /\ exists sel, confirms model_validate answer sel
      | Ok _ => False
      | Raise e =>
          (h_db w' = h_db w \/
           checkpointer_failed e /\ exists sel x, Commits (h_db w) (h_db w') p answer sel x)
          /\ (waiting w' thread = None \/ same_thread w w' thread)
      end
  end.

Definition CallSpec (call : Call) (w w' : Host) (r : Res (AgentState * list Pause)) : Prop :=
  host_ok w' /\ (forall t, t <> thread_of call -> same_thread w w' t) /\
  match call with
  | CallRun _ _ _ => Asks w w' (thread_of call) r
  | CallResume _ _ answer => Answers w w' (thread_of call) answer r
  end.

(** What a run on one thread leaves of the host. *)
Lemma host_kept {A} (m : ThreadM A) w thread :
  let w' := (run thread_env m w).2 in
  let saved := saves thread (trace thread_env m w) in
  host_ok w -> db_inv (h_db w') -> Forall (meets (own thread)) (trace thread_env m w) ->
  (forall t, t <> thread -> same_thread w w' t) /\
  (Forall quiet_save saved -> (waiting w' thread = None \/ same_thread w w' thread) /\ host_ok w') /\
  (settled saved -> waiting w' thread = None /\ host_ok w') /\
  (forall c h p, last saved = Some (c, Ok tt) -> Pending model_validate max_retries c h p ->
     waiting w' thread = Some p /\ host_ok w').
Proof.
  intros w' saved [Hdb Hth] Hdb' Hown.
  assert (forall t, t <> thread -> same_thread w w' t) as Hother.
  { intros t Ht. unfold same_thread, w'. by rewrite run_threads, (own_saves thread). }
  assert (h_threads w' !! thread = kept saved (h_threads w !! thread)) as Hk by apply run_threads.
  assert ((forall c, h_threads w' !! thread = Some c ->
      ck_interrupts c = [] \/ exists h p, Pending model_validate max_retries c h p) -> host_ok w') as Hok.
  { intros Hc. split; [done|]. intros t c Ht. destruct (decide (t = thread)) as [->|Hne]; [by apply Hc|].
    apply (Hth t). by rewrite <- (Hother t Hne). }
  split; [done|]. split_and!.
  - intros Hq. destruct (kept_quiet saved (h_threads w !! thread) Hq) as [Hs|(c & Hs & Hc)];
      rewrite Hs in Hk; clear Hs.
    + split; [by right|]. apply Hok. intros c Hc. apply (Hth thread). by rewrite <- Hk.
    + split; [left; unfold waiting; rewrite Hk; cbn; by rewrite Hc|].
      apply Hok. intros c'. rewrite Hk. intros [= <-]. by left.
  - intros (c & Hl & Hc). rewrite (kept_last _ _ _ Hl) in Hk. split.
    + unfold waiting. rewrite Hk. cbn. by rewrite Hc.
    + apply Hok. intros c'. rewrite Hk. intros [= <-]. by left.
  - intros c h p Hl Hp. rewrite (kept_last _ _ _ Hl) in Hk. split.
    + unfold waiting. rewrite Hk. cbn. by rewrite (pd_interrupts _ _ _ _ _ Hp).
    + apply Hok. intros c'. rewrite Hk. intros [= <-]. right. by exists h, p.
Qed.

Lemma run_own user_id session_id message :
  asks (own (thread_id user_id session_id)) (agent_run model_validate limit max_retries user_id session_id message).
Proof.
  unfold agent_run. asks_step; [done|]. cbv zeta. asks_step; [by apply asks_await|].
  asks_step; [by apply asks_await|]. apply steps_own.
Qed.

Lemma run_spec w user_id session_id message : host_ok w ->
  let call := CallRun user_id session_id message in
  CallSpec call w (perform call w).2 (perform call w).1.
Proof using laws validate_raises limit_ok.
  intros Hok call. unfold perform. set (m := call_code call). set (thread := thread_of call).
  pose proof (wp_run thread_env m _ w (wp_asks _ _ _ (run_own user_id session_id message)
    (run_outcome model_validate validate_raises limit limit_ok max_retries user_id session_id message)))
    as [[Hu Hout] Hown].
  assert (h_db (run thread_env m w).2 = h_db w) as Hdb
    by (eapply replay_unexecuted; [exact Hu|apply run_replay_ports]).
  assert (db_inv (h_db (run thread_env m w).2)) as Hinv by (rewrite Hdb; apply Hok).
  destruct (host_kept m w thread Hok Hinv Hown) as (Hother & Hquiet & _ & Hasked).
  unfold CallSpec, Asks. fold thread. change (run thread_env (call_code call) w) with (run thread_env m w) in *.
  fold m in Hout. destruct (run thread_env m w).1 as [[s [|p [|]]]|e]; cbn in Hout; try done.
  - destruct Hout as (c & Hl & Hp). destruct (Hasked c _ p Hl Hp) as [Hw Hok']. done.
  - destruct (Hquiet Hout) as [Hw Hok']. done.
Qed.

(** A call that stops at the checkpointer, or at an idle thread. *)
Lemma stopped_spec w w' user_id session_id answer e : host_ok w ->
  let call := CallResume user_id session_id answer in
  h_sys w' = h_sys w -> h_threads w' = h_threads w ->
  checkpointer_failed e \/ (waiting w (thread_of call) = None /\ isinstance e NoPendingInputError = true) ->
  CallSpec call w w' (Raise e).
Proof.
  intros [Hdb Hth] call Hs Ht He.
  unfold CallSpec, Answers, same_thread, h_db. rewrite Hs, Ht. split; [|split; [done|]; cbn [call]].
  { split; [by unfold h_db in *; rewrite Hs|by rewrite Ht]. }
  destruct (waiting w _) as [p|] eqn:Hw.
  - split; [by left|by right].
  - split; [done|]. split; [done|]. exists e. split; [done|]. naive_solver.
Qed.

Lemma resume_spec w user_id session_id answer : host_ok w ->
  let call := CallResume user_id session_id answer in
  CallSpec call w (perform call w).2 (perform call w).1.
Proof using laws validate_raises limit_ok.
  intros Hok call. unfold perform. cbn [call_code call].
  unfold agent_resume. set (thread := thread_id user_id session_id).
  rewrite !run_bind, !run_await. cbn [thread_env].
  destruct (checkpointer (h_accesses w)) as [[]|e] eqn:Hc; cbn;
    [|apply stopped_spec; [done..|left; by eexists]].
  assert (waiting w thread = head (ck_interrupts (default new_thread (h_threads w !! thread)))) as Hwait
    by (unfold waiting; by destruct (h_threads w !! thread)).
  destruct (ck_interrupts (default new_thread (h_threads w !! thread))) as [|p ps] eqn:Hi; cbn in Hwait.
  { apply stopped_spec; [done..|]. right. by split. }
  cbn -[AgentThreads.steps].
  destruct (checkpointer (S (h_accesses w))) as [[]|e] eqn:Hc'; cbn -[steps];
    [|apply stopped_spec; [done..|left; by eexists]].
  set (w2 := mkHost _ _ _). set (c := default new_thread _).
  destruct (h_threads w !! thread) as [c0|] eqn:Hl; [cbn in c|discriminate Hi]. subst c.
  assert (exists h, Pending model_validate max_retries c0 h p) as [h Hp].
  { destruct (ho_threads _ Hok _ _ Hl) as [Hnil|(h & p' & Hp)]; [cbn in Hi; congruence|].
    exists h. cbn in Hi. rewrite (pd_interrupts _ _ _ _ _ Hp) in Hi. by injection Hi as -> _. }
  set (m := steps model_validate limit thread (ck_next c0) (ck_values c0) (Some answer)).
  pose proof (wp_run thread_env m _ w2 (wp_asks _ _ _ (steps_own model_validate thread limit _ _ _)
    (resume_outcome model_validate validate_raises limit limit_ok max_retries thread c0 h p answer Hp)))
    as [[Hcar Hout] Hown].
  assert (host_ok w2) as Hok2 by by destruct Hok; split.
  pose proof (run_replay_ports m w2) as Hrep. change (h_db w2) with (h_db w) in Hrep.
  pose proof (carries_replay _ _ _ _ _ (ho_db _ Hok) Hcar Hrep) as Hdb.
  assert (db_inv (h_db (run thread_env m w2).2)) as Hinv.
  { destruct Hdb as [->|(sel & x & _ & _ & am & x' & Hex & _)]; [apply Hok|].
    eapply execute_keeps; [apply Hok|exact Hex]. }
  destruct (host_kept m w2 thread Hok2 Hinv Hown) as (Hother & Hquiet & Hsettled & Hasked).
  change (same_thread w2) with (same_thread w) in *.
  unfold CallSpec, Answers. cbn [thread_of call]. fold thread. rewrite Hwait.
  destruct (run thread_env m w2) as [r w'] eqn:Hrun. cbn [fst snd] in *.
  destruct r as [[s [|p' [|]]]|e]; cbn in Hout; try done.
  - destruct Hout as ((f & Hf & Hcl) & Hset). destruct (Hsettled Hset) as [Hw Hok'].
    split_and!; try done. exists f. split; [done|]. eapply closes_replay; [apply Hok|exact Hcl|exact Hrep].
  - destruct Hout as (Hu & Hconf & c' & Hl' & Hp'). destruct (Hasked _ _ _ Hl' Hp') as [Hw Hok'].
    split_and!; try done. by eapply replay_unexecuted.
  - destruct Hout as [Hq He]. destruct (Hquiet Hq) as [Hw Hok']. split_and!; try done.
    destruct He as [Hu|[c' Hc1]]; [left; by eapply replay_unexecuted|].
    destruct Hdb as [|Hcommit]; [by left|right]. split; [by eapply failed_save|done].
Qed.

Lemma call_spec call w : host_ok w -> CallSpec call w (perform call w).2 (perform call w).1.
Proof using laws validate_raises limit_ok. destruct call; [apply run_spec|apply resume_spec]. Qed.

Lemma performs_ok calls w : host_ok w -> host_ok (performs calls w).
Proof using laws validate_raises limit_ok.
  unfold performs. revert w. induction calls as [|call calls IH]; intros w Hok; cbn; [done|].
  apply IH. by apply (call_spec call w).
Qed.

(** A host before its first call. *)
Definition new_host (db : DB) : Host := mkHost (mkSys db 0) ∅ 0.

Lemma new_host_ok db : db_inv db -> host_ok (new_host db).
Proof. by split. Qed.

(** C5: what the runner's calls do to the airline's data: after any sequence of
    messages and answers on any threads, whatever the model answers and the
    checkpointer fails, the next message executes nothing and, unless it fails,
    leaves a question; the next answer to a waiting question rebooks exactly the
    selection it confirms, of the options of that very question, and reports it
    completed, or leaves the database unchanged and says so, asks again, or
    fails; an answer without a question is refused.  Only a checkpoint that
    cannot be saved after the commit hides a rebooking behind an exception.  No
    call touches another thread. *)
Theorem calls_rebook db calls call :
  db_inv db -> let w := performs calls (new_host db) in
  CallSpec call w (perform call w).2 (perform call w).1.
Proof using laws validate_raises limit_ok. intros Hdb w. by apply call_spec, performs_ok, new_host_ok. Qed.
End Host.
