(* ===== verification/ConversationSystem.v ===== *)
(** The whole worker: the job service whose runner is the agent on its threads
    and on the airline ([app/main.py]).

    [worker_env] interprets the operations of the job service as JobSystem does,
    but a call of the runner executes the graph on the [Host] of AgentHost.  The
    theorems follow one delivery through all of it: what it may do to the
    airline's data ([delivery_rebooks]), and what the status of its job then
    says about it ([confirmation_settles]). *)
From Stdlib Require Import String.
From stdpp Require Import base numbers strings list sets gmap.
From S2P Require Import Prelude Models Database Rules OrmRebooking RebookingInvariants RebookingOutcome AirlineService PyVal Effects Uuid.
From S2P Require Import JobService JobProperties JobRequests RedisStore JobSystem.
From S2P Require Import AgentState AgentNodes AgentGraph AgentProperties AgentSafety AgentSystem AgentThreads AgentSession AgentHost.
Local Open Scope string_scope.

(** * What the service sees of a run *)

(** [_plain] of [agent/nodes/confirmation.py]: instances of pydantic models
    become dicts, at any depth. *)
Section Plain.
Context (is_model : string -> bool).
Fixpoint _plain (value : PyVal) : PyVal :=
  match value with
  | PObj cls attrs => if is_model cls then PDict ((fun '(k, v) => (k, _plain v)) <$> attrs) else value
  | PDict d => PDict ((fun '(k, v) => (k, _plain v)) <$> d)
  | PList l => PList (_plain <$> l)
  | _ => value
  end.
End Plain.

Section Results.
Context (is_model : string -> bool).
(** The attributes of an evaluation and of a result, and the values of the
    state other than the two keys the service reads. *)
Context (evaluation_value : EvaluationResult -> PyVal)
        (other_fields : FinalResult -> list (string * PyVal))
        (other_values : AgentState -> list (string * PyVal)).

Definition final_value (f : FinalResult) : PyVal :=
  PObj "FinalResult" (("status", PStr (final_status_value (fr_status f)))
                      :: ("message", PStr (fr_message f)) :: other_fields f).

Definition interrupt_object (p : Pause) : PyVal :=
  PObj "Interrupt" [("value", PDict [("message", PStr (pa_message p));
                                     ("evaluation", _plain is_model (evaluation_value (pa_evaluation p)))])].

(** The dict [ainvoke] returns. *)
Definition result_of (out : AgentState * list Pause) : list (string * PyVal) :=
  (match out.2 with [] => [] | ps => [("__interrupt__", PList (interrupt_object <$> ps))] end
   ++ match final out.1 with Some f => [("final", final_value f)] | None => [] end
   ++ other_values out.1)%list.

Context (str_of : PyVal -> string).

(** The call [runner.run(...)] or [runner.resume(...)] makes; a message that is
    not a string has no [strip]. *)
Definition call_of {R} (op : JobOp R) : option (Res Call) :=
  match op with
  | RunnerRun u s m => Some (
      match m with
      | PStr message => Ok (CallRun (py_str str_of u) (py_str str_of s) message)
      | _ => raise AttributeError "object has no attribute 'strip'"
      end)
  | RunnerResume u s a => Some (Ok (CallResume (py_str str_of u) (py_str str_of s) a))
  | _ => None
  end.
Definition calls_of (tr : Trace JobOp) : list (Res Call) :=
  omap (fun ev => match ev with Ev o _ => call_of o end) tr.
End Results.

(** The call a validated request asks for. *)
Definition request_call (str_of : PyVal -> string) (request : list (string * PyVal)) : Call :=
  let user_id := py_str str_of (get request "user_id") in
  let session_id := py_str str_of (get request "session_id") in
  if has_key "resume" request then CallResume user_id session_id (get request "resume")
  else CallRun user_id session_id (py_str str_of (get request "message")).

Lemma get_entry d k v : entry k d = Some v -> get d k = v.
Proof. unfold get, get_or. by intros ->. Qed.

Lemma validated_message payload request :
  validate_request payload = Ok request -> has_key "resume" request = false ->
  exists message, entry "message" request = Some (PStr message).
Proof.
  unfold validate_request. destruct payload; try done.
  repeat case_match; try done; intros [= <-]; unfold has_key; intros Hr;
    unfold get, get_or in *; destruct (entry "resume" d); try done; cbn in *.
  destruct (entry "message" d) as [[]|]; try done. eauto.
Qed.

(** * The calls of one delivery *)

Section Calls.
Context (orjson_loads : string -> Res PyVal) (str_of : PyVal -> string) (has_runner : bool)
        (options : WorkerOptions) (body : string).

(** Only the call of the delivered request is made. *)
Definition only R (op : JobOp R) : Prop :=
  match call_of str_of op with
  | Some call => exists job request, decode orjson_loads body = Ok job
      /\ accept_request has_runner (j_payload job) = Ok request
      /\ call = Ok (request_call str_of request)
  | None => True
  end.

Lemma consume_only : asks only (consume orjson_loads str_of has_runner options body).
Proof.
  assert (forall job level, asks only (_delay job level)) as Hdelay
    by (intros; unfold _delay; repeat asks_step; exact I).
  assert (forall job error, asks only (_dead_letter job error)) as Hdead
    by (intros; unfold _dead_letter, _now_ms; repeat asks_step; exact I).
  assert (forall job error, asks only (_retry options job error)) as Hretry
    by (intros; unfold _retry; repeat asks_step; auto; exact I).
  assert (forall job u s result, asks only (_finish str_of job u s result)) as Hfinish
    by (intros; unfold _finish, _now_ms; cbv zeta; repeat asks_step; auto; exact I).
  unfold consume. destruct (decode orjson_loads body) as [job|e] eqn:Hd; [|by apply asks_await].
  assert (forall request, accept_request has_runner (j_payload job) = Ok request ->
    asks only (call_agent request)) as Hcall.
  { intros request Hacc. unfold call_agent. cbv zeta.
    pose proof (accept_request_Ok _ _ _ Hacc) as [Hval _].
    destruct (has_key "resume" request) eqn:Hk.
    - assert (exists a, entry "resume" request = Some a) as [a Ha]
        by (unfold has_key in Hk; destruct (entry "resume" request); eauto; done).
      unfold item. rewrite Ha. apply asks_await. exists job, request. split_and!; [done..|].
      unfold request_call. rewrite Hk. by rewrite (get_entry _ _ _ Ha).
    - destruct (validated_message _ _ Hval Hk) as [message Hm].
      unfold item. rewrite Hm. apply asks_await. exists job, request. split_and!; [done..|].
      unfold request_call. rewrite Hk. by rewrite (get_entry _ _ _ Hm). }
  assert (forall request, accept_request has_runner (j_payload job) = Ok request ->
    asks only (run_agent str_of options job request)) as Hrun
    by (intros; unfold run_agent; cbv zeta; repeat asks_step; auto; exact I).
  unfold try_ at 1. apply asks_then; [|by intros [[]|e]; [|apply Hretry]].
  unfold _process. apply asks_bind; [by apply asks_await|]. intros status.
  destruct (bool_decide _); [by apply asks_await|].
  destruct (accept_request has_runner (j_payload job)) as [request|e] eqn:Hacc;
    [|destruct (isinstance e InvalidJobError); [apply Hdead|done]].
  repeat (cbv zeta; asks_step); auto; exact I.
Qed.

Lemma calls_length tr : length (calls_of str_of tr) = length (agent_calls tr).
Proof.
  induction tr as [|[R op r] tr IH]; [done|]. unfold calls_of, agent_calls, observe in *. cbn.
  destruct op; cbn; by rewrite ?IH.
Qed.

Lemma consume_calls :
  wp (consume orjson_loads str_of has_runner options body) (fun _ tr =>
    calls_of str_of tr = [] \/
    exists job request, decode orjson_loads body = Ok job
      /\ accept_request has_runner (j_payload job) = Ok request
      /\ calls_of str_of tr = [Ok (request_call str_of request)]).
Proof.
  eapply wp_mono; [|apply (wp_asks only); [apply consume_only|apply consume_spec]].
  intros r tr [Hc Hall]. cbn beta in Hc.
  assert (length (calls_of str_of tr) <= 1)%nat as Hlen.
  { rewrite calls_length. change (agent_calls tr) with (s_agent (summary tr)).
    assert (forall job r sm, Processed str_of options has_runner job r sm -> length (s_agent sm) <= 1)%nat as Hp.
    { clear. intros job r0 sm [| | | | |s request r' sm' ? ? Hrun]; cbn; try lia. destruct Hrun; cbn; lia. }
    destruct Hc; cbn; [lia|by eapply Hp..]. }
  assert (forall c, c ∈ calls_of str_of tr -> exists job request, decode orjson_loads body = Ok job
      /\ accept_request has_runner (j_payload job) = Ok request
      /\ c = Ok (request_call str_of request)) as Hin.
  { intros c Hc'. apply list_elem_of_omap in Hc' as ([R op r'] & Hev & Hcall).
    rewrite Forall_forall in Hall. specialize (Hall _ Hev). cbn in Hall. unfold only in Hall.
    by rewrite Hcall in Hall. }
  destruct (calls_of str_of tr) as [|c [|]]; [by left|right|cbn in Hlen; lia].
  destruct (Hin c) as (job & request & Hd & Ha & ->); [by left|]. by exists job, request.
Qed.
End Calls.

(** * The worker *)

Section Worker.
Context (clock : nat -> datetime) (ambient : nat -> Ambient)
        (outside : forall R, AgentOp R -> nat -> Res R)
        (reads : ReadRepositories) (rebooking : RebookingRepository)
        (checkpointer : nat -> Res unit) (model_validate : PyVal -> Res RebookingSelection)
        (limit : nat) (max_retries : Z).
Context (is_model : string -> bool) (evaluation_value : EvaluationResult -> PyVal)
        (other_fields : FinalResult -> list (string * PyVal))
        (other_values : AgentState -> list (string * PyVal)).
Context (str_of : PyVal -> string) (orjson_dumps : PyVal -> string) (fresh : nat -> UUID).
Context (orjson_loads : string -> Res PyVal) (has_runner : bool) (options : WorkerOptions).

Notation perform := (perform clock ambient outside reads rebooking checkpointer model_validate limit max_retries).
Notation result_of := (result_of is_model evaluation_value other_fields other_values).
Notation host_ok := (host_ok model_validate max_retries).
Notation Commits := (Commits model_validate).
Notation delivery := (consume orjson_loads str_of has_runner options).

(** The outcome of a call for the service, and the host after it. *)
Definition call_outcome (call : Res Call) (h : Host) : Res (list (string * PyVal)) * Host :=
  match call with
  | Ok call => let '(r, h') := perform call h in (res_map result_of r, h')
  | Raise e => (Raise e, h)
  end.

Section Store.
Context {V : Type} (store_op : forall R, StoreOp R -> V -> Res R * V).

Definition agent_call (call : Res Call) (w : World V * Host) :
    Res (list (string * PyVal)) * (World V * Host) :=
  let '(r, h) := call_outcome call w.2 in (r, (called w.1, h)).

Definition worker_env R (op : JobOp R) (w : World V * Host) : Res R * (World V * Host) :=
  match op in JobOp R return Res R * (World V * Host) with
  | RunnerRun u s m => agent_call (default (Ok (CallRun "" "" "")) (call_of str_of (RunnerRun u s m))) w
  | RunnerResume u s a => agent_call (default (Ok (CallRun "" "" "")) (call_of str_of (RunnerResume u s a))) w
  | op =>
      let '(r, w') := job_env str_of orjson_dumps fresh (fun _ => Ok []) store_op _ op w.1 in
      (r, (w', w.2))
  end.

(** The host sees the calls of the service and nothing else. *)
Lemma worker_host {A} (m : JobM A) w :
  (run worker_env m w).2.2 =
    foldl (fun h call => (call_outcome call h).2) w.2 (calls_of str_of (trace worker_env m w)).
Proof.
  revert w. induction m as [a|e|R o c IH]; intros w; [done..|]. cbn [run trace].
  unfold calls_of. destruct o; cbn [worker_env];
    try (destruct (job_env _ _ _ _ _ _ _ w.1) as [r w'] eqn:E; rewrite IH; reflexivity).
  all: unfold agent_call; cbn -[call_outcome]; unfold id; match goal with
    |- context [call_outcome ?c ?h] => destruct (call_outcome c h) as [r h1] eqn:E end;
    rewrite IH; cbn -[call_outcome]; unfold id; by rewrite ?E.
Qed.

Lemma other_calls R (op : JobOp R) w : call_of str_of op = None ->
  w_calls (job_env str_of orjson_dumps fresh (fun _ => Ok []) store_op _ op w).2 = w_calls w.
Proof.
  intros Hop. destruct op; try done; cbn [job_env]; unfold on_store;
    repeat match goal with |- context [store_op ?R ?o ?v] => destruct (store_op R o v) end; done.
Qed.

(** Every call of the runner is counted. *)
Lemma worker_calls {A} (m : JobM A) w :
  w_calls (run worker_env m w).2.1 =
    (length (calls_of str_of (trace worker_env m w)) + w_calls w.1)%nat.
Proof.
  revert w. induction m as [a|e|R o c IH]; intros w; [done..|]. cbn [run trace]. unfold calls_of.
  pose proof (other_calls R o w.1) as Hother.
  destruct o; cbn [worker_env];
    try (specialize (Hother eq_refl); destruct (job_env _ _ _ _ _ _ _ w.1) as [r w'] eqn:E;
         rewrite IH; unfold calls_of; cbn in *; by rewrite Hother).
  all: unfold agent_call; cbn -[call_outcome]; unfold id; match goal with
    |- context [call_outcome ?c ?h] => destruct (call_outcome c h) as [r h1] eqn:E end;
    rewrite IH; unfold calls_of; cbn -[call_outcome]; lia.
Qed.

(** ** One call, as a scripted agent *)

(** At most [k] calls of the runner, on every path. *)
Fixpoint at_most {A} (k : nat) (m : JobM A) : Prop :=
  match m with
  | Ret _ | Throw _ => True
  | Await o c =>
      match call_of str_of o, k with
      | Some _, O => False
      | Some _, S k' => forall r, at_most k' (c r)
      | None, _ => forall r, at_most k (c r)
      end
  end.

Lemma wp_at_most {A} (m : JobM A) k :
  wp m (fun _ tr => length (calls_of str_of tr) <= k)%nat -> at_most k m.
Proof.
  revert k. induction m as [a|e|R o c IH]; intros k; cbn [wp at_most]; [done..|]. intros Hw.
  unfold calls_of in *. cbn [omap list_omap] in Hw.
  destruct (call_of str_of o) as [call|]; [|intros r; by apply IH].
  destruct k as [|k].
  - destruct (wp_exists _ _ (Hw (raise InfraError ""))) as (r & tr & Hl). cbn in Hl. lia.
  - intros r. apply IH. eapply wp_mono; [|exact (Hw r)]. cbn. intros _ tr. lia.
Qed.

Notation scripted agent := (job_env str_of orjson_dumps fresh agent store_op).
(** A run of the worker is the run with this scripted agent. *)
Definition tracks {A} (m : JobM A) (w : World V) (h : Host) (agent : nat -> Res (list (string * PyVal))) : Prop :=
  (run worker_env m (w, h)).1 = (run (scripted agent) m w).1 /\
  (run worker_env m (w, h)).2.1 = (run (scripted agent) m w).2.

Lemma worker_tracks {A} (m : JobM A) k w h call :
  (k <= 1)%nat -> at_most k m ->
  asks (fun R op => forall c, call_of str_of op = Some c -> c = Ok call) m ->
  tracks m w h (fun _ => (call_outcome (Ok call) h).1).
Proof.
  set (agent := fun _ => (call_outcome (Ok call) h).1). intros Hk Hm Ha.
  assert (forall B (m : JobM B) w h', at_most 0 m -> tracks m w h' agent) as Hquiet.
  { clear. induction m as [a|e|R o c IH]; intros w h' Hm; [done..|]. unfold tracks in *. cbn [run at_most] in *.
    destruct o; try done; cbn [worker_env call_of fst] in *;
      (destruct (job_env _ _ _ _ _ _ _ w) as [r w'] eqn:E; cbn [fst snd];
       cbn [job_env] in *; rewrite ?E; by apply IH). }
  revert w Hm Ha. induction m as [a|e|R o c IH]; intros w Hm Ha; [done..|].
  destruct Ha as [Ho Hc]. unfold tracks in *. cbn [run at_most] in *.
  destruct o; try done; cbn [worker_env fst] in *;
    try (destruct (job_env _ _ _ _ _ _ _ w) as [r w'] eqn:E; cbn [fst snd];
         cbn [job_env] in *; rewrite ?E; apply IH; [exact (Hm r)|exact (Hc r)]).
  all: unfold agent_call; cbn [call_of default from_option]; unfold id; rewrite (Ho _ eq_refl); unfold agent in *;
    cbn [job_env snd]; destruct (call_outcome (Ok call) h) as [r h']; cbn [fst snd] in *;
    apply Hquiet; cbn [call_of] in Hm; destruct k as [|[|]]; [done|exact (Hm r)|lia].
Qed.
(** ** The database *)

Context (laws : RebookingLaws rebooking).
Context (validate_raises : forall v e, model_validate v = Raise e -> isinstance e ValueError = true).
Context (limit_ok : (7 <= limit)%nat).

(** C4: what a delivery may do to the airline's data: whatever message the
    broker delivers and whatever store it finds, the database is unchanged, or
    the message is a valid job that answers the question its conversation waits
    with, the answer confirms a selection among the options of that question,
    and the database is the one after exactly that rebooking.  The other
    conversations keep their questions. *)
Theorem delivery_rebooks body w h : host_ok h ->
  let h' := (run worker_env (delivery body) (w, h)).2.2 in
  host_ok h' /\
  (h_db h' = h_db h \/
   exists job request answer p sel x,
     decode orjson_loads body = Ok job /\ validate_request (j_payload job) = Ok request
     /\ entry "resume" request = Some answer
     /\ waiting h (conversation_of str_of request) = Some p
     /\ Commits (h_db h) (h_db h') p answer sel x
     /\ forall t, t <> conversation_of str_of request -> waiting h' t = waiting h t).
Proof using laws validate_raises limit_ok.
  intros Hok h'. unfold h'. rewrite worker_host.
  destruct (wp_run worker_env _ _ (w, h) (consume_calls orjson_loads str_of has_runner options body))
    as [->|(job & request & Hd & Hacc & ->)]; [by split; [|left]|].
  cbn [foldl snd call_outcome].
  pose proof (call_spec clock ambient outside reads rebooking checkpointer model_validate limit max_retries
    laws validate_raises limit_ok (request_call str_of request) h Hok) as (Hok' & Hother & Hcall).
  destruct (perform (request_call str_of request) h) as [r h1]. cbn [fst snd] in *.
  split; [done|]. unfold request_call in *. pose proof (accept_request_Ok _ _ _ Hacc) as [Hval _].
  destruct (has_key "resume" request) eqn:Hk; [|left; apply Hcall].
  unfold has_key in Hk. destruct (entry "resume" request) as [answer|] eqn:Ha; [|done].
  rewrite (get_entry _ _ _ Ha) in *. cbn [thread_of] in *.
  change (thread_id _ _) with (conversation_of str_of request) in *. unfold Answers in Hcall.
  destruct (waiting h (conversation_of str_of request)) as [p|] eqn:Hw; [|left; apply Hcall].
  assert (h_db h1 = h_db h \/ exists sel x, Commits (h_db h) (h_db h1) p answer sel x)
    as [Hdb|(sel & x & Hc)] by (destruct r as [[s [|p' [|]]]|e]; naive_solver); [by left|right].
  exists job, request, answer, p, sel, x. split_and!; try done.
  intros t Ht. unfold waiting. by rewrite (Hother t Ht).
Qed.

End Store.

(** ** What the status of a job tells *)

Context (laws : RebookingLaws rebooking).
Context (validate_raises : forall v e, model_validate v = Raise e -> isinstance e ValueError = true).
Context (limit_ok : (7 <= limit)%nat).
(** The keys [ainvoke] adds are not keys of the state. *)
Context (no_interrupt : forall s, entry "__interrupt__" (other_values s) = None).
Context (encode : Job -> string).

Definition failing_status (status : string) : Prop := status = STATUS_FAILED \/ status = STATUS_RETRYING.

Lemma asked_plan job s p :
  job_plan str_of options job (Ok (result_of (s, [p]))) = Ok ([], [STATUS_WAITING_FOR_CONFIRMATION]).
Proof. reflexivity. Qed.

Lemma ended_plan job s f : final s = Some f ->
  exists sent, job_plan str_of options job (Ok (result_of (s, []))) =
    Ok (sent, [match fr_status f with FS_failed => STATUS_FAILED | _ => STATUS_COMPLETED end]).
Proof using no_interrupt.
  intros Hf. unfold job_plan, agent_plan, finish_plan, ConversationSystem.result_of.
  cbn [fst snd app]. rewrite Hf. cbn [app].
  assert (entry "__interrupt__" (("final", final_value other_fields f) :: other_values s) = None) as ->
    by (cbn; apply no_interrupt).
  cbn. destruct (fr_status f); cbn; eauto.
Qed.

Lemma raised_plan job n e : exists sent status,
  job_plan str_of options (with_attempt (PInt n) job) (Raise e) = Ok (sent, [status]) /\
  failing_status status /\ (isinstance e NoPendingInputError = true -> status = STATUS_FAILED).
Proof.
  unfold job_plan, agent_plan. destruct (isinstance e NoPendingInputError).
  - do 2 eexists. split; [done|]. by split; [left|].
  - unfold retry_plan. cbn. destruct (_ >=? _)%Z; do 2 eexists; (split; [done|]); split;
      first [by left|by right|done].
Qed.

(** What the status of an answered job tells of the host before and after. *)
Inductive Reports (h h' : Host) (conversation : string) (answer : PyVal) : string -> Prop :=
  | reports_rebooked p sel x : waiting h conversation = Some p ->
      Commits (h_db h) (h_db h') p answer sel x -> waiting h' conversation = None ->
      Reports h h' conversation answer STATUS_COMPLETED
  | reports_declined p : waiting h conversation = Some p -> declines answer -> h_db h' = h_db h ->
      waiting h' conversation = None -> Reports h h' conversation answer STATUS_COMPLETED
  | reports_asked p p' sel : waiting h conversation = Some p -> confirms model_validate answer sel ->
      h_db h' = h_db h -> waiting h' conversation = Some p' ->
      Reports h h' conversation answer STATUS_WAITING_FOR_CONFIRMATION
  | reports_failed status : h_db h' = h_db h -> failing_status status ->
      Reports h h' conversation answer status
  | reports_lost p sel x e status : waiting h conversation = Some p ->
      Commits (h_db h) (h_db h') p answer sel x -> checkpointer_failed checkpointer e ->
      failing_status status -> Reports h h' conversation answer status.

Lemma call_reports job n u s answer h : host_ok h ->
  let call := CallResume u s answer in
  exists sent status,
    job_plan str_of options (with_attempt (PInt n) job) (call_outcome (Ok call) h).1 = Ok (sent, [status])
    /\ Reports h (call_outcome (Ok call) h).2 (thread_id u s) answer status.
Proof using laws validate_raises limit_ok no_interrupt.
  intros Hok call.
  destruct (call_spec clock ambient outside reads rebooking checkpointer model_validate limit max_retries
    laws validate_raises limit_ok call h Hok) as (_ & _ & Hcall).
  subst call. cbn [call_outcome]. unfold Answers in Hcall. cbn [thread_of] in Hcall.
  destruct (perform (CallResume u s answer) h) as [r h1]. cbn [fst snd res_map] in *.
  assert (forall e, h_db h1 = h_db h -> exists sent status,
    job_plan str_of options (with_attempt (PInt n) job) (Raise e) = Ok (sent, [status])
    /\ Reports h h1 (thread_id u s) answer status) as Hfail.
  { intros e Hdb. destruct (raised_plan job n e) as (sent & status & Hp & Hst & _).
    exists sent, status. by split; [|apply reports_failed]. }
  destruct (waiting h (thread_id u s)) as [p|] eqn:Hw; [|by destruct Hcall as (Hdb & _ & e & -> & _); apply Hfail].
  destruct r as [[st [|p' [|]]]|e]; [| |done|].
  - destruct Hcall as (Hw' & f & Hf & Hdb). destruct (ended_plan (with_attempt (PInt n) job) st f Hf) as [sent Hp].
    destruct Hdb as [[Hdb [[Hs Hd]|[Hs _]]]|(sel & x & Hc & Hs & _)]; rewrite Hs in Hp; do 2 eexists;
      (split; [exact Hp|]); [by eapply reports_declined|by apply reports_failed; [|left]|by eapply reports_rebooked].
  - destruct Hcall as (Hdb & Hw' & sel & Hconf). do 2 eexists. split; [apply asked_plan|by eapply reports_asked].
  - destruct Hcall as [[Hdb|[He (sel & x & Hc)]] _]; [by apply Hfail|].
    destruct (raised_plan job n e) as (sent & status & Hp & Hst & _).
    exists sent, status. split; [done|]. by eapply reports_lost.
Qed.

(** C6: what the status of an answered job says: after the delivery of a valid,
    unfinished resume job, [completed] says that the answer confirmed a selection
    of the waiting question, which was rebooked, once, or that it declined and
    nothing changed; [waiting_for_confirmation] that it confirmed a selection,
    which was refused: nothing changed and the conversation waits with a new
    question; [failed] and [retrying] that nothing changed, or that the selection
    was rebooked and then a checkpoint could not be saved.  The delivery is acked
    and its conversation's lock is free again. *)
Theorem confirmation_settles job id n request answer w h :
  host_ok h -> (0 <= n)%Z ->
  deliverable str_of orjson_loads encode has_runner job id request w ->
  entry "resume" request = Some answer ->
  let '(r, (w', h')) :=
    run (worker_env spec_env) (delivery (encode (with_attempt (PInt n) job))) (w, h) in
  r = Ok tt /\ w_settled w' = (w_settled w ++ [Acked])%list /\
  v_lock (w_store w') (conversation_of str_of request) = None /\
  exists status, v_status (w_store w') id = Some status /\
    Reports h h' (conversation_of str_of request) answer status.
Proof using laws validate_raises limit_ok no_interrupt.
  intros Hok Hn Hdl Ha. set (call := request_call str_of request).
  set (body := encode (with_attempt (PInt n) job)). set (conversation := conversation_of str_of request).
  assert (decode orjson_loads body = Ok (with_attempt (PInt n) job)) as Hdec by by apply (dl_decode _ _ _ _ _ _ _ _ Hdl).
  assert (accept_request has_runner (j_payload job) = Ok request) as Hacc by apply Hdl.
  (* the delivery is the one of an agent with this call's outcome *)
  assert (tracks spec_env (delivery body) w h (fun _ => (call_outcome (Ok call) h).1)) as [Hr Hw].
  { eapply (worker_tracks spec_env) with (k := 1%nat); [lia| |].
    - apply wp_at_most. eapply wp_mono; [|apply consume_calls]. intros r tr [->|(? & ? & _ & _ & ->)]; cbn; lia.
    - eapply asks_mono; [|apply consume_only]. intros R op. unfold only. intros Honly c Hc. rewrite Hc in Honly.
      destruct Honly as (job' & request' & Hd' & Ha' & ->). rewrite Hdec in Hd'. injection Hd' as <-.
      cbn [j_payload with_attempt] in Ha'. rewrite Hacc in Ha'. by injection Ha' as <-. }
  assert (call = CallResume (py_str str_of (get request "user_id")) (py_str str_of (get request "session_id")) answer)
    as Hcall by (unfold call, request_call, has_key; by rewrite Ha, (get_entry _ _ _ Ha)).
  destruct (call_reports job n (py_str str_of (get request "user_id")) (py_str str_of (get request "session_id"))
    answer h Hok) as (sent & status & Hplan & Hrep).
  rewrite <- Hcall in Hplan, Hrep.
  destruct Hdl as [Hid _ _ Hun Hfree].
  destruct (deliver_run str_of orjson_dumps fresh (fun _ => (call_outcome (Ok call) h).1) orjson_loads encode
    has_runner options (with_attempt (PInt n) job) id n request w sent status Hid eq_refl Hacc Hdec Hun Hfree Hplan)
    as (w1 & Hdel & [_ Hset Hcalls] & Hst & Hlock).
  unfold deliver in Hdel. fold body in Hdel. rewrite Hdel in Hr, Hw. cbn [fst snd] in Hr, Hw.
  pose proof (worker_calls spec_env (delivery body) (w, h)) as Hcount.
  pose proof (worker_host spec_env (delivery body) (w, h)) as Hh.
  destruct (wp_run (worker_env spec_env) _ _ (w, h) (consume_calls orjson_loads str_of has_runner options body))
    as [Hnone|(job' & request' & Hd' & Ha' & Hone)].
  { rewrite Hnone, Hw, Hcalls in Hcount. cbn in Hcount. lia. }
  rewrite Hdec in Hd'. injection Hd' as <-. cbn [j_payload with_attempt] in Ha'.
  rewrite Hacc in Ha'. injection Ha' as <-. rewrite Hone in Hh. cbn [foldl snd] in Hh.
  destruct (run (worker_env spec_env) (delivery body) (w, h)) as [r [w' h']]. cbn [fst snd] in *. subst.
  split_and!; [done|exact Hset|exact Hlock|]. exists status. split; [exact Hst|exact Hrep].
Qed.
End Worker.
