(* ===== verification/SqlFixtures.v ===== *)
(** The asyncpg variant on concrete data: the witnesses of its equivalence with
    the SQLAlchemy variant, and two rebookings whose lock requests deadlock. *)
From stdpp Require Import base numbers strings list sets relations.
From S2P Require Import Prelude Models Rules Database Uuid OrmRebooking RebookingInvariants RebookingOutcome Fixtures.
From S2P Require Import AirlineService SqlRebooking SqlRepositories Locking.
Local Open Scope Z_scope.

Lemma sql_execute_equivalent_witness :
  is_ok (sql_execute 51 0x777 (validate_rebooking_selection 50) pick_as101 mock_db).1 = true /\
  Corresponds (mkAmbient 50 51 51 0x777 51) mock_db pick_as101
    (execute (mkAmbient 50 51 51 0x777 51) (validate_rebooking_selection 50) pick_as101 mock_db)
    (sql_execute 51 0x777 (validate_rebooking_selection 50) pick_as101 mock_db).
Proof.
  split; [vm_compute; reflexivity|].
  apply (sql_execute_equivalent 51 50 0x777 pick_as101 mock_db); apply mock_db_inv.
Defined.

(** * A fare that is no longer sold *)

(** The same database without the fare row of the booked segment. *)
Definition withdrawn_db : DB :=
  with_flight_fares (List.filter (fun ff => negb (match find_segment mock_db (sel_segment_id pick_as101) with
    | Some seg => is_fare (rs_flight_id seg) (rs_fare_class_id seg) ff | None => false end))) mock_db.

(** The schema allows it: the SQLAlchemy transaction refuses the rebooking, the
    asyncpg one commits it. *)
Theorem withdrawn_fare_diverges :
  schema_ok withdrawn_db /\ unsold_fare withdrawn_db pick_as101 /\
  (exists msg, execute (mkAmbient 50 51 51 0x777 51) (validate_rebooking_selection 50) pick_as101 withdrawn_db
     = (raise FlightNotFoundError msg, withdrawn_db)) /\
  let '(r, db') := sql_execute 51 0x777 (validate_rebooking_selection 50) pick_as101 withdrawn_db in
  is_ok r = true /\ length (flight_changes db') = S (length (flight_changes withdrawn_db)).
Proof.
  split; [split; apply (bool_decide_eq_true_1 _); vm_compute; reflexivity|].
  split; [eexists; split; vm_compute; reflexivity|].
  split; [eexists; vm_compute; reflexivity|]. vm_compute. split; reflexivity.
Qed.

(** * Lock order *)

(** Two one-passenger bookings in the flexible class, on AS100 and AS101, whose
    customers want to trade flights. *)
Definition swap_db : DB := {|
  customers := [mkCustomer alice "Alice" "Gomez" "alice@example.test" (Some "+1-555-0101") 0 0];
  passengers := [mkPassenger doc_alice "Alice" "Gomez" "DOC-ALICE-1" 0];
  reservation_passengers := [mkReservationPassenger abc123 doc_alice; mkReservationPassenger 0x31 doc_alice];
  reservations := [mkReservation abc123 "ABC123" alice R_CONFIRMED 35000 "USD" 0 0;
                   mkReservation 0x31 "XYZ789" alice R_CONFIRMED 35000 "USD" 0 0];
  flights := [mkFlight as100 "AS100" "JFK" "LAX" 100 101 F_SCHEDULED 180 0 0;
              mkFlight as101 "AS101" "JFK" "LAX" 101 102 F_SCHEDULED 180 0 0];
  fare_classes := [mkFareClass flex "FLEX" "Flexible Economy" true true 0 0 0];
  flight_fares := [mkFlightFare 0x201 as100 flex 35000 "USD" 10; mkFlightFare 0x202 as101 flex 35000 "USD" 10];
  reservation_segments :=
    [mkReservationSegment seg_abc123 abc123 as100 flex S_CONFIRMED 35000 "USD" 0 0;
     mkReservationSegment 0x41 0x31 as101 flex S_CONFIRMED 35000 "USD" 0 0];
  travel_credits := []; flight_changes := [] |}.

Definition to_as101 : RebookingSelectionSchema := mkSelection seg_abc123 as101 flex None 0.
Definition to_as100 : RebookingSelectionSchema := mkSelection 0x41 as100 flex None 0.

(** The locks a rebooking takes, in order. *)
Definition locks_of {A} (r : Res (A * Tx)) : list RowLock :=
  match r with Ok (_, tx) => tx_locks tx | Raise _ => [] end.
Definition sql_locks (sel : RebookingSelectionSchema) : list RowLock :=
  locks_of (sql_execute_body 51 0x777 (validate_rebooking_selection 50) sel (mkTx swap_db [])).

(** A state no transaction can leave but by a rollback. *)
Definition deadlocked (ts : list Txn) : Prop :=
  Exists (fun t => finished t = false) ts /\ forall ts', ~ progress ts ts'.

(** Both hold the fare they move to and wait for the other's. *)
Definition stuck : list Txn :=
  [mkTxn [LSegment seg_abc123; LReservation abc123; LFlight as101; LFare as101 flex]
     [LFare as100 flex] false;
   mkTxn [LSegment 0x41; LReservation 0x31; LFlight as100; LFare as100 flex] [LFare as101 flex] false].

Lemma sql_locks_to_as101 : sql_locks to_as101 =
  [LSegment seg_abc123; LReservation abc123; LFlight as101; LFare as101 flex; LFare as100 flex].
Proof. vm_compute. reflexivity. Qed.
Lemma sql_locks_to_as100 : sql_locks to_as100 =
  [LSegment 0x41; LReservation 0x31; LFlight as100; LFare as100 flex; LFare as101 flex].
Proof. vm_compute. reflexivity. Qed.

(** The next lock is granted when nobody holds it. *)
Lemma grant ts i t l rest :
  ts !! i = Some t -> finished t = false -> todo t = l :: rest ->
  Forall (fun u => l ∉ held u) ts -> progress ts (upd i (mkTxn (held t ++ [l]) rest false) ts).
Proof.
  intros Hi Hf Ht Hall. exists Grant. split; [done|]. eapply step_grant; try done.
  intros j u Hu. eapply Forall_lookup in Hall; [exact Hall|exact Hu].
Qed.

Ltac grant_step i :=
  eapply rtc_l; [apply (grant _ i); [reflexivity..|];
                 repeat constructor; apply (bool_decide_eq_true_1 _); vm_compute; reflexivity|];
  cbn [upd held app].

Lemma stuck_reachable : rtc progress [begin (sql_locks to_as101); begin (sql_locks to_as100)] stuck.
Proof.
  rewrite sql_locks_to_as101, sql_locks_to_as100. unfold begin.
  do 4 (grant_step 0%nat). do 4 (grant_step 1%nat). apply rtc_refl.
Qed.

Lemma stuck_deadlocked : deadlocked stuck.
Proof.
  split; [by constructor|]. intros ts' (ev & Hev & Hstep).
  inversion Hstep as [? i t l rest Hi Hf Ht Hfree|? i t Hi Hf Ht|? i t Hi Hf]; subst; [| |done].
  - destruct i as [|[|i]]; cbn in Hi; [injection Hi as <-|injection Hi as <-|done]; cbn in Ht;
      injection Ht as <- <-.
    + apply (Hfree 1%nat _ eq_refl). apply (bool_decide_eq_true_1 _). vm_compute. reflexivity.
    + apply (Hfree 0%nat _ eq_refl). apply (bool_decide_eq_true_1 _). vm_compute. reflexivity.
  - destruct i as [|[|i]]; cbn in Hi; [injection Hi as <-|injection Hi as <-|]; done.
Qed.

(** The asyncpg variant can deadlock where the SQLAlchemy one cannot: it
    locks the fare it moves to before the fare it moves from, so two customers
    who trade flights each hold what the other waits for, and one of them has
    to be rolled back; the sorted locks of the SQLAlchemy variant are the same
    for both, in the same order. *)
Theorem sql_swap_deadlocks :
  (exists ts, rtc progress [begin (sql_locks to_as101); begin (sql_locks to_as100)] ts /\ deadlocked ts)
  /\ lock_keys (as100, flex) (as101, flex) = lock_keys (as101, flex) (as100, flex).
Proof.
  split; [exists stuck; split; [apply stuck_reachable|apply stuck_deadlocked]|].
  vm_compute. reflexivity.
Qed.
