(* ===== verification/ConcurrencyFixtures.v ===== *)
(** Interleavings evaluated: two customers who trade flights, and one whose
    reservation is changed by two sessions at once, which loses a refund. *)
From stdpp Require Import base numbers strings list sets relations sorting.
From S2P Require Import Prelude Models Rules Database Uuid OrmRebooking RebookingInvariants Fixtures SqlRebooking Locking Effects Sessions OrmSession OrmConcurrency SqlConcurrency VerifyLater.
From S2P Require Import AirlineService SqlRepositories SqlFixtures.
Local Open Scope Z_scope.

Definition next_day : Ambient := mkAmbient 50 51 52 0x778 53.

(** Decide the parts of [valid_db] by computation. *)
Ltac valid_by_computation :=
  split; [split; [split; apply (bool_decide_eq_true_1 _); vm_compute; reflexivity
                 |apply (bool_decide_eq_true_1 _); vm_compute; reflexivity
                 |apply (bool_decide_eq_true_1 _); vm_compute; reflexivity
                 |repeat constructor; cbn; intros; lia]
         |repeat constructor; cbn; lia].

(** * Two customers who trade flights *)

Definition trades : list (Ambient * RebookingSelectionSchema) := [(today, to_as101); (next_day, to_as100)].

Lemma swap_db_valid : valid_db swap_db.
Proof. valid_by_computation. Defined.
Lemma trades_apart : different_reservations swap_db trades.
Proof. apply (bool_decide_eq_true_1 _). vm_compute. reflexivity. Defined.

(** The second session reads its segment and the target's seats while the
    first one is under way, and waits for the fares until it has committed. *)
Definition trade_order : list nat := replicate 4 0%nat ++ replicate 3 1%nat ++ replicate 14 0%nat ++ replicate 15 1%nat.
Definition traded : State RebookingResultSchema := after trade_order (start (rebooking_codes trades) swap_db).


Lemma traded_reached : rtc step (start (rebooking_codes trades) swap_db) traded.
Proof. apply advance_steps, after_reached, (bool_decide_eq_true_1 _). vm_compute. reflexivity. Qed.

Lemma rebookings_serializable_witness :
  (ended traded).*1 = [0%nat; 1%nat] /\ all_committed traded = true /\
  Serial (request_alone trades) swap_db (ended traded) (committed traded) /\
  committed traded = rebook_all (committed_requests trades (ended traded)) swap_db.
Proof.
  split; [vm_compute; reflexivity|]. split; [vm_compute; reflexivity|].
  destruct (rebookings_serializable trades swap_db traded swap_db_valid trades_apart traded_reached) as (H1 & H2 & _).
  split; [exact H1|exact H2].
Defined.

Lemma concurrent_rebookings_keep_books_witness :
  find_segment (committed traded) seg_abc123 <> find_segment swap_db seg_abc123 /\
  db_inv (committed traded) /\ totals (committed traded) - charged (committed traded) = totals swap_db - charged swap_db.
Proof.
  destruct (concurrent_rebookings_keep_books trades swap_db traded swap_db_valid trades_apart traded_reached)
    as (H1 & _ & _ & H2 & _).
  split; [vm_compute; discriminate|]. split; [exact H1|exact H2].
Defined.

(** The first session verifies its rebooking while the second one, which takes
    the flight it left, is not over, and reads the reservation after that. *)
Definition first_over : State RebookingResultSchema :=
  after (take 21 trade_order) (start (rebooking_codes trades) swap_db).

Lemma concurrent_verified_witness :
  (ended first_over).*1 = [0%nat] /\ (ended traded).*1 = [0%nat; 1%nat] /\
  exists res, verify_across (committed first_over) (committed traded) to_as101
              = Ok (mkRebookingResult None (rr_segment res) (rr_booking_reference res)).
Proof.
  split; [vm_compute; reflexivity|]. split; [vm_compute; reflexivity|].
  assert (rtc step (start (rebooking_codes trades) swap_db) first_over) as H1.
  { apply advance_steps, after_reached, (bool_decide_eq_true_1 _). vm_compute. reflexivity. }
  assert (rtc step first_over traded) as H2.
  { apply advance_steps, (schedule_advance (drop 21 trade_order)). vm_compute. reflexivity. }
  eexists. apply (concurrent_verified trades swap_db first_over traded 0%nat (today, to_as101) _
    swap_db_valid trades_apart H1 H2 eq_refl).
  vm_compute. apply list_elem_of_here.
Defined.

(** The second session waits for the fares the first one holds. *)
Definition waiting : State RebookingResultSchema :=
  after (replicate 6 0%nat ++ replicate 3 1%nat) (start (rebooking_codes trades) swap_db).

Lemma concurrent_rebookings_end_witness :
  step_of 1 waiting = None /\ (exists s', rtc advance waiting s' /\ over s') /\ Acc (flip step) waiting.
Proof.
  split; [vm_compute; reflexivity|].
  apply (concurrent_rebookings_end trades swap_db waiting swap_db_valid trades_apart).
  apply advance_steps, after_reached, (bool_decide_eq_true_1 _). vm_compute. reflexivity.
Defined.

(** * Two sessions on one reservation *)

Definition as200 : UUID := 0x1000000000000000003.
Definition as201 : UUID := 0x1000000000000000004.
Definition seg_back : UUID := 0x4000000000000000002.

(** A round trip: out on AS100, back on AS200. *)
Definition round_trip_db : DB := {|
  customers := customers mock_db; passengers := passengers mock_db;
  reservation_passengers := [mkReservationPassenger abc123 doc_alice];
  reservations := [mkReservation abc123 "ABC123" alice R_CONFIRMED 50000 "USD" 0 0];
  flights := flights mock_db ++
    [mkFlight as200 "AS200" "LAX" "JFK" 200 201 F_SCHEDULED 180 0 0;
     mkFlight as201 "AS201" "LAX" "JFK" 201 202 F_SCHEDULED 180 0 0];
  fare_classes := fare_classes mock_db;
  flight_fares :=
    [mkFlightFare 0x201 as100 eco 30000 "USD" 50; mkFlightFare 0x202 as101 flex 27000 "USD" 50;
     mkFlightFare 0x204 as200 eco 20000 "USD" 50; mkFlightFare 0x205 as201 flex 18000 "USD" 50];
  reservation_segments := reservation_segments mock_db ++
    [mkReservationSegment seg_back abc123 as200 eco S_CONFIRMED 20000 "USD" 0 0];
  travel_credits := []; flight_changes := [] |}.

(** Both legs a day later, 30.00 and 20.00 cheaper, without a fee. *)
Definition both_legs : list (Ambient * RebookingSelectionSchema) :=
  [(today, mkSelection seg_abc123 as101 flex None 0); (next_day, mkSelection seg_back as201 flex None 0)].

(** Both sessions read the reservation before either has written it. *)
Definition losing_order : list nat :=
  replicate 14 0%nat ++ replicate 14 1%nat ++ replicate 4 0%nat ++ replicate 4 1%nat.

Lemma round_trip_valid : valid_db round_trip_db.
Proof. valid_by_computation. Defined.

(** Two rebookings of one reservation can lose a refund.  [execute] reads
    the reservation with [session.get], which takes no lock, and writes the
    total it computed from that.  Both legs of this round trip are changed by
    two sessions at once; both succeed, the change log takes 50.00 off, and the
    reservation's total has fallen by 20.00 only. *)
Theorem concurrent_refund_lost :
  exists s, rtc advance (start (rebooking_codes both_legs) round_trip_db) s /\
    valid_db round_trip_db /\ all_committed s = true /\
    charged (committed s) - charged round_trip_db = -5000 /\
    totals (committed s) - totals round_trip_db = -2000.
Proof.
  exists (after losing_order (start (rebooking_codes both_legs) round_trip_db)). split.
  - apply after_reached, (bool_decide_eq_true_1 _). vm_compute. reflexivity.
  - split; [apply round_trip_valid|]. vm_compute. auto.
Qed.

(** The same requests to the asyncpg variant: the second session waits for the
    reservation. *)
Definition both_legs_sql : list SqlRequest :=
  [mkSqlRequest 51 50 0x777 (mkSelection seg_abc123 as101 flex None 0);
   mkSqlRequest 51 50 0x778 (mkSelection seg_back as201 flex None 0)].
Definition both_kept : State RebookingResultSchema :=
  after ([0; 1; 0]%nat ++ replicate 10 0%nat ++ replicate 11 1%nat) (start (sql_codes both_legs_sql) round_trip_db).

Lemma sql_rebookings_serializable_witness :
  step_of 1 (after [0; 1; 0]%nat (start (sql_codes both_legs_sql) round_trip_db)) = None /\
  all_committed both_kept = true /\
  committed both_kept = rebook_all (committed_requests (orm_request <$> both_legs_sql) (ended both_kept)) round_trip_db /\
  totals (committed both_kept) - charged (committed both_kept) = totals round_trip_db - charged round_trip_db.
Proof.
  split; [vm_compute; reflexivity|]. split; [vm_compute; reflexivity|].
  assert (rtc step (start (sql_codes both_legs_sql) round_trip_db) both_kept) as Hreached.
  { apply advance_steps, after_reached, (bool_decide_eq_true_1 _). vm_compute. reflexivity. }
  assert (different_segments both_legs_sql) as Hdiff.
  { apply (bool_decide_eq_true_1 _). vm_compute. reflexivity. }
  destruct (sql_rebookings_serializable both_legs_sql round_trip_db both_kept (vd_inv _ round_trip_valid) Hdiff Hreached)
    as (_ & H1 & _ & H2).
  split; [exact H1|exact H2].
Defined.
