(* ===== verification/AgentFixtures.v ===== *)
(** Concrete turns of the agent on the database of Fixtures: the witnesses of
    the agent's theorems, and a session whose second turn has no retry left. *)
From Stdlib Require Import String.
From stdpp Require Import base numbers strings list sets.
From S2P Require Import Prelude Models Database Rules OrmRebooking RebookingInvariants RebookingOutcome Repositories Fixtures.
From S2P Require Import AirlineService SqlRebooking SqlRepositories PyVal Effects AgentState AgentNodes AgentGraph AgentProperties AgentSafety AgentSystem.
Local Open Scope string_scope.

(** The selections the user can name. *)
Definition pick_elsewhere : RebookingSelection := mkSelection seg_abc123 as101 0x999 None 0%Z.
Definition model_validate1 (v : PyVal) : Res RebookingSelection :=
  if py_eq_str v "AS101 economy" then Ok pick_as101
  else if py_eq_str v "somewhere else" then Ok pick_elsewhere
  else raise ValidationError "selection".

Lemma model_validate1_raises v e : model_validate1 v = Raise e -> isinstance e ValueError = true.
Proof.
  unfold model_validate1. destruct (py_eq_str v _); [discriminate|].
  destruct (py_eq_str v _); [discriminate|]. by intros [= <-].
Defined.

Definition request1 : RebookingRequest := mkRequest "ABC123" None (Some 100%Z) (Some 105%Z).
Definition answer1 (sel : string) : PyVal := PDict [("confirmed", PBool true); ("selection", PStr sel)].

(** The language model finds the request and ranks nothing; the user's choice
    depends on the number of the call. *)
Definition outside1 (choice : nat -> string) R (op : AgentOp R) (n : nat) : Res R :=
  match op in AgentOp R return Res R with
  | LlmUnderstandRequest _ => Ok request1
  | LlmEvaluateOptions rq os cs => Ok (mkEvaluation rq os cs [] "" true)
  | Interrupt _ _ => Ok (answer1 (choice n))
  | _ => raise InfraError "not asked"
  end.
Definition env1 (choice : nat -> string) :=
  port_env (fun _ => 50%Z) (fun _ => today) (outside1 choice) orm_reads orm_rebooking.
Definition sys1 : Sys := mkSys mock_db 0.
Definition turn1 (saved : AgentState) := runner_run model_validate1 25 2 saved "move my flight".

(** The user first asks for something that was not offered (call 5), then for
    a flight that was (call 9). *)
Definition second_thought (n : nat) : string := if (n <? 6)%nat then "somewhere else" else "AS101 economy".
(** Two such attempts. *)
Definition third_thought (n : nat) : string := if (n <? 10)%nat then "somewhere else" else "AS101 economy".
Definition never (n : nat) : string := "somewhere else".

Definition status_of (r : Res AgentState) : option FinalStatus :=
  match r with Ok s => fr_status <$> final s | Raise _ => None end.

Example turn1_completes :
  let '(out, w) := run (env1 second_thought) (turn1 empty_state) sys1 in
  status_of out = Some FS_completed /\ length (flight_changes (sys_db w)) = 1%nat
  /\ questions (steps_of (trace (env1 second_thought) (turn1 empty_state) sys1)) = 2%nat.
Proof. vm_compute. repeat split. Qed.

(** The same turn on the asyncpg repositories. *)
Example turn1_completes_sql :
  let env := port_env (fun _ => 50%Z) (fun _ => today) (outside1 second_thought)
               (repositories_of "asyncpg").1 (repositories_of "asyncpg").2 in
  let '(out, w) := run env (turn1 empty_state) sys1 in
  status_of out = Some FS_completed /\ length (flight_changes (sys_db w)) = 1%nat.
Proof. vm_compute. repeat split. Qed.

Lemma turn_refines_witness :
  (enough_fuel 2 empty_state <= 25)%nat /\
  wp (turn1 empty_state) (fun out tr =>
    Turn model_validate1 "move my flight" 2 0 (steps_of tr) (final_of out)).
Proof.
  split; [vm_compute; lia|].
  apply (turn_refines model_validate1 model_validate1_raises 25 2 empty_state "move my flight").
  vm_compute; lia.
Defined.

Lemma executions_confirmed_witness :
  wp (turn1 empty_state) (fun out tr =>
    forall pre sel x post, steps_of tr = (pre ++ Executed sel x :: post)%list ->
      exists cx, justified model_validate1 cx sel pre post).
Proof.
  apply (executions_confirmed model_validate1 model_validate1_raises 25 2 empty_state "move my flight").
  vm_compute; lia.
Defined.

Lemma reports_truthful_witness :
  wp (turn1 empty_state) (fun out tr =>
    match out with
    | Ok s => exists f, final s = Some f /\ truthful (steps_of tr) f
    | Raise e => unexecuted (steps_of tr) /\ sourced e (steps_of tr)
    end).
Proof.
  apply (reports_truthful model_validate1 model_validate1_raises 25 2 empty_state "move my flight").
  vm_compute; lia.
Defined.

Lemma questions_bounded_witness :
  wp (turn1 empty_state) (fun out tr => (questions (steps_of tr) <= 3)%nat).
Proof.
  apply (questions_bounded model_validate1 model_validate1_raises 25 2 empty_state "move my flight").
  vm_compute; lia.
Defined.

Lemma turn_rebooks_witness :
  status_of (run (env1 second_thought) (turn1 empty_state) sys1).1 = Some FS_completed /\
  Rebooks model_validate1 mock_db (sys_db (run (env1 second_thought) (turn1 empty_state) sys1).2)
    (final_of (run (env1 second_thought) (turn1 empty_state) sys1).1)
    (steps_of (trace (env1 second_thought) (turn1 empty_state) sys1)).
Proof.
  split; [vm_compute; reflexivity|].
  apply (turn_rebooks (fun _ => 50%Z) (fun _ => today) (outside1 second_thought)
    orm_reads orm_rebooking orm_rebooking_laws model_validate1 model_validate1_raises 25 2 empty_state "move my flight" sys1).
  - vm_compute; lia.
  - apply mock_db_inv.
Defined.

Lemma turn_keeps_invariant_witness :
  db_inv (sys_db (run (env1 second_thought) (turn1 empty_state) sys1).2).
Proof.
  apply (turn_keeps_invariant (fun _ => 50%Z) (fun _ => today) (outside1 second_thought)
    orm_reads orm_rebooking orm_rebooking_laws model_validate1 model_validate1_raises 25 2 empty_state "move my flight" sys1).
  - vm_compute; lia.
  - apply mock_db_inv.
Defined.

(** * The service *)

Definition input1 : SearchRebookingOptionsInputSchema := mkSearchInput seg_abc123 100%Z 105%Z 1.
Definition option1 : RebookingOptionSchema :=
  mkRebookingOption (mkFlight as101 "AS101" "JFK" "LAX" 101 102 F_SCHEDULED 180 0 0)
    (mkFareClass eco "ECO" "Economy" true true 2500 5000 0) (mkFlightFare 0x202 as101 eco 33000 "USD" 100)
    3000 2500.
Definition options1 : list RebookingOptionSchema :=
  match search_rebooking_options orm_reads mock_db input1 with Ok os => os | Raise _ => [] end.

Example search1 : length options1 = 3%nat.
Proof. reflexivity. Qed.

Lemma search_spec_witness : SearchAnswer mock_db input1 (search_rebooking_options orm_reads mock_db input1).
Proof. apply (search_spec orm_reads mock_db input1); [apply orm_reads_laws|apply mock_schema_ok]. Defined.

Lemma get_reservation_spec_witness :
  ("ABC123" = "" /\ is_ok (service_get_reservation orm_reads mock_db "ABC123") = false)
  \/ ("ABC123" <> "" /\
      DetailsAnswer mock_db "ABC123" (service_get_reservation orm_reads mock_db "ABC123")).
Proof.
  apply (get_reservation_spec orm_reads mock_db "ABC123"); [apply orm_reads_laws|apply mock_schema_ok].
Defined.

Lemma offered_is_accepted_witness :
  exists seg r, (exists v, service_validate (Some orm_rebooking) mock_db 50 pick_as101 = Ok v)
    <-> Acceptable mock_db 50 seg r option1 pick_as101.
Proof.
  eexists (mkReservationSegment seg_abc123 abc123 as100 eco S_CONFIRMED 30000 "USD" 0 0),
    (mkReservation abc123 "ABC123" alice R_CONFIRMED 30000 "USD" 0 0).
  apply (offered_is_accepted orm_reads orm_rebooking mock_db input1 options1 option1 _ _ 50 pick_as101
    orm_reads_laws orm_rebooking_laws mock_schema_ok);
    try (vm_compute; reflexivity).
  apply list_elem_of_In. vm_compute. tauto.
Defined.

(** * The retries of a session *)

Definition after (choice : nat -> string) : Res AgentState * Sys :=
  run (env1 choice) (turn1 empty_state) sys1.

(** The retries of a session are counted once and for all: [run] passes
    [max_retries] with every message but never resets [retry_count], so after
    a turn that needed its two retries and completed, the first refused
    selection of the next turn ends it as failed, without the retries of a
    first turn. *)
Theorem retries_carry_over :
  match after third_thought with
  | (Ok saved, w) =>
      status_of (Ok saved) = Some FS_completed /\ retry_count saved = Some 2%Z
      /\ questions (steps_of (trace (env1 never) (turn1 saved) w)) = 1%nat
      /\ questions (steps_of (trace (env1 never) (turn1 empty_state) w)) = 3%nat
      /\ status_of (run (env1 never) (turn1 saved) w).1 = Some FS_failed
  | (Raise _, _) => False
  end.
Proof. vm_compute. repeat split. Qed.
