(* ===== verification/ViewFixtures.v ===== *)
(** A validator with the documented laws, a serializer that loses every class,
    and a thread of AgentFixtures resumed on what it restored. *)
From Stdlib Require Import String.
From stdpp Require Import base numbers strings list gmap.
From S2P Require Import Prelude Models Database PyVal Effects AgentState AgentNodes AgentGraph AgentSystem AgentFixtures Fixtures.
From S2P Require Import Simulation PyObject RawNodes RestoredStates RestoredRuns.
Local Open Scope string_scope.

(** Ids tell a selection from what a user typed. *)
Definition fields_ok (cls : string) (d : list (string * Obj)) : bool :=
  negb (cls =? "RebookingSelection") ||
  match lookup_key "segment_id" d with Some (OUuid _) => true | _ => false end.

#[export] Instance validator1 : Validator := fun cls v =>
  match v with
  | OModel c d => if (c =? cls) && fields_ok cls d then Ok v else raise ValidationError "selection"
  | ODict d => if fields_ok cls d then Ok (OModel cls d) else raise ValidationError "selection"
  | OStr s =>
      if (cls =? "RebookingSelection") then
        match model_validate1 (PStr s) with Ok sel => Ok (dump sel) | Raise e => Raise e end
      else raise ValidationError "selection"
  | _ => raise ValidationError "selection"
  end.

Lemma instance_fields_ok cls d d' : Instance (OModel cls d') -> Kept d d' -> fields_ok cls d = true.
Proof.
  intros Hi Hk. inversion Hi; subst; try done.
  inversion Hk as [|k v y d1 d2 Hv _]; subst. unfold fields_ok. cbn.
  destruct Hv as [->|[Hv _]]; [done|]. by rewrite (view_leaf _ _ Hv eq_refl).
Defined.

#[export] Instance validator1_laws : ValidatorLaws validator1 model_validate1.
Proof.
  split.
  - intros cls d d' Hi Hk. unfold model_validate, validator1. by rewrite (instance_fields_ok cls d d').
  - intros cls d Hi. unfold model_validate, validator1. rewrite String.eqb_refl.
    by rewrite (instance_fields_ok cls d d) by (done || apply kept_refl).
  - intros d x Hd. left. exists (OModel "ReservationDetailsSchema" d). split; [done|].
    inversion Hd; subst. by apply view_model.
  - intros v. unfold model_validate, validator1, model_validate1.
    destruct v; cbn; try done; unfold fields_ok.
    + rewrite lookup_lift. destruct (entry _ _) as [[]|]; done.
    + rewrite lookup_lift. destruct (_ =? _); [|done]. destruct (entry _ _) as [[]|]; done.
Defined.

(** The thread when it asks its question: four steps of the turn. *)
Fixpoint advance (n : nat) (active : list Node) (s : AgentState) (w : Sys) : AgentState :=
  match n with
  | O => s
  | S n' =>
      match run (env1 second_thought) (superstep model_validate1 graph active s) w with
      | (Ok (active', s'), w') => advance n' active' s' w'
      | _ => s
      end
  end.
Definition asking1 : AgentState :=
  Eval vm_compute in advance 4 [N_understand_request] (run_input "move my flight" 2) sys1.

(** Every instance comes back as a dict. *)
Definition restore1 (i : nat) (raw : RawState) : RawState := _plain <$> raw.
Definition restored1 : RawState := _plain <$> dict_of asking1.

Lemma restored1_view : StateView [] restored1 asking1.
Proof. apply (restored_view [] _ (dict_of asking1)); [apply plain_restored|apply dict_of_view]. Defined.

(** The ports of AgentFixtures on objects; the user picks a flight. *)
Definition selection_of (o : Obj) : option RebookingSelection :=
  match o with
  | OModel _ [(_, OUuid s); (_, OUuid f); (_, OUuid c); (_, credit); (_, ODecimal a)] =>
      Some (mkSelection s f c (match credit with OUuid u => Some u | _ => None end) a)
  | _ => None
  end.
Definition port1 {X} (op : RebookingSelection -> AgentOp X) (o : Obj) (w : Sys) : Res X * Sys :=
  match selection_of o with
  | Some sel => env1 second_thought _ (op sel) w
  | None => (raise TypeError "not a selection", w)
  end.
Definition raw_env1 X (op : RawOp X) (w : Sys) : Res X * Sys :=
  match op in RawOp X return Res X * Sys with
  | RawInterrupt _ => (Ok (answer1 "AS101 economy"), w)
  | RawValidateChange o => port1 PortValidateChange o w
  | RawExecuteRebooking o => port1 PortExecuteRebooking o w
  | RawVerifyRebooking o => port1 PortVerifyRebooking o w
  | _ => (raise InfraError "not asked", w)
  end.

Example restored1_plain : forallb (fun e => plain_data e.2) (map_to_list restored1) = true
  /\ is_model (state_get (dict_of asking1) "evaluation") = true.
Proof. split; vm_compute; reflexivity. Qed.

(** The answer rebooks although everything was restored as dicts. *)
Example restored1_completes :
  let '(out, w) := run raw_env1 (raw_invoke restore1 graph 25 [N_ask_confirmation] restored1) sys1 in
  match out with
  | Ok s => match state_get s "final" with
            | OModel _ (("status", OStr status) :: _) => status | _ => "" end
  | Raise e => exn_str e
  end = "completed"
  /\ length (flight_changes (sys_db w)) = 1%nat.
Proof. vm_compute. by split. Qed.

Lemma restored_runs_witness : StateView [] restored1 asking1 /\
  Same (raw_invoke restore1 graph 25 [N_ask_confirmation] restored1)
       (invoke model_validate1 graph 25 [N_ask_confirmation] asking1).
Proof.
  split; [apply restored1_view|].
  apply (restored_runs validator1 model_validate1 restore1 25 2 "again" restored1 asking1);
    [intros i r; apply plain_restored|apply restored1_view].
Defined.
