(* ===== verification/LlmFixtures.v ===== *)
(** A client of the language model talking to the fake model, on the options of
    AgentFixtures: example responses and the witnesses of OpenRouter and
    FakeLlm. *)
From Stdlib Require Import String.
From stdpp Require Import base numbers strings list.
From S2P Require Import Prelude Models Uuid Fixtures PyVal JsonFixtures Effects Config.
From S2P Require Import AgentState AgentNodes AgentFixtures OpenRouter FakeLlm.
Local Open Scope string_scope.

Definition llm_settings1 : Settings :=
  mkSettings "0.0.0.0:8080" "INFO" "postgresql://unused" "redis://unused" 50 "amqp://unused" "jobs"
    1 "orm" 3 1000 300000 true 7 60 1 1 1 "test-model" "secret" "https://openrouter.test/api/v1/".
Definition llm1 : OpenRouterLLM := mkLLM llm_settings1 true.

Example init1 : OpenRouterLLM_init llm_settings1 false = Ok llm1.
Proof. reflexivity. Qed.
Example url1 : completions_url llm1 = "https://openrouter.test/api/v1/chat/completions".
Proof. reflexivity. Qed.

Definition raise_for_status1 (r : Response) : Res unit :=
  if (status_code r =? 200)%Z then Ok tt else raise InfraError "HTTPStatusError".

(** ** Bodies of responses *)

Definition says (content : PyVal) : PyVal :=
  PDict [("choices", PList [PDict [("message", PDict [("content", content)])]])].
(** What [_complete] makes of a 200 response with this body. *)
Definition parsed (body : PyVal) : Res PyVal :=
  (run (fun R (op : HttpOp R) (w : unit) =>
     (match op in HttpOp R return Res R with
      | Post _ _ _ => Ok (mkResponse 200 (toy_dumps body))
      | Aclose => Ok tt
      end, w))
     (_complete toy_loads toy_dumps raise_for_status1 llm1 "" "") tt).1.

Example parsed_bodies :
  parsed (says (PStr (toy_dumps (PDict [("summary", PStr "ok")])))) = Ok (PDict [("summary", PStr "ok")]) /\
  parsed (says (PList [PDict [("text", PStr (toy_dumps (PInt 7)))]; PDict []])) = Ok (PInt 7) /\
  parsed (PDict [("choices", PList [])]) = Raise invalid_response /\
  parsed (PList []) = Raise invalid_response /\
  parsed (says PNone) = Raise invalid_response /\
  exn_type (match parsed (says (PList [PStr "text"])) with Raise e => e | Ok _ => invalid_response end)
    = AttributeError.
Proof. vm_compute. repeat split. Qed.

(** ** The fake model *)

Example references :
  booking_reference "I need to rebook reservation BK000042 between 2026-09-21 and 2026-09-23" = "BK000042" /\
  booking_reference "xBK000042 or BK0000421, please, Carla" = "GHI789" /\
  booking_reference "(BK123456)" = "BK123456" /\
  booking_reference "Alice here" = "ABC123" /\
  booking_reference "hello" = "DEF456".
Proof. vm_compute. repeat split. Qed.

Definition dump_option1 (o : RebookingOptionSchema) : PyVal :=
  PDict [("flight", PDict [("id", PStr (uuid_str (f_id (ro_flight o))))])].
Definition dump_nothing {A} (a : A) : PyVal := PDict [].

(** The reader of a ranking: texts as ids. *)
Definition ids_of (v : PyVal) : list UUID :=
  match v with
  | PList l => omap (fun i => match i with PStr s => Some (parse_uuid s) | _ => None end) l
  | _ => []
  end.
Definition validate_ranking1 (d : list (string * PyVal)) : Res (list UUID * string * bool) :=
  match get d "summary" with
  | PStr summary => Ok (ids_of (get d "ranked_option_ids"), summary, truthy (get d "has_matching_option"))
  | _ => raise ValidationError "summary"
  end.

Lemma parse_ranking1 ids summary matching : Forall uuid_ok ids ->
  validate_ranking1 [
    ("ranked_option_ids", PList ((fun id => PStr (uuid_str id)) <$> ids));
    ("summary", PStr summary); ("has_matching_option", PBool matching)] = Ok (ids, summary, matching).
Proof.
  intros Hids. unfold validate_ranking1. cbn. do 2 f_equal. f_equal.
  induction Hids as [|id ids Hid _ IH]; [done|]. cbn. by rewrite parse_uuid_str, IH.
Qed.

Definition validate_request1 (v : PyVal) : Res RebookingRequest :=
  match v with
  | PDict d =>
      match get d "booking_reference" with
      | PStr s => Ok (mkRequest s None (Some 100%Z) (Some 105%Z))
      | _ => raise ValidationError "booking_reference"
      end
  | _ => raise ValidationError "model_type"
  end.

(** * Witnesses *)

Definition state1 : AgentState :=
  mkState None (Some request1) None (Some (mkSearchResult request1 options1))
    (Some (mkCreditsResult request1 [])) None None None None None None None None None None.

Lemma evaluation_grounded_witness :
  wp (evaluate_options toy_loads toy_dumps raise_for_status1 validate_ranking1
        dump_nothing dump_option1 dump_nothing llm1 request1 options1 []) (fun r tr =>
    (exists outcome, tr = sent_prompt toy_dumps llm1 EVALUATE_OPTIONS
       (toy_dumps (evaluation_prompt dump_nothing dump_option1 dump_nothing request1 options1 [])) outcome) /\
    forall ev, r = Ok ev ->
      ev = with_context request1 options1 [] ev /\
      (forall id, id ∈ ev_ranked_option_ids ev ->
         exists o, o ∈ options1 /\ (id = f_id (ro_flight o) \/ id = ff_id (ro_flight_fare o))) /\
      forall W (env : forall R, AgentOp R -> W -> Res R * W) w w',
        env _ (LlmEvaluateOptions request1 options1 []) w = (Ok ev, w') ->
        run env (AgentNodes.evaluate_options state1) w = (Ok (put_evaluation ev), w')).
Proof.
  apply (evaluation_grounded toy_loads toy_dumps raise_for_status1 validate_ranking1
    dump_nothing dump_option1 dump_nothing llm1 state1 request1
    (mkSearchResult request1 options1) (mkCreditsResult request1 [])); reflexivity.
Defined.

Lemma complete_contract_witness :
  wp (_complete toy_loads toy_dumps raise_for_status1 llm1 "s" "u") (fun r tr =>
    exists outcome, tr = sent_prompt toy_dumps llm1 "s" "u" outcome /\
      match r with
      | Ok v => exists response body text, outcome = Ok response /\
          raise_for_status1 response = Ok tt /\
          toy_loads (content response) = Ok body /\ completion_says body text /\
          toy_loads text = Ok v
      | Raise e => CompleteFails toy_loads raise_for_status1 outcome e
      end).
Proof. apply (complete_contract toy_loads toy_dumps raise_for_status1 llm1 toy_raises). Defined.

Lemma success1 r : status_code r = 200%Z -> raise_for_status1 r = Ok tt.
Proof. unfold raise_for_status1. by intros ->. Qed.

Lemma fake_understands_witness :
  run (fake_http toy_loads toy_dumps)
    (understand_request toy_loads toy_dumps raise_for_status1 validate_request1 llm1 "Alice here") 0
  = (Ok (mkRequest "ABC123" None (Some 100%Z) (Some 105%Z)), 1).
Proof.
  apply (fake_understands toy_loads toy_dumps toy_roundtrip raise_for_status1 success1 validate_request1).
Defined.

Lemma dump_flight1 o : exists d f, dump_option1 o = PDict d /\
  entry "flight" d = Some (PDict f) /\ entry "id" f = Some (PStr (uuid_str (f_id (ro_flight o)))).
Proof. eexists _, _. split; [reflexivity|]. split; reflexivity. Qed.

Lemma fake_ranking_witness :
  run (fake_http toy_loads toy_dumps)
    (evaluate_options toy_loads toy_dumps raise_for_status1 validate_ranking1
       dump_nothing dump_option1 dump_nothing llm1 request1 [option1] []) 0 =
  (Ok (mkEvaluation request1 [option1] [] [as101] "deterministic integration option" true), 1).
Proof.
  apply (fake_ranking_accepted toy_loads toy_dumps toy_roundtrip raise_for_status1 success1
    validate_ranking1 dump_nothing dump_option1 dump_nothing llm1 dump_flight1 parse_ranking1).
  repeat constructor.
Defined.
