(* ===== verification/BenchFixtures.v ===== *)
(** A small benchmark run and the application's start: examples and the
    witnesses of LoadProperties, SummaryProperties, Report, BenchChat and
    Application. *)
From Stdlib Require Import String QArith.
From stdpp Require Import base numbers strings list sets gmap sorting relations.
From S2P Require Import Prelude Models Uuid PyVal PyFloat Pydantic Effects Config LoadGenerator LoadProperties LoadSummary SummaryProperties LoadServices LoadRuns Report.
From S2P Require Import JobService ChatRouter AgentGraph OpenRouter FakeLlm Application ChatProperties ChatFixtures BenchChat LlmFixtures.
Local Open Scope string_scope.

(** * Identifiers, shards and users *)

Definition seeded42 : Ids :=
  mkIds "b3000000-0000-0000-0000-000000000042" "b6000000-0000-0000-0000-000000000042"
    "b1100000-0000-0000-0000-000000000002" "BK000042".
Definition seeded7 : Ids :=
  mkIds "b3000000-0000-0000-0000-000000000007" "b6000000-0000-0000-0000-000000000007"
    "b1100000-0000-0000-0000-000000000007" "BK000007".

Example ids42 : ids 42 10 = Ok seeded42.
Proof. vm_compute. reflexivity. Qed.

Lemma ids_distinct_witness :
  (id_user_id seeded42 = id_user_id seeded7 <-> (42 = 7)%N) /\
  (id_segment_id seeded42 = id_segment_id seeded7 <-> (42 = 7)%N) /\
  (id_booking_reference seeded42 = id_booking_reference seeded7 <-> (42 = 7)%N) /\
  (session_of "run" 42 = session_of "run" 7 <-> (42 = 7)%N) /\
  (forall phase phase', bench_key "run" 42 phase = bench_key "run" 7 phase' <-> (42 = 7)%N /\ phase = phase') /\
  (id_new_flight_id seeded42 = id_new_flight_id seeded7 <-> (42 mod 10 = 7 mod 10)%N).
Proof. apply (ids_distinct "run" 10 42 7); vm_compute; reflexivity. Defined.

Example shards3 : (shard_indices 1 10 3 0 5, shard_indices 1 10 3 1 5, shard_indices 1 10 3 2 5)
  = ([1; 4; 7; 10], [2; 5; 8], [3; 6; 9])%N.
Proof. reflexivity. Qed.

Lemma shards_partition_witness :
  (forall k n, (k < 3)%N ->
     NoDup (shard_indices 1 10 3 k n) /\
     forall i, i ∈ shard_indices 1 10 3 k n -> (1 <= i <= 10)%N /\ ((i - 1) mod 3 = k)%N) /\
  (forall i, (1 <= i <= 10)%N -> i ∈ shard_indices 1 10 3 ((i - 1) mod 3) (S (N.to_nat (i - 1)))).
Proof. apply (shards_partition 1 10 3). reflexivity. Defined.

Lemma users_split_witness :
  sum_N (users_of_shard 10 4 <$> (N.of_nat <$> seq 0 4)) = 10%N /\
  forall k, (k < 4)%N -> (2 <= users_of_shard 10 4 k <= 3)%N.
Proof. apply (users_split 10 4). reflexivity. Defined.

(** * A conversation *)

(** The API accepts both jobs and both reach their statuses. *)
Definition api1 R (op : BenchOp R) (w : unit) : Res R * unit :=
  (match op in BenchOp R return Res R with
   | PostChat _ key => Ok [("id", key); ("status", "published")]
   | WaitStatus _ targets => Ok (default "failed" (head targets))
   end, w).
Definition type_name1 (e : Exn) : string := "RuntimeError".

Definition conversation1 : Res Conversation := (run api1 (conversation "run" 10 type_name1 42 100 103) tt).1.
Example conversation1_ok :
  conversation1 = Ok (mkConversation 42 100 103 true "" "run-42-start" "run-42-resume" ∅).
Proof. vm_compute. reflexivity. Qed.

Lemma conversation_course_witness :
  wp (conversation "run" 10 type_name1 42 100 103) (fun r tr =>
    exists c error, r = Ok c /\ Course "run" 42 seeded42 (start_job c) (resume_job c) error tr /\
      cv_index c = 42%N /\ client_start c = 100%Q /\ client_end c = 103%Q /\ timings c = ∅ /\
      (cv_ok c = true <-> error = None) /\
      cv_error c = match error with Some e => error_text type_name1 e | None => "" end).
Proof. apply (conversation_course "run" 10 type_name1 42 seeded42 100 103). vm_compute. reflexivity. Defined.

(** * The watcher and the queue *)

Definition waiting : Waiters := register "job" {["completed"]} ∅.
Lemma watcher_witness :
  "failed" ∈ w_targets (mkWaiter ({["completed"]} ∪ {["failed"]}) None) /\
  (forall s, w_result (mkWaiter ({["completed"]} ∪ {["failed"]}) None) = Some s ->
     s ∈ w_targets (mkWaiter ({["completed"]} ∪ {["failed"]}) None)) /\
  forall s chunk statuses, w_result (mkWaiter ({["completed"]} ∪ {["failed"]}) None) = Some s ->
    settle_chunk chunk statuses waiting !! "job" = Some (mkWaiter ({["completed"]} ∪ {["failed"]}) None).
Proof.
  apply (watcher_delivers_targets waiting); [|reflexivity].
  apply rtc_once. apply (ws_wait ∅ "job" {["completed"]}).
Defined.

(** A queue that empties after two seconds. *)
Definition queue1 R (op : DrainOp R) (now : Q) : Res R * Q :=
  match op in DrainOp R return Res R * Q with
  | DrainNow => (Ok now, now)
  | GetQueue => (Ok [("messages_ready", (if Qle_bool 102 now then 0 else 5)%Z)], now)
  | DrainSleep _ => (Ok tt, (now + 1)%Q)
  end.
Example drained1 : (run queue1 (drain_loop 200 280) 100%Q).1 = Ok (Some true).
Proof. vm_compute. reflexivity. Qed.

Lemma drain_terminates_witness :
  drain_ended 280 (run queue1 (drain_loop 181 280) 100%Q).1 (trace queue1 (drain_loop 181 280) 100%Q).
Proof.
  apply (drain_terminates queue1 (fun now => now)) with (n := 180%nat); try done; try lia.
  - intros w. apply Qle_refl.
  - intros w. apply Qle_refl.
Defined.

(** * Statistics *)

Lemma percentiles_witness : [3; 1; 2]%Q <> [] /\ exists a b c m,
  dist [3; 1; 2]%Q = mkDist (Some (round_to 1 a)) (Some (round_to 1 b)) (Some (round_to 1 c))
                    (Some (round_to 1 (fmean [3; 1; 2]%Q))) (Some (round_to 1 m)) /\
  a ∈ [3; 1; 2]%Q /\ b ∈ [3; 1; 2]%Q /\ c ∈ [3; 1; 2]%Q /\ m ∈ [3; 1; 2]%Q /\
  (round_to 1 a <= round_to 1 b)%Q /\ (round_to 1 b <= round_to 1 c)%Q /\ (round_to 1 c <= round_to 1 m)%Q.
Proof. split; [done|]. by apply (percentiles_ordered [3; 1; 2]%Q). Defined.

Lemma p50_witness : exists x, x ∈ [3; 1; 2]%Q /\ percentile [3; 1; 2]%Q 50 = Some (round_to 1 x) /\
  (3 <= 2 * at_most x [3; 1; 2]%Q)%nat /\ (3 <= 2 * at_least x [3; 1; 2]%Q)%nat.
Proof. apply (p50_is_median [3; 1; 2]%Q); [done|reflexivity]. Defined.

Definition stamps (p s f : Z) : Timing := {[ "published_ms" := p; "started_ms" := s; "finished_ms" := f ]}.
Definition timed1 : Conversation :=
  mkConversation 42 100 103 true "" "a" "b" {[ "start" := stamps 1000 1010 1500; "resume" := stamps 1600 1620 2000 ]}.
Definition timed2 : Conversation :=
  mkConversation 43 100 104 false "timeout" "c" "" {[ "start" := stamps 1000 1010 1500 ]}.

Example summary1 :
  let s := summarize 2 [timed1; timed2] 100 110 [] 10 in
  (s_conversations_measured s, s_conversations_ok s, s_conversations_failed s, s_error_rate s,
   p50 (s_conversation_ms s), p50 (s_client_gap_ms s), map_to_list (s_errors s)) =
  (2, 1, 1, Some (1 # 2), Some 1000%Q, Some 100%Q, [("timeout", 1%nat)]).
Proof. vm_compute. reflexivity. Qed.

Lemma stamped1 : stamped timed1.
Proof. split_and!; by eexists. Defined.

Lemma conversation_time_witness :
  length (conversation_ms [timed1]) = 1%nat /\
  Forall2 Qeq (conversation_ms [timed1]) (zip_with Qplus (server_ms [timed1]) (client_gap [timed1])).
Proof. apply (conversation_time_decomposes [timed1]). constructor; [apply stamped1|constructor]. Defined.

(** * The report *)

Definition level1 (users : N) (p95 : Q) : Level := mkLevel users (Some p95) (Some 0%Q) 1 None ∅.
Definition levels1 : list Level := [level1 1 100; level1 10 150; level1 25 210; level1 50 190].
Example capacity1 : capacity levels1 2 (1 # 100) = (Some 10%N, Some 200%Q).
Proof. vm_compute. reflexivity. Qed.

Lemma levels1_sorted : StronglySorted (fun a b => lv_users a < lv_users b)%N levels1.
Proof. repeat constructor. Qed.

Lemma capacity_witness :
  (exists b, baseline_of levels1 = Some b /\ ~ b == 0 /\ 200%Q = fl (2 * b)) /\
  (exists l, l ∈ levels1 /\ lv_users l = 10%N) /\
  (forall l, l ∈ levels1 -> (lv_users l <= 10)%N -> meets (1 # 100) 200 l) /\
  (forall l, l ∈ levels1 -> (10 < lv_users l)%N ->
     exists l', l' ∈ levels1 /\ (10 < lv_users l' <= lv_users l)%N /\ ~ meets (1 # 100) 200 l').
Proof. apply (capacity_spec 2 (1 # 100) levels1 levels1_sorted). Defined.

(** The baseline is the first level's p95, whatever its users. *)
Theorem baseline_not_single_user :
  exists levels, Forall (fun l => (1 < lv_users l)%N) levels /\
    capacity levels 2 (1 # 100) = (Some 50%N, Some 800%Q).
Proof. exists [level1 25 400; level1 50 700; level1 100 900]. split; [repeat constructor|]. vm_compute. reflexivity. Qed.

Lemma report_errors_witness :
  total (errors_of_run ((fun s => level_of s.1 s.2) <$> [(summarize 2 [timed1; timed2] 100 110 [] 10, None)])) = 1%nat.
Proof.
  apply (report_errors_total [(summarize 2 [timed1; timed2] 100 110 [] 10, None)]).
  constructor; [vm_compute; reflexivity|constructor].
Defined.

(** * The benchmark and the system *)

Lemma bench_booking_witness : booking_reference (bench_message seeded42) = "BK000042".
Proof. apply (bench_booking_recognized 42 10 seeded42); [vm_compute; reflexivity|reflexivity]. Defined.

(** A parser of selections whose ids are texts. *)
#[local] Instance texts : Pydantic := {|
  validate_str := lax_str;
  validate_bool := lax_bool;
  validate_selection v :=
    match v with
    | PDict d =>
        match get d "segment_id", parse_sel v with
        | PStr s, _ => Valid (mkSelection (parse_uuid s) 0 0 None 0)
        | _, Some s => Valid s
        | _, None => Invalid (mkError "missing" ["segment_id"] "Field required") []
        end
    | _ => Invalid (mkError "model_type" [] "Input should be a valid dictionary") []
    end;
  dump_selection := dump_sel;
  parse_selection v := or_raise (parse_sel v) ValidationError "1 validation error" |}.

#[local] Instance texts_laws : PydanticLaws texts.
Proof.
  split.
  - apply (str_valid (PydanticLaws := lax_laws)).
  - done.
  - done.
  - intros s. cbn [validate_selection dump_selection texts]. by rewrite parse_dump_sel.
  - intros s. cbn [parse_selection dump_selection texts]. by rewrite parse_dump_sel.
Qed.

Lemma bench_bodies_witness :
  exists start resume,
    validate_chat (start_body "run" 42 seeded42) = Valid start /\
    validate_chat (resume_body "run" 42 seeded42) = Valid resume /\
    ch_message start = Some (bench_message seeded42) /\ ch_resume start = None /\
    ch_resume resume = Some (mkResume true (Some (mkSelection 0xb6000000000000000000000000000042 0 0 None 0))) /\
    ch_message resume = None /\
    thread_id (ch_user_id start) (ch_session_id start) = thread_id (ch_user_id resume) (ch_session_id resume) /\
    forall index' seeded', ids index' 10 = Ok seeded' ->
      thread_id (ch_user_id start) (ch_session_id start) =
      thread_id (id_user_id seeded') (session_of "run" index') -> 42%N = index'.
Proof. apply (bench_bodies_accepted (PL := texts_laws) "run" 42 10 seeded42); vm_compute; reflexivity. Defined.

(** * The application *)

(** Everything works, except that the operation [broken] fails. *)
Definition outcome_of {R} (op : AppOp R) : R :=
  match op in AppOp R return R with
  | CreatePool _ => tt | PoolSelect1 => tt | CreateEngine _ => tt | EngineSelect1 => tt
  | NewHttpClient _ _ => tt | NewCheckpointPool _ _ => tt | OpenCheckpoints => tt | SetupCheckpoints => tt
  | NewRedis _ _ => tt | PingRedis => tt | OpenRabbit _ => tt | DeclareQueues => tt
  | StartJobs => tt | Serve => tt | StopJobs => tt | CloseRabbit => tt | CloseLlm => tt
  | CloseCheckpoints => tt | CloseRedis => tt | ClosePool => tt | DisposeEngine => tt
  end.
Definition host (broken : forall R, AppOp R -> bool) R (op : AppOp R) (w : unit) : Res R * unit :=
  (if broken R op then raise InfraError "connection refused" else Ok (outcome_of op), w).

Definition nothing R (op : AppOp R) : bool := false.
Definition declaring R (op : AppOp R) : bool := match op with DeclareQueues => true | _ => false end.

Example lifespan_closes_all :
  closed (trace (host nothing) (lifespan llm_settings1) tt) =
  [Jobs; Rabbit; Llm; Checkpoints; RedisClient; Engine].
Proof. vm_compute. reflexivity. Qed.

(** When declaring the queues fails at the start, the broker connection that
    was just opened is not closed: [RabbitMQ.connect] had not returned it. *)
Theorem broker_connection_lost :
  let tr := trace (host declaring) (lifespan llm_settings1) tt in
  Rabbit ∈ opened tr /\ Rabbit ∉ closed tr /\ closed tr = [Llm; Checkpoints; RedisClient; Engine].
Proof.
  cbv zeta.
  assert (opened (trace (host declaring) (lifespan llm_settings1) tt) =
    [Engine; Llm; Checkpoints; RedisClient; Rabbit]) as -> by (vm_compute; reflexivity).
  assert (closed (trace (host declaring) (lifespan llm_settings1) tt) =
    [Llm; Checkpoints; RedisClient; Engine]) as -> by (vm_compute; reflexivity).
  split; [set_solver|]. split; [set_solver|done].
Qed.

(** ** The container sampler ends at the first row it cannot read *)

Definition float1 (s : string) : Res Q :=
  if (s =? "1.5")%string then Ok (3 # 2)%Q else if (s =? "64")%string then Ok 64%Q
  else raise ValueError "could not convert string to float".
Definition stats_row (name cpu mem : string) : list (string * PyVal) :=
  [("Name", PStr name); ("CPUPerc", PStr cpu); ("MemUsage", PStr mem)].
Definition loads1 (line : string) : Res (list (string * PyVal)) :=
  if (line =? "running")%string then Ok (stats_row "bench-worker-1" "1.5%" "64MiB / 1GiB")
  else Ok (stats_row "bench-api-1" "--" "-- / --").
(** A container of the project has just started: docker shows dashes for it. *)
Definition docker1 R (op : SamplerOp R) (now : Q) : Res R * Q :=
  match op in SamplerOp R return Res R * Q with
  | DockerStats => (Ok (if Qeq_bool now 2 then ["running"; "starting"; "running"] else ["running"])%string, now)
  | SamplerNow => (Ok now, now)
  | SamplerSleep _ => (Ok tt, (now + 1)%Q)
  | QueueDepth => (Ok [], now)
  end.

(** Of a hundred rounds three are run, and nothing is sampled after that. *)
Example docker_row_ends_sampling :
  let sampled := run docker1 (_docker loads1 float1 100 "bench" []) 0%Q in
  match sampled.1 with
  | Ok (containers, error) => (length containers, exn_type <$> error) | Raise _ => (O, None)
  end = (3%nat, Some ValueError)
  /\ length (docker_reads (trace docker1 (_docker loads1 float1 100 "bench" []) 0%Q)) = 3%nat.
Proof. vm_compute. by split. Qed.

(** ** A run whose second level fails *)

Definition quiet_level (users : N) : LevelResult :=
  level_result (fun l => foldr Qplus 0%Q l) 2 5 30 users 0 [] [] [] 1.
Definition main1 R (op : MainOp R) (w : unit) : Res R * unit :=
  match op in MainOp R return Res R * unit with
  | RunLevel users => (if (users =? 10)%N then raise InfraError "connection lost" else Ok (quiet_level users), w)
  | DrainQueue | WriteOut _ | SendStop _ | JoinShard _ _ | CloseMaster => (Ok tt, w)
  end.
Example main1_keeps_first :
  let tr := trace main1 (main_levels 2 [1; 10; 25]%N) tt in
  ((results tr).*1, length (written tr), is_ok (run main1 (main_levels 2 [1; 10; 25]%N) tt).1)
  = ([1%N], 1%nat, false).
Proof. vm_compute. done. Qed.
