(* ===== verification/JobFixtures.v ===== *)
(** Concrete jobs, agents and servers: the witnesses of the job system's
    theorems, and a run in which a failing ack makes the agent run twice. *)
From Stdlib Require Import String Ascii.
From stdpp Require Import base numbers strings list sets gmap.
From S2P Require Import Prelude Models Uuid PyVal Effects JobService.
From S2P Require Import JobProperties JobRequests RedisStore Config RabbitMQ JobSystem.
Local Open Scope string_scope.

Definition request1 : list (string * PyVal) :=
  [("user_id", PStr "u1"); ("session_id", PStr "s1"); ("message", PStr "hello")].
Definition job1 : Job := mkJob (PStr "job-1") (PDict request1) (PInt 0) PNone.

(** A codec for the attempts of [job1]: the count in unary. *)
Definition encode1 (job : Job) : string :=
  match j_attempt job with
  | PInt n => string_of_list_ascii (replicate (Z.to_nat n) "a"%char)
  | _ => ""
  end.
Definition loads1 (body : string) : Res PyVal :=
  Ok (envelope (with_attempt (PInt (Z.of_nat (String.length body))) job1)).
Definition str1 (v : PyVal) : string := "".

Lemma length_replicate_a n : String.length (string_of_list_ascii (replicate n "a"%char)) = n.
Proof. induction n as [|n IH]; [done|]. cbn. by rewrite IH. Qed.

Lemma decode1 n : (0 <= n)%Z ->
  decode loads1 (encode1 (with_attempt (PInt n) job1)) = Ok (with_attempt (PInt n) job1).
Proof.
  intros Hn. unfold decode, loads1, encode1. cbn [with_attempt j_attempt].
  rewrite length_replicate_a, Z2Nat.id by done. reflexivity.
Qed.

Definition failed_result : list (string * PyVal) := [("final", PDict [("status", PStr "failed")])].
Definition done_result : list (string * PyVal) := [("final", PDict [("status", PStr "completed")])].

(** An agent that always fails, and one that recovers at its second call. *)
Definition broken_agent (n : nat) : Res (list (string * PyVal)) := raise InfraError "boom".
Definition flaky_agent (n : nat) : Res (list (string * PyVal)) :=
  match n with O => raise InfraError "boom" | _ => Ok done_result end.

Definition world0 : World (gmap string RVal) := mkWorld ∅ 0%Z 0 [] [].
Definition ids (n : nat) : UUID := N.of_nat n.

Lemma ready0 : deliverable str1 loads1 encode1 true job1 "job-1" request1 (abstract world0).
Proof. split; [done|reflexivity|apply decode1|done|done]. Qed.

(** The answer to a confirmation: the graph runs to its end once; after that
    there is nothing to resume. *)
Definition request2 : list (string * PyVal) :=
  [("user_id", PStr "u1"); ("session_id", PStr "s1");
   ("resume", PDict [("confirmed", PBool true); ("selection", PDict [("segment_id", PStr "seg")])])].
Definition job2 : Job := mkJob (PStr "job-2") (PDict request2) (PInt 0) PNone.
Definition paused_agent (n : nat) : Res (list (string * PyVal)) :=
  match n with O => Ok done_result | _ => raise NoPendingInputError "session has no pending input" end.

(** A broker message whose first ack raises. *)
Definition flaky_ack R (op : JobOp R) (w : World StoreView * bool) : Res R * (World StoreView * bool) :=
  match op in JobOp R return Res R * (World StoreView * bool) with
  | MessageAck => if w.2 then (Ok tt, w) else (raise InfraError "channel closed", (w.1, true))
  | op => let '(r, w') := job_env str1 str1 ids paused_agent spec_env _ op w.1 in (r, (w', w.2))
  end.

Definition empty_view : StoreView :=
  mkStoreView (fun _ => None) (fun _ => None) (fun _ _ => None) (fun _ => None) (fun _ => None).

(** Deliver [job] with the attempt count [n]. *)
Definition deliver_flaky (job : Job) (n : Z) (w : World StoreView * bool) : World StoreView * bool :=
  (run flaky_ack (consume (fun _ => Ok (envelope (with_attempt (PInt n) job))) str1 true
                    default_options "") w).2.

(** A finished job can be run again and reported failed: when the ack of a
    completed confirmation raises, the service overwrites the final status with
    retrying and schedules another attempt; that attempt finds nothing to resume,
    so the job ends failed, in the dead queue, though the agent completed it. *)
Theorem completed_job_reported_failed :
  let w1 := deliver_flaky job2 0 (mkWorld empty_view 0%Z 0 [] [], false) in
  let w2 := deliver_flaky job2 1 w1 in
  w_calls w1.1 = 1 /\ paused_agent 0 = Ok done_result /\
  v_status (w_store w1.1) "job-2" = Some STATUS_RETRYING /\
  w_out w1.1 = [ToRetry (with_attempt (PInt 1) job2) (PInt 1)] /\
  w_calls w2.1 = 2 /\ v_status (w_store w2.1) "job-2" = Some STATUS_FAILED /\
  last (w_out w2.1) =
    Some (ToDead (with_error "session has no pending input" (with_attempt (PInt 1) job2))).
Proof. vm_compute. repeat split. Qed.

(** * Witnesses *)

Lemma attempts_bounded_witness :
  wp (consume loads1 str1 true default_options "a") (fun _ tr =>
    Forall (budgeted default_options (with_attempt (PInt 1) job1) 1
      (negb (bool_decide (agent_calls tr = [])))) (outgoing tr)).
Proof. apply attempts_bounded; reflexivity. Defined.

(** An envelope whose attempt count is a string. *)
Definition poison : Job := with_attempt (PStr "1") job1.
Lemma malformed_attempt_witness :
  wp (consume (fun _ => Ok (envelope poison)) str1 true default_options "") (fun r tr =>
    (exists conversation token, Acquired conversation token (Ok true) ∈ lock_events tr) ->
    settlements tr = [] /\ exists e, r = Raise e).
Proof. apply (malformed_attempt_never_settled _ _ _ _ _ poison); reflexivity. Defined.

Lemma call_agent_dispatch_witness :
  call_agent request1 = await (RunnerRun (PStr "u1") (PStr "s1") (PStr "hello")).
Proof.
  apply (call_agent_dispatch request1). split; [by exists "u1"|by exists "s1"|].
  left. split; [by exists "hello"|done].
Defined.

Lemma null_resume_witness :
  validate_request (PDict [("user_id", PStr "u"); ("session_id", PStr "s"); ("message", PStr "m");
    ("resume", PNone)]) = Ok [("user_id", PStr "u"); ("session_id", PStr "s"); ("message", PStr "m");
    ("resume", PNone)] /\
  call_agent [("user_id", PStr "u"); ("session_id", PStr "s"); ("message", PStr "m"); ("resume", PNone)]
    = await (RunnerResume (PStr "u") (PStr "s") PNone).
Proof. apply (null_resume_is_resumed "u" "s" "m"); reflexivity. Defined.

Lemma envelope_roundtrip_witness : decode loads1 "a" = Ok (with_attempt (PInt 1) job1).
Proof. apply (envelope_roundtrip (fun _ => Ok "a")); reflexivity. Defined.

(** Two jobs of one conversation and one idempotency key. *)
Definition script : Prog StoreOp (bool * (option string * bool)) :=
  _ ← await (AcquireLock "u1:s1" "job-1" 1000);
  busy ← await (AcquireLock "u1:s1" "job-2" 1000);
  _ ← await (ClaimKey "k" "job-1");
  owner ← await (ClaimKey "k" "job-2");
  mret (busy, owner).

Lemma script_ok : ops_ok script.
Proof. repeat (split; [done|intros []]); done. Qed.

Lemma job_store_refines_witness :
  (run store_env script (∅ : gmap string RVal)).1 = Ok (false, (Some "job-1", false)).
Proof.
  etrans; [apply (job_store_refines script ∅ empty_view typed_empty)|]; [by repeat split|apply script_ok|].
  reflexivity.
Defined.

Definition locked : gmap string RVal := {[ lock_key "u1:s1" := RStr "job-0" ]}.

Lemma typed_locked : typed locked.
Proof.
  split; intros; cbn; unfold locked; intros [E ?]%lookup_singleton_Some; done.
Qed.

Lemma lock_excludes_witness :
  Forall (fun outcome => outcome = Ok false)
    (omap (acquire_event "u1:s1") (trace store_env script locked)).
Proof.
  apply (lock_excludes script locked "u1:s1" "job-0" typed_locked script_ok); vm_compute; reflexivity.
Defined.

Lemma failing_job_witness :
  v_status (view (w_store (drain str1 str1 ids broken_agent store_env loads1 encode1 true default_options
    5 (with_attempt (PInt 0) job1) world0))) "job-1" = Some STATUS_FAILED.
Proof.
  apply (failing_job_is_dead_lettered str1 str1 ids broken_agent loads1 encode1 true default_options
    eq_refl job1 "job-1" request1 0 world0 5 typed_empty ready0).
  - done.
  - intros i _. by eexists.
  - apply (bool_decide_unpack _). reflexivity.
Defined.

Lemma recovering_job_witness :
  v_status (view (w_store (drain str1 str1 ids flaky_agent store_env loads1 encode1 true default_options
    5 (with_attempt (PInt 0) job1) world0))) "job-1" = Some STATUS_COMPLETED.
Proof.
  apply (recovering_job_finishes str1 str1 ids flaky_agent loads1 encode1 true default_options
    eq_refl job1 "job-1" request1 0 1 world0 5 done_result [] STATUS_COMPLETED typed_empty ready0); try done.
  - intros i Hi. assert (i = 0) as -> by lia. by eexists.
  - lia.
Defined.
