(* ===== verification/PoolFixtures.v ===== *)
(** Interleaved deliveries and requests evaluated: a delivery that outlives its
    lock, a job delivered twice, whose first delivery frees the lock of the
    second, and two requests with one key. *)
From Stdlib Require Import String.
From stdpp Require Import base numbers strings list relations.
From S2P Require Import Prelude Models Uuid PyVal Effects JobService RedisStore RabbitMQ JobSystem JobFixtures.
From S2P Require Import WorkerPool.
Local Open Scope string_scope.
Local Open Scope Z_scope.

(** * Carrying out a script *)

(** [Deliver] a message, [Ask] for a job with a key, let a task [Go] on by one
    operation, or let time [Pass]. *)
Inductive Move := Deliver (body : string) | Ask (key : string) | Go (i : nat) | Pass (ms : Z).

Definition two_jobs (body : string) : Res PyVal :=
  Ok (envelope (if (body =? "job-1")%string then job1 else job2)).
Notation step := (step two_jobs str1 str1 true default_options).

(** What is not the store's to answer succeeds. *)
Definition reply {R} (o : JobOp R) : Res R :=
  match o in JobOp R return Res R with
  | RunnerRun _ _ _ | RunnerResume _ _ _ => Ok done_result
  | BrokerPublish _ | BrokerRetry _ _ | BrokerDeadLetter _ | BrokerCancelConsumer _ => Ok tt
  | MessageAck | MessageNack _ => Ok tt
  | Now => Ok 0
  | Uuid4 => Ok 1%N
  | _ => raise InfraError ""
  end.

Definition go (i : nat) (s : Cluster) : option Cluster :=
  match tasks s !! i with
  | Some (mkTask key (Await o k) h claim) =>
      Some (match served str1 str1 o (current s) with
            | Some (r, v') => performed str1 i key o k h claim r v' s
            | None => performed str1 i key o k h claim (reply o) (current s) s
            end)
  | _ => None
  end.

Definition move (m : Move) (s : Cluster) : option Cluster :=
  match m with
  | Deliver body => Some (add_task None (delivery two_jobs str1 true default_options body) s)
  | Ask key => Some (add_task (Some key) (publication (PDict request1) (Some key)) s)
  | Go i => go i s
  | Pass ms => if 0 <=? ms then Some (tick ms s) else None
  end.

Lemma move_step m s s' : move m s = Some s' -> step s s'.
Proof.
  destruct m as [body|key|i|ms]; cbn [move].
  - intros [= <-]. apply step_deliver.
  - intros [= <-]. apply step_publish.
  - unfold go. destruct (tasks s !! i) as [[key [| |R o k] h claim]|] eqn:E; try done. intros [= <-].
    destruct (served str1 str1 o (current s)) as [[r v']|] eqn:Hs.
    + by apply step_perform; [|constructor].
    + by apply step_perform; [|apply elsewhere].
  - destruct (0 <=? ms) eqn:E; intros [= <-]. apply step_tick. lia.
Qed.

Fixpoint script (moves : list Move) (s : Cluster) : option Cluster :=
  match moves with
  | [] => Some s
  | m :: moves' => s' ← move m s; script moves' s'
  end.
Definition after_script (moves : list Move) (s : Cluster) : Cluster := default s (script moves s).

Lemma script_steps moves s s' : script moves s = Some s' -> rtc step s s'.
Proof.
  revert s. induction moves as [|m moves IH]; intros s; cbn; [by intros [= ->]|].
  destruct (move m s) as [s1|] eqn:Hm; cbn; [|done]. intros H. eapply rtc_l; [by eapply move_step|by apply IH].
Qed.

Lemma after_script_steps moves s : is_Some (script moves s) -> rtc step s (after_script moves s).
Proof. intros [s' H]. unfold after_script. rewrite H. by eapply script_steps. Qed.

Definition in_time (s : Cluster) : bool :=
  forallb (fun t => match t_hold t with Some h => negb (bool_decide (overstayed s h)) | None => true end) (tasks s).
Lemma all_timely s : in_time s = true -> timely s.
Proof.
  unfold in_time. rewrite forallb_forall. intros H i h (t & Hi & Et) Ho.
  specialize (H _ (proj1 (list_elem_of_In _ _) (list_elem_of_lookup_2 _ _ _ Hi))). cbn in H. rewrite Et in H.
  by rewrite (bool_decide_eq_true_2 _ Ho) in H.
Qed.

(** * Two jobs of one conversation *)

Definition quiet_cluster : Cluster := idle 0 empty_view (fun _ => 0).
(** From the delivery of a message to the call of its agent. *)
Definition into_agent (i : nat) : list Move := replicate 6 (Go i).

(** The agent of [job-1] takes longer than the lock lives. *)
Definition too_long : Cluster :=
  after_script (Deliver "job-1" :: into_agent 0 ++ [Pass 300000; Deliver "job-2"] ++ into_agent 1)
    quiet_cluster.

Lemma agents_exclude_witness :
  working str1 too_long 0 = Some "u1:s1"%string /\ working str1 too_long 1 = Some "u1:s1"%string /\
  ((exists l h, (l = 0%nat \/ l = 1%nat) /\ holding too_long l h /\ h_conversation h = "u1:s1"%string /\ overstayed too_long h) \/
   exists s0, rtc step quiet_cluster s0 /\ rtc step s0 too_long /\ twin_deliveries "u1:s1" s0).
Proof.
  split; [vm_compute; reflexivity|]. split; [vm_compute; reflexivity|].
  apply (agents_exclude two_jobs str1 str1 true default_options 0 empty_view (fun _ => 0) too_long 0 1 "u1:s1").
  - apply after_script_steps, (bool_decide_eq_true_1 _). vm_compute. reflexivity.
  - discriminate.
  - vm_compute. reflexivity.
  - vm_compute. reflexivity.
Defined.

(** [job-1] is delivered again while it runs, its lock expires, its second
    delivery goes on, and the first one ends. *)
Definition redelivered : list Move :=
  Deliver "job-1" :: into_agent 0 ++ [Pass 300000; Deliver "job-1"] ++ into_agent 1 ++ replicate 6 (Go 0).
Definition twin_freed : Cluster :=
  after_script (redelivered ++ [Deliver "job-2"] ++ into_agent 2) quiet_cluster.

(** The moment when both deliveries of [job-1] are under way. *)
Definition twins_under_way : Cluster :=
  after_script (Deliver "job-1" :: into_agent 0 ++ [Pass 300000; Deliver "job-1"] ++ into_agent 1) quiet_cluster.

Example redelivered_twins : twin_deliveries "u1:s1" twins_under_way.
Proof. apply twins_spec. vm_compute. reflexivity. Qed.

(** The lock's token is the job id, so two deliveries of one job are the same
    holder: the first one, whose lock has expired, frees the lock of the second
    when it ends, and a delivery of another job enters the agent of the
    conversation beside it, though neither has outlived its lock. *)
Theorem twin_frees_lock :
  rtc step quiet_cluster twin_freed /\
  working str1 twin_freed 1 = Some "u1:s1"%string /\ working str1 twin_freed 2 = Some "u1:s1"%string /\
  timely twin_freed.
Proof.
  split; [apply after_script_steps, (bool_decide_eq_true_1 _); vm_compute; reflexivity|].
  split; [vm_compute; reflexivity|]. split; [vm_compute; reflexivity|].
  apply all_timely. vm_compute. reflexivity.
Qed.

(** * Two requests with one key *)

Definition asked : Cluster :=
  after_script ([Ask "k1"; Ask "k1"] ++ replicate 2 (Go 0) ++ replicate 2 (Go 1) ++ replicate 4 (Go 0)) quiet_cluster.

Definition queuing (s : Cluster) (i : nat) : option string :=
  t ← tasks s !! i;
  match t_code t with Await (BrokerPublish _) _ | Ret (Published _) => t_key t | _ => None end.
Lemma queuing_queues s i key : queuing s i = Some key -> queues s i key.
Proof.
  unfold queuing. destruct (tasks s !! i) as [[key' code h claim]|] eqn:E; [|done]. cbn.
  intros H. exists (mkTask key' code h claim). split; [done|]. cbn.
  destruct code as [[]| |R o k]; try done. by destruct o.
Qed.

(** The first one has queued its job; the second one is told so. *)
Lemma key_queued_once_witness :
  queues asked 0 "k1" /\ ~ queues asked 1 "k1" /\
  (t ← tasks asked !! 1%nat; match t_code t with Ret ending => Some ending | _ => None end)
    = Some (Duplicate (PStr (uuid_str 1))).
Proof.
  assert (queues asked 0 "k1") as H0 by (apply queuing_queues; vm_compute; reflexivity).
  split; [exact H0|]. split; [|vm_compute; reflexivity].
  intros H1.
  assert (0%nat = 1%nat) as E; [|discriminate E].
  apply (key_queued_once two_jobs str1 str1 true default_options 0 empty_view (fun _ => 0) asked 0 1 "k1").
  - apply after_script_steps. apply (bool_decide_eq_true_1 _). vm_compute. reflexivity.
  - discriminate.
  - exact H0.
  - exact H1.
Defined.
