(* ===== verification/ConversationFixtures.v ===== *)
(** Concrete conversations on the whole worker: a message and the answers to
    its question as two jobs, over the database of Fixtures, with the JSON codec
    of JsonFixtures; and a rebooking that its job never reports. *)
From Stdlib Require Import String.
From stdpp Require Import base numbers strings list sets gmap.
From S2P Require Import Prelude Models Database Rules OrmRebooking RebookingInvariants RebookingOutcome Repositories Fixtures.
From S2P Require Import AirlineService PyVal JsonFixtures Effects JobService JobProperties RedisStore RabbitMQ JobSystem JobFixtures.
From S2P Require Import AgentState AgentNodes AgentGraph AgentProperties AgentSafety AgentSystem AgentFixtures.
From S2P Require Import AgentThreads AgentSession AgentHost ConversationSystem.
Local Open Scope string_scope.

(** The model finds the request and ranks nothing. *)
Definition outside2 := outside1 (fun _ => "").
Definition working (n : nat) : Res unit := Ok tt.
Definition perform2 (checkpointer : nat -> Res unit) : Call -> Host -> Res (AgentState * list Pause) * Host :=
  perform (fun _ => 50%Z) (fun _ => today) outside2 orm_reads orm_rebooking checkpointer model_validate1 25 2.
Definition ask2 : Call := CallRun "u1" "s1" "move my flight".
Definition confirm2 (selection : string) : Call := CallResume "u1" "s1" (answer1 selection).
(** The host after the message. *)
Definition host2 : Host :=
  performs (fun _ => 50%Z) (fun _ => today) outside2 orm_reads orm_rebooking working model_validate1 25 2
    [ask2] (new_host mock_db).

(** A question, a refused answer, a second question, a rebooking, and nothing
    left to answer. *)
Example conversation_rebooks :
  let '(r1, h1) := perform2 working ask2 (new_host mock_db) in
  let '(r2, h2) := perform2 working (confirm2 "somewhere else") h1 in
  let '(r3, h3) := perform2 working (confirm2 "AS101 economy") h2 in
  let '(r4, h4) := perform2 working (confirm2 "AS101 economy") h3 in
  (length ∘ snd <$> [r1; r2; r3] ≫= (fun r => if r is Ok out then [out] else [])) = [1; 1; 0]%nat
  /\ is_ok r4 = false
  /\ (length (flight_changes (h_db h1)), length (flight_changes (h_db h2)),
      length (flight_changes (h_db h3)), length (flight_changes (h_db h4))) = (0, 0, 1, 1)%nat.
Proof. vm_compute. repeat split. Qed.

(** * The worker *)

Definition encode2 (job : Job) : string := toy_dumps (envelope job).
Definition message_request : list (string * PyVal) :=
  [("user_id", PStr "u1"); ("session_id", PStr "s1"); ("message", PStr "move my flight")].
Definition resume_request (selection : string) : list (string * PyVal) :=
  [("user_id", PStr "u1"); ("session_id", PStr "s1"); ("resume", answer1 selection)].
Definition message_job : Job := mkJob (PStr "job-1") (PDict message_request) (PInt 0) PNone.
Definition resume_job (selection : string) : Job :=
  mkJob (PStr "job-2") (PDict (resume_request selection)) (PInt 0) PNone.

Definition env2 (checkpointer : nat -> Res unit) :=
  worker_env (fun _ => 50%Z) (fun _ => today) outside2 orm_reads orm_rebooking checkpointer
    model_validate1 25 2 (fun _ => false) (fun _ => PNone) (fun _ => []) (fun _ => [])
    str1 toy_dumps ids spec_env.
Definition deliver2 (checkpointer : nat -> Res unit) (job : Job) (w : World StoreView * Host) :
    World StoreView * Host :=
  (run (env2 checkpointer) (consume toy_loads str1 true default_options (encode2 job)) w).2.
Definition idle : World StoreView * Host := (mkWorld empty_view 0%Z 0 [] [], new_host mock_db).

Definition job_status (w : World StoreView * Host) (id : string) : option string :=
  v_status (w_store w.1) id.

(** The two jobs of a conversation. *)
Example conversation_completes :
  let w1 := deliver2 working message_job idle in
  let w2 := deliver2 working (resume_job "AS101 economy") w1 in
  job_status w1 "job-1" = Some STATUS_WAITING_FOR_CONFIRMATION
  /\ job_status w2 "job-2" = Some STATUS_COMPLETED
  /\ length (flight_changes (h_db w2.2)) = 1%nat
  /\ w_settled w2.1 = [Acked; Acked].
Proof. vm_compute. repeat split. Qed.

(** A checkpointer that loses its connection once. *)
Definition fails_at (k n : nat) : Res unit :=
  if (n =? k)%nat then raise InfraError "connection lost" else Ok tt.

(** A rebooking can be committed and its job reported failed: the checkpoint
    after the execution cannot be saved, so the run raises and the job is
    retried; but the thread has moved past its question, and the second attempt
    finds nothing to resume and is dead-lettered.  A failure of any port after
    the answer was taken ends the same way: the retries of a resume job never
    resume anything. *)
Theorem rebooked_job_reported_failed :
  let w1 := deliver2 (fails_at 11) message_job idle in
  let w2 := deliver2 (fails_at 11) (resume_job "AS101 economy") w1 in
  let w3 := deliver2 (fails_at 11) (with_attempt (PInt 1) (resume_job "AS101 economy")) w2 in
  length (flight_changes (h_db w2.2)) = 1%nat /\
  job_status w2 "job-2" = Some STATUS_RETRYING /\
  job_status w3 "job-2" = Some STATUS_FAILED /\ h_db w3.2 = h_db w2.2 /\
  last (w_out w3.1) = Some (ToDead (with_error "session has no pending input"
    (with_attempt (PInt 1) (resume_job "AS101 economy")))).
Proof. vm_compute. repeat split. Qed.

(** * Witnesses *)

Lemma seven : (7 <= 25)%nat.
Proof. lia. Qed.

Lemma host2_ok : host_ok model_validate1 2 host2.
Proof.
  apply (performs_ok (fun _ => 50%Z) (fun _ => today) outside2 orm_reads orm_rebooking working
    model_validate1 25 2 orm_rebooking_laws model_validate1_raises seven [ask2]).
  apply new_host_ok, mock_db_inv.
Qed.

Definition offer2 : EvaluationResult := mkEvaluation request1 options1 [] [] "" true.
Definition pause2 : Pause := mkPause question offer2.

Lemma resuming_continues_witness :
  wp (steps model_validate1 7 "u1:s1" [N_ask_confirmation] (put_evaluation offer2)
        (Some (answer1 "AS101 economy")))
    (Simulates model_validate1 "u1:s1" 7 [N_ask_confirmation] (put_evaluation offer2)
       [Ev (Interrupt question offer2) (Ok (answer1 "AS101 economy"))]).
Proof. apply (resuming_continues model_validate1 "u1:s1" 7 _ pause2); [split; reflexivity|lia]. Defined.

Lemma calls_rebook_witness :
  let '(r, h) := perform2 working (confirm2 "AS101 economy") host2 in
  length (flight_changes (h_db h)) = 1%nat /\
  CallSpec working model_validate1 2 (confirm2 "AS101 economy") host2 h r.
Proof.
  rewrite (surjective_pairing (perform2 _ _ _)). split; [vm_compute; reflexivity|].
  exact (calls_rebook (fun _ => 50%Z) (fun _ => today) outside2 orm_reads orm_rebooking working
    model_validate1 25 2 orm_rebooking_laws model_validate1_raises seven mock_db [ask2]
    (confirm2 "AS101 economy") mock_db_inv).
Defined.

Definition busy2 : World StoreView * Host := deliver2 working message_job idle.

Lemma delivery_rebooks_witness :
  let h := busy2.2 in
  let h' := (run (env2 working) (consume toy_loads str1 true default_options
    (encode2 (resume_job "AS101 economy"))) (busy2.1, h)).2.2 in
  length (flight_changes (h_db h')) = 1%nat /\ h_db h' <> h_db h /\
  host_ok model_validate1 2 h'.
Proof.
  assert (busy2.2 = host2) as Hb by (vm_compute; reflexivity).
  cbv zeta. split; [vm_compute; reflexivity|]. split; [intros H; vm_compute in H; discriminate H|].
  rewrite Hb. refine (proj1 (delivery_rebooks (fun _ => 50%Z) (fun _ => today) outside2 orm_reads
    orm_rebooking working model_validate1 25 2 (fun _ => false) (fun _ => PNone) (fun _ => []) (fun _ => [])
    str1 toy_dumps ids toy_loads true default_options spec_env orm_rebooking_laws model_validate1_raises
    seven (encode2 (resume_job "AS101 economy")) busy2.1 host2 host2_ok)).
Defined.

Lemma resume_deliverable :
  deliverable str1 toy_loads encode2 true (resume_job "AS101 economy") "job-2"
    (resume_request "AS101 economy") busy2.1.
Proof.
  split; [reflexivity|reflexivity| | |vm_compute; reflexivity].
  - intros n Hn. unfold decode, encode2. rewrite toy_roundtrip. reflexivity.
  - vm_compute. done.
Qed.

Lemma confirmation_settles_witness :
  let '(r, (w', h')) := run (env2 working) (consume toy_loads str1 true default_options
    (encode2 (with_attempt (PInt 0) (resume_job "AS101 economy")))) (busy2.1, host2) in
  r = Ok tt /\ w_settled w' = (w_settled busy2.1 ++ [Acked])%list /\
  v_lock (w_store w') "u1:s1" = None /\
  exists status, v_status (w_store w') "job-2" = Some status /\
    Reports working model_validate1 host2 h' "u1:s1" (answer1 "AS101 economy") status.
Proof.
  refine (confirmation_settles (fun _ => 50%Z) (fun _ => today) outside2 orm_reads
    orm_rebooking working model_validate1 25 2 (fun _ => false) (fun _ => PNone) (fun _ => []) (fun _ => [])
    str1 toy_dumps ids toy_loads true default_options orm_rebooking_laws model_validate1_raises
    seven (fun _ => eq_refl) encode2 (resume_job "AS101 economy") "job-2" 0 (resume_request "AS101 economy")
    (answer1 "AS101 economy") busy2.1 host2 host2_ok _ resume_deliverable eq_refl); done.
Defined.
