(* ===== verification/Witnesses.v ===== *)
(** Witnesses of the rebooking theorems on the fixture database: each applies
    its theorem where the hypotheses hold. *)
From stdpp Require Import base numbers strings list sets relations sorting.
From S2P Require Import Prelude Models Rules Database Uuid.
From S2P Require Import OrmRebooking RebookingInvariants RebookingOutcome Fixtures Locking.
Local Open Scope Z_scope.

Definition history : list (Ambient * RebookingSelectionSchema) :=
  [(today, pick_as101); (today, pick_as101)].

Lemma execute_refines_witness :
  execute today (validate_rebooking_selection 50) pick_as101 mock_db
  = execute_spec today pick_as101 mock_db.
Proof. apply (execute_refines today pick_as101 mock_db mock_schema_ok). Defined.

Lemma history_keeps_invariant_witness : db_inv (rebook_all history mock_db).
Proof. apply (history_keeps_invariant history mock_db mock_db_inv). Defined.

Lemma history_conserves_seats_witness :
  seats_of (rebook_all history mock_db) as101 eco + occupancy (rebook_all history mock_db) as101 eco = 100.
Proof.
  rewrite (history_conserves_seats history mock_db as101 eco mock_db_inv).
  - vm_compute. reflexivity.
  - eexists. vm_compute. reflexivity.
Defined.

Lemma history_reconciles_witness :
  credit_balance (rebook_all history mock_db) + credit_spent (rebook_all history mock_db) =
  credit_balance mock_db + credit_spent mock_db.
Proof. apply (history_reconciles history mock_db mock_db_inv). Defined.

Definition rebooked_segment : ReservationSegment :=
  mkReservationSegment seg_abc123 abc123 as101 eco S_CHANGED 33000 "USD" 0 51.

Definition mock_after : DB := (execute today (validate_rebooking_selection 50) pick_as101 mock_db).2.

Lemma executed_verifies_witness :
  verify mock_after pick_as101 = Ok (mkRebookingResult None rebooked_segment "ABC123").
Proof.
  apply (executed_verifies today pick_as101 mock_db
    (mkRebookingResult (Some (change_of today pick_as101
       (mkValidation pick_as101 abc123 alice as100 eco as101 eco 33000 3000 2500 5500 5500 "USD" 1)))
       rebooked_segment "ABC123") mock_after mock_schema_ok).
  vm_compute. reflexivity.
Defined.

Lemma executed_once_witness :
  execute today (validate_rebooking_selection 50) pick_as101 mock_after =
    (raise RebookingRuleError "rebooking was already applied", mock_after).
Proof.
  eapply (executed_once today today pick_as101 mock_db _ mock_after mock_schema_ok).
  vm_compute. reflexivity.
Defined.

Definition mock_snapshot : RebookingSnapshotSchema :=
  mkSnapshot seg_abc123 abc123 alice as100 eco S_CONFIRMED R_CONFIRMED F_SCHEDULED "JFK" "LAX" 100
    30000 "USD" true as101 eco F_SCHEDULED "JFK" "LAX" 101 33000 "USD" 100 true 2500 1.

Lemma mock_request_ok : request_ok (pick_as101, mock_snapshot).
Proof. repeat split; vm_compute; reflexivity. Defined.

Lemma execute_locks_witness : exists tx,
  execute_body today (validate_rebooking_selection 50) pick_as101 (mkTx mock_db []) =
    Ok (mkRebookingResult (Some (change_of today pick_as101
       (mkValidation pick_as101 abc123 alice as100 eco as101 eco 33000 3000 2500 5500 5500 "USD" 1)))
       rebooked_segment "ABC123", tx) /\
  tx_locks tx = lock_sequence pick_as101 mock_snapshot.
Proof.
  eexists. split; [vm_compute; reflexivity|].
  eapply (execute_locks_in_order today pick_as101 mock_db _ _ mock_snapshot _ mock_schema_ok);
    [vm_compute; reflexivity..|apply mock_request_ok].
Defined.

(** Two customers swapping fares: neither can block the other for ever. *)
Lemma deadlock_free_witness :
  exists ts', rtc progress (rebookings [(pick_as101, mock_snapshot); (pick_as101, mock_snapshot)]) ts' /\
    Forall (fun t => finished t = true) ts'.
Proof.
  apply (rebookings_deadlock_free [(pick_as101, mock_snapshot); (pick_as101, mock_snapshot)]);
    [|apply rtc_refl].
  repeat (constructor; [apply mock_request_ok|]). constructor.
Defined.
